(* ===== verification/_CoqProject ===== *)
-Q . S2P
Prelude.v
Float64.v
GoStrings.v
Host.v
Mesos.v
Utils.v
Structs.v
Ser.v
Offer.v
Node.v
Explorer.v
Cluster.v
Decoding.v
Metadata.v
Cepm.v
State.v
Codec.v
Persistence.v
Scheduler.v
Server.v
System.v
Framework.v
ProcessManager.v
Executor.v
Supervision.v
Lifecycle.v
