(* ===== verification/Prelude.v ===== *)
(** * A verification library for the Riak Mesos framework

    The framework runs clusters of the Riak database on Mesos.  One process, the
    scheduler, keeps the clusters and their nodes; Mesos sends it offers and
    status updates, operators send it HTTP requests, every five seconds it
    reconciles, and after every change it writes its whole state to ZooKeeper,
    where the next process finds it.  On the slaves one process per node, the
    executor, gets the task that the scheduler launched, starts Riak under a
    process manager, registers it in ZooKeeper, and reports to Mesos how it
    fares.  In both runs a port mapper by which the Riak nodes find each other.
    This library is a shallow embedding of the Go code under [src/], one file
    per package or source file:

    - [Prelude] (this file): computations that may panic, exit or block, their
      triples, and the generic lemmas and automation;
    - [Float64], [GoStrings], [Mesos]: the parts of Go and of mesos-go that the
      code uses.  [float64] is [SpecFloat] with 53 bits and round to even, so
      the resource arithmetic rounds as the code's does;
    - [Host]: the parts of [net], [os] and [io/ioutil] that more than one process
      uses; [Ser]: an encoding for concrete runs;
    - [Utils] ([common/utils.go]) and [Offer] ([common/offer.go]): port ranges,
      reservations, and the helper that hands out the resources of one offer;
    - [Structs] ([common/structs.go]): the data the parts exchange;
    - [Node] ([scheduler/node.go], [process_state], the executor files): the
      state of a node, its transitions, and what an offer does to it;
    - [Explorer] ([riak_explorer/client.go]): the client of Riak Explorer;
    - [Cluster] ([scheduler/cluster.go]): the loops over the nodes of a cluster;
    - [Decoding]: what [encoding/json] keeps of a cluster, and which have JSON at all;
    - [Metadata] ([metadata_manager]): nodes in ZooKeeper, with retries;
    - [Cepm] ([cepmd]): the Erlang port mapper, over [Metadata];
    - [State] ([scheduler/state.go]): the persistent state; [Codec] encodes it
      for concrete runs, [Persistence] has what survives a restart;
    - [Scheduler] ([scheduler/scheduler.go], [scheduler/reconcilation.go]): the
      callbacks of the driver, the ticks and the start;
    - [Server] ([scheduler/server.go]): the HTTP handlers and their
      specification [request_effect];
    - [System]: the scheduler as a step relation between processes that boot,
      are up, hang or are down, with crashes and other schedulers, and the
      theorems on its reachable states;
    - [Framework] ([framework/framework.go]): the command line that starts it;
    - [ProcessManager] ([process_manager]): the goroutine that starts and watches
      a child process, and the loop that collects the dead ones;
    - [Executor] ([executor]): the callbacks of the executor and the life of its
      node, as a step relation over its callbacks, signals and goroutines, proved
      against the class [ProcMgr] of what it uses of the process manager;
    - [Supervision]: the operations of [ProcessManager] as an instance of that
      class, with its laws, and what they give together;
    - [Lifecycle]: a task from its launch by the scheduler through its executor
      and back by its status updates.

    ** How the state is modelled

    A computation [M E A] is a function of a state [E] that returns, panics,
    exits or blocks, and keeps the state in every case.  The state of a method
    is the receiver it changes, next to the environment: a callback of the
    scheduler runs on [SchedulerCore * (Zk * W)], with the state of ZooKeeper
    and of the rest of the world; [zoom_l] and [io] run the computations of the
    parts inside of it.  A pointer to a node or a cluster is the key of the map
    that owns it, so an assignment through the pointer is an insertion
    ([put_node], [put_cluster]).  Every callback, tick and request of the code
    runs under one lock, which is why one event is one step of [System.step]
    ([NewSchedulerCore] and [Run], which take no lock, are two steps, with the
    requests in between that the server takes before [Run]; an event that
    does not end leaves the process [Hung], where only its end follows);
    the goroutines that accept offers run outside the lock and only talk to the
    driver.  The executor has a lock too, but two of its goroutines work without
    it, and it can block while it holds it: there the lock is part of the state
    ([Executor.with_lock]), and a step is a callback, a signal, or the part of
    a goroutine up to where it waits next.  The loops of [ProcessManager] record
    what they do to others as a list of [Action]s, and the executor what it
    tells Mesos as a list of [ExecAction]s; the theorems read these records.
    An index out of a slice panics ([index]) and a [defer] runs also when the
    rest panics ([deferred]).

    What is not under [src/] is a class: the ZooKeeper client ([ZkApi]), the
    Mesos drivers ([SchedulerDriver], [ExecutorDriver]) and their helpers
    ([MesosUtil]), HTTP ([HttpClient]), sockets and files ([GoNet], [GoFiles],
    [NetConn]), templates ([GoTemplate]), processes and what a [select] receives
    ([PmOs], [ProcMgr]), generated assets ([Artifacts], [CepmAssets]), [encoding/json] and [compress/zlib] ([Json], [Zlib]), random
    numbers, the clock, the process environment, uuids, and the order in which
    Go visits a map ([GoMap], which may differ from visit to visit).  The
    classes named [...Laws] state what is relied on of them.  Each class has an
    instance, in the modules [Ref...] and [Sim...], with which the theorems are
    applied to concrete inputs.

    - ZooKeeper ([ZkLaws], [ZkLeafLaws]): every call may fail, with or without
      effect, unless it reports success.  The laws are about one path, whose node
      is persistent (the state of the scheduler) or ephemeral (what an executor or
      the port mapper registers).  An ephemeral node may also be gone after
      every call, as its session may have ended ([still true]); only a call that
      reports success says that it was there.
    - JSON ([StateCodecLaws], [json_roundtrip]): what is decoded is [decoded], or
      [json_text], of what was encoded: every byte that is not UTF-8 is replaced
      ([GoStrings.to_utf8]), of two keys that become the same the later wins, and
      unexported fields are not kept.  A number that is not finite has no JSON,
      and a task state outside of the enumeration has one that is not read.
    - HTTP ([HttpClientLaws answers]): a request ends, or it blocks for ever where
      [answers] is false, since the client has no timeout.  The theorems hold for
      both, and say that nothing else blocks.
    - Mesos: [offer_ok] (the ranges of an offer are of valid ports, and no port
      is offered twice) and, where [Legible] is true, that the task states
      are those of the enumeration.  Both are assumed of the events of
      [System.step], and [conf_ok] of the configuration: its node sizes are finite
      numbers, and the name of the framework is UTF-8, as every name that [main]
      accepts is.

    ** Triples

    [wp total m Q e]: from [e], [m] returns and [Q] holds; [wp partial] allows
    it not to return.  [wpe m Q R e] says in [R] what holds when [m] panics,
    exits or blocks; in the theorems on the scheduler [R] excludes blocking, but
    for a request to Riak Explorer that is not answered.

    ** What is shown

    - Ports and resources: ranges encode sets of ports exactly and minimally;
      an offer is never overdrawn where the code tests for it, and a reservation
      that is made fits the offer that brings it back.
    - Nodes and clusters: each task id names one node for ever within a cluster;
      an offer launches each node at most once, and in the right states; the
      outcome of status updates, restarts and removals on every branch.
    - Persistence: a write to ZooKeeper that returns is durable, one that fails
      leaves the old or the new state; what is read back is what JSON keeps of
      what was written, which is all but the in-memory marks for UTF-8 text.
    - System: in every reachable state the clusters are well-formed, two live
      nodes never share a task id, nothing is given back to Mesos while a node
      waits for reconciliation, and a crash between two events loses nothing;
      HTTP requests meet their specification; the start publishes the state
      that ZooKeeper has, under an accepted name.
    - Port mapper: nothing but the port of a registration is stored under its
      name, and nothing once its client has ended the connection; another server
      reads the port back; what each
      line is answered, and which lines panic.
    - Processes: whoever watches a child hears of its end once, a request to
      tear it down is answered within bounded rounds, after everyone who listened
      was told, and the exit of a subscribed process is delivered to its channel.
      An executor that was told to finish goes on when the process of Riak has
      ended.
    - Executor: Mesos hears that Riak runs only once its data is in ZooKeeper,
      and of the life of a task in order; the data is gone when it ended; in
      every reachable state all that was told is about one task.
    - Both together: what the scheduler has of a launched node is what its
      executor did, and a node that is killed while it runs can be removed once
      its executor has finished, and not before.
    - Defects: theorems show where the code does not do what it means to (a
      task id that is used again, a request that panics and leaves memory
      ahead of ZooKeeper, a request without an answer that hangs the scheduler, a
      standby that takes over with an old state, a configuration that a restart
      changes, lost errors, lost kill requests, an executor that hangs when a
      task is killed, a health check that passes at once).

    ** Bounds and fuel

    Retries are bounded by the code: ten for ZooKeeper ([left] is what remains),
    six attempts for joins (their counter is a [Z]: the calls start at 0).  [DeleteChildren] recurses over the tree of ZooKeeper
    and takes fuel for its depth; eleven is enough for a node without children.
    Loops over machine integers count in [Z] with [wrap64]; slices are allocated
    up to [max_int64_slice].  The loops of a child's process manager are endless
    in the code; here they take the number of rounds, and the theorems hold for
    every number.
    [Executor.PutUvarint] takes ten rounds, enough for 64 bits.  In [Supervision]
    the goroutine of a child takes [rounds] of them where the executor waits for it.

    ** Not modelled

    Logging, printing and sleeps; matching a request to the route table (the
    type [Server.Request]), the static files and the profiler, which are
    libraries; parsing the flags; the callbacks that only log; the loop that
    accepts the connections of the port mapper, each of which is a computation
    of its own ([Cepm.handleConn]); the watch variant of [getChildren] and
    [GetLock], which nothing uses; the generated archives ([Asset],
    [RestoreAssets]) and the tests.  Goroutines interleave between the steps
    described above and not inside them. *)

From stdpp Require Export base tactics option list list_numbers gmap strings pretty sorting.
From stdpp Require Import options.
From Stdlib Require Export ZArith Lia.

#[global] Open Scope Z_scope.

(** ** Results and the effect monad *)

(** How a Go call can end: it returns, it panics (a runtime panic or
    [log.Panic]), the process exits ([log.Fatal]), or it blocks for ever. *)
Inductive res (A : Type) : Type :=
  | Ret (a : A)
  | Panic (msg : string)
  | Fatal (msg : string)
  | Block (msg : string).
Arguments Ret {A} a.
Arguments Panic {A} msg.
Arguments Fatal {A} msg.
Arguments Block {A} msg.

(** A computation over a state [E]; the state survives an abnormal end. *)
Definition M (E A : Type) : Type := E -> res A * E.

#[export] Instance M_ret {E} : MRet (M E) := fun A a e => (Ret a, e).
#[export] Instance M_bind {E} : MBind (M E) := fun A B f m e =>
  match m e with
  | (Ret a, e') => f a e'
  | (Panic s, e') => (Panic s, e')
  | (Fatal s, e') => (Fatal s, e')
  | (Block s, e') => (Block s, e')
  end.

Definition mpanic {E A} (msg : string) : M E A := fun e => (Panic msg, e).
Definition mfatal {E A} (msg : string) : M E A := fun e => (Fatal msg, e).
Definition mblock {E A} (msg : string) : M E A := fun e => (Block msg, e).
Definition mget {E} : M E E := fun e => (Ret e, e).
Definition mput {E} (e' : E) : M E unit := fun _ => (Ret tt, e').
Definition mmodify {E} (f : E -> E) : M E unit := fun e => (Ret tt, f e).
Definition mwhen {E} (b : bool) (m : M E unit) : M E unit :=
  if b then m else mret tt.

(** Dereference of a pointer that may be nil. *)
Definition deref {E A} (p : option A) : M E A :=
  match p with
  | Some a => mret a
  | None => mpanic "invalid memory address or nil pointer dereference"
  end.

(** Indexing a slice, which panics out of its range. *)
Definition index {E A} (l : list A) (i : nat) : M E A :=
  match l !! i with
  | Some a => mret a
  | None => mpanic "index out of range"
  end.

(** A goroutine: nothing recovers its panic, which ends the process. *)
Definition goroutine {E A} (m : M E A) : M E A := fun e =>
  match m e with
  | (Panic msg, e') => (Fatal msg, e')
  | other => other
  end.

(** [defer d] before the rest [m] of a function: [d] runs when [m] returns and
    when it panics; [log.Fatal] runs no deferred call. *)
Definition deferred {E A} (d : M E unit) (m : M E A) : M E A := fun e =>
  match m e with
  | (Ret a, e') => (d ≫= fun _ => mret a) e'
  | (Panic x, e') => (d ≫= fun _ => mpanic x) e'
  | other => other
  end.

(** A [for ... range] loop that threads the loop's variables. *)
Fixpoint mfoldl {E A B} (f : B -> A -> M E B) (b : B) (l : list A) : M E B :=
  match l with
  | [] => mret b
  | x :: l' => b' ← f b x; mfoldl f b' l'
  end.

(** The same with [break]: the body says whether the loop goes on. *)
Fixpoint mfoldl_brk {E A B} (f : B -> A -> M E (B * bool)) (b : B) (l : list A) : M E B :=
  match l with
  | [] => mret b
  | x :: l' =>
      r ← f b x;
      if (r.2 : bool) then mfoldl_brk f r.1 l' else mret r.1
  end.

(** A computation over [E] inside a larger state, and one over a part [T] of
    the state [S]. *)
Definition lift {S E A} (m : M E A) : M (S * E) A := fun w =>
  let '(r, e') := m w.2 in (r, (w.1, e')).
Definition zoom {S T E A} (get : S -> T) (set : T -> S -> S) (m : M (T * E) A) : M (S * E) A := fun w =>
  let '(r, (t', e')) := m (get w.1, w.2) in (r, (set t' w.1, e')).

(** The same where [T] comes with only the first part [Z] of the environment. *)
Definition zoom_l {S T Z W A} (get : S -> T) (set : T -> S -> S) (m : M (T * Z) A) : M (S * (Z * W)) A :=
  fun w => let '(r, (t', z')) := m (get w.1, w.2.1) in (r, (set t' w.1, (z', w.2.2))).
(** A computation over the second part of the environment. *)
Definition io {S Z W A} (m : M W A) : M (S * (Z * W)) A := lift (lift m).

(** A computation run on a state of its own, and one over the first part of
    the environment. *)
Definition run_in {S E A} (s : S) (m : M (S * E) A) : M E (A * S) := fun e =>
  match m (s, e) with
  | (Ret a, (s', e')) => (Ret (a, s'), e')
  | (Panic x, (_, e')) => (Panic x, e')
  | (Fatal x, (_, e')) => (Fatal x, e')
  | (Block x, (_, e')) => (Block x, e')
  end.
Definition on_fst {Z W A} (m : M Z A) : M (Z * W) A := fun e =>
  let '(r, z') := m e.1 in (r, (z', e.2)).

(** Access to the program's own part of the state. *)
Definition get_st {S E} : M (S * E) S := fun w => (Ret w.1, w).
Definition put_st {S E} (s : S) : M (S * E) unit := fun w => (Ret tt, (s, w.2)).
Definition upd_st {S E} (f : S -> S) : M (S * E) unit := fun w => (Ret tt, (f w.1, w.2)).

(** The monad laws, pointwise. *)
Section monad_laws.
Context {E : Type}.

Lemma mret_bind {A B} (a : A) (f : A -> M E B) e : (mret a ≫= f) e = f a e.
Proof. done. Qed.

Lemma mbind_assoc {A B C} (m : M E A) (f : A -> M E B) (g : B -> M E C) e :
  ((m ≫= f) ≫= g) e = (m ≫= (fun a => f a ≫= g)) e.
Proof. unfold mbind, M_bind. by destruct (m e) as [[] ?]. Qed.

Lemma mbind_ext {A B} (m : M E A) (f g : A -> M E B) e :
  (forall a e, f a e = g a e) -> (m ≫= f) e = (m ≫= g) e.
Proof. intros Hfg. unfold mbind, M_bind. by destruct (m e) as [[] ?]. Qed.

(** Loops over the same elements. *)
Lemma mfoldl_ext {A B} (f g : B -> A -> M E B) b l e :
  (forall x b e, x ∈ l -> f b x e = g b x e) -> mfoldl f b l e = mfoldl g b l e.
Proof.
  revert b e. induction l as [|x l IH]; intros b e Hfg; [done|]. cbn [mfoldl].
  unfold mbind, M_bind. rewrite Hfg by (by left). destruct (g b x e) as [[b'| | |] e']; [|done..].
  apply IH. intros ????. apply Hfg. by right.
Qed.

Lemma mfoldl_fmap {A A' B} (f : B -> A -> M E B) (h : A' -> A) b l e :
  mfoldl f b (h <$> l) e = mfoldl (fun b x => f b (h x)) b l e.
Proof.
  revert b e. induction l as [|x l IH]; intros b e; [done|]. cbn [mfoldl fmap list_fmap].
  unfold mbind, M_bind. destruct (f b (h x) e) as [[b'| | |] e']; [apply IH|done..].
Qed.
End monad_laws.

(** ** Weakest preconditions *)

(** [total] demands a normal return; [partial] only constrains one. *)
Inductive mode := partial | total.

Definition wp {E A} (s : mode) (m : M E A) (Q : A -> E -> Prop) (e : E) : Prop :=
  match m e with
  | (Ret a, e') => Q a e'
  | _ => s = partial
  end.

Section wp.
Context {E : Type}.
Implicit Types (s : mode) (e : E).

Lemma wp_ret {A} s (a : A) Q e : Q a e -> wp s (mret a) Q e.
Proof. done. Qed.

Lemma wp_bind {A B} s (m : M E A) (f : A -> M E B) Q e :
  wp s m (fun a e' => wp s (f a) Q e') e -> wp s (m ≫= f) Q e.
Proof. unfold wp, mbind, M_bind. by destruct (m e) as [[] ?]. Qed.

Lemma wp_mono {A} s (m : M E A) (P Q : A -> E -> Prop) e :
  (forall a e', P a e' -> Q a e') -> wp s m P e -> wp s m Q e.
Proof. unfold wp. destruct (m e) as [[] ?]; auto. Qed.

Lemma wp_mode {A} s (m : M E A) Q e : wp total m Q e -> wp s m Q e.
Proof. unfold wp. by destruct (m e) as [[] ?]. Qed.

Lemma wp_and {A} s (m : M E A) P Q e :
  wp s m P e -> wp s m Q e -> wp s m (fun a e' => P a e' /\ Q a e') e.
Proof. unfold wp. by destruct (m e) as [[] ?]. Qed.

Lemma wp_total_inv {A} (m : M E A) Q e :
  wp total m Q e -> exists a e', m e = (Ret a, e') /\ Q a e'.
Proof. unfold wp. destruct (m e) as [[] ?]; naive_solver. Qed.

Lemma wp_partial_inv {A} (m : M E A) Q e a e' :
  wp partial m Q e -> m e = (Ret a, e') -> Q a e'.
Proof. unfold wp. by intros H Hm; rewrite Hm in H. Qed.

Lemma wp_of_eq {A} s (m : M E A) Q e a e' :
  m e = (Ret a, e') -> Q a e' -> wp s m Q e.
Proof. unfold wp. by intros ->. Qed.

Lemma wp_deref {A} (p : option A) Q e :
  (forall a, p = Some a -> Q a e) -> wp partial (deref p) Q e.
Proof. destruct p; simpl; [intros H; by apply H | done]. Qed.

Lemma wp_deref_some {A} s (p : option A) (Q : A -> E -> Prop) e :
  is_Some p -> (forall a, p = Some a -> Q a e) -> wp s (deref p) Q e.
Proof. intros [a ->] HQ. by apply HQ. Qed.

Lemma wp_when s (b : bool) (m : M E unit) Q e :
  (b = true -> wp s m Q e) -> (b = false -> Q tt e) -> wp s (mwhen b m) Q e.
Proof. destruct b; simpl; intros H1 H2; [by apply H1 | by apply wp_ret, H2]. Qed.

(** Loop rules: the invariant speaks of the elements already visited. *)
Lemma wp_mfoldl {A B} s (f : B -> A -> M E B) (I : list A -> B -> E -> Prop) l b e :
  (forall done x rest b' e', l = done ++ x :: rest -> I done b' e' ->
     wp s (f b' x) (I (done ++ [x])) e') ->
  I [] b e -> wp s (mfoldl f b l) (I l) e.
Proof.
  intros Hstep. change l with ([] ++ l) in Hstep at 1 |- * at 2.
  assert (forall done b e, I done b e -> (forall done' x rest b' e',
    done ++ l = done' ++ x :: rest -> I done' b' e' -> wp s (f b' x) (I (done' ++ [x])) e') ->
    wp s (mfoldl f b l) (I (done ++ l)) e) as Hgen.
  { clear b e Hstep. induction l as [|x l IH]; intros done b e HI Hstep; simpl.
    - by rewrite app_nil_r.
    - apply wp_bind. eapply wp_mono; [|by eapply Hstep].
      intros b' e' HI'. simpl. rewrite (cons_middle x done l), app_assoc.
      apply IH; [done|]. intros done' x' rest b'' e'' Heq.
      apply Hstep with rest. by rewrite <- Heq, <- app_assoc. }
  intros HI. by apply Hgen.
Qed.

Lemma wp_mfoldl_simple {A B} s (f : B -> A -> M E B) (I : B -> E -> Prop) l b e :
  (forall x b' e', x ∈ l -> I b' e' -> wp s (f b' x) I e') ->
  I b e -> wp s (mfoldl f b l) I e.
Proof.
  intros Hstep HI. apply (wp_mfoldl s f (fun _ => I)); [|done].
  intros done x rest b' e' ->. apply Hstep. set_solver.
Qed.

Lemma wp_mfoldl_brk {A B} s (f : B -> A -> M E (B * bool)) (I Q : B -> E -> Prop) l b e :
  (forall x b' e', x ∈ l -> I b' e' ->
     wp s (f b' x) (fun r e'' => if (r.2 : bool) then I r.1 e'' else Q r.1 e'') e') ->
  (forall b' e', I b' e' -> Q b' e') ->
  I b e -> wp s (mfoldl_brk f b l) Q e.
Proof.
  intros Hstep Hend. revert b e. induction l as [|x l IH]; intros b e HI; simpl.
  - by apply Hend.
  - apply wp_bind. eapply wp_mono; [|apply Hstep; [set_solver|done]].
    intros [b' go] e' Hr; simpl in *. destruct go; [|done].
    apply IH; [|done]. intros y ????. apply Hstep; [set_solver|done].
Qed.
End wp.

(** ** Weakest preconditions with an exceptional postcondition *)

(** How a computation that does not return ends. *)
Inductive ending := panicked | exited | blocked.

(** [R] is what holds when the computation does not return. *)
Definition wpe {E A} (m : M E A) (Q : A -> E -> Prop) (R : ending -> E -> Prop) (e : E) : Prop :=
  match m e with
  | (Ret a, e') => Q a e'
  | (Panic _, e') => R panicked e'
  | (Fatal _, e') => R exited e'
  | (Block _, e') => R blocked e'
  end.

Section wpe.
Context {E : Type}.
Implicit Types (R : ending -> E -> Prop).

Lemma wpe_ret {A} (a : A) (Q : A -> E -> Prop) R e : Q a e -> wpe (mret a) Q R e.
Proof. done. Qed.

Lemma wpe_panic {A} msg (Q : A -> E -> Prop) R e : R panicked e -> wpe (mpanic msg) Q R e.
Proof. done. Qed.

Lemma wpe_bind {A B} (m : M E A) (f : A -> M E B) Q R e :
  wpe m (fun a e' => wpe (f a) Q R e') R e -> wpe (m ≫= f) Q R e.
Proof. unfold wpe, mbind, M_bind. by destruct (m e) as [[] ?]. Qed.

Lemma wpe_mono {A} (m : M E A) (P Q : A -> E -> Prop) R R' e :
  (forall a e', P a e' -> Q a e') -> (forall x e', R x e' -> R' x e') ->
  wpe m P R e -> wpe m Q R' e.
Proof. unfold wpe. destruct (m e) as [[] ?]; auto. Qed.

Lemma wpe_mono_post {A} (m : M E A) (P Q : A -> E -> Prop) R e :
  (forall a e', P a e' -> Q a e') -> wpe m P R e -> wpe m Q R e.
Proof. intros H. by apply wpe_mono. Qed.

(** What is returned is what the computation returns. *)
Lemma wpe_eqn {A} (m : M E A) (Q : A -> E -> Prop) R e :
  wpe m Q R e -> wpe m (fun a e' => m e = (Ret a, e') /\ Q a e') R e.
Proof. unfold wpe. by destruct (m e) as [[] ?]. Qed.

Lemma wpe_true {A} (m : M E A) e : wpe m (fun _ _ => True) (fun _ _ => True) e.
Proof. unfold wpe. by destruct (m e) as [[] ?]. Qed.

Lemma wp_wpe {A} (m : M E A) (Q : A -> E -> Prop) R e : wp total m Q e -> wpe m Q R e.
Proof. unfold wp, wpe. by destruct (m e) as [[] ?]. Qed.

Lemma wpe_wp {A} (m : M E A) (Q : A -> E -> Prop) R e : wpe m Q R e -> wp partial m Q e.
Proof. unfold wp, wpe. by destruct (m e) as [[] ?]. Qed.

Lemma wpe_deref {A} (p : option A) (Q : A -> E -> Prop) R e :
  (forall a, p = Some a -> Q a e) -> (p = None -> R panicked e) -> wpe (deref p) Q R e.
Proof. destruct p; simpl; [intros H _; by apply H | intros _ H; by apply H]. Qed.

Lemma wpe_index {A} (l : list A) i (Q : A -> E -> Prop) R e :
  (forall a, l !! i = Some a -> Q a e) -> (l !! i = None -> R panicked e) -> wpe (index l i) Q R e.
Proof. unfold wpe, index. destruct (l !! i); simpl; auto. Qed.

Lemma wpe_deferred {A} (d : M E unit) (m : M E A) (Q : A -> E -> Prop) R e :
  wpe m (fun a e' => wpe d (fun _ e'' => Q a e'') R e')
    (fun x e' => match x with
      | panicked => wpe d (fun _ e'' => R panicked e'') R e'
      | _ => R x e'
      end) e -> wpe (deferred d m) Q R e.
Proof.
  unfold wpe, deferred, mbind, M_bind.
  destruct (m e) as [[a|x|x|x] e']; [| |done..]; by destruct (d e') as [[] e''].
Qed.

Lemma wpe_mfoldl {A B} (f : B -> A -> M E B) (I : B -> E -> Prop) R l b e :
  (forall x b' e', x ∈ l -> I b' e' -> wpe (f b' x) I R e') ->
  I b e -> wpe (mfoldl f b l) I R e.
Proof.
  revert b e. induction l as [|x l IH]; intros b e Hstep HI; simpl; [done|].
  apply wpe_bind. eapply wpe_mono_post; [|apply Hstep; [by left|done]].
  intros b' e' HI'. apply IH; [|done]. intros. apply Hstep; [by right|done].
Qed.

(** The invariant speaks of the elements already visited. *)
Lemma wpe_mfoldl_done {A B} (f : B -> A -> M E B) (I : list A -> B -> E -> Prop) R l b e :
  (forall done x rest b' e', l = done ++ x :: rest -> I done b' e' ->
     wpe (f b' x) (I (done ++ [x])) R e') ->
  I [] b e -> wpe (mfoldl f b l) (I l) R e.
Proof.
  assert (forall done b e, I done b e -> (forall done' x rest b' e',
    done ++ l = done' ++ x :: rest -> I done' b' e' -> wpe (f b' x) (I (done' ++ [x])) R e') ->
    wpe (mfoldl f b l) (I (done ++ l)) R e) as Hgen.
  { clear b e. induction l as [|x l IH]; intros done b e HI Hstep; simpl.
    - rewrite app_nil_r. by apply wpe_ret.
    - apply wpe_bind. eapply wpe_mono_post; [|by eapply Hstep].
      intros b' e' HI'. simpl. rewrite (cons_middle x done l), app_assoc.
      apply IH; [done|]. intros done' x' rest b'' e'' Heq.
      apply Hstep with rest. by rewrite <- Heq, <- app_assoc. }
  intros Hstep HI. by apply (Hgen []).
Qed.

Lemma wpe_mfoldl_brk {A B} (f : B -> A -> M E (B * bool)) (I Q : B -> E -> Prop) R l b e :
  (forall x b' e', x ∈ l -> I b' e' ->
     wpe (f b' x) (fun r e'' => if (r.2 : bool) then I r.1 e'' else Q r.1 e'') R e') ->
  (forall b' e', I b' e' -> Q b' e') ->
  I b e -> wpe (mfoldl_brk f b l) Q R e.
Proof.
  intros Hstep Hend. revert b e. induction l as [|x l IH]; intros b e HI; simpl.
  - by apply wpe_ret, Hend.
  - apply wpe_bind. eapply wpe_mono_post; [|apply Hstep; [by left|done]].
    intros [b' go] e' Hr; simpl in *. destruct go; [|done].
    apply IH; [|done]. intros y ????. apply Hstep; [by right|done].
Qed.
End wpe.

(** Stepping into a part of the state. *)
Section parts.
Context {S T E : Type}.

Lemma wp_lift {A} s (m : M E A) (Q : A -> S * E -> Prop) st e :
  wp s m (fun a e' => Q a (st, e')) e -> wp s (lift m) Q (st, e).
Proof. unfold wp, lift. simpl. by destruct (m e) as [[] ?]. Qed.

Lemma wp_zoom {A} s (get : S -> T) set (m : M (T * E) A) (Q : A -> S * E -> Prop) st e :
  wp s m (fun a w => Q a (set w.1 st, w.2)) (get st, e) -> wp s (zoom get set m) Q (st, e).
Proof. unfold wp, zoom. simpl. by destruct (m (get st, e)) as [[] []]. Qed.

Lemma wpe_zoom_l {Z W A} (get : S -> T) set (m : M (T * Z) A) (Q : A -> S * (Z * W) -> Prop) R st z w :
  wpe m (fun a v => Q a (set v.1 st, (v.2, w))) (fun x v => R x (set v.1 st, (v.2, w))) (get st, z) ->
  wpe (zoom_l get set m) Q R (st, (z, w)).
Proof. unfold wpe, zoom_l. simpl. by destruct (m (get st, z)) as [[] []]. Qed.

Lemma wp_zoom_l {Z W A} s (get : S -> T) (set : T -> S -> S) (m : M (T * Z) A) (Q : A -> S * (Z * W) -> Prop) st z w :
  wp s m (fun a v => Q a (set v.1 st, (v.2, w))) (get st, z) ->
  wp s (zoom_l get set m) Q (st, (z, w)).
Proof. unfold wp, zoom_l. simpl. by destruct (m (get st, z)) as [[] []]. Qed.

Lemma wpe_io {Z W A} (m : M W A) (Q : A -> S * (Z * W) -> Prop) R st z w :
  wpe m (fun a w' => Q a (st, (z, w'))) (fun x w' => R x (st, (z, w'))) w ->
  wpe (io m) Q R (st, (z, w)).
Proof. unfold wpe, io, lift. simpl. by destruct (m w) as [[] ?]. Qed.

Lemma wp_io {Z W A} s (m : M W A) (Q : A -> S * (Z * W) -> Prop) st z w :
  wp s m (fun a w' => Q a (st, (z, w'))) w -> wp s (io m) Q (st, (z, w)).
Proof. unfold wp, io, lift. simpl. by destruct (m w) as [[] ?]. Qed.

Lemma wpe_run_in {A} (s : S) (m : M (S * E) A) (Q : A * S -> E -> Prop) R e :
  wpe m (fun a w => Q (a, w.1) w.2) (fun x w => R x w.2) (s, e) -> wpe (run_in s m) Q R e.
Proof. unfold wpe, run_in. by destruct (m (s, e)) as [[] []]. Qed.

Lemma wpe_on_fst {Z W A} (m : M Z A) (Q : A -> Z * W -> Prop) R z w :
  wpe m (fun a z' => Q a (z', w)) (fun x z' => R x (z', w)) z -> wpe (on_fst m) Q R (z, w).
Proof. unfold wpe, on_fst. simpl. by destruct (m z) as [[] ?]. Qed.

Lemma wp_get_st s (Q : S -> S * E -> Prop) w : Q w.1 w -> wp s get_st Q w.
Proof. done. Qed.
Lemma wp_put_st s (st : S) (Q : unit -> S * E -> Prop) w : Q tt (st, w.2) -> wp s (put_st st) Q w.
Proof. done. Qed.
Lemma wp_upd_st s (f : S -> S) (Q : unit -> S * E -> Prop) w :
  Q tt (f w.1, w.2) -> wp s (upd_st f) Q w.
Proof. done. Qed.
Lemma wpe_get_st (Q : S -> S * E -> Prop) R w : Q w.1 w -> wpe get_st Q R w.
Proof. done. Qed.
Lemma wpe_put_st (st : S) (Q : unit -> S * E -> Prop) R w : Q tt (st, w.2) -> wpe (put_st st) Q R w.
Proof. done. Qed.
Lemma wpe_upd_st (f : S -> S) (Q : unit -> S * E -> Prop) R w :
  Q tt (f w.1, w.2) -> wpe (upd_st f) Q R w.
Proof. done. Qed.

Lemma wpe_lift {A} (m : M E A) (Q : A -> S * E -> Prop) R st e :
  wpe m (fun a e' => Q a (st, e')) (fun x e' => R x (st, e')) e -> wpe (lift m) Q R (st, e).
Proof. unfold wpe, lift. simpl. by destruct (m e) as [[] ?]. Qed.

Lemma wpe_zoom {A} (get : S -> T) set (m : M (T * E) A) (Q : A -> S * E -> Prop) R st e :
  wpe m (fun a w => Q a (set w.1 st, w.2)) (fun x w => R x (set w.1 st, w.2)) (get st, e) ->
  wpe (zoom get set m) Q R (st, e).
Proof. unfold wpe, zoom. simpl. by destruct (m (get st, e)) as [[] []]. Qed.
End parts.

(** ** Automation *)

(** Use the triple [l] of the computation at hand, whose conclusion is weakened
    to the goal's: [wp_use] leaves its side conditions, [wp_by] and [wp_eby]
    close them. *)
Tactic Notation "wp_use" uconstr(l) := eapply wp_mono; [|apply l].
Tactic Notation "wp_by" uconstr(l) := eapply wp_mono; [|by apply l].
Tactic Notation "wp_eby" uconstr(l) := eapply wp_mono; [|by eapply l].
Tactic Notation "wpe_use" uconstr(l) := eapply wpe_mono_post; [|apply l].
Tactic Notation "wpe_by" uconstr(l) := eapply wpe_mono_post; [|by apply l].

(** The facts on empty containers, and the ends of a computation. *)
Lemma no_keys_Forall {A} (P : string -> A -> Prop) : map_Forall P (∅ : gmap string A).
Proof. apply map_Forall_empty. Qed.
Lemma no_keys_disjoint_l {A} (m : gmap string A) : (∅ : gmap string A) ##ₘ m.
Proof. apply map_disjoint_empty_l. Qed.
Lemma no_keys_disjoint_r {A} (m : gmap string A) : m ##ₘ (∅ : gmap string A).
Proof. apply map_disjoint_empty_r. Qed.

Create HintDb go.
#[export] Hint Resolve no_keys_Forall no_keys_disjoint_l no_keys_disjoint_r
  NoDup_nil_2 Forall_nil_2 : go.
#[export] Hint Resolve wp_ret wpe_ret wpe_panic : go.

(** ** Machine integers *)

Definition wrap64 (z : Z) : Z := (z + 2 ^ 63) `mod` 2 ^ 64 - 2 ^ 63.
Definition uwrap64 (z : Z) : Z := z `mod` 2 ^ 64.

Definition int64_ok (z : Z) : Prop := - 2 ^ 63 <= z < 2 ^ 63.

Lemma wrap64_id z : int64_ok z -> wrap64 z = z.
Proof. unfold wrap64, int64_ok. intros ?. rewrite Z.mod_small; lia. Qed.

Lemma wrap64_range z : int64_ok (wrap64 z).
Proof.
  unfold wrap64, int64_ok. pose proof (Z.mod_pos_bound (z + 2 ^ 63) (2 ^ 64)). lia.
Qed.

Lemma uwrap64_id z : 0 <= z < 2 ^ 64 -> uwrap64 z = z.
Proof. apply Z.mod_small. Qed.
