(* ===== verification/Float64.v ===== *)
(** * Go's [float64]

    The executable IEEE-754 binary64 arithmetic of [SpecFloat], with the facts
    the resource accounting needs: sums and differences of valid numbers are
    valid (the rounding returns canonical mantissas), and [x - y] is not
    negative when [y <= x]. *)

From S2P Require Import Prelude.
From Stdlib Require Import SpecFloat.

(** ** Operations *)

Abbreviation float64 := spec_float.

Definition prec64 : Z := 53.
Definition emax64 : Z := 1024.

Definition fadd (x y : float64) : float64 := SFadd prec64 emax64 x y.
Definition fsub (x y : float64) : float64 := SFsub prec64 emax64 x y.
Definition fltb (x y : float64) : bool := SFltb x y.
Definition fleb (x y : float64) : bool := SFleb x y.
Definition fzero : float64 := S754_zero false.

(** The double nearest to an integer, and to a fraction. *)
Definition f64_of_Z (n : Z) : float64 := binary_normalize prec64 emax64 n 0 false.
Definition f64_of_frac (n d : Z) : float64 :=
  SFdiv prec64 emax64 (f64_of_Z n) (f64_of_Z d).

Definition f64_valid (x : float64) : bool := valid_binary prec64 emax64 x.
Definition f64_finite (x : float64) : bool :=
  match x with S754_zero _ | S754_finite _ _ _ => true | _ => false end.
(** Not a NaN and not below zero: what [x >= 0] says in Go. *)
Definition f64_nonneg (x : float64) : bool := fleb fzero x.

Declare Scope f64_scope.
Delimit Scope f64_scope with f64.
Infix "+" := fadd : f64_scope.
Infix "-" := fsub : f64_scope.
Infix "<?" := fltb : f64_scope.
Infix "<=?" := fleb : f64_scope.

(** ** Digits *)

Local Abbreviation fexp64 := (fexp prec64 emax64).
Local Abbreviation emin64 := (emin prec64 emax64).

Lemma digits2_pos_bounds p :
  2 ^ (Zpos (digits2_pos p) - 1) <= Zpos p < 2 ^ Zpos (digits2_pos p).
Proof.
  assert (forall q, Zpos (Pos.succ q) - 1 = Zpos q) as Hs by lia.
  induction p as [p IH|p IH|]; simpl; [..|done];
    rewrite Hs, Pos2Z.inj_succ, Z.pow_succ_r by lia;
    replace (2 ^ Zpos (digits2_pos p)) with (2 * 2 ^ (Zpos (digits2_pos p) - 1)) in *
      by (rewrite <- Z.pow_succ_r by lia; f_equal; lia); lia.
Qed.

Lemma Zdigits2_bounds m : 0 < m -> 2 ^ (Zdigits2 m - 1) <= m < 2 ^ Zdigits2 m.
Proof. destruct m; try done. intros _. apply digits2_pos_bounds. Qed.

Lemma Zdigits2_pos m : 0 < m -> 0 < Zdigits2 m.
Proof. by destruct m. Qed.

Lemma pow2_lt_inv a b : 2 ^ a < 2 ^ b -> 0 <= b -> a < b.
Proof. intros H ?. destruct (Z.lt_ge_cases a b); [done|].
  pose proof (Z.pow_le_mono_r 2 b a). lia. Qed.

Lemma Zdigits2_unique m d : 0 < d -> 2 ^ (d - 1) <= m < 2 ^ d -> Zdigits2 m = d.
Proof.
  intros Hd Hm. assert (0 < m) as Hpos by (pose proof (Z.pow_pos_nonneg 2 (d - 1)); lia).
  pose proof (Zdigits2_bounds m Hpos). pose proof (Zdigits2_pos m Hpos).
  assert (Zdigits2 m - 1 < d) by (apply pow2_lt_inv; lia).
  assert (d - 1 < Zdigits2 m) by (apply pow2_lt_inv; lia). lia.
Qed.

Lemma Zdigits2_shiftl m k : 0 < m -> 0 <= k -> Zdigits2 (m * 2 ^ k) = Zdigits2 m + k.
Proof.
  intros Hm Hk. pose proof (Zdigits2_bounds m Hm). pose proof (Zdigits2_pos m Hm).
  pose proof (Z.pow_pos_nonneg 2 k).
  apply Zdigits2_unique; [lia|].
  replace (Zdigits2 m + k - 1) with (Zdigits2 m - 1 + k) by lia.
  rewrite !Z.pow_add_r by lia. nia.
Qed.

Lemma Zdigits2_shiftr m k : 0 < m -> 0 <= k < Zdigits2 m ->
  Zdigits2 (m / 2 ^ k) = Zdigits2 m - k.
Proof.
  intros Hm Hk. pose proof (Zdigits2_bounds m Hm).
  pose proof (Z.pow_pos_nonneg 2 k).
  apply Zdigits2_unique; [lia|]. split.
  - apply Z.div_le_lower_bound; [lia|]. rewrite <- Z.pow_add_r by lia.
    replace (k + _) with (Zdigits2 m - 1) by lia. lia.
  - apply Z.div_lt_upper_bound; [lia|]. rewrite <- Z.pow_add_r by lia.
    replace (k + _) with (Zdigits2 m) by lia. lia.
Qed.

Lemma Zdigits2_shiftr_0 m k : 0 < m -> Zdigits2 m <= k -> m / 2 ^ k = 0.
Proof.
  intros Hm Hk. pose proof (Zdigits2_bounds m Hm). apply Z.div_small.
  pose proof (Z.pow_le_mono_r 2 (Zdigits2 m) k). lia.
Qed.

Lemma Zdigits2_succ m : 0 < m ->
  Zdigits2 (m + 1) = Zdigits2 m \/
  (m + 1 = 2 ^ Zdigits2 m /\ Zdigits2 (m + 1) = Zdigits2 m + 1).
Proof.
  intros Hm. pose proof (Zdigits2_bounds m Hm). pose proof (Zdigits2_pos m Hm).
  destruct (decide (m + 1 = 2 ^ Zdigits2 m)) as [Heq|].
  - right. split; [done|]. rewrite Heq. apply Zdigits2_unique; [lia|].
    split; [apply Z.pow_le_mono_r; lia|apply Z.pow_lt_mono_r; lia].
  - left. apply Zdigits2_unique; lia.
Qed.

(** ** Rounding *)

Lemma shr_1_m r : 0 <= shr_m r -> shr_m (shr_1 r) = shr_m r / 2.
Proof.
  destruct r as [m rb sb]; simpl. destruct m as [|[p|p|]|]; simpl; intros; try done.
  - rewrite (Pos2Z.inj_xI p). apply Z.div_unique with 1; lia.
  - rewrite (Pos2Z.inj_xO p). apply Z.div_unique with 0; lia.
Qed.

Lemma iter_shr_1_m p r :
  0 <= shr_m r -> shr_m (SpecFloat.iter_pos shr_1 p r) = shr_m r / 2 ^ Zpos p.
Proof.
  assert (forall q m, m / 2 ^ Zpos q / 2 ^ Zpos q = m / 2 ^ Zpos q~0) as Hdd.
  { intros q m. rewrite Z.div_div by lia. f_equal.
    rewrite <- Z.pow_add_r by lia. f_equal. lia. }
  revert r. induction p as [p IH|p IH|]; intros r Hr; simpl.
  - assert (0 <= shr_m (shr_1 r)) as H1 by (rewrite shr_1_m by done; apply Z.div_pos; lia).
    assert (0 <= shr_m (SpecFloat.iter_pos shr_1 p (shr_1 r))) as H2
      by (rewrite IH by done; apply Z.div_pos; lia).
    rewrite (IH _ H2), (IH _ H1), shr_1_m, Hdd, Z.div_div by lia. by f_equal.
  - assert (0 <= shr_m (SpecFloat.iter_pos shr_1 p r)) as H2
      by (rewrite IH by done; apply Z.div_pos; lia).
    by rewrite (IH _ H2), (IH _ Hr), Hdd.
  - by rewrite shr_1_m.
Qed.

Lemma shr_record_of_loc_m m l : shr_m (shr_record_of_loc m l) = m.
Proof. by destruct l as [|[]]. Qed.

(** [shr_fexp] shifts up to the canonical exponent and never below [e]. *)
Lemma shr_fexp_spec m e l : 0 <= m ->
  shr_m (shr_fexp prec64 emax64 m e l).1 =
    m / 2 ^ Z.max 0 (fexp64 (Zdigits2 m + e) - e) /\
  (shr_fexp prec64 emax64 m e l).2 = Z.max e (fexp64 (Zdigits2 m + e)).
Proof.
  intros Hm. unfold shr_fexp, shr.
  destruct (fexp64 (Zdigits2 m + e) - e) as [|p|p] eqn:Hn; simpl.
  - rewrite shr_record_of_loc_m, Z.div_1_r. split; [done|lia].
  - rewrite iter_shr_1_m, shr_record_of_loc_m by (by rewrite shr_record_of_loc_m).
    split; [f_equal; lia|lia].
  - rewrite shr_record_of_loc_m, Z.div_1_r. split; [done|lia].
Qed.

Lemma fexp64_eq x : fexp64 x = Z.max (x - 53) (-1074).
Proof. done. Qed.

Lemma round_nearest_even_cases m l :
  round_nearest_even m l = m \/ round_nearest_even m l = m + 1.
Proof. destruct l as [|[]]; simpl; try case_match; auto. Qed.

(** The mantissa and exponent that [binary_round_aux] ends with. *)
Definition round_result (m e : Z) : Z * Z :=
  let r1 := shr_fexp prec64 emax64 m e loc_Exact in
  let r2 := shr_fexp prec64 emax64
              (round_nearest_even (shr_m r1.1) (loc_of_shr_record r1.1)) r1.2 loc_Exact in
  (shr_m r2.1, r2.2).

Lemma round_aux_eq s m e :
  binary_round_aux prec64 emax64 s m e loc_Exact =
  match (round_result m e).1 with
  | Z0 => S754_zero s
  | Zpos p => if Z.leb (round_result m e).2 (emax64 - prec64)
              then S754_finite s p (round_result m e).2 else S754_infinity s
  | Zneg _ => S754_nan
  end.
Proof.
  unfold binary_round_aux, round_result.
  destruct (shr_fexp prec64 emax64 m e loc_Exact) as [r1 e1]; simpl.
  by destruct (shr_fexp _ _ _ e1 _) as [r2 e2].
Qed.

(** From an exponent not above the canonical one, the result is canonical. *)
Lemma round_result_canonical m e : 0 < m -> e <= fexp64 (Zdigits2 m + e) ->
  0 <= (round_result m e).1 /\
  (0 < (round_result m e).1 ->
   fexp64 (Zdigits2 (round_result m e).1 + (round_result m e).2) = (round_result m e).2).
Proof.
  intros Hm He. unfold round_result; simpl.
  destruct (shr_fexp_spec m e loc_Exact) as [Hm1 He1]; [lia|].
  pose proof (Zdigits2_pos m Hm) as Hd.
  set (r1 := shr_fexp _ _ m e loc_Exact) in *.
  rewrite Z.max_r in Hm1 by lia. rewrite Z.max_r in He1 by lia.
  assert (0 <= shr_m r1.1) as Hm1p by (rewrite Hm1; apply Z.div_pos; lia).
  set (m2 := round_nearest_even _ _).
  assert (m2 = shr_m r1.1 \/ m2 = shr_m r1.1 + 1) as Hm2 by apply round_nearest_even_cases.
  destruct (shr_fexp_spec m2 r1.2 loc_Exact) as [Hm3 He3]; [lia|].
  rewrite Hm3, He3. rewrite He1 in *. clear Hm3 He3. rewrite !fexp64_eq in *.
  split; [apply Z.div_pos; lia|].
  destruct (decide (fexp64 (Zdigits2 m + e) - e < Zdigits2 m)) as [Hlt|Hge];
    rewrite !fexp64_eq in *.
  - pose proof (Zdigits2_shiftr m (Z.max (Zdigits2 m + e - 53) (-1074) - e) Hm ltac:(lia)) as Hd1.
    rewrite <- Hm1 in Hd1.
    assert (0 < shr_m r1.1) as Hpos1.
    { destruct (decide (shr_m r1.1 = 0)) as [H0|]; [|lia]. rewrite H0 in Hd1. simpl in Hd1. lia. }
    destruct Hm2 as [->| ->].
    + rewrite Hd1. intros _. rewrite (Z.max_l 0) by lia. rewrite Z.div_1_r, Hd1. lia.
    + destruct (Zdigits2_succ (shr_m r1.1) Hpos1) as [Hds|[Hp2 Hds]]; rewrite Hds, Hd1.
      * intros _. rewrite (Z.max_l 0) by lia. rewrite Z.div_1_r, Hds, Hd1. lia.
      * intros _. rewrite Hd1 in Hp2.
        set (n := Z.max 0 _).
        assert (n = 0 \/ n = 1) as [Hn|Hn] by lia; rewrite Hn.
        -- rewrite Z.div_1_r, Hds, Hd1. lia.
        -- rewrite Zdigits2_shiftr by (rewrite ?Hds; lia). rewrite Hds, Hd1. lia.
  - rewrite (Zdigits2_shiftr_0 m) in Hm1 by lia. rewrite Hm1 in Hm2.
    destruct Hm2 as [->| ->]; simpl.
    + by rewrite Z.div_0_l by (apply Z.pow_nonzero; lia).
    + intros _. rewrite (Z.max_l 0) by lia. rewrite Z.div_1_r. simpl. lia.
Qed.

(** A rounded result keeps its sign, is valid and is not a NaN. *)
Definition f64_signed (s : bool) (x : float64) : Prop :=
  f64_valid x = true /\
  match x with
  | S754_zero s' | S754_infinity s' | S754_finite s' _ _ => s' = s
  | S754_nan => False
  end.

Lemma round_aux_signed s m e : 0 < m -> e <= fexp64 (Zdigits2 m + e) ->
  f64_signed s (binary_round_aux prec64 emax64 s m e loc_Exact).
Proof.
  intros Hm He. rewrite round_aux_eq.
  destruct (round_result_canonical m e Hm He) as [Hp Hc].
  destruct (round_result m e) as [m' e']; simpl in *.
  destruct m' as [|p|p]; [done| |lia].
  case_match eqn:Hle; [|done].
  unfold f64_signed, f64_valid; simpl. unfold bounded, canonical_mantissa.
  simpl in Hc. rewrite Hc, Z.eqb_refl, Hle by lia. done.
Qed.

Lemma Pos_iter_xO p d : Zpos (Pos.iter xO p d) = Zpos p * 2 ^ Zpos d.
Proof.
  induction d as [|d IH] using Pos.peano_ind; [simpl; lia|].
  rewrite Pos.iter_succ, Pos2Z.inj_succ, Z.pow_succ_r by lia. lia.
Qed.

Lemma shl_align_spec m e e' :
  Zpos (shl_align m e e').1 = Zpos m * 2 ^ Z.max 0 (e - e') /\
  (shl_align m e e').2 = Z.min e e'.
Proof.
  unfold shl_align. destruct (e' - e) as [|d|d] eqn:Hd; simpl.
  - rewrite Z.max_l by lia. split; lia.
  - rewrite Z.max_l by lia. split; lia.
  - rewrite Pos_iter_xO. split; [f_equal; f_equal|]; lia.
Qed.

Lemma round_signed s m e : f64_signed s (binary_round prec64 emax64 s m e).
Proof.
  unfold binary_round.
  destruct (shl_align_spec m e (fexp64 (Zdigits2 (Zpos m) + e))) as [Hm He].
  change (Zpos (digits2_pos m)) with (Zdigits2 (Zpos m)).
  destruct (shl_align m e _) as [m' e']; cbn [fst snd] in Hm, He. apply round_aux_signed; [done|].
  rewrite Hm, He, Zdigits2_shiftl by lia. rewrite !fexp64_eq. lia.
Qed.

Lemma normalize_signed n e :
  f64_signed (n <? 0)%Z (binary_normalize prec64 emax64 n e false).
Proof. destruct n; simpl; [done|apply round_signed..]. Qed.

Lemma f64_signed_valid s x : f64_signed s x -> f64_valid x = true.
Proof. by intros []. Qed.

Lemma f64_signed_nonneg x : f64_signed false x -> f64_nonneg x = true.
Proof. by intros [_ Hx]; destruct x as [[]|[]| |[]]. Qed.

Lemma f64_of_Z_valid n : f64_valid (f64_of_Z n) = true.
Proof. apply (f64_signed_valid (n <? 0)%Z), normalize_signed. Qed.

Lemma f64_of_Z_nonneg n : 0 <= n -> f64_nonneg (f64_of_Z n) = true.
Proof.
  intros Hn. apply f64_signed_nonneg. pose proof (normalize_signed n 0) as H.
  by destruct (Z.ltb_spec n 0); [lia|].
Qed.

(** ** Addition and subtraction *)

Lemma fsub_valid x y : f64_valid x = true -> f64_valid y = true ->
  f64_valid (x - y)%f64 = true.
Proof.
  intros Hx Hy. unfold fsub, SFsub.
  destruct x as [[]|[]| |sx mx ex], y as [[]|[]| |sy my ey]; try done.
  eapply f64_signed_valid, normalize_signed.
Qed.

Lemma fadd_valid x y : f64_valid x = true -> f64_valid y = true ->
  f64_valid (x + y)%f64 = true.
Proof.
  intros Hx Hy. unfold fadd, SFadd.
  destruct x as [[]|[]| |sx mx ex], y as [[]|[]| |sy my ey]; try done.
  eapply f64_signed_valid, normalize_signed.
Qed.

Lemma fadd_nonneg x y : f64_nonneg x = true -> f64_nonneg y = true ->
  f64_nonneg (x + y)%f64 = true.
Proof.
  intros Hx Hy. unfold fadd, SFadd.
  destruct x as [[]|[]| |[] mx ex], y as [[]|[]| |[] my ey]; try done.
  apply f64_signed_nonneg. simpl cond_Zopp.
  match goal with |- context [binary_normalize _ _ ?n ?e _] =>
    pose proof (normalize_signed n e) as H; assert (0 <= n) by lia;
    destruct (Z.ltb_spec n 0); [lia|exact H] end.
Qed.

(** The order of canonical numbers is the order of their values. *)
Lemma canonical_compare mx ex my ey :
  bounded prec64 emax64 mx ex = true -> bounded prec64 emax64 my ey = true ->
  ey < ex -> Zpos my <= Zpos mx * 2 ^ (ex - ey).
Proof.
  unfold bounded, canonical_mantissa. intros [Hx _]%andb_true_iff [Hy _]%andb_true_iff Hlt.
  apply Z.eqb_eq in Hx, Hy. rewrite fexp64_eq in Hx, Hy.
  pose proof (digits2_pos_bounds mx) as [Bx _]. pose proof (digits2_pos_bounds my) as [_ By].
  assert (Zpos (digits2_pos mx) = 53) as Dx by lia.
  assert (Zpos (digits2_pos my) <= 53) as Dy by lia.
  rewrite Dx in Bx.
  pose proof (Z.pow_le_mono_r 2 (Zpos (digits2_pos my)) 53 ltac:(lia) Dy).
  pose proof (Z.pow_le_mono_r 2 1 (ex - ey) ltac:(lia) ltac:(lia)).
  change (2 ^ (53 - 1)) with 4503599627370496 in Bx.
  change (2 ^ 53) with 9007199254740992 in *. change (2 ^ 1) with 2 in *. nia.
Qed.

Lemma fsub_nonneg x y : f64_valid x = true -> f64_valid y = true ->
  f64_finite y = true -> f64_nonneg y = true -> (y <=? x)%f64 = true ->
  f64_nonneg (x - y)%f64 = true.
Proof.
  intros Hx Hy Hf Hp Hle. unfold fsub, SFsub.
  destruct x as [[]|[]| |[] mx ex], y as [[]|[]| |[] my ey]; try done.
  apply f64_signed_nonneg. simpl in Hx, Hy. unfold f64_valid in Hx, Hy. simpl in Hx, Hy.
  destruct (shl_align_spec mx ex (Z.min ex ey)) as [-> _].
  destruct (shl_align_spec my ey (Z.min ex ey)) as [Hmy _]. simpl cond_Zopp. rewrite Hmy.
  match goal with |- context [binary_normalize _ _ ?n ?e _] =>
    pose proof (normalize_signed n e) as H; enough (0 <= n);
    [destruct (Z.ltb_spec n 0); [lia|exact H]|clear H] end.
  unfold fleb, SFleb, SFcompare in Hle.
  destruct (Z.compare_spec ey ex) as [->|Hlt|]; [|..|done].
  - rewrite Z.min_id, Z.sub_diag, Z.max_id. change (2 ^ 0) with 1.
    destruct (Pos.compare_cont Eq my mx) eqn:Hc; try done; change (Pos.compare_cont Eq) with Pos.compare in Hc.
    + apply Pos.compare_eq in Hc. lia.
    + change (my < mx)%positive in Hc. lia.
  - rewrite Z.min_r, Z.sub_diag, Z.max_id, Z.max_r by lia. change (2 ^ 0) with 1.
    pose proof (canonical_compare _ _ _ _ Hx Hy Hlt). lia.
Qed.
