(* ===== verification/GoStrings.v ===== *)
(** * The string functions of Go's standard library that the program uses

    [strconv.Itoa] (the [%d] verb), [strconv.Atoi], [strings.Join],
    [strings.Split] on a one-character separator, [strings.Contains],
    [strings.Trim], [filepath.Join], with the facts about names built from pieces: a name
    [a-b-n] determines [b] and [n].  [to_utf8] is what [encoding/json] makes of
    the bytes of a string: it replaces those that are not UTF-8. *)

From S2P Require Import Prelude.
From Stdlib Require Import Ascii.

#[local] Open Scope string_scope.
#[local] Open Scope Z_scope.

(** ** Operations *)

Definition newline : string := String (ascii_of_nat 10) "".

(** [%d] of [fmt.Sprintf]. *)
Definition itoa (n : Z) : string := pretty n.

Fixpoint Join (l : list string) (sep : string) : string :=
  match l with
  | [] => ""
  | [s] => s
  | s :: l' => s +:+ sep +:+ Join l' sep
  end.

Fixpoint Split (s : string) (sep : ascii) : list string :=
  match s with
  | EmptyString => [""]
  | String c s' =>
      if Ascii.eqb c sep then "" :: Split s' sep
      else match Split s' sep with
           | [] => [String c ""]
           | w :: ws => String c w :: ws
           end
  end.

Fixpoint HasPrefix (s p : string) : bool :=
  match p, s with
  | EmptyString, _ => true
  | String c p', String d s' => Ascii.eqb c d && HasPrefix s' p'
  | _, _ => false
  end.

Fixpoint Contains (s sub : string) : bool :=
  HasPrefix s sub ||
  match s with EmptyString => false | String _ s' => Contains s' sub end.

Fixpoint in_cutset (c : ascii) (cutset : string) : bool :=
  match cutset with
  | EmptyString => false
  | String d t => Ascii.eqb c d || in_cutset c t
  end.

Fixpoint TrimLeft (s cutset : string) : string :=
  match s with
  | EmptyString => ""
  | String c s' => if in_cutset c cutset then TrimLeft s' cutset else s
  end.

Fixpoint TrimRight (s cutset : string) : string :=
  match s with
  | EmptyString => ""
  | String c s' =>
      match TrimRight s' cutset with
      | EmptyString => if in_cutset c cutset then "" else String c ""
      | t => String c t
      end
  end.

Definition Trim (s cutset : string) : string := TrimRight (TrimLeft s cutset) cutset.

(** [strconv.Atoi]: an optional sign and decimal digits, within [int]. *)
Definition digit_of (c : ascii) : option Z :=
  let n := Z.of_nat (nat_of_ascii c) in
  if (48 <=? n) && (n <=? 57) then Some (n - 48) else None.

Fixpoint parse_digits (s : string) (acc : Z) : option Z :=
  match s with
  | EmptyString => Some acc
  | String c s' =>
      match digit_of c with
      | Some d => parse_digits s' (10 * acc + d)
      | None => None
      end
  end.

Definition Atoi (s : string) : option Z :=
  let '(neg, body) :=
    match s with
    | String c s' => if Ascii.eqb c "-" then (true, s')
                     else if Ascii.eqb c "+" then (false, s') else (false, s)
    | EmptyString => (false, s)
    end in
  match body with
  | EmptyString => None
  | _ =>
      match parse_digits body 0 with
      | Some n =>
          let z := if (neg : bool) then - n else n in
          if (- 2 ^ 63 <=? z) && (z <? 2 ^ 63) then Some z else None
      | None => None
      end
  end.

(** [filepath.Clean] on Unix, over the elements of a path from the left; the
    elements that stay are a stack. *)
Definition clean_push (rooted : bool) (stack : list string) (e : string) : list string :=
  if String.eqb e "" || String.eqb e "." then stack
  else if String.eqb e ".." then
    match stack with
    | nil => if rooted then nil else [e]
    | top :: rest => if String.eqb top ".." then e :: stack else rest
    end
  else e :: stack.

Definition filepath_Clean (path : string) : string :=
  let rooted := HasPrefix path "/" in
  let stack := foldl (clean_push rooted) [] (Split path "/") in
  match (if rooted then "/" else "") +:+ Join (rev stack) "/" with
  | EmptyString => "."
  | p => p
  end.

(** [filepath.Join]: empty elements in front are dropped. *)
Fixpoint filepath_Join (elems : list string) : string :=
  match elems with
  | [] => ""
  | e :: elems' => if String.eqb e "" then filepath_Join elems' else filepath_Clean (Join elems "/")
  end.

(** *** Text in UTF-8

    How many bytes the code point in front of a string takes, as
    [utf8.DecodeRuneInString] finds it; none where the bytes are not UTF-8. *)

Definition byte_in (lo hi : N) (c : ascii) : bool := (lo <=? N_of_ascii c)%N && (N_of_ascii c <=? hi)%N.

(** Whether the next bytes of [s] are in the ranges [rs], one byte for each. *)
Fixpoint bytes_in (rs : list (N * N)) (s : string) : bool :=
  match rs, s with
  | [], _ => true
  | (lo, hi) :: rs', String c s' => byte_in lo hi c && bytes_in rs' s'
  | _ :: _, EmptyString => false
  end.

(** The well-formed sequences: the range of the first byte, and those of the
    bytes that follow it. *)
Definition rune_table : list ((N * N) * list (N * N)) :=
  [ ((0, 127), []);
    ((194, 223), [(128, 191)]);
    ((224, 224), [(160, 191); (128, 191)]);
    ((225, 236), [(128, 191); (128, 191)]);
    ((237, 237), [(128, 159); (128, 191)]);
    ((238, 239), [(128, 191); (128, 191)]);
    ((240, 240), [(144, 191); (128, 191); (128, 191)]);
    ((241, 243), [(128, 191); (128, 191); (128, 191)]);
    ((244, 244), [(128, 143); (128, 191); (128, 191)]) ]%N.

Definition rune_tail (c : ascii) : option (list (N * N)) :=
  snd <$> List.find (fun row => byte_in row.1.1 row.1.2 c) rune_table.

Definition rune_len (s : string) : nat :=
  match s with
  | EmptyString => 0
  | String c s' =>
      match rune_tail c with
      | Some rs => if bytes_in rs s' then S (length rs) else 0
      | None => 0
      end
  end.

(** The replacement character, U+FFFD. *)
Definition RuneError : string :=
  String (ascii_of_nat 239) (String (ascii_of_nat 191) (String (ascii_of_nat 189) "")).

(** What [encoding/json] makes of a string: each byte that is not part of a
    code point is replaced.  [skip] bytes belong to the current one. *)
Fixpoint replace_invalid (skip : nat) (s : string) : string :=
  match s with
  | EmptyString => ""
  | String c s' =>
      match skip with
      | S k => String c (replace_invalid k s')
      | O => match rune_len s with
             | O => RuneError +:+ replace_invalid 0 s'
             | S k => String c (replace_invalid k s')
             end
      end
  end.

Definition to_utf8 (s : string) : string := replace_invalid 0 s.
#[global] Arguments to_utf8 : simpl never.

(** Text that is UTF-8. *)
Definition utf8 (s : string) : Prop := to_utf8 s = s.

#[export] Instance utf8_dec s : Decision (utf8 s).
Proof. unfold utf8. apply _. Defined.

(** A byte that continues nothing, a code point of two bytes, and one that
    lacks its second byte. *)
Example to_utf8_ex :
  let byte n s := String (ascii_of_nat n) s in
  to_utf8 (byte 255%nat "a") = RuneError +:+ "a" /\ utf8 (byte 195%nat (byte 169%nat "a")) /\
  to_utf8 (byte 195%nat "a") = RuneError +:+ "a".
Proof. by vm_compute. Qed.

(** ** Characters of a string *)

Fixpoint char_free (c : ascii) (s : string) : Prop :=
  match s with
  | EmptyString => True
  | String d s' => d <> c /\ char_free c s'
  end.

#[export] Instance char_free_dec c s : Decision (char_free c s).
Proof. induction s; simpl; apply _. Defined.

Lemma append_nil_l s : "" +:+ s = s.
Proof. done. Qed.

Lemma append_cons c s t : String c s +:+ t = String c (s +:+ t).
Proof. done. Qed.

Lemma char_free_app c s t : char_free c (s +:+ t) <-> char_free c s /\ char_free c t.
Proof. induction s; rewrite ?append_nil_l, ?append_cons; simpl; tauto. Qed.

Lemma append_nil_r s : s +:+ "" = s.
Proof. induction s; rewrite ?append_cons, ?append_nil_l; congruence. Qed.

Lemma append_assoc s t u : (s +:+ t) +:+ u = s +:+ (t +:+ u).
Proof. induction s; rewrite ?append_cons, ?append_nil_l; congruence. Qed.

Lemma append_inj_l s t u : s +:+ t = s +:+ u -> t = u.
Proof. induction s; rewrite ?append_cons; [done|]. intros [=]; auto. Qed.

(** Two names cut at the last separator. *)
Lemma append_sep_inj c s1 t1 s2 t2 :
  char_free c t1 -> char_free c t2 ->
  s1 +:+ String c t1 = s2 +:+ String c t2 -> s1 = s2 /\ t1 = t2.
Proof.
  intros Ht1 Ht2. revert s2.
  induction s1 as [|d s1 IH]; intros [|d2 s2]; rewrite ?append_cons, ?append_nil_l.
  - by intros [= ->].
  - intros [= -> ->]. apply char_free_app in Ht1 as [_ [H _]]. by destruct H.
  - intros [= -> <-]. apply char_free_app in Ht2 as [_ [H _]]. by destruct H.
  - intros [= -> H]. apply IH in H as [-> ->]. done.
Qed.

(** *** Searching and splitting *)

Lemma Split_free c s : char_free c s -> Split s c = [s].
Proof.
  induction s as [|d s IH]; cbn [Split char_free]; [done|]. intros [Hd Hs].
  destruct (Ascii.eqb_spec d c); [done|]. by rewrite IH.
Qed.

Lemma Split_app c s t : char_free c s -> Split (s +:+ String c t) c = s :: Split t c.
Proof.
  induction s as [|d s IH].
  - intros _. change (EmptyString +:+ String c t) with (String c t). cbn [Split].
    by rewrite Ascii.eqb_refl.
  - intros [Hd Hs]. change (String d s +:+ String c t) with (String d (s +:+ String c t)). cbn [Split].
    destruct (Ascii.eqb_spec d c); [done|]. by rewrite IH.
Qed.

Lemma Split_Join c l : l <> [] -> Forall (char_free c) l ->
  Split (Join l (String c EmptyString)) c = l.
Proof.
  induction l as [|s l IH]; [done|]. intros _ [Hs Hl]%Forall_cons. destruct l as [|s' l].
  - cbn [Join]. by apply Split_free.
  - change (Join (s :: s' :: l) (String c EmptyString)) with
      (s +:+ String c EmptyString +:+ Join (s' :: l) (String c EmptyString)).
    change (String c EmptyString +:+ Join (s' :: l) (String c EmptyString)) with
      (String c (Join (s' :: l) (String c EmptyString))).
    rewrite Split_app by done. by rewrite IH.
Qed.

Lemma Split_nil s c : Split s c <> [].
Proof. destruct s as [|d s]; [done|]. cbn [Split]. destruct (Ascii.eqb d c); [done|]. by destruct (Split s c). Qed.

Lemma HasPrefix_app s t : HasPrefix (s +:+ t) s = true.
Proof.
  induction s as [|c s IH]; [by destruct t|].
  change (String c s +:+ t) with (String c (s +:+ t)). cbn [HasPrefix]. by rewrite Ascii.eqb_refl.
Qed.

Lemma HasPrefix_free c s : char_free c s -> HasPrefix s (String c "") = false.
Proof.
  destruct s as [|d s]; [done|]. intros [Hd _]. cbn [HasPrefix].
  destruct (Ascii.eqb_spec c d); [congruence|done].
Qed.

Lemma Contains_free c s : char_free c s -> Contains s (String c "") = false.
Proof.
  induction s as [|d s IH]; intros Hs; [done|]. cbn [Contains].
  rewrite HasPrefix_free by done. destruct Hs as [_ Hs]. by rewrite IH.
Qed.

Lemma Contains_char c s : Contains s (String c "") = false -> char_free c s.
Proof.
  induction s as [|d s IH]; [done|]. cbn [Contains HasPrefix]. intros [Hd Hs]%orb_false_iff.
  split; [|by apply IH]. intros ->. rewrite Ascii.eqb_refl in Hd. by destruct s.
Qed.

(** ** Decimal numbers *)

Lemma pretty_N_char_digit x : (x < 10)%N -> digit_of (pretty_N_char x) = Some (Z.of_N x).
Proof.
  intros ?. assert (x = 0 \/ x = 1 \/ x = 2 \/ x = 3 \/ x = 4 \/ x = 5 \/ x = 6
    \/ x = 7 \/ x = 8 \/ x = 9)%N by lia. by destruct_or!; subst x.
Qed.

Lemma pretty_N_go_free c x s : digit_of c = None -> char_free c s -> char_free c (pretty_N_go x s).
Proof.
  intros Hc. revert s. induction (N.lt_wf_0 x) as [x _ IH]; intros s Hs.
  destruct (decide (0 < x)%N) as [H|H].
  - rewrite pretty_N_go_step by done. apply IH; [by apply N.div_lt|].
    split; [|done]. intros Heq. assert (x `mod` 10 < 10)%N as Hd%pretty_N_char_digit by (apply N.mod_lt; lia).
    congruence.
  - replace x with 0%N by lia. by rewrite pretty_N_go_0.
Qed.

(** The digits of a number, where they start. *)
Lemma itoa_unfold n : 0 <= n ->
  itoa n = if decide (n = 0) then "0" else pretty_N_go (Z.to_N n) "".
Proof.
  intros Hn. destruct n as [|q|q]; [done| |lia].
  unfold itoa, pretty, pretty_Z, pretty, pretty_positive, pretty, pretty_N.
  rewrite !decide_False by done. done.
Qed.

Lemma itoa_free c n : digit_of c = None -> 0 <= n -> char_free c (itoa n).
Proof.
  intros Hc Hn. rewrite itoa_unfold by done. case_decide; [|by apply pretty_N_go_free].
  split; [|done]. by intros <-.
Qed.

Lemma itoa_dash_free n : 0 <= n -> char_free "-" (itoa n).
Proof. by apply itoa_free. Qed.

Lemma parse_pretty x s : (0 < x)%N -> parse_digits (pretty_N_go x s) 0 = parse_digits s (Z.of_N x).
Proof.
  revert s. induction (N.lt_wf_0 x) as [x _ IH]; intros s Hx. rewrite pretty_N_go_step by done.
  assert (x `mod` 10 < 10)%N as Hd by (apply N.mod_lt; lia). apply pretty_N_char_digit in Hd.
  destruct (decide (0 < x / 10)%N) as [H|H].
  - rewrite IH; [|by apply N.div_lt|done]. cbn [parse_digits]. rewrite Hd. f_equal.
    pose proof (N.div_mod' x 10). lia.
  - pose proof (proj1 (N.le_0_r _) (proj1 (N.nlt_ge _ _) H)) as Hz. rewrite Hz, pretty_N_go_0. cbn [parse_digits]. rewrite Hd. f_equal.
    pose proof (N.div_mod' x 10) as Hdiv. rewrite Hz in Hdiv. lia.
Qed.

(** Reading a number that was printed. *)
Lemma Atoi_itoa n : 0 <= n < 2 ^ 63 -> Atoi (itoa n) = Some n.
Proof.
  intros Hn. assert (parse_digits (itoa n) 0 = Some n /\ itoa n <> "") as [Hparse Hne].
  { rewrite itoa_unfold by lia. case_decide; [by subst|]. rewrite parse_pretty by lia. cbn [parse_digits].
    split; [f_equal; lia|]. intros Heq. assert (parse_digits (pretty_N_go (Z.to_N n) "") 0 = Some n) as Hp
      by (rewrite parse_pretty by lia; cbn [parse_digits]; f_equal; lia). rewrite Heq in Hp. cbn in Hp. congruence. }
  assert (char_free "-" (itoa n) /\ char_free "+" (itoa n)) as [Hm Hp] by (split; apply itoa_free; [done|lia|done|lia]).
  unfold Atoi. destruct (itoa n) as [|c s]; [done|]. destruct Hm as [Hm _]. destruct Hp as [Hp _].
  destruct (Ascii.eqb_spec c "-"); [done|]. destruct (Ascii.eqb_spec c "+"); [done|].
  rewrite Hparse. destruct (Z.leb_spec (- 2 ^ 63) n); [|lia]. by destruct (Z.ltb_spec n (2 ^ 63)); [|lia].
Qed.

Lemma itoa_inj m n : itoa m = itoa n -> m = n.
Proof. apply (inj pretty). Qed.

(** [fmt.Sprintf("%s-%s-%d", a, b, n)] determines [b] and [n]. *)
Lemma dashed_name_inj a b1 b2 n1 n2 : 0 <= n1 -> 0 <= n2 ->
  a +:+ "-" +:+ b1 +:+ "-" +:+ itoa n1 = a +:+ "-" +:+ b2 +:+ "-" +:+ itoa n2 ->
  b1 = b2 /\ n1 = n2.
Proof.
  intros H1 H2 H%append_inj_l. rewrite !(append_cons "-"), !append_nil_l in H.
  injection H as H. apply append_sep_inj in H as [-> H]; auto using itoa_dash_free.
  by apply itoa_inj in H.
Qed.

(** ** Facts about UTF-8 *)

Section utf8.
Implicit Types (c d : ascii) (s t : string).

Definition is_ascii c : Prop := byte_in 0 127 c = true.

Lemma length_append s t : String.length (s +:+ t) = (String.length s + String.length t)%nat.
Proof. induction s as [|c s IH]; [done|]. exact (f_equal S IH). Qed.

(** Induction on what is left after some bytes. *)
Lemma string_length_ind (P : string -> Prop) :
  (forall s, (forall t, (String.length t < String.length s)%nat -> P t) -> P s) -> forall s, P s.
Proof.
  intros Hstep s. remember (String.length s) as n eqn:Hn. revert s Hn.
  induction (Nat.lt_wf_0 n) as [n _ IH]. intros s ->. apply Hstep. intros t Ht. by eapply IH.
Qed.

Lemma replace_skip l s : replace_invalid (String.length l) (l +:+ s) = l +:+ to_utf8 s.
Proof. induction l as [|c l IH]; [by destruct s|]. rewrite !append_cons. cbn. by rewrite IH. Qed.

(** The bytes of a code point do not depend on what follows. *)
Lemma bytes_in_split rs s : bytes_in rs s = true ->
  exists l t, s = l +:+ t /\ String.length l = length rs /\ forall t', bytes_in rs (l +:+ t') = true.
Proof.
  revert s. induction rs as [|[lo hi] rs IH]; intros s; [by exists "", s|].
  destruct s as [|c s]; [done|]. cbn [bytes_in]. intros [Hc Hs]%andb_true_iff.
  destruct (IH s Hs) as (l & t & -> & Hl & Ht). exists (String c l), t. split; [done|].
  split; [cbn; congruence|]. intros t'. rewrite append_cons. cbn [bytes_in]. by rewrite Hc, Ht.
Qed.

Lemma rune_len_split c s k : rune_len (String c s) = S k ->
  exists l t, s = l +:+ t /\ String.length l = k /\ forall t', rune_len (String c (l +:+ t')) = S k.
Proof.
  unfold rune_len. destruct (rune_tail c) as [rs|]; [|done].
  destruct (bytes_in rs s) eqn:Hs; [|done]. intros [= <-].
  destruct (bytes_in_split rs s Hs) as (l & t & -> & Hl & Ht). exists l, t. split; [done|].
  split; [done|]. intros t'. by rewrite Ht.
Qed.

Lemma to_utf8_cons c s : to_utf8 (String c s) =
  match rune_len (String c s) with
  | O => RuneError +:+ to_utf8 s
  | S k => String c (replace_invalid k s)
  end.
Proof. done. Qed.

Lemma to_utf8_error s : to_utf8 (RuneError +:+ s) = RuneError +:+ to_utf8 s.
Proof. reflexivity. Qed.

Lemma to_utf8_idemp s : utf8 (to_utf8 s).
Proof.
  unfold utf8. induction s as [s IH] using string_length_ind. destruct s as [|c s]; [done|].
  rewrite to_utf8_cons. destruct (rune_len (String c s)) as [|k] eqn:Hk.
  - rewrite to_utf8_error, IH; [done|cbn; lia].
  - destruct (rune_len_split c s k Hk) as (l & t & -> & <- & Ht).
    rewrite replace_skip, to_utf8_cons, Ht, replace_skip, IH; [done|].
    cbn. rewrite length_append. lia.
Qed.

(** *** ASCII separators *)

Lemma rune_tail_high c rs : rune_tail c = Some rs -> Forall (fun r => (128 <= r.1)%N) rs.
Proof.
  unfold rune_tail. intros (row & Hrow & ->)%fmap_Some. apply find_some in Hrow as [Hin _].
  cbn in Hin. repeat destruct Hin as [<-|Hin]; [..|done]; cbn; repeat constructor; cbn; lia.
Qed.

Lemma rune_tail_ascii c : is_ascii c -> rune_tail c = Some [].
Proof. unfold is_ascii, rune_tail. cbn. by intros ->. Qed.

Lemma ascii_below d lo hi : is_ascii d -> (128 <= lo)%N -> byte_in lo hi d = false.
Proof.
  unfold is_ascii, byte_in. intros [_ Hd%N.leb_le]%andb_true_iff Hlo.
  destruct (N.leb_spec lo (N_of_ascii d)); [lia|done].
Qed.

Lemma bytes_in_stop rs a d b : is_ascii d -> Forall (fun r => (128 <= r.1)%N) rs ->
  bytes_in rs (a +:+ String d b) = bytes_in rs a.
Proof.
  intros Hd Hrs. revert a. induction Hrs as [|[lo hi] rs Hr _ IH]; intros a; [by destruct a|].
  destruct a as [|c a].
  - rewrite append_nil_l. cbn [bytes_in]. by rewrite ascii_below.
  - rewrite append_cons. cbn [bytes_in]. by rewrite IH.
Qed.

Lemma to_utf8_ascii d s : is_ascii d -> to_utf8 (String d s) = String d (to_utf8 s).
Proof. intros Hd. rewrite to_utf8_cons. unfold rune_len. by rewrite rune_tail_ascii. Qed.

Lemma to_utf8_sep a d b : is_ascii d -> to_utf8 (a +:+ String d b) = to_utf8 a +:+ String d (to_utf8 b).
Proof.
  intros Hd. induction a as [a IH] using string_length_ind. destruct a as [|c a].
  { by rewrite append_nil_l, to_utf8_ascii. }
  rewrite append_cons, !to_utf8_cons.
  assert (rune_len (String c (a +:+ String d b)) = rune_len (String c a)) as ->.
  { unfold rune_len. destruct (rune_tail c) as [rs|] eqn:Hrs; [|done].
    by rewrite bytes_in_stop by (done || by eapply rune_tail_high). }
  destruct (rune_len (String c a)) as [|k] eqn:Hk.
  - rewrite IH by (cbn; lia). by rewrite append_assoc.
  - destruct (rune_len_split c a k Hk) as (l & t & -> & <- & _).
    rewrite append_assoc, !replace_skip, IH by (cbn; rewrite length_append; lia).
    by rewrite append_cons, append_assoc.
Qed.

(** Strings of ASCII characters are UTF-8. *)
Fixpoint ascii_only s : Prop :=
  match s with EmptyString => True | String c s' => is_ascii c /\ ascii_only s' end.

Lemma utf8_ascii s : ascii_only s -> utf8 s.
Proof.
  unfold utf8. induction s as [|c s IH]; [done|]. intros [Hc Hs]. by rewrite to_utf8_ascii, IH.
Qed.

Lemma itoa_ascii n : 0 <= n -> ascii_only (itoa n).
Proof.
  intros Hn. assert (forall c, digit_of c = None -> char_free c (itoa n)) as Hfree
    by (intros c Hc; by apply itoa_free).
  induction (itoa n) as [|c s IH]; [done|]. split.
  - destruct (digit_of c) eqn:Hd; [|by destruct (Hfree c Hd) as [? _]].
    unfold digit_of in Hd. unfold is_ascii, byte_in. unfold nat_of_ascii in Hd.
    destruct (Z.leb_spec (Z.of_nat (N.to_nat (N_of_ascii c))) 57); [|by rewrite andb_false_r in Hd].
    apply andb_true_iff. rewrite !N.leb_le. lia.
  - apply IH. intros d Hd. by apply Hfree in Hd as [_ ?].
Qed.

(** A dashed name in UTF-8. *)
Lemma to_utf8_dashed a b n : 0 <= n ->
  to_utf8 (a +:+ "-" +:+ b +:+ "-" +:+ itoa n) = to_utf8 a +:+ "-" +:+ to_utf8 b +:+ "-" +:+ itoa n.
Proof.
  intros Hn. rewrite !(append_cons "-"), !append_nil_l, !to_utf8_sep by done.
  by rewrite (utf8_ascii (itoa n)) by (by apply itoa_ascii).
Qed.
End utf8.
