(* ===== verification/Host.v ===== *)
(** * The machine that a process of the framework runs on

    The parts of [net], [os], [os/exec], [path/filepath] and [io/ioutil] that
    more than one component calls: classes for the calls with effects, and
    [net.SplitHostPort], which reads the port out of the address of a listener. *)

From S2P Require Import Prelude GoStrings.
From Stdlib Require Import Ascii.

#[local] Open Scope string_scope.
#[local] Open Scope list_scope.
#[local] Open Scope Z_scope.

(** [net.Listen("tcp", laddr)], which gives the address that is bound, as
    [ln.Addr().String()] prints it, the addresses of a name, and [os.Hostname]. *)
Class GoNet (E : Type) := {
  net_Listen : string -> M E (string * option string);
  net_LookupIP : string -> M E (list string * option string);
  os_Hostname : M E (string * option string) }.

Class GoFiles (E : Type) := {
  filepath_Glob : string -> M E (list string * option string);
  (** [exec.Command(name, args...).Run()] *)
  exec_Run : string -> list string -> M E (option string);
  os_MkdirAll : string -> M E (option string);
  ioutil_WriteFile : string -> string -> M E (option string);
  ioutil_ReadFile : string -> M E (string * option string);
  (** [os.OpenFile], which creates or truncates, and writing to the file. *)
  os_OpenFile : string -> M E (option string);
  file_Write : string -> string -> M E (option string);
  os_WorkDir : M E (string * option string) }.

Class GoNetLaws (E : Type) `{!GoNet E} : Prop := {
  net_Listen_returns addr e : wp total (net_Listen addr) (fun _ _ => True) e;
  net_LookupIP_returns name e : wp total (net_LookupIP name) (fun _ _ => True) e;
  os_Hostname_returns e : wp total os_Hostname (fun _ _ => True) e }.

Class GoFilesLaws (E : Type) `{!GoFiles E} : Prop := {
  filepath_Glob_returns pat e : wp total (filepath_Glob pat) (fun _ _ => True) e;
  exec_Run_returns name args e : wp total (exec_Run name args) (fun _ _ => True) e;
  os_MkdirAll_returns path e : wp total (os_MkdirAll path) (fun _ _ => True) e;
  ioutil_WriteFile_returns path data e : wp total (ioutil_WriteFile path data) (fun _ _ => True) e;
  ioutil_ReadFile_returns path e : wp total (ioutil_ReadFile path) (fun _ _ => True) e;
  os_OpenFile_returns path e : wp total (os_OpenFile path) (fun _ _ => True) e;
  file_Write_returns path data e : wp total (file_Write path data) (fun _ _ => True) e;
  os_WorkDir_returns e : wp total os_WorkDir (fun _ _ => True) e }.

(** ** Addresses *)

(** [net.SplitHostPort]: the port is after the last colon; a host with colons
    is in brackets.  [None] is any of its errors. *)
Definition SplitHostPort (hostport : string) : option (string * string) :=
  match rev (Split hostport ":"%char) with
  | port :: ((_ :: _) as host_rev) =>
      let host := Join (rev host_rev) ":" in
      if HasPrefix hostport "[" then
        match Split host "]"%char with
        | [String _ inner; ""] =>
            if Contains inner "[" || Contains port "[" || Contains port "]" then None
            else Some (inner, port)
        | _ => None
        end
      else if (length host_rev =? 1)%nat && negb (Contains host "%") &&
              negb (Contains hostport "[") && negb (Contains hostport "]")
      then Some (host, port) else None
  | _ => None
  end.

(** The two forms in which a listener on the machine prints its address. *)
Definition loopback_addr (port : Z) : string := "127.0.0.1:" +:+ itoa port.
Definition any_addr (port : Z) : string := "[::]:" +:+ itoa port.

Lemma SplitHostPort_loopback port : 0 <= port ->
  SplitHostPort (loopback_addr port) = Some ("127.0.0.1", itoa port).
Proof.
  intros Hp. unfold SplitHostPort, loopback_addr.
  change ("127.0.0.1:" +:+ itoa port) with ("127.0.0.1" +:+ String ":"%char (itoa port)).
  rewrite Split_app, Split_free by (by apply itoa_free || by repeat split). cbn [rev app length].
  assert (forall c, digit_of c = None -> c <> "."%char -> c <> ":"%char ->
    Contains ("127.0.0.1" +:+ String ":"%char (itoa port)) (String c "") = false) as Hfree.
  { intros c Hc Hd Hcolon. apply Contains_free, char_free_app. split.
    - repeat (split; [by intros <-|]). done.
    - split; [done|by apply itoa_free]. }
  change (HasPrefix _ _) with false. cbn iota. rewrite !Hfree by done. done.
Qed.

Lemma SplitHostPort_any port : 0 <= port -> SplitHostPort (any_addr port) = Some ("::", itoa port).
Proof.
  intros Hp. unfold SplitHostPort, any_addr.
  change ("[::]:" +:+ itoa port) with ("[" +:+ String ":"%char ("" +:+ String ":"%char ("]" +:+ String ":"%char (itoa port)))).
  rewrite !Split_app, Split_free by (by apply itoa_free || by repeat split). cbn [rev app].
  change (HasPrefix _ _) with true. change (Split _ "]"%char) with ["[::"; ""]. cbn iota.
  change (Contains "::" "[") with false. rewrite !Contains_free by (by apply itoa_free). done.
Qed.

(** ** A machine for concrete runs *)

(** Everything succeeds and every file is empty. *)
Module SimHost.
#[export] Instance net {E} : GoNet E :=
  {| net_Listen addr := mret (any_addr 31000, None);
     net_LookupIP name := mret ([name], None);
     os_Hostname := mret ("host", None) |}.
#[export] Instance net_laws {E} : GoNetLaws E.
Proof. by split. Qed.

#[export] Instance files {E} : GoFiles E :=
  {| filepath_Glob pat := mret ([pat], None);
     exec_Run name args := mret None;
     os_MkdirAll path := mret None;
     ioutil_WriteFile path data := mret None;
     ioutil_ReadFile path := mret ("", None);
     os_OpenFile path := mret None;
     file_Write path data := mret None;
     os_WorkDir := mret ("/mnt", None) |}.
#[export] Instance files_laws {E} : GoFilesLaws E.
Proof. by split. Qed.
End SimHost.
