(* ===== verification/Mesos.v ===== *)
(** * The Mesos messages the program handles

    Records for the protobuf messages of [mesosproto], restricted to the fields
    the program reads or writes.  A field that the program only reads through
    its nil-safe accessor holds the value that accessor returns.  The functions
    of [mesosutil] are not part of the repository: they are the operations of
    the class [MesosUtil], and what the program relies on is [MesosUtilLaws]. *)

From S2P Require Import Prelude Float64.

(** ** Messages *)

Record Value_Range := mk_Value_Range { vr_Begin : Z; vr_End : Z }.

Inductive Volume_Mode := Volume_RW | Volume_RO.

Record DiskInfo := mk_DiskInfo {
  di_PersistenceId : string;       (* Disk.Persistence.GetId() *)
  di_ContainerPath : string;       (* Disk.Volume.GetContainerPath() *)
  di_Mode : option Volume_Mode }.

Record ReservationInfo := mk_ReservationInfo { ri_Principal : string }.

Record Resource := mk_Resource {
  r_Name : string;                 (* GetName() *)
  r_Scalar : float64;              (* GetScalar().GetValue() *)
  r_Ranges : list Value_Range;     (* GetRanges().GetRange() *)
  r_Role : option string;          (* the pointer Role *)
  r_Reservation : option ReservationInfo;
  r_Disk : option DiskInfo }.

Record Offer := mk_Offer {
  o_Id : string;
  o_SlaveId : option string;
  o_Hostname : string;
  o_Resources : list Resource }.

Record CommandInfo_URI := mk_URI { uri_Value : string; uri_Executable : bool }.

Record CommandInfo := mk_CommandInfo {
  ci_Value : string;
  ci_Uris : list CommandInfo_URI;
  ci_Shell : bool;
  ci_Arguments : list string }.

Record ExecutorInfo := mk_ExecutorInfo {
  ei_ExecutorId : string;
  ei_Name : string;
  ei_Source : string;
  ei_Command : CommandInfo;
  ei_Resources : list Resource }.

Record TaskInfo := mk_TaskInfo {
  ti_Name : string;
  ti_TaskId : string;
  ti_SlaveId : option string;
  ti_Executor : option ExecutorInfo;
  ti_Resources : list Resource;
  ti_Data : string }.

Inductive TaskState :=
  | TASK_STAGING | TASK_STARTING | TASK_RUNNING | TASK_FINISHED
  | TASK_FAILED | TASK_KILLED | TASK_LOST | TASK_ERROR
  | TASK_other (n : Z).

Record TaskStatus := mk_TaskStatus {
  ts_TaskId : string;
  ts_State : TaskState;
  ts_SlaveId : option string;
  ts_Data : string }.

Inductive Offer_Operation_Type :=
  | Offer_Operation_LAUNCH | Offer_Operation_RESERVE | Offer_Operation_UNRESERVE
  | Offer_Operation_CREATE | Offer_Operation_DESTROY.

Record Offer_Operation := mk_Offer_Operation {
  op_Type : Offer_Operation_Type;
  op_TaskInfos : list TaskInfo;    (* Launch.TaskInfos *)
  op_Resources : list Resource }.  (* of the operation that has resources or volumes *)

#[export] Instance TaskState_eq_dec : EqDecision TaskState.
Proof. solve_decision. Defined.
#[export] Instance Offer_Operation_Type_eq_dec : EqDecision Offer_Operation_Type.
Proof. solve_decision. Defined.

(** ** [mesosutil] *)

Class MesosUtil := {
  Resource_default_role : string;  (* what GetRole() returns for an unset role *)
  FilterResources : list Resource -> (Resource -> bool) -> list Resource;
  NewValueRange : Z -> Z -> Value_Range;
  NewScalarResource : string -> float64 -> Resource;
  NewRangesResource : string -> list Value_Range -> Resource;
  NewScalarResourceWithReservation : string -> float64 -> string -> string -> Resource;
  NewVolumeResourceWithReservation :
    float64 -> string -> string -> Volume_Mode -> string -> string -> Resource;
  AddResourceReservation : Resource -> string -> string -> Resource;
  NewLaunchOperation : list TaskInfo -> Offer_Operation;
  NewReserveOperation : list Resource -> Offer_Operation;
  NewUnreserveOperation : list Resource -> Offer_Operation;
  NewCreateOperation : list Resource -> Offer_Operation;
  NewDestroyOperation : list Resource -> Offer_Operation }.

Class MesosUtilLaws `{!MesosUtil} : Prop := {
  FilterResources_filter l f : FilterResources l f = List.filter f l;
  NewValueRange_eq b e : NewValueRange b e = mk_Value_Range b e;
  NewScalarResource_eq n v :
    NewScalarResource n v = mk_Resource n v [] None None None;
  NewRangesResource_eq n rs :
    NewRangesResource n rs = mk_Resource n fzero rs None None None;
  NewScalarResourceWithReservation_eq n v principal role :
    NewScalarResourceWithReservation n v principal role =
    mk_Resource n v [] (Some role) (Some (mk_ReservationInfo principal)) None;
  NewVolumeResourceWithReservation_eq v path pid mode principal role :
    NewVolumeResourceWithReservation v path pid mode principal role =
    mk_Resource "disk" v [] (Some role) (Some (mk_ReservationInfo principal))
      (Some (mk_DiskInfo pid path (Some mode)));
  AddResourceReservation_eq r principal role :
    AddResourceReservation r principal role =
    mk_Resource (r_Name r) (r_Scalar r) (r_Ranges r) (Some role)
      (Some (mk_ReservationInfo principal)) (r_Disk r);
  NewLaunchOperation_eq l :
    NewLaunchOperation l = mk_Offer_Operation Offer_Operation_LAUNCH l [];
  NewReserveOperation_eq l :
    NewReserveOperation l = mk_Offer_Operation Offer_Operation_RESERVE [] l;
  NewUnreserveOperation_eq l :
    NewUnreserveOperation l = mk_Offer_Operation Offer_Operation_UNRESERVE [] l;
  NewCreateOperation_eq l :
    NewCreateOperation l = mk_Offer_Operation Offer_Operation_CREATE [] l;
  NewDestroyOperation_eq l :
    NewDestroyOperation l = mk_Offer_Operation Offer_Operation_DESTROY [] l }.

Definition GetRole `{!MesosUtil} (r : Resource) : string :=
  default Resource_default_role (r_Role r).

(** An implementation of the documented behaviour, for concrete runs. *)
Module RefMesosUtil.
#[export] Instance ref : MesosUtil := {
  Resource_default_role := "*";
  FilterResources l f := List.filter f l;
  NewValueRange b e := mk_Value_Range b e;
  NewScalarResource n v := mk_Resource n v [] None None None;
  NewRangesResource n rs := mk_Resource n fzero rs None None None;
  NewScalarResourceWithReservation n v principal role :=
    mk_Resource n v [] (Some role) (Some (mk_ReservationInfo principal)) None;
  NewVolumeResourceWithReservation v path pid mode principal role :=
    mk_Resource "disk" v [] (Some role) (Some (mk_ReservationInfo principal))
      (Some (mk_DiskInfo pid path (Some mode)));
  AddResourceReservation r principal role :=
    mk_Resource (r_Name r) (r_Scalar r) (r_Ranges r) (Some role)
      (Some (mk_ReservationInfo principal)) (r_Disk r);
  NewLaunchOperation l := mk_Offer_Operation Offer_Operation_LAUNCH l [];
  NewReserveOperation l := mk_Offer_Operation Offer_Operation_RESERVE [] l;
  NewUnreserveOperation l := mk_Offer_Operation Offer_Operation_UNRESERVE [] l;
  NewCreateOperation l := mk_Offer_Operation Offer_Operation_CREATE [] l;
  NewDestroyOperation l := mk_Offer_Operation Offer_Operation_DESTROY [] l }.

#[export] Instance ref_laws : MesosUtilLaws.
Proof. by split. Qed.
End RefMesosUtil.
