(* ===== verification/Utils.v ===== *)
(** * [common/utils.go]: port ranges and copies of reserved resources

    [ArrayToRanges] and [RangesToArray] convert between port lists and Mesos
    ranges; [CopyReserved*] build the resources of an unreserve or destroy
    operation; [PortIterator] is the channel the launch code takes ports from.
    Main facts: the two conversions are inverse on sets of ports and the
    ranges are canonical; [RangesToArray] is total on well-formed ranges and
    panics, rather than looping, on the malformed ones. *)

From S2P Require Import Prelude GoStrings Host Float64 Mesos.

(** ** Operations *)

(** The largest [int64] slice [make] accepts on a 64-bit system. *)
Definition max_int64_slice : Z := 2 ^ 45.

(** [for i := b; i <= e; i++ { temp[idx] = int64(i); idx++ }] on uint64 [i]. *)
Fixpoint fill_ports {E} (fuel : nat) (i e : Z) (idx : nat) (temp : list Z) : M E (list Z) :=
  match fuel with
  | O => mblock "out of fuel"
  | S fuel' =>
      if i <=? e then
        if decide (idx < length temp)%nat
        then fill_ports fuel' (uwrap64 (i + 1)) e (S idx) (<[idx := wrap64 i]> temp)
        else mpanic "index out of range"
      else mret temp
  end.

Definition RangesToArray {E} (ranges : list Value_Range) : M E (list Z) :=
  mfoldl (fun array mesosRange =>
    let size := uwrap64 (vr_End mesosRange - vr_Begin mesosRange + 1) in
    if max_int64_slice <? size then mpanic "makeslice: len out of range" else
    let temp := repeat 0 (Z.to_nat size) in
    temp' ← fill_ports (S (length temp)) (vr_Begin mesosRange) (vr_End mesosRange) 0 temp;
    mret (array ++ temp')) [] ranges.

(** One step of the loop over the sorted ports; [fakeret] is kept with its
    last element first. *)
Definition extend_ranges (fakeret : list (Z * Z)) (val : Z) : list (Z * Z) :=
  match fakeret with
  | (lo, hi) :: rest =>
      if wrap64 (hi + 1) <? val then (val, val) :: (lo, hi) :: rest
      else (lo, val) :: rest
  | [] => []
  end.

Definition ArrayToRanges `{!MesosUtil} (ports : list Z) : list Value_Range :=
  let ports := merge_sort Z.le ports in
  match ports with
  | [] => []
  | p :: _ =>
      let fakeret := foldl extend_ranges [(p, p)] ports in
      (fun r : Z * Z => NewValueRange (uwrap64 r.1) (uwrap64 r.2)) <$> reverse fakeret
  end.

Definition NewReservedScalarResource `{!MesosUtil} (name : string) (value : float64)
    (principal role : option string) : Resource :=
  let reservation := mk_ReservationInfo (default "" principal) in
  let resource := NewScalarResource name value in
  mk_Resource (r_Name resource) (r_Scalar resource) (r_Ranges resource)
    role (Some reservation) (r_Disk resource).

Definition NewReservedVolume `{!MesosUtil} (value : float64)
    (containerPath persistenceID principal role : option string) : Resource :=
  let resource := NewReservedScalarResource "disk" value principal role in
  let info := mk_DiskInfo (default "" persistenceID) (default "" containerPath)
                (Some Volume_RW) in
  mk_Resource (r_Name resource) (r_Scalar resource) (r_Ranges resource)
    (r_Role resource) (r_Reservation resource) (Some info).

Definition FilterReservedVolumes `{!MesosUtil} (immutableResources : list Resource) : list Resource :=
  FilterResources immutableResources (fun res =>
    bool_decide (is_Some (r_Reservation res)) && bool_decide (is_Some (r_Disk res)) &&
    String.eqb (r_Name res) "disk").

Definition FilterReservedResources `{!MesosUtil} (immutableResources : list Resource) : list Resource :=
  FilterResources immutableResources (fun res =>
    bool_decide (is_Some (r_Reservation res)) && negb (String.eqb (GetRole res) "")).

(** [resource.Reservation.GetPrincipal()], nil-safe. *)
Definition GetPrincipal (r : Resource) : string :=
  match r_Reservation r with Some i => ri_Principal i | None => "" end.

(** [resource.Disk] is not nil where these two are used. *)
Definition disk_path (r : Resource) : string :=
  match r_Disk r with Some d => di_ContainerPath d | None => "" end.
Definition disk_pid (r : Resource) : string :=
  match r_Disk r with Some d => di_PersistenceId d | None => "" end.

Definition CopyReservedVolumes `{!MesosUtil} (immutableResources : list Resource) : list Resource :=
  (fun resource =>
     NewReservedVolume (r_Scalar resource) (Some (disk_path resource)) (Some (disk_pid resource))
       (Some (GetPrincipal resource)) (Some (GetRole resource)))
  <$> FilterReservedVolumes immutableResources.

Definition CopyReservedResources `{!MesosUtil} (immutableResources : list Resource) : list Resource :=
  (fun resource =>
     NewReservedScalarResource (r_Name resource) (r_Scalar resource)
       (Some (GetPrincipal resource)) (Some (GetRole resource)))
  <$> FilterReservedResources immutableResources.

(** The values a [PortIterator] channel delivers before it is closed, and a
    receive, which yields 0 on the closed channel. *)
Definition PortIterator `{!MesosUtil} {E} (resources : list Resource) : M E (list Z) :=
  goroutine (mfoldl (fun sent resource =>
    ports ← RangesToArray (r_Ranges resource);
    mret (sent ++ ports)) []
    (FilterResources resources (fun res => String.eqb (r_Name res) "ports"))).

Definition recv (ports : list Z) : Z * list Z :=
  match ports with
  | [] => (0, [])
  | p :: rest => (p, rest)
  end.

(** The Erlang port mapper of a release is replaced by [/bin/true]. *)
Definition KillEPMD {E} `{!GoFiles E} (dir : string) : M E (option string) :=
  r ← filepath_Glob (filepath_Join [dir; "/erts-*/bin/epmd"]%string);
  match r.2 with
  | Some err => mret (Some err)
  | None =>
      if negb (length r.1 =? 1)%nat
      then mret (Some ("Not the right number of globs: " +:+ itoa (Z.of_nat (length r.1)))%string)
      else glob ← index r.1 0; exec_Run "/bin/cp"%string ["/bin/true"%string; glob]
  end.

(** ** From ranges to ports *)

(** A range of ports as Mesos sends it. *)
Definition range_ok (r : Value_Range) : Prop :=
  0 <= vr_Begin r /\ vr_Begin r <= vr_End r + 1 /\ vr_End r < 2 ^ 63 - 1 /\
  vr_End r - vr_Begin r + 1 <= max_int64_slice.

Definition range_ports (r : Value_Range) : list Z :=
  seqZ (vr_Begin r) (vr_End r - vr_Begin r + 1).

Lemma fill_ports_ok {E} fuel i e idx temp (w : E) :
  0 <= i -> i <= e + 1 -> e < 2 ^ 63 - 1 ->
  (Z.to_nat (e - i + 1) < fuel)%nat ->
  length temp = (idx + Z.to_nat (e - i + 1))%nat ->
  fill_ports fuel i e idx temp w = (Ret (take idx temp ++ seqZ i (e - i + 1)), w).
Proof.
  revert i idx temp. induction fuel as [|fuel IH]; intros i idx temp Hi Hie He Hf Hlen; [lia|].
  simpl. destruct (Z.leb_spec i e) as [Hle|Hgt].
  - rewrite decide_True by lia. rewrite uwrap64_id, wrap64_id by (unfold int64_ok; lia).
    rewrite IH by (rewrite ?length_insert; lia).
    rewrite (seqZ_cons i) by lia.
    rewrite (take_S_r _ _ i) by (apply list_lookup_insert_eq; lia).
    rewrite take_insert_ge, <- app_assoc by lia. simpl. repeat f_equal; lia.
  - rewrite seqZ_nil, app_nil_r by lia. rewrite take_ge by lia. done.
Qed.

Lemma RangesToArray_ok {E} ranges (w : E) : Forall range_ok ranges ->
  RangesToArray ranges w = (Ret (concat (range_ports <$> ranges)), w).
Proof.
  intros Hok. unfold RangesToArray.
  change (concat (range_ports <$> ranges)) with ([] ++ concat (range_ports <$> ranges)).
  generalize ([] : list Z) as acc.
  induction Hok as [|r ranges (Hb & Hbe & He & Hs) Hok IH]; intros acc; cbn [mfoldl].
  - by rewrite app_nil_r.
  - unfold max_int64_slice in *.
    unfold mbind at 1, M_bind at 1. rewrite uwrap64_id by lia.
    destruct (Z.ltb_spec (2 ^ 45) (vr_End r - vr_Begin r + 1)) as [|_]; [lia|].
    unfold mbind, M_bind. rewrite fill_ports_ok by (rewrite ?repeat_length; lia).
    simpl. rewrite app_assoc. apply IH.
Qed.

(** A loop that ends: no outcome but a value or a Go panic. *)
Definition terminates {E A} (m : M E A) : Prop :=
  forall w, match (m w).1 with Ret _ | Panic _ => True | _ => False end.

Lemma fill_ports_terminates {E} fuel i e idx temp :
  (idx <= length temp < fuel + idx)%nat -> terminates (E := E) (fill_ports fuel i e idx temp).
Proof.
  revert i idx temp. induction fuel as [|fuel IH]; intros i idx temp Hf w; simpl.
  - lia.
  - destruct (i <=? e); [|done]. case_decide; [|done].
    apply IH. rewrite length_insert. lia.
Qed.

Lemma terminates_bind {E A B} (m : M E A) (f : A -> M E B) :
  terminates m -> (forall a, terminates (f a)) -> terminates (m ≫= f).
Proof.
  intros Hm Hf w. unfold mbind, M_bind. specialize (Hm w).
  destruct (m w) as [[] w']; simpl in *; try done. apply Hf.
Qed.

Lemma terminates_mfoldl {E A B} (f : B -> A -> M E B) l b :
  (forall b a, terminates (f b a)) -> terminates (mfoldl f b l).
Proof.
  intros Hf. revert b. induction l as [|a l IH]; intros b; simpl; [done|].
  by apply terminates_bind.
Qed.

(** ** From ports to ranges *)

(** Ports as Mesos numbers them: far from the ends of [int64]. *)
Definition port_ok (p : Z) : Prop := 0 <= p < 2 ^ 63 - 1.

Definition pair_ports (fr : list (Z * Z)) : list Z :=
  concat ((fun r : Z * Z => seqZ r.1 (r.2 - r.1 + 1)) <$> reverse fr).

(** Ranges, last first, that are not empty, ascend and are not adjacent. *)
Fixpoint pairs_canonical (fr : list (Z * Z)) : Prop :=
  match fr with
  | [] => True
  | (lo, hi) :: rest =>
      0 <= lo <= hi /\ hi < 2 ^ 63 - 1 /\
      match rest with [] => True | (_, hi') :: _ => hi' + 1 < lo end /\
      pairs_canonical rest
  end.

Lemma pair_ports_cons lo hi rest :
  pair_ports ((lo, hi) :: rest) = pair_ports rest ++ seqZ lo (hi - lo + 1).
Proof.
  unfold pair_ports. rewrite reverse_cons, fmap_app, concat_app. simpl.
  by rewrite app_nil_r.
Qed.

Lemma extend_ranges_ok lo hi rest val : port_ok val -> hi < val ->
  pairs_canonical ((lo, hi) :: rest) ->
  exists lo' rest', extend_ranges ((lo, hi) :: rest) val = (lo', val) :: rest' /\
    pairs_canonical ((lo', val) :: rest') /\
    pair_ports ((lo', val) :: rest') = pair_ports ((lo, hi) :: rest) ++ [val].
Proof.
  unfold port_ok. intros Hv Hlt Hc. cbn [extend_ranges].
  pose proof Hc as (Hlo & Hhi & Hrest & Hc').
  rewrite wrap64_id by (unfold int64_ok; lia).
  destruct (Z.ltb_spec (hi + 1) val).
  - exists val, ((lo, hi) :: rest). split; [done|]. split; [simpl; repeat split; done || lia|].
    rewrite (pair_ports_cons val). f_equal. rewrite seqZ_cons, seqZ_nil by lia. done.
  - assert (val = hi + 1) as -> by lia.
    exists lo, rest. split; [done|]. split; [simpl; repeat split; done || lia|].
    rewrite !pair_ports_cons, <- app_assoc. f_equal.
    replace (hi + 1 - lo + 1) with ((hi - lo + 1) + 1) by lia.
    rewrite seqZ_app by lia. f_equal. rewrite seqZ_cons, seqZ_nil by lia. f_equal. lia.
Qed.

Lemma foldl_extend_ranges_ok lo hi rest l :
  Forall port_ok l -> StronglySorted Z.lt (hi :: l) -> pairs_canonical ((lo, hi) :: rest) ->
  let fr := foldl extend_ranges ((lo, hi) :: rest) l in
  pairs_canonical fr /\ pair_ports fr = pair_ports ((lo, hi) :: rest) ++ l.
Proof.
  intros Hl. revert lo hi rest. induction Hl as [|v l Hv Hl IH]; intros lo hi rest Hs Hc.
  - simpl foldl. by rewrite app_nil_r.
  - inversion Hs as [|? ? Hs' Hhi]; subst. inversion Hhi; subst.
    destruct (extend_ranges_ok lo hi rest v) as (lo' & rest' & Heq & Hc' & Hp); [done..|].
    cbn [foldl]. rewrite Heq. destruct (IH lo' v rest' Hs' Hc') as [Hc'' Hp''].
    split; [done|]. rewrite Hp'', Hp, <- app_assoc. done.
Qed.

Lemma StronglySorted_le_lt l : StronglySorted Z.le l -> NoDup l -> StronglySorted Z.lt l.
Proof.
  induction 1 as [|x l Hs IH Hx]; intros Hnd; [constructor|].
  apply NoDup_cons in Hnd as [Hnin Hnd]. constructor; [auto|].
  rewrite Forall_forall in *. intros y Hy. specialize (Hx y Hy).
  assert (x <> y) by (by intros ->). lia.
Qed.

Section ArrayToRanges.
Context `{!MesosUtil, !MesosUtilLaws}.

Lemma sorted_ports l : NoDup l -> Forall port_ok l ->
  StronglySorted Z.lt (merge_sort Z.le l) /\ Forall port_ok (merge_sort Z.le l).
Proof.
  intros Hnd Hok. split.
  - apply StronglySorted_le_lt; [apply (StronglySorted_merge_sort _)|].
    by rewrite merge_sort_Permutation.
  - by rewrite merge_sort_Permutation.
Qed.

(** The ranges are the canonical pairs of the sorted ports. *)
Lemma ArrayToRanges_pairs l : NoDup l -> Forall port_ok l ->
  exists fr, ArrayToRanges l = (fun r : Z * Z => mk_Value_Range r.1 r.2) <$> reverse fr /\
    pairs_canonical fr /\ pair_ports fr = merge_sort Z.le l.
Proof.
  intros Hnd Hok. destruct (sorted_ports l Hnd Hok) as [Hs Hok']. unfold ArrayToRanges.
  destruct (merge_sort Z.le l) as [|p l'] eqn:Hl; [by exists []|].
  inversion Hok' as [|? ? Hp Hl']; subst. unfold port_ok in Hp.
  assert (foldl extend_ranges [(p, p)] (p :: l') = foldl extend_ranges [(p, p)] l') as ->.
  { cbn [foldl extend_ranges]. rewrite wrap64_id by (unfold int64_ok; lia).
    by destruct (Z.ltb_spec (p + 1) p); [lia|]. }
  destruct (foldl_extend_ranges_ok p p [] l') as [Hc Hports]; [done|done|simpl; lia|].
  eexists. split; [|split; [exact Hc|]].
  - apply list_fmap_ext. intros i [lo hi] Hi. simpl. rewrite NewValueRange_eq.
    assert (0 <= lo /\ lo <= hi < 2 ^ 63 - 1) as [? ?].
    { apply list_elem_of_lookup_2 in Hi. rewrite elem_of_reverse in Hi. clear Hports. revert Hc Hi.
      generalize (foldl extend_ranges [(p, p)] l'). intros fr. induction fr as [|[a b] fr IH]; [set_solver|].
      intros (? & ? & _ & ?) [[= -> ->]|]%elem_of_cons; [lia|auto]. }
    f_equal; apply uwrap64_id; lia.
  - rewrite Hports. unfold pair_ports. simpl.
    rewrite seqZ_cons, seqZ_nil by lia. done.
Qed.
End ArrayToRanges.

(** ** Properties *)

Lemma pairs_canonical_range_ok fr lo hi :
  pairs_canonical fr -> Forall (fun r : Z * Z => r.2 - r.1 + 1 <= max_int64_slice) fr ->
  Forall range_ok ((fun r : Z * Z => mk_Value_Range r.1 r.2) <$> fr) /\
  ((lo, hi) ∈ fr -> 0 <= lo <= hi).
Proof.
  intros Hc Hsz. induction Hsz as [|[a b] fr Hab Hsz IH]; [by split; [constructor|set_solver]|].
  destruct Hc as (? & ? & _ & Hc). destruct (IH Hc) as [IH1 IH2]. split.
  - constructor; [|done]. unfold range_ok; simpl in *; lia.
  - intros [[= -> ->]|]%elem_of_cons; auto.
Qed.

Lemma pair_ports_bound fr r : r ∈ fr -> pairs_canonical fr ->
  r.2 - r.1 + 1 <= Z.of_nat (length (pair_ports fr)).
Proof.
  induction fr as [|[a b] fr IH]; [set_solver|].
  rewrite pair_ports_cons, length_app, length_seqZ.
  intros [->|Hr]%elem_of_cons (? & ? & _ & Hc); simpl in *; [lia|].
  specialize (IH Hr Hc). lia.
Qed.

Section properties.
Context `{!MesosUtil, !MesosUtilLaws}.

Lemma ports_roundtrip_lemma {E} (ports : list Z) (w : E) :
  NoDup ports -> Forall port_ok ports -> Z.of_nat (length ports) <= max_int64_slice ->
  RangesToArray (ArrayToRanges ports) w = (Ret (merge_sort Z.le ports), w).
Proof.
  intros Hnd Hok Hlen. destruct (ArrayToRanges_pairs ports Hnd Hok) as (fr & -> & Hc & Hp).
  assert (Forall (fun r : Z * Z => r.2 - r.1 + 1 <= max_int64_slice) fr) as Hsz.
  { apply Forall_forall. intros r Hr. pose proof (pair_ports_bound fr r Hr Hc) as Hb.
    rewrite Hp, merge_sort_Permutation in Hb. lia. }
  rewrite RangesToArray_ok.
  - rewrite <- Hp. do 2 f_equal. unfold pair_ports. by rewrite <- list_fmap_compose.
  - destruct (pairs_canonical_range_ok fr 0 0 Hc Hsz) as [Hall _].
    rewrite fmap_reverse. by rewrite reverse_Permutation.
Qed.

(** The ranges built from a set of ports are not empty, ascend and
    leave a gap between neighbours, so they are the fewest possible. *)
Theorem ports_canonical (ports : list Z) : NoDup ports -> Forall port_ok ports ->
  Forall (fun r => 0 <= vr_Begin r <= vr_End r) (ArrayToRanges ports) /\
  StronglySorted (fun r1 r2 => vr_End r1 + 1 < vr_Begin r2) (ArrayToRanges ports).
Proof.
  intros Hnd Hok. destruct (ArrayToRanges_pairs ports Hnd Hok) as (fr & -> & Hc & _).
  clear Hnd Hok. rewrite fmap_reverse. induction fr as [|[lo hi] fr IH].
  { split; constructor. }
  destruct Hc as (? & ? & Hn & Hc). destruct (IH Hc) as [IH1 IH2].
  cbn [fmap list_fmap fst snd]. rewrite reverse_cons. split.
  - rewrite Forall_app. split; [done|]. by apply Forall_singleton.
  - apply StronglySorted_app_2; [|done|repeat constructor].
    intros r1 r2 Hr ->%list_elem_of_singleton. simpl. rewrite elem_of_reverse in Hr.
    destruct fr as [|[lo' hi'] fr]; [set_solver|].
    apply elem_of_cons in Hr as [->|Hr]; [done|].
    cbn [fmap list_fmap] in IH2. rewrite reverse_cons in IH2.
    apply (StronglySorted_app_1_elem_of _ _ _ r1 (mk_Value_Range lo' hi')) in IH2;
      [simpl in *|by apply elem_of_reverse|by apply list_elem_of_singleton].
    destruct Hc as (? & _). lia.
Qed.

(** C26 [ports_roundtrip]: converting a set of ports to Mesos ranges and back gives the
    same ports, in ascending order; the ranges are not empty, ascend and leave
    a gap between neighbours, so they are the fewest possible. *)
Theorem ports_roundtrip {E} (ports : list Z) (w : E) :
  NoDup ports -> Forall port_ok ports -> Z.of_nat (length ports) <= max_int64_slice ->
  RangesToArray (ArrayToRanges ports) w = (Ret (merge_sort Z.le ports), w) /\
  Forall (fun r => 0 <= vr_Begin r <= vr_End r) (ArrayToRanges ports) /\
  StronglySorted (fun r1 r2 => vr_End r1 + 1 < vr_Begin r2) (ArrayToRanges ports).
Proof. intros. split; [by apply ports_roundtrip_lemma|by apply ports_canonical]. Qed.

(** C35 [ranges_terminate]: on any ranges whatsoever, also those with an end below the
    begin or at the top of uint64, [RangesToArray] ends with a value or a
    panic: its loop cannot run for ever. *)
Theorem ranges_terminate {E} (ranges : list Value_Range) :
  terminates (E := E) (RangesToArray ranges).
Proof.
  apply terminates_mfoldl. intros acc r. cbv zeta. destruct (_ <? _); [by intros ?|].
  apply terminates_bind; [|by intros ??]. apply fill_ports_terminates. lia.
Qed.
End properties.

Section witnesses.
Import RefMesosUtil.

Definition ex_ports : list Z := [31004; 31000; 31001; 31003; 31008].

Lemma ports_roundtrip_witness :
  RangesToArray (ArrayToRanges ex_ports) tt = (Ret [31000; 31001; 31003; 31004; 31008], tt) /\
  Forall (fun r => 0 <= vr_Begin r <= vr_End r) (ArrayToRanges ex_ports) /\
  StronglySorted (fun r1 r2 => vr_End r1 + 1 < vr_Begin r2) (ArrayToRanges ex_ports).
Proof.
  apply (ports_roundtrip ex_ports tt);
    [by apply (bool_decide_unpack _) | repeat constructor; lia | by vm_compute].
Defined.

Example ex_ranges : ArrayToRanges ex_ports =
  [mk_Value_Range 31000 31001; mk_Value_Range 31003 31004; mk_Value_Range 31008 31008].
Proof. reflexivity. Qed.
End witnesses.
