(* ===== verification/Structs.v ===== *)
(** * [common/structs.go]: the data the parts exchange

    The records and their JSON forms.  [encoding/json] is a class: [Marshal]
    gives the bytes and an error, [Unmarshal] decodes into a value; the law is
    that decoding an encoded value into a zero value gives it back, with the
    bytes that are not UTF-8 replaced. *)

From S2P Require Import Prelude GoStrings.

Class Json (T : Type) := {
  Marshal : T -> string * option string;
  Unmarshal : string -> T -> T * option string }.

Record TaskData := mk_TaskData {
  FullyQualifiedNodeName : string;
  Zookeepers : list string;
  td_FrameworkName : string;
  td_ClusterName : string;
  URI : string;
  Host : string;
  UseSuperChroot : bool;
  HTTPPort : Z;
  PBPort : Z;
  HandoffPort : Z;
  DisterlPort : Z }.

Definition zero_TaskData : TaskData := mk_TaskData "" [] "" "" "" "" false 0 0 0 0.

Record CoordinatedData := mk_CoordinatedData {
  cd_FrameworkName : string;
  cd_ClusterName : string;
  cd_NodeName : string;
  cd_DisterlPort : Z;
  cd_PBPort : Z;
  cd_HTTPPort : Z;
  cd_Hostname : string }.

Definition zero_CoordinatedData : CoordinatedData := mk_CoordinatedData "" "" "" 0 0 0 "".

Record DisterlData := mk_DisterlData { dd_NodeName : string; dd_DisterlPort : Z }.

Definition zero_DisterlData : DisterlData := mk_DisterlData "" 0.

Record TaskStatusData := mk_TaskStatusData { RexPort : Z }.

Definition zero_TaskStatusData : TaskStatusData := mk_TaskStatusData 0.

(** A value with the text that JSON can carry. *)
Class JsonText (T : Type) := json_text : T -> T.

#[export] Instance text_TaskData : JsonText TaskData := fun t =>
  mk_TaskData (to_utf8 (FullyQualifiedNodeName t)) (to_utf8 <$> Zookeepers t)
    (to_utf8 (td_FrameworkName t)) (to_utf8 (td_ClusterName t)) (to_utf8 (URI t)) (to_utf8 (Host t))
    (UseSuperChroot t) (HTTPPort t) (PBPort t) (HandoffPort t) (DisterlPort t).
#[export] Instance text_DisterlData : JsonText DisterlData := fun t =>
  mk_DisterlData (to_utf8 (dd_NodeName t)) (dd_DisterlPort t).
#[export] Instance text_CoordinatedData : JsonText CoordinatedData := fun t =>
  mk_CoordinatedData (to_utf8 (cd_FrameworkName t)) (to_utf8 (cd_ClusterName t))
    (to_utf8 (cd_NodeName t)) (cd_DisterlPort t) (cd_PBPort t) (cd_HTTPPort t) (to_utf8 (cd_Hostname t)).
#[export] Instance text_TaskStatusData : JsonText TaskStatusData := fun t => t.

(** Decoding what was encoded, into the zero value [z]. *)
Definition json_roundtrip {T} `{!Json T, !JsonText T} (z : T) : Prop :=
  forall t, (Marshal t).2 = None /\ Unmarshal (Marshal t).1 z = (json_text t, None).

Definition TaskData_Serialize `{!Json TaskData} (s : TaskData) : string * option string :=
  Marshal s.
Definition DeserializeTaskData `{!Json TaskData} (data : string) : TaskData * option string :=
  Unmarshal data zero_TaskData.

Definition CoordinatedData_Serialize `{!Json CoordinatedData} (s : CoordinatedData) :
  string * option string := Marshal s.
Definition DeserializeCoordinatedData `{!Json CoordinatedData} (data : string) :
  CoordinatedData * option string := Unmarshal data zero_CoordinatedData.

Definition DisterlData_Serialize `{!Json DisterlData} (s : DisterlData) :
  string * option string := Marshal s.
Definition DeserializeDisterlData `{!Json DisterlData} (data : string) :
  DisterlData * option string := Unmarshal data zero_DisterlData.

Definition TaskStatusData_Serialize `{!Json TaskStatusData} (s : TaskStatusData) :
  string * option string := Marshal s.
Definition DeserializeTaskStatusData `{!Json TaskStatusData} (data : string) :
  TaskStatusData * option string := Unmarshal data zero_TaskStatusData.
