(* ===== verification/Ser.v ===== *)
(** * An encoding for concrete runs

    A value is a sequence of tokens, the fields one after the other as stdpp's
    [encode] makes them positive numbers; the text is the tokens in binary.
    The messages of [Structs] are encoded here, the scheduler's state in
    [Codec]. *)

From S2P Require Import Prelude GoStrings Structs.
From stdpp Require Import countable.
From Stdlib Require Import Ascii.

#[local] Open Scope string_scope.
#[local] Open Scope list_scope.
#[local] Open Scope Z_scope.

(** ** Serializing into tokens *)

(** A value is a sequence of tokens, which reading takes off the front. *)
Class Ser (T : Type) := {
  ser : T -> list positive;
  de : list positive -> option (T * list positive);
  de_ser x rest : de (ser x ++ rest) = Some (x, rest) }.

Definition ser_leaf {T} `{Countable T} : Ser T.
Proof.
  refine {| ser x := [encode x];
    de l := match l with p :: rest => x ← decode p; Some (x, rest) | [] => None end |}.
  intros x rest. cbn. by rewrite decode_encode.
Defined.

Definition ser_inj {A B} `{Ser B} (f : A -> B) (g : B -> A) (Hgf : forall x, g (f x) = x) : Ser A.
Proof.
  refine {| ser x := ser (f x); de l := r ← de l; Some (g r.1, r.2) |}.
  intros x rest. rewrite de_ser. cbn. by rewrite Hgf.
Defined.

#[export] Instance ser_pair {A B} `{Ser A, Ser B} : Ser (A * B).
Proof.
  refine {| ser x := ser x.1 ++ ser x.2;
    de l := r ← de l; s ← de r.2; Some ((r.1, s.1), s.2) |}.
  intros [x y] rest. cbn. rewrite <- app_assoc, de_ser. cbn. by rewrite de_ser.
Defined.

Fixpoint de_n {A} `{Ser A} (n : nat) (l : list positive) : option (list A * list positive) :=
  match n with
  | O => Some ([], l)
  | S n => r ← de l; s ← de_n n r.2; Some (r.1 :: s.1, s.2)
  end.

#[export] Instance ser_list {A} `{Ser A} : Ser (list A).
Proof.
  refine {| ser l := Pos.of_succ_nat (length l) :: concat (ser <$> l);
    de l := match l with p :: rest => de_n (Nat.pred (Pos.to_nat p)) rest | [] => None end |}.
  intros l rest. cbn. rewrite SuccNat2Pos.id_succ. cbn.
  induction l as [|x l IH]; [done|]. cbn. rewrite <- app_assoc, de_ser. cbn. by rewrite IH.
Defined.

#[export] Instance ser_bool : Ser bool := ser_leaf.
#[export] Instance ser_Z : Ser Z := ser_leaf.
#[export] Instance ser_string : Ser string := ser_leaf.
#[export] Instance ser_option {A} `{Ser A} : Ser (option A).
Proof. refine (ser_inj (fun x => match x with Some x => [x] | None => [] end) head _). by intros []. Defined.
#[export] Instance ser_map {A} `{Ser A} : Ser (gmap string A).
Proof.
  refine (ser_inj (B := list (string * A)) map_to_list list_to_map _). apply list_to_map_to_list.
Defined.

#[export] Instance ser_TaskData : Ser TaskData.
Proof.
  refine (ser_inj
    (fun x => (FullyQualifiedNodeName x, Zookeepers x, td_FrameworkName x, td_ClusterName x, URI x,
       Host x, UseSuperChroot x, HTTPPort x, PBPort x, HandoffPort x, DisterlPort x))
    (fun '(a, b, c, d, e, f, g, h, i, j, k) => mk_TaskData a b c d e f g h i j k) _). by intros [].
Defined.

#[export] Instance ser_DisterlData : Ser DisterlData.
Proof.
  refine (ser_inj (fun x => (dd_NodeName x, dd_DisterlPort x)) (fun '(a, b) => mk_DisterlData a b) _).
  by intros [].
Defined.

#[export] Instance ser_CoordinatedData : Ser CoordinatedData.
Proof.
  refine (ser_inj
    (fun x => (cd_FrameworkName x, cd_ClusterName x, cd_NodeName x, cd_DisterlPort x, cd_PBPort x,
       cd_HTTPPort x, cd_Hostname x))
    (fun '(a, b, c, d, e, f, g) => mk_CoordinatedData a b c d e f g) _). by intros [].
Defined.

#[export] Instance ser_TaskStatusData : Ser TaskStatusData.
Proof. refine (ser_inj RexPort mk_TaskStatusData _). by intros []. Defined.

(** ** Text *)

Fixpoint bits (p : positive) : string :=
  match p with
  | xH => EmptyString
  | xO p => String "0" (bits p)
  | xI p => String "1" (bits p)
  end.

(** Reading stops at the end of the line. *)
Fixpoint unbits (s : string) : positive :=
  match s with
  | EmptyString => xH
  | String c s => if Ascii.eqb c "0" then xO (unbits s)
                  else if Ascii.eqb c "1" then xI (unbits s) else xH
  end.

Lemma unbits_bits p : unbits (bits p +:+ newline) = p.
Proof.
  induction p as [p IH|p IH|]; cbn [bits]; [| |done].
  - change (String "1" (bits p) +:+ newline) with (String "1" (bits p +:+ newline)).
    cbn [unbits]. simpl. by rewrite IH.
  - change (String "0" (bits p) +:+ newline) with (String "0" (bits p +:+ newline)).
    cbn [unbits]. simpl. by rewrite IH.
Qed.

(** A text for every value, which reads back. *)
Module SimJson.
Definition of_ser {T} `{Ser T, JsonText T} : Json T :=
  {| Marshal t := (bits (positives_flatten (ser (json_text t))), None);
     Unmarshal s z :=
       match l ← positives_unflatten (unbits (s +:+ newline)); de l with
       | Some (t, _) => (t, None)
       | None => (z, Some "invalid character")
       end |}.

Lemma of_ser_roundtrip {T} `{Ser T, JsonText T} (z : T) : json_roundtrip (Json0 := of_ser) z.
Proof.
  intros t. split; [done|]. unfold Marshal, Unmarshal, of_ser. cbn [fst].
  rewrite unbits_bits, positives_unflatten_flatten. cbn [mbind option_bind].
  by rewrite <- (app_nil_r (ser (json_text t))), de_ser.
Qed.

#[export] Instance json_task : Json TaskData := of_ser.
#[export] Instance json_disterl : Json DisterlData := of_ser.
#[export] Instance json_coordinated : Json CoordinatedData := of_ser.
#[export] Instance json_task_status : Json TaskStatusData := of_ser.
End SimJson.
