(* ===== verification/Offer.v ===== *)
(** * [common/offer.go]: what is done with a Mesos offer

    An [OfferHelper] keeps the reserved and unreserved resources that are left
    of an offer and collects the operations to perform on it.  [apply] takes
    resources out of one of the two groups and returns the Mesos resources for
    them; it draws a random position for the ports, so it runs in the effect
    monad over a state with [math/rand] ([GoRand]). *)

From S2P Require Import Prelude Float64 Mesos Utils.

#[local] Open Scope f64_scope.
#[local] Open Scope Z_scope.

(** [rand.Intn(n)], for [n > 0]: a number below [n]. *)
Class GoRand (E : Type) := rand_Intn : Z -> M E Z.
Class GoRandLaws (E : Type) `{!GoRand E} : Prop :=
  rand_Intn_range n e : 0 < n -> wp total (rand_Intn n) (fun k _ => 0 <= k < n) e.

(** ** State *)

Record ResourceGroup := mk_ResourceGroup {
  Cpus : float64;
  Mem : float64;
  Disk : float64;
  Ports : list Z }.

Record OfferHelper := mk_OfferHelper {
  MesosOffer : Offer;
  OfferIDStr : string;
  PersistenceIDs : list string;
  ReservedResources : ResourceGroup;
  UnreservedResources : ResourceGroup;
  ResourcesToReserve : list Resource;
  ResourcesToUneserve : list Resource;
  VolumesToCreate : list Resource;
  VolumesToDestroy : list Resource;
  TasksToLaunch : list TaskInfo }.

Definition set_reserved (o : OfferHelper) (g : ResourceGroup) : OfferHelper :=
  mk_OfferHelper (MesosOffer o) (OfferIDStr o) (PersistenceIDs o) g (UnreservedResources o)
    (ResourcesToReserve o) (ResourcesToUneserve o) (VolumesToCreate o) (VolumesToDestroy o)
    (TasksToLaunch o).
Definition set_unreserved (o : OfferHelper) (g : ResourceGroup) : OfferHelper :=
  mk_OfferHelper (MesosOffer o) (OfferIDStr o) (PersistenceIDs o) (ReservedResources o) g
    (ResourcesToReserve o) (ResourcesToUneserve o) (VolumesToCreate o) (VolumesToDestroy o)
    (TasksToLaunch o).
Definition add_to_reserve (o : OfferHelper) (l : list Resource) : OfferHelper :=
  mk_OfferHelper (MesosOffer o) (OfferIDStr o) (PersistenceIDs o) (ReservedResources o)
    (UnreservedResources o) (ResourcesToReserve o ++ l) (ResourcesToUneserve o)
    (VolumesToCreate o) (VolumesToDestroy o) (TasksToLaunch o).
Definition add_to_unreserve (o : OfferHelper) (l : list Resource) : OfferHelper :=
  mk_OfferHelper (MesosOffer o) (OfferIDStr o) (PersistenceIDs o) (ReservedResources o)
    (UnreservedResources o) (ResourcesToReserve o) (ResourcesToUneserve o ++ l)
    (VolumesToCreate o) (VolumesToDestroy o) (TasksToLaunch o).
Definition add_to_create (o : OfferHelper) (l : list Resource) : OfferHelper :=
  mk_OfferHelper (MesosOffer o) (OfferIDStr o) (PersistenceIDs o) (ReservedResources o)
    (UnreservedResources o) (ResourcesToReserve o) (ResourcesToUneserve o)
    (VolumesToCreate o ++ l) (VolumesToDestroy o) (TasksToLaunch o).
Definition add_to_destroy (o : OfferHelper) (l : list Resource) : OfferHelper :=
  mk_OfferHelper (MesosOffer o) (OfferIDStr o) (PersistenceIDs o) (ReservedResources o)
    (UnreservedResources o) (ResourcesToReserve o) (ResourcesToUneserve o)
    (VolumesToCreate o) (VolumesToDestroy o ++ l) (TasksToLaunch o).
Definition add_to_launch (o : OfferHelper) (l : list TaskInfo) : OfferHelper :=
  mk_OfferHelper (MesosOffer o) (OfferIDStr o) (PersistenceIDs o) (ReservedResources o)
    (UnreservedResources o) (ResourcesToReserve o) (ResourcesToUneserve o)
    (VolumesToCreate o) (VolumesToDestroy o) (TasksToLaunch o ++ l).

(** ** Reading the offer *)

Section reading.
Context `{!MesosUtil}.

Definition getPersistenceIds (resources : list Resource) : list string :=
  disk_pid <$> FilterResources resources (fun res =>
    String.eqb (r_Name res) "disk" && bool_decide (is_Some (r_Reservation res)) &&
    bool_decide (is_Some (r_Disk res))).

Definition matches (name : string) (withReservation : bool) (res : Resource) : bool :=
  if withReservation
  then String.eqb (r_Name res) name && bool_decide (is_Some (r_Reservation res))
  else String.eqb (r_Name res) name && bool_decide (r_Reservation res = None).

Definition getPorts {E} (resources : list Resource) (withReservation : bool) : M E (list Z) :=
  mfoldl (fun val res =>
    ports ← RangesToArray (r_Ranges res);
    mret (val ++ ports)) []
    (FilterResources resources (matches "ports" withReservation)).

Definition getResource (name : string) (resources : list Resource) (withReservation : bool) : float64 :=
  foldl (fun val res => (val + r_Scalar res)%f64) fzero
    (FilterResources resources (matches name withReservation)).

Definition getUnreservedResources {E} (resources : list Resource) : M E ResourceGroup :=
  ports ← getPorts resources false;
  mret (mk_ResourceGroup (getResource "cpus" resources false)
          (getResource "mem" resources false) (getResource "disk" resources false) ports).

Definition getReservedResources {E} (resources : list Resource) : M E (ResourceGroup * list string) :=
  ports ← getPorts resources true;
  mret (mk_ResourceGroup (getResource "cpus" resources true)
          (getResource "mem" resources true) (getResource "disk" resources true) ports,
        getPersistenceIds resources).

Definition NewOfferHelper {E} (mesosOffer : Offer) : M E OfferHelper :=
  unreserved ← getUnreservedResources (o_Resources mesosOffer);
  reserved ← getReservedResources (o_Resources mesosOffer);
  mret (mk_OfferHelper mesosOffer (o_Id mesosOffer) reserved.2 reserved.1 unreserved
          [] [] [] [] []).
End reading.

(** ** Queries *)

Definition OfferHasReservations (o : OfferHelper) : bool :=
  fltb fzero (Cpus (ReservedResources o)) || fltb fzero (Mem (ReservedResources o)) ||
  fltb fzero (Disk (ReservedResources o)) ||
  (0 <? length (Ports (ReservedResources o)))%nat.

Definition OfferHasVolumes (o : OfferHelper) : bool := (0 <? length (PersistenceIDs o))%nat.

Definition CanFit (g : ResourceGroup) (cpus mem disk : float64) (ports : Z) : bool :=
  fleb cpus (Cpus g) && fleb mem (Mem g) && fleb disk (Disk g) &&
  (ports <=? Z.of_nat (length (Ports g))).

Definition CanFitReserved (o : OfferHelper) := CanFit (ReservedResources o).
Definition CanFitUnreserved (o : OfferHelper) := CanFit (UnreservedResources o).

Definition HasPersistenceId (o : OfferHelper) (persistenceId : string) : bool :=
  existsb (fun p => String.eqb p persistenceId) (PersistenceIDs o).

Definition MaybeUnreserve `{!MesosUtil} (o : OfferHelper) : OfferHelper :=
  if (0 <? length (TasksToLaunch o))%nat then o else
  let o1 := if OfferHasReservations o
            then add_to_unreserve o (CopyReservedResources (o_Resources (MesosOffer o)))
            else o in
  if OfferHasVolumes o1
  then add_to_destroy o1 (CopyReservedVolumes (o_Resources (MesosOffer o1)))
  else o1.

Definition Operations `{!MesosUtil} (o : OfferHelper) : list Offer_Operation :=
  (if (0 <? length (TasksToLaunch o))%nat
   then [NewLaunchOperation (TasksToLaunch o)] else []) ++
  (if (0 <? length (VolumesToDestroy o))%nat
   then [NewDestroyOperation (VolumesToDestroy o)] else []) ++
  (if (0 <? length (ResourcesToUneserve o))%nat
   then [NewUnreserveOperation (ResourcesToUneserve o)] else []) ++
  (if (0 <? length (ResourcesToReserve o))%nat
   then [NewReserveOperation (ResourcesToReserve o)] else []) ++
  (if (0 <? length (VolumesToCreate o))%nat
   then [NewCreateOperation (VolumesToCreate o)] else []).

(** ** Taking resources *)

Definition nonempty (s : string) : bool := negb (String.eqb s "").

Section apply.
Context `{!MesosUtil} {E : Type} `{!GoRand E}.

(** The resource asked for one scalar: reserved when a principal and a role
    are given. *)
Definition scalar_ask (name : string) (v : float64) (principal role : string) : Resource :=
  if nonempty principal && nonempty role
  then NewScalarResourceWithReservation name v principal role
  else NewScalarResource name v.

Definition disk_ask (disk : float64) (principal role persistenceID containerPath : string) : Resource :=
  if nonempty principal && nonempty role && nonempty containerPath && nonempty persistenceID
  then NewVolumeResourceWithReservation disk containerPath persistenceID Volume_RW principal role
  else scalar_ask "disk" disk principal role.

(** The slices around [sliceLoc]: [ports] values taken, the others left.  A
    slice bound past the end, or a negative [make], panics. *)
Definition take_ports (all : list Z) (ports : Z) : M E (list Z * list Z) :=
  let len := Z.of_nat (length all) in
  sliceLoc ← (if 0 <? len - ports then rand_Intn (len - ports) else mret 0);
  if (sliceLoc <? 0) || (len <? sliceLoc + ports) then mpanic "slice bounds out of range" else
  let loc := Z.to_nat sliceLoc in
  let n := Z.to_nat ports in
  mret (take n (drop loc all), take loc all ++ drop (loc + n) all).

Definition apply (against : ResourceGroup) (cpus mem disk : float64) (ports : Z)
    (principal role persistenceID containerPath : string) : M E (ResourceGroup * list Resource) :=
  let '(cpus', ask1) :=
    if fltb fzero cpus
    then (fsub (Cpus against) cpus, [scalar_ask "cpus" cpus principal role])
    else (Cpus against, []) in
  let '(mem', ask2) :=
    if fltb fzero mem
    then (fsub (Mem against) mem, [scalar_ask "mem" mem principal role])
    else (Mem against, []) in
  let '(disk', ask3) :=
    if fltb fzero disk
    then (fsub (Disk against) disk, [disk_ask disk principal role persistenceID containerPath])
    else (Disk against, []) in
  if 0 <? ports then
    taken ← take_ports (Ports against) ports;
    let ranges := NewRangesResource "ports" (ArrayToRanges taken.1) in
    let ask4 := if nonempty principal && nonempty role
                then [AddResourceReservation ranges principal role] else [ranges] in
    mret (mk_ResourceGroup cpus' mem' disk' taken.2, ask1 ++ ask2 ++ ask3 ++ ask4)
  else mret (mk_ResourceGroup cpus' mem' disk' (Ports against), ask1 ++ ask2 ++ ask3).

Definition MakeReservation (o : OfferHelper) (cpus mem disk : float64) (ports : Z)
    (principal role : string) : M E OfferHelper :=
  r ← apply (UnreservedResources o) cpus mem disk ports principal role "" "";
  mret (add_to_reserve (set_unreserved o r.1) r.2).

Definition MakeVolume (o : OfferHelper) (disk : float64)
    (principal role persistenceID containerPath : string) : M E OfferHelper :=
  r ← apply (UnreservedResources o) fzero fzero disk 0 principal role persistenceID containerPath;
  let g := mk_ResourceGroup (Cpus r.1) (Mem r.1) (fadd (Disk r.1) disk) (Ports r.1) in
  mret (add_to_create (set_unreserved o g) r.2).

Definition ApplyReserved (o : OfferHelper) (cpus mem disk : float64) (ports : Z)
    (principal role persistenceID containerPath : string) : M E (OfferHelper * list Resource) :=
  r ← apply (ReservedResources o) cpus mem disk ports principal role persistenceID containerPath;
  mret (set_reserved o r.1, r.2).

Definition ApplyUnreserved (o : OfferHelper) (cpus mem disk : float64) (ports : Z) :
    M E (OfferHelper * list Resource) :=
  r ← apply (UnreservedResources o) cpus mem disk ports "" "" "" "";
  mret (set_unreserved o r.1, r.2).
End apply.

(** ** The port split *)

Section apply_lemmas.
Context `{!MesosUtil, !MesosUtilLaws} {E : Type} `{!GoRand E, !GoRandLaws E}.

Lemma take_ports_ok (all : list Z) (ports : Z) (e : E) :
  0 < ports <= Z.of_nat (length all) ->
  wp total (take_ports all ports) (fun r _ =>
    r.1 ++ r.2 ≡ₚ all /\ length r.1 = Z.to_nat ports /\
    exists loc, r.1 = take (Z.to_nat ports) (drop loc all)) e.
Proof.
  intros Hp. unfold take_ports. apply wp_bind.
  eapply (wp_mono _ _ (fun k _ => 0 <= k <= Z.of_nat (length all) - ports)).
  - intros k e' Hk. destruct (Z.ltb_spec k 0); [lia|].
    destruct (Z.ltb_spec (Z.of_nat (length all)) (k + ports)); [lia|]. apply wp_ret.
    cbn [fst snd]. split; [|split; [rewrite length_take, length_drop; lia|by eexists]].
    rewrite <- (take_drop (Z.to_nat k) all) at 4.
    rewrite <- (take_drop (Z.to_nat ports) (drop (Z.to_nat k) all)) at 2.
    rewrite drop_drop. rewrite !app_assoc. f_equiv. by rewrite Permutation_app_comm.
  - destruct (Z.ltb_spec 0 (Z.of_nat (length all) - ports)).
    + wp_by rand_Intn_range. simpl. lia.
    + apply wp_ret. lia.
Qed.

(** What [apply] does to the scalars does not depend on the ports. *)
Lemma apply_spec g cpus mem disk ports principal role pid path (e : E) :
  ports <= Z.of_nat (length (Ports g)) ->
  wp total (apply g cpus mem disk ports principal role pid path) (fun r _ =>
    Cpus r.1 = (if fltb fzero cpus then fsub (Cpus g) cpus else Cpus g) /\
    Mem r.1 = (if fltb fzero mem then fsub (Mem g) mem else Mem g) /\
    Disk r.1 = (if fltb fzero disk then fsub (Disk g) disk else Disk g) /\
    exists taken,
      taken ++ Ports r.1 ≡ₚ Ports g /\ length taken = Z.to_nat ports /\
      r.2 = (if fltb fzero cpus then [scalar_ask "cpus" cpus principal role] else []) ++
            (if fltb fzero mem then [scalar_ask "mem" mem principal role] else []) ++
            (if fltb fzero disk then [disk_ask disk principal role pid path] else []) ++
            (if (0 <? ports)%Z then
               [if nonempty principal && nonempty role
                then AddResourceReservation (NewRangesResource "ports" (ArrayToRanges taken)) principal role
                else NewRangesResource "ports" (ArrayToRanges taken)]
             else [])) e.
Proof.
  intros Hlen. unfold apply.
  destruct (fltb fzero cpus), (fltb fzero mem), (fltb fzero disk);
    (destruct (Z.ltb_spec 0 ports) as [Hp|Hp];
     [apply wp_bind; eapply wp_mono; [|apply take_ports_ok; lia];
      intros [taken left] e' (Hperm & Hlt & _); apply wp_ret; cbn [fst snd Cpus Mem Disk Ports];
      repeat (split; [done|]); exists taken; split; [done|]; split; [done|];
      by destruct (nonempty principal && nonempty role)
     |apply wp_ret; cbn [fst snd Cpus Mem Disk Ports];
      repeat (split; [done|]); exists []; split; [done|]; split; [simpl; lia|done]]).
Qed.
End apply_lemmas.

(** A generator for concrete runs: the state is the next number drawn. *)
Module SimRand.
#[export] Instance sim : GoRand Z := fun n e => (Ret (e `mod` n), e + 1).
#[export] Instance sim_laws : GoRandLaws Z.
Proof. intros n e Hn. unfold wp, rand_Intn, sim. apply Z.mod_pos_bound. done. Qed.
End SimRand.

(** ** Accounting *)

(** Amounts that are numbers, not below zero. *)
Definition amount_ok (x : float64) : Prop := f64_valid x = true /\ f64_nonneg x = true.
Definition group_ok (g : ResourceGroup) : Prop :=
  amount_ok (Cpus g) /\ amount_ok (Mem g) /\ amount_ok (Disk g).
Definition ask_ok (x : float64) : Prop := amount_ok x /\ f64_finite x = true.

Lemma fsub_amount_ok x y : amount_ok x -> ask_ok y -> fleb y x = true -> amount_ok (fsub x y).
Proof.
  intros [Hx ?] [[Hy ?] ?] Hle. split; [by apply fsub_valid|by apply fsub_nonneg].
Qed.

Lemma take_scalar_ok x y : amount_ok x -> ask_ok y -> fleb y x = true ->
  amount_ok (if fltb fzero y then fsub x y else x).
Proof. intros. case_match; [by apply fsub_amount_ok|done]. Qed.

Lemma CanFit_true g cpus mem disk ports : CanFit g cpus mem disk ports = true ->
  fleb cpus (Cpus g) = true /\ fleb mem (Mem g) = true /\ fleb disk (Disk g) = true /\
  ports <= Z.of_nat (length (Ports g)).
Proof. unfold CanFit. rewrite !andb_true_iff, Z.leb_le. tauto. Qed.

Section offer_properties.
Context `{!MesosUtil, !MesosUtilLaws} {E : Type} `{!GoRand E, !GoRandLaws E}.

(** C27 [apply_ports_exact]: taking [ports] ports out of a group of resources always succeeds
    when the group has that many; it removes exactly that many, and the Mesos
    ranges of the resource it returns decode to the ports removed: with the
    ports left they are the group's ports. *)
Theorem apply_ports_exact (g : ResourceGroup) (cpus mem disk : float64) (ports : Z)
    (principal role pid path : string) (e : E) :
  NoDup (Ports g) -> Forall port_ok (Ports g) ->
  0 < ports <= Z.of_nat (length (Ports g)) -> ports <= max_int64_slice ->
  wp total (apply g cpus mem disk ports principal role pid path) (fun r e' =>
    exists ask asked, last r.2 = Some ask /\ r_Name ask = "ports"%string /\
      RangesToArray (r_Ranges ask) e' = (Ret asked, e') /\
      length asked = Z.to_nat ports /\ asked ++ Ports r.1 ≡ₚ Ports g) e.
Proof.
  intros Hnd Hok Hp Hmax. eapply wp_mono; [|by apply apply_spec; lia].
  intros [g' ask] e' (_ & _ & _ & taken & Hperm & Hlen & Hask); simpl in *.
  assert (NoDup taken) as Hnd' by (rewrite <- Hperm in Hnd; by apply NoDup_app in Hnd as [? _]).
  assert (Forall port_ok taken) as Hok' by (rewrite <- Hperm in Hok; by apply Forall_app in Hok as [? _]).
  destruct (Z.ltb_spec 0 ports) as [_|]; [|lia].
  rewrite !app_assoc in Hask. eexists _, (merge_sort Z.le taken).
  rewrite Hask, last_snoc. split; [done|].
  assert (forall r : Resource, r_Name r = "ports"%string /\ r_Ranges r = ArrayToRanges taken ->
    r_Name r = "ports"%string /\
    RangesToArray (r_Ranges r) e' = (Ret (merge_sort Z.le taken), e') /\
    length (merge_sort Z.le taken) = Z.to_nat ports /\
    merge_sort Z.le taken ++ Ports g' ≡ₚ Ports g) as Hfin.
  { intros r [Hn Hr]. rewrite Hr. split; [done|].
    split; [apply ports_roundtrip_lemma; [done..|rewrite Hlen; lia]|].
    by rewrite merge_sort_Permutation. }
  apply Hfin. destruct (nonempty principal && nonempty role);
    rewrite ?AddResourceReservation_eq, NewRangesResource_eq; by simpl.
Qed.

(** C28 [reserved_never_negative]: a take from the reserved resources that [CanFitReserved] allows
    leaves cpus, mem and disk valid numbers that are not negative, in the
    rounding arithmetic of float64, and cannot fail. *)
Theorem reserved_never_negative (o : OfferHelper) (cpus mem disk : float64) (ports : Z)
    (principal role pid path : string) (e : E) :
  group_ok (ReservedResources o) -> ask_ok cpus -> ask_ok mem -> ask_ok disk ->
  CanFitReserved o cpus mem disk ports = true ->
  wp total (ApplyReserved o cpus mem disk ports principal role pid path) (fun r _ =>
    group_ok (ReservedResources r.1) /\ UnreservedResources r.1 = UnreservedResources o) e.
Proof.
  intros (Hc & Hm & Hd) ??? (? & ? & ? & ?)%CanFit_true.
  apply wp_bind. wp_by apply_spec.
  intros [g' ask] e' (Hc' & Hm' & Hd' & _). apply wp_ret; simpl in *.
  unfold group_ok. rewrite Hc', Hm', Hd'.
  split; [|done]. split; [|split]; by apply take_scalar_ok.
Qed.

Lemma Operations_tasks (o : OfferHelper) :
  concat (op_TaskInfos <$> Operations o) = TasksToLaunch o.
Proof.
  destruct o as [mo id pids rr ur tr tu vc vd tl]; unfold Operations; simpl.
  rewrite NewLaunchOperation_eq, NewDestroyOperation_eq, NewUnreserveOperation_eq,
    NewReserveOperation_eq, NewCreateOperation_eq.
  destruct tl, vd, tu, tr, vc; simpl; by rewrite ?app_nil_r.
Qed.

(** An operation that gives something back. *)
Definition gives_back (op : Offer_Operation) : Prop :=
  match op_Type op with
  | Offer_Operation_DESTROY | Offer_Operation_UNRESERVE => True
  | _ => False
  end.

Lemma Operations_keep (o : OfferHelper) :
  ResourcesToUneserve o = [] -> VolumesToDestroy o = [] ->
  Forall (fun op => ~ gives_back op) (Operations o).
Proof.
  destruct o as [mo id pids rr ur tr tu vc vd tl]; unfold Operations; simpl. intros -> ->.
  rewrite NewLaunchOperation_eq, NewReserveOperation_eq, NewCreateOperation_eq.
  destruct tl, tr, vc; simpl; repeat (constructor; [by intros []|]); constructor.
Qed.

(** C29 [operations_well_formed]: the operations sent for an offer are at most one of each kind, in the
    order launch, destroy, unreserve, reserve, create; none is empty, and they
    carry exactly what was collected. *)
Theorem operations_well_formed (o : OfferHelper) :
  sublist (op_Type <$> Operations o)
    [Offer_Operation_LAUNCH; Offer_Operation_DESTROY; Offer_Operation_UNRESERVE;
     Offer_Operation_RESERVE; Offer_Operation_CREATE] /\
  Forall (fun op => op_TaskInfos op <> [] \/ op_Resources op <> []) (Operations o) /\
  concat (op_TaskInfos <$> Operations o) = TasksToLaunch o /\
  concat (op_Resources <$> Operations o) =
    VolumesToDestroy o ++ ResourcesToUneserve o ++ ResourcesToReserve o ++ VolumesToCreate o.
Proof.
  destruct o as [mo id pids rr ur tr tu vc vd tl]; unfold Operations; simpl.
  rewrite NewLaunchOperation_eq, NewDestroyOperation_eq, NewUnreserveOperation_eq,
    NewReserveOperation_eq, NewCreateOperation_eq.
  destruct tl as [|t tl], vd as [|v vd], tu as [|u tu], tr as [|r tr], vc as [|c vc]; simpl;
    (split; [repeat constructor|]);
    (split; [repeat (constructor; [by (left + right)|]); constructor|]);
    by rewrite ?app_nil_r.
Qed.
End offer_properties.

Section offer_witnesses.
Import RefMesosUtil SimRand.

Definition ex_group : ResourceGroup :=
  mk_ResourceGroup (f64_of_Z 4) (f64_of_Z 1985) (f64_of_Z 73590) (seqZ 31000 20).

Definition ex_helper : OfferHelper :=
  mk_OfferHelper (mk_Offer "o1" (Some "s1") "host" []) "o1" [] ex_group ex_group [] [] [] [] [].

Lemma ex_group_ok : group_ok ex_group.
Proof. by repeat split. Qed.

Lemma apply_ports_exact_witness :
  wp total (apply ex_group (f64_of_Z 1) fzero fzero 10 "" "" "" "") (fun r e' =>
    exists ask asked, last r.2 = Some ask /\ r_Name ask = "ports"%string /\
      RangesToArray (r_Ranges ask) e' = (Ret asked, e') /\
      length asked = Z.to_nat 10 /\ asked ++ Ports r.1 ≡ₚ Ports ex_group) 7.
Proof.
  apply apply_ports_exact;
    [apply NoDup_seqZ | apply Forall_seqZ; unfold port_ok; lia | by split | by vm_compute].
Defined.

Lemma reserved_never_negative_witness :
  wp total (ApplyReserved ex_helper (f64_of_frac 1 10) (f64_of_Z 32) fzero 0 "p" "r" "id" "root")
    (fun r _ => group_ok (ReservedResources r.1) /\
                UnreservedResources r.1 = UnreservedResources ex_helper) 0.
Proof.
  apply reserved_never_negative;
    [apply ex_group_ok | by repeat split | by repeat split | by repeat split | by vm_compute].
Defined.

Lemma operations_well_formed_witness :
  sublist (op_Type <$> Operations ex_helper)
    [Offer_Operation_LAUNCH; Offer_Operation_DESTROY; Offer_Operation_UNRESERVE;
     Offer_Operation_RESERVE; Offer_Operation_CREATE] /\
  Forall (fun op => op_TaskInfos op <> [] \/ op_Resources op <> []) (Operations ex_helper) /\
  concat (op_TaskInfos <$> Operations ex_helper) = TasksToLaunch ex_helper /\
  concat (op_Resources <$> Operations ex_helper) =
    VolumesToDestroy ex_helper ++ ResourcesToUneserve ex_helper ++
    ResourcesToReserve ex_helper ++ VolumesToCreate ex_helper.
Proof. exact (operations_well_formed ex_helper). Defined.
End offer_witnesses.
