(* ===== verification/Node.v ===== *)
(** * [scheduler/node.go] and [scheduler/process_state]: one Riak node

    The record of a node, its life cycle as pure functions, and what it does
    with an offer: [ApplyUnreservedOffer] reserves resources and a volume,
    [ApplyReservedOffer] launches the task. *)

From S2P Require Import Prelude GoStrings Float64 Mesos Utils Structs Offer.

#[local] Open Scope string_scope.
#[local] Open Scope list_scope.
#[local] Open Scope Z_scope.

(** ** Process states *)

Inductive ProcessState :=
  | Unknown | Reserved | Starting | Started | ShuttingDown | Shutdown | Failed | Restarting.

#[export] Instance ProcessState_eq_dec : EqDecision ProcessState.
Proof. solve_decision. Defined.

(** The value of the constant, for the order comparisons. *)
Definition state_index (s : ProcessState) : Z :=
  match s with
  | Unknown => 0 | Reserved => 1 | Starting => 2 | Started => 3
  | ShuttingDown => 4 | Shutdown => 5 | Failed => 6 | Restarting => 7
  end.

(** ** The fields of [SchedulerCore] that do not change, and its environment *)

Inductive ExecutorBuild := golang | erlang.

Record SchedulerHTTPServer := mk_SchedulerHTTPServer {
  hostURI : string;
  riakURI : string;
  cepmdURI : string;
  server_URI : string }.

Definition GetURI (s : SchedulerHTTPServer) : string := server_URI s.

Record SchedulerConf := mk_SchedulerConf {
  schedulerHTTPServer : SchedulerHTTPServer;
  zookeepers : list string;
  frameworkName : string;
  frameworkRole : string;
  nodeCpus : string;
  nodeMem : string;
  nodeDisk : string;
  schedulerIPAddr : string;
  sched_user : string;
  authProvider : string;
  mesosAuthPrincipal : string;
  mesosAuthSecretFile : string;
  compatibilityMode : bool;
  executor_build : ExecutorBuild }.   (* the build tag *)

Class GoEnv (E : Type) := Getenv : string -> M E string.
Class GoUuid (E : Type) := uuid_NewV4 : M E string.
(** [strconv.ParseFloat(s, 64)]; [None] is an error. *)
Class GoParse := ParseFloat : string -> option float64.

(** ** [executor_golang.go] and [executor_erlang.go] *)

Definition ExecutorValue (b : ExecutorBuild) : string :=
  match b with
  | golang => "./executor_linux_amd64"
  | erlang => "./riak_mesos_executor/bin/ermf-executor"
  end.

Definition ExecutorShell (b : ExecutorBuild) : bool :=
  match b with golang => false | erlang => true end.

Definition ExecutorArgs (b : ExecutorBuild) (currentID : string) : list string :=
  match b with
  | golang => [ExecutorValue golang; "-logtostderr=true"; "-taskinfo"; currentID]
  | erlang => []
  end.

(** ** The node *)

Definition CPUS_PER_EXECUTOR : float64 := f64_of_frac 1 10.
Definition MEM_PER_EXECUTOR : float64 := f64_of_Z 32.
Definition PORTS_PER_TASK : Z := 10.
Definition CONTAINER_PATH : string := "root".

Record FrameworkRiakNode := mk_FrameworkRiakNode {
  reconciled : bool;
  lastAskedToReconcile : Z;
  SimpleId : Z;
  DestinationState : ProcessState;
  CurrentState : ProcessState;
  n_TaskStatus : option TaskStatus;
  n_Generation : Z;
  SlaveID : option string;
  Hostname : string;
  n_TaskData : TaskData;
  FrameworkName : string;
  ClusterName : string;
  Role : option string;
  Principal : option string;
  n_Cpus : float64;
  n_Mem : float64;
  n_Disk : float64;
  n_Ports : Z;
  UUID : string;
  ContainerPath : string;
  RestartGeneration : Z }.

Definition set_reconciled (v : bool) (n : FrameworkRiakNode) : FrameworkRiakNode :=
  mk_FrameworkRiakNode v (lastAskedToReconcile n) (SimpleId n) (DestinationState n)
    (CurrentState n) (n_TaskStatus n) (n_Generation n) (SlaveID n) (Hostname n) (n_TaskData n)
    (FrameworkName n) (ClusterName n) (Role n) (Principal n) (n_Cpus n) (n_Mem n) (n_Disk n)
    (n_Ports n) (UUID n) (ContainerPath n) (RestartGeneration n).
Definition set_lastAskedToReconcile (v : Z) (n : FrameworkRiakNode) : FrameworkRiakNode :=
  mk_FrameworkRiakNode (reconciled n) v (SimpleId n) (DestinationState n) (CurrentState n)
    (n_TaskStatus n) (n_Generation n) (SlaveID n) (Hostname n) (n_TaskData n) (FrameworkName n)
    (ClusterName n) (Role n) (Principal n) (n_Cpus n) (n_Mem n) (n_Disk n) (n_Ports n) (UUID n)
    (ContainerPath n) (RestartGeneration n).
Definition set_DestinationState (v : ProcessState) (n : FrameworkRiakNode) : FrameworkRiakNode :=
  mk_FrameworkRiakNode (reconciled n) (lastAskedToReconcile n) (SimpleId n) v (CurrentState n)
    (n_TaskStatus n) (n_Generation n) (SlaveID n) (Hostname n) (n_TaskData n) (FrameworkName n)
    (ClusterName n) (Role n) (Principal n) (n_Cpus n) (n_Mem n) (n_Disk n) (n_Ports n) (UUID n)
    (ContainerPath n) (RestartGeneration n).
Definition set_CurrentState (v : ProcessState) (n : FrameworkRiakNode) : FrameworkRiakNode :=
  mk_FrameworkRiakNode (reconciled n) (lastAskedToReconcile n) (SimpleId n) (DestinationState n)
    v (n_TaskStatus n) (n_Generation n) (SlaveID n) (Hostname n) (n_TaskData n)
    (FrameworkName n) (ClusterName n) (Role n) (Principal n) (n_Cpus n) (n_Mem n) (n_Disk n)
    (n_Ports n) (UUID n) (ContainerPath n) (RestartGeneration n).
Definition set_TaskStatus (v : option TaskStatus) (n : FrameworkRiakNode) : FrameworkRiakNode :=
  mk_FrameworkRiakNode (reconciled n) (lastAskedToReconcile n) (SimpleId n) (DestinationState n)
    (CurrentState n) v (n_Generation n) (SlaveID n) (Hostname n) (n_TaskData n)
    (FrameworkName n) (ClusterName n) (Role n) (Principal n) (n_Cpus n) (n_Mem n) (n_Disk n)
    (n_Ports n) (UUID n) (ContainerPath n) (RestartGeneration n).
Definition set_Generation (v : Z) (n : FrameworkRiakNode) : FrameworkRiakNode :=
  mk_FrameworkRiakNode (reconciled n) (lastAskedToReconcile n) (SimpleId n) (DestinationState n)
    (CurrentState n) (n_TaskStatus n) v (SlaveID n) (Hostname n) (n_TaskData n)
    (FrameworkName n) (ClusterName n) (Role n) (Principal n) (n_Cpus n) (n_Mem n) (n_Disk n)
    (n_Ports n) (UUID n) (ContainerPath n) (RestartGeneration n).
Definition set_SlaveID (v : option string) (n : FrameworkRiakNode) : FrameworkRiakNode :=
  mk_FrameworkRiakNode (reconciled n) (lastAskedToReconcile n) (SimpleId n) (DestinationState n)
    (CurrentState n) (n_TaskStatus n) (n_Generation n) v (Hostname n) (n_TaskData n)
    (FrameworkName n) (ClusterName n) (Role n) (Principal n) (n_Cpus n) (n_Mem n) (n_Disk n)
    (n_Ports n) (UUID n) (ContainerPath n) (RestartGeneration n).
Definition set_Hostname (v : string) (n : FrameworkRiakNode) : FrameworkRiakNode :=
  mk_FrameworkRiakNode (reconciled n) (lastAskedToReconcile n) (SimpleId n) (DestinationState n)
    (CurrentState n) (n_TaskStatus n) (n_Generation n) (SlaveID n) v (n_TaskData n)
    (FrameworkName n) (ClusterName n) (Role n) (Principal n) (n_Cpus n) (n_Mem n) (n_Disk n)
    (n_Ports n) (UUID n) (ContainerPath n) (RestartGeneration n).
Definition set_TaskData (v : TaskData) (n : FrameworkRiakNode) : FrameworkRiakNode :=
  mk_FrameworkRiakNode (reconciled n) (lastAskedToReconcile n) (SimpleId n) (DestinationState n)
    (CurrentState n) (n_TaskStatus n) (n_Generation n) (SlaveID n) (Hostname n) v
    (FrameworkName n) (ClusterName n) (Role n) (Principal n) (n_Cpus n) (n_Mem n) (n_Disk n)
    (n_Ports n) (UUID n) (ContainerPath n) (RestartGeneration n).
Definition set_RestartGeneration (v : Z) (n : FrameworkRiakNode) : FrameworkRiakNode :=
  mk_FrameworkRiakNode (reconciled n) (lastAskedToReconcile n) (SimpleId n) (DestinationState n)
    (CurrentState n) (n_TaskStatus n) (n_Generation n) (SlaveID n) (Hostname n) (n_TaskData n)
    (FrameworkName n) (ClusterName n) (Role n) (Principal n) (n_Cpus n) (n_Mem n) (n_Disk n)
    (n_Ports n) (UUID n) (ContainerPath n) v.

(** The zero [time.Time]. *)
Definition time_zero : Z := 0.

Section construct.
Context {E : Type} `{!GoUuid E} `{!GoParse}.

Definition parse_or_panic (what s : string) : M E float64 :=
  match ParseFloat s with
  | Some f => mret f
  | None => mpanic ("Unable to determine " +:+ what)
  end.

Definition NewFrameworkRiakNode (sc : SchedulerConf) (clusterName : string)
    (restartGeneration simpleId : Z) : M E FrameworkRiakNode :=
  nodeCpusFloat ← parse_or_panic "node_cpus" (nodeCpus sc);
  nodeMemFloat ← parse_or_panic "node_mem" (nodeMem sc);
  nodeDiskFloat ← parse_or_panic "node_disk" (nodeDisk sc);
  uuid ← uuid_NewV4;
  mret {| reconciled := false; lastAskedToReconcile := time_zero; SimpleId := simpleId;
          DestinationState := Started; CurrentState := Unknown; n_TaskStatus := None;
          n_Generation := 0; SlaveID := None; Hostname := ""; n_TaskData := zero_TaskData;
          FrameworkName := frameworkName sc; ClusterName := clusterName;
          Role := Some (frameworkRole sc); Principal := Some (mesosAuthPrincipal sc);
          n_Cpus := nodeCpusFloat; n_Mem := nodeMemFloat; n_Disk := nodeDiskFloat;
          n_Ports := PORTS_PER_TASK; UUID := uuid; ContainerPath := CONTAINER_PATH;
          RestartGeneration := restartGeneration |}.
End construct.

(** ** Values *)

Definition node_id (framework cluster : string) (simpleId : Z) : string :=
  framework +:+ "-" +:+ cluster +:+ "-" +:+ itoa simpleId.

Definition CurrentID (frn : FrameworkRiakNode) : string :=
  node_id (FrameworkName frn) (ClusterName frn) (SimpleId frn).

Definition Name (frn : FrameworkRiakNode) : string :=
  FrameworkName frn +:+ "-" +:+ ClusterName frn.

Definition ExecutorID (frn : FrameworkRiakNode) : string :=
  FrameworkName frn +:+ "-" +:+ ClusterName frn +:+ "-" +:+ UUID frn +:+ "-" +:+
  itoa (n_Generation frn).

Definition PersistenceID (frn : FrameworkRiakNode) : string := UUID frn.

(** The value of [SlaveID], nil-safe. *)
Definition GetValue (p : option string) : string := default "" p.

(** ** States *)

Definition HasRequestedReservation (frn : FrameworkRiakNode) : bool :=
  state_index Reserved <=? state_index (CurrentState frn).

Definition NeedsToBeReconciled (frn : FrameworkRiakNode) : bool :=
  negb (reconciled frn) && negb (bool_decide (CurrentState frn = Unknown)) &&
  negb (bool_decide (CurrentState frn = Reserved)).

Definition CanBeScheduled (frn : FrameworkRiakNode) : bool :=
  if NeedsToBeReconciled frn then false else
  match DestinationState frn with
  | Restarting =>
      match CurrentState frn with
      | Started => false | Unknown => true | Reserved => true
      | Starting => false | Shutdown => true | Failed => true
      | _ => false
      end
  | Started =>
      match CurrentState frn with
      | Started => false | Unknown => true | Reserved => true
      | Starting => false | Shutdown => false | Failed => true
      | _ => false
      end
  | _ => false
  end.

Definition CanBeKilled (frn : FrameworkRiakNode) : bool :=
  bool_decide (DestinationState frn = Shutdown) &&
  (bool_decide (CurrentState frn = Starting) || bool_decide (CurrentState frn = Started)).

Definition CanBeRemoved (frn : FrameworkRiakNode) : bool :=
  bool_decide (DestinationState frn = Shutdown) && negb (bool_decide (CurrentState frn = Started)).

Definition CanJoinCluster (frn : FrameworkRiakNode) : bool :=
  bool_decide (CurrentState frn = Starting) && bool_decide (DestinationState frn = Started).

Definition CanBeJoined (frn : FrameworkRiakNode) : bool :=
  bool_decide (CurrentState frn = Started) && bool_decide (DestinationState frn = Started).

Definition CanBeLeft (frn : FrameworkRiakNode) : bool := CanBeJoined frn.

Definition HasRestarted (frn : FrameworkRiakNode) (generation : Z) : bool :=
  bool_decide (DestinationState frn = Started) && bool_decide (CurrentState frn = Started) &&
  (generation <=? RestartGeneration frn).

Definition IsRestarting (frn : FrameworkRiakNode) (generation : Z) : bool :=
  (bool_decide (DestinationState frn = Started) || bool_decide (DestinationState frn = Restarting)) &&
  negb (bool_decide (CurrentState frn = Started)) && (generation <=? RestartGeneration frn).

Definition Restart (generation : Z) (frn : FrameworkRiakNode) : FrameworkRiakNode :=
  set_DestinationState Restarting (set_RestartGeneration generation frn).
Definition Unreserve (frn : FrameworkRiakNode) : FrameworkRiakNode :=
  set_SlaveID None (set_CurrentState Unknown frn).
Definition KillNext (frn : FrameworkRiakNode) : FrameworkRiakNode :=
  set_DestinationState Shutdown frn.
Definition Start (frn : FrameworkRiakNode) : FrameworkRiakNode :=
  set_DestinationState Started (set_CurrentState Starting frn).
Definition Stage (frn : FrameworkRiakNode) : FrameworkRiakNode := Start frn.
Definition Run (frn : FrameworkRiakNode) : FrameworkRiakNode :=
  set_DestinationState Started (set_CurrentState Started frn).
Definition Finish (frn : FrameworkRiakNode) : FrameworkRiakNode := set_CurrentState Shutdown frn.
Definition Kill (frn : FrameworkRiakNode) : FrameworkRiakNode := set_CurrentState Shutdown frn.
Definition Error (frn : FrameworkRiakNode) : FrameworkRiakNode := set_CurrentState Failed frn.
Definition Fail (frn : FrameworkRiakNode) : FrameworkRiakNode := Error frn.
Definition Lost (frn : FrameworkRiakNode) : FrameworkRiakNode := Error frn.

Definition GetTaskStatus (frn : FrameworkRiakNode) : option TaskStatus :=
  match n_TaskStatus frn with
  | Some ts => Some (mk_TaskStatus (ts_TaskId ts) (ts_State ts) (Some "") "")
  | None =>
      if state_index (CurrentState frn) <=? state_index Reserved then None
      else Some (mk_TaskStatus (CurrentID frn) TASK_ERROR (Some "") "")
  end.

(** ** Offers *)

Section offers.
Context `{!MesosUtil, !Json TaskData} {E : Type} `{!GoRand E, !GoEnv E}.

Definition ApplyUnreservedOffer (frn : FrameworkRiakNode) (offerHelper : OfferHelper) :
    M E (bool * FrameworkRiakNode * OfferHelper) :=
  if negb (CanFitUnreserved offerHelper (fadd (n_Cpus frn) CPUS_PER_EXECUTOR)
             (fadd (n_Mem frn) MEM_PER_EXECUTOR) (n_Disk frn) (n_Ports frn))
  then mret (false, frn, offerHelper) else
  r ← ApplyUnreserved offerHelper CPUS_PER_EXECUTOR MEM_PER_EXECUTOR fzero (n_Ports frn);
  principal ← deref (Principal frn);
  role ← deref (Role frn);
  o2 ← MakeReservation r.1 (n_Cpus frn) (n_Mem frn) (n_Disk frn) 0 principal role;
  o3 ← MakeVolume o2 (n_Disk frn) principal role (PersistenceID frn) (ContainerPath frn);
  let frn := set_SlaveID (o_SlaveId (MesosOffer o3)) frn in
  let frn := set_Hostname (o_Hostname (MesosOffer o3)) frn in
  let frn := set_CurrentState Reserved frn in
  mret (true, frn, o3).

(** The resources of the task and of its executor; [None] when they do not fit. *)
Definition take_task_resources (frn : FrameworkRiakNode) (o : OfferHelper) (sc : SchedulerConf) :
    M E (option (OfferHelper * list Resource * list Resource)) :=
  if compatibilityMode sc then
    if negb (CanFitUnreserved o (fadd (n_Cpus frn) CPUS_PER_EXECUTOR)
               (fadd (n_Mem frn) MEM_PER_EXECUTOR) (n_Disk frn) (n_Ports frn))
    then mret None else
    t ← ApplyUnreserved o (n_Cpus frn) (n_Mem frn) (n_Disk frn) (n_Ports frn);
    x ← ApplyUnreserved t.1 CPUS_PER_EXECUTOR MEM_PER_EXECUTOR fzero 0;
    mret (Some (x.1, t.2, x.2))
  else
    if negb (CanFitReserved o (n_Cpus frn) (n_Mem frn) (n_Disk frn) 0) ||
       negb (CanFitUnreserved o CPUS_PER_EXECUTOR MEM_PER_EXECUTOR fzero (n_Ports frn))
    then mret None else
    principal ← deref (Principal frn);
    role ← deref (Role frn);
    t ← ApplyReserved o (n_Cpus frn) (n_Mem frn) (n_Disk frn) 0 principal role
          (PersistenceID frn) (ContainerPath frn);
    p ← ApplyUnreserved t.1 fzero fzero fzero (n_Ports frn);
    x ← ApplyUnreserved p.1 CPUS_PER_EXECUTOR MEM_PER_EXECUTOR fzero 0;
    mret (Some (x.1, t.2 ++ p.2, x.2)).

(** The name of the Erlang node; a host without a dot gets a final one. *)
Definition node_name (frn : FrameworkRiakNode) : string :=
  let nodename := CurrentID frn +:+ "@" +:+ Hostname frn in
  if negb (Contains (Hostname frn) ".") then nodename +:+ "." else nodename.

Definition make_task_data (frn : FrameworkRiakNode) (sc : SchedulerConf)
    (use_super_chroot : string) (ports : list Z) : TaskData :=
  let '(http, ports) := recv ports in
  let '(pb, ports) := recv ports in
  let '(disterl, _) := recv ports in
  {| FullyQualifiedNodeName := node_name frn; Zookeepers := zookeepers sc;
     td_FrameworkName := frameworkName sc; td_ClusterName := ClusterName frn;
     URI := GetURI (schedulerHTTPServer sc); Host := Hostname frn;
     UseSuperChroot := negb (String.eqb use_super_chroot "false");
     HTTPPort := http; PBPort := pb; HandoffPort := 0; DisterlPort := disterl |}.

Definition make_task_info (frn : FrameworkRiakNode) (sc : SchedulerConf)
    (taskAsk execAsk : list Resource) (binTaskData : string) : TaskInfo :=
  let http := schedulerHTTPServer sc in
  let b := executor_build sc in
  {| ti_Name := Name frn; ti_TaskId := CurrentID frn; ti_SlaveId := SlaveID frn;
     ti_Executor := Some
       {| ei_ExecutorId := ExecutorID frn;
          ei_Name := CurrentID frn +:+ " Executor";
          ei_Source := FrameworkName frn;
          ei_Command :=
            {| ci_Value := ExecutorValue b;
               ci_Uris := [mk_URI (hostURI http) false; mk_URI (riakURI http) false;
                           mk_URI (cepmdURI http) true];
               ci_Shell := ExecutorShell b;
               ci_Arguments := ExecutorArgs b (CurrentID frn) |};
          ei_Resources := execAsk |};
     ti_Resources := taskAsk; ti_Data := binTaskData |}.

Definition ApplyReservedOffer (frn : FrameworkRiakNode) (offerHelper : OfferHelper)
    (sc : SchedulerConf) : M E (bool * FrameworkRiakNode * OfferHelper) :=
  taken ← take_task_resources frn offerHelper sc;
  match taken with
  | None => mret (false, frn, offerHelper)
  | Some (o, taskAsk, execAsk) =>
      let frn := set_SlaveID (o_SlaveId (MesosOffer o)) frn in
      let frn := set_Hostname (o_Hostname (MesosOffer o)) frn in
      let frn := set_Generation (wrap64 (n_Generation frn + 1)) frn in
      let frn := set_TaskStatus None frn in
      let frn := set_CurrentState Starting frn in
      ports ← PortIterator taskAsk;
      chroot ← Getenv "USE_SUPER_CHROOT";
      let taskData := make_task_data frn sc chroot ports in
      let frn := set_TaskData taskData frn in
      match TaskData_Serialize taskData with
      | (_, Some err) => mpanic err
      | (binTaskData, None) =>
          mret (true, frn,
                add_to_launch o [make_task_info frn sc taskAsk execAsk binTaskData])
      end
  end.
End offers.

Class GoEnvLaws (E : Type) `{!GoEnv E} : Prop :=
  Getenv_returns s e : wp total (Getenv s) (fun _ _ => True) e.
Class GoUuidLaws (E : Type) `{!GoUuid E} : Prop :=
  uuid_returns e : wp total uuid_NewV4 (fun _ _ => True) e.

(** ** Launching *)

(** What the constructor guarantees and the launch relies on. *)
Definition node_ok (frn : FrameworkRiakNode) : Prop :=
  is_Some (Principal frn) /\ is_Some (Role frn) /\ 3 <= n_Ports frn <= max_int64_slice.

Definition fits (frn : FrameworkRiakNode) (o : OfferHelper) (sc : SchedulerConf) : bool :=
  if compatibilityMode sc
  then CanFitUnreserved o (fadd (n_Cpus frn) CPUS_PER_EXECUTOR)
         (fadd (n_Mem frn) MEM_PER_EXECUTOR) (n_Disk frn) (n_Ports frn)
  else CanFitReserved o (n_Cpus frn) (n_Mem frn) (n_Disk frn) 0 &&
       CanFitUnreserved o CPUS_PER_EXECUTOR MEM_PER_EXECUTOR fzero (n_Ports frn).

(** [o'] is [o] with resources taken out, and nothing else changed. *)
Definition same_but_groups (o o' : OfferHelper) : Prop :=
  o' = set_reserved (set_unreserved o (UnreservedResources o')) (ReservedResources o').

Section launch.
Context `{!MesosUtil, !MesosUtilLaws, !Json TaskData}.
Context {E : Type} `{!GoRand E, !GoRandLaws E, !GoEnv E, !GoEnvLaws E}.

Definition not_ports (r : Resource) : Prop := r_Name r <> "ports".
Definition ports_resource (taken : list Z) (r : Resource) : Prop :=
  r_Name r = "ports" /\ r_Ranges r = ArrayToRanges taken.

Lemma scalar_ask_name n v p r : r_Name (scalar_ask n v p r) = n.
Proof.
  unfold scalar_ask. case_match;
    by rewrite ?NewScalarResourceWithReservation_eq, ?NewScalarResource_eq.
Qed.

Lemma disk_ask_name d p r i c : r_Name (disk_ask d p r i c) = "disk".
Proof.
  unfold disk_ask. case_match; [by rewrite NewVolumeResourceWithReservation_eq|].
  apply scalar_ask_name.
Qed.

(** [apply] as the launch sees it: no port resource but the last. *)
Lemma apply_ask_shape g cpus mem disk ports principal role pid path (e : E) :
  ports <= Z.of_nat (length (Ports g)) ->
  wp total (apply g cpus mem disk ports principal role pid path) (fun r _ =>
    exists pre taken, taken ++ Ports r.1 ≡ₚ Ports g /\ length taken = Z.to_nat ports /\
      Forall not_ports pre /\
      exists last, ports_resource taken last /\
        r.2 = pre ++ (if 0 <? ports then [last] else [])) e.
Proof.
  intros Hlen. wp_by apply_spec.
  intros [g' ask] e' (_ & _ & _ & taken & Hperm & Htk & Hask). simpl in *.
  rewrite !app_assoc in Hask.
  match type of Hask with _ = ?pre ++ _ => exists pre, taken end.
  split; [done|]. split; [done|].
  split; [|eexists; split; [|exact Hask]].
  - clear Hask. unfold not_ports. rewrite !Forall_app.
    split; [split|]; case_match; rewrite ?Forall_nil, ?Forall_singleton; try done;
      by rewrite ?scalar_ask_name, ?disk_ask_name.
  - unfold ports_resource. clear Hask. destruct (nonempty principal && nonempty role);
      rewrite ?AddResourceReservation_eq, NewRangesResource_eq; by simpl.
Qed.

Lemma PortIterator_ask pre taken (e : E) last :
  Forall not_ports pre -> ports_resource taken last ->
  NoDup taken -> Forall port_ok taken -> Z.of_nat (length taken) <= max_int64_slice ->
  PortIterator (pre ++ [last]) e = (Ret (merge_sort Z.le taken), e).
Proof.
  intros Hpre [Hn Hr] Hnd Hok Hlen. unfold PortIterator, goroutine.
  rewrite FilterResources_filter, List.filter_app.
  assert (List.filter (fun res => String.eqb (r_Name res) "ports") pre = []) as ->.
  { induction Hpre as [|r pre Hr' _ IH]; simpl; [done|].
    by destruct (String.eqb_spec (r_Name r) "ports"). }
  simpl. rewrite Hn. simpl. rewrite Hr. unfold mbind, M_bind.
  by rewrite ports_roundtrip_lemma.
Qed.

Lemma take_task_resources_spec frn o sc (e : E) : node_ok frn ->
  fits frn o sc = true ->
  wp total (take_task_resources frn o sc) (fun r _ =>
    exists o' pre last execAsk taken,
      r = Some (o', pre ++ [last], execAsk) /\ same_but_groups o o' /\
      Forall not_ports pre /\ ports_resource taken last /\
      length taken = Z.to_nat (n_Ports frn) /\
      taken ++ Ports (UnreservedResources o') ≡ₚ Ports (UnreservedResources o)) e.
Proof.
  intros ([principal Hp] & [role Hr] & Hports) Hfit. unfold fits, take_task_resources in *.
  assert ((0 <? n_Ports frn) = true) as Hpos by lia.
  destruct (compatibilityMode sc).
  - rewrite Hfit. apply CanFit_true in Hfit as (_ & _ & _ & Hlen). simpl negb.
    apply wp_bind, wp_bind. wp_by apply_ask_shape.
    intros [g1 ask1] e1 (pre & taken & Hperm & Htk & Hpre & last & Hlast & Hask).
    apply wp_ret, wp_bind, wp_bind. eapply wp_mono; [|apply apply_ask_shape; simpl; lia].
    intros [g2 ask2] e2 (pre2 & taken2 & Hperm2 & Htk2 & _). apply wp_ret, wp_ret.
    simpl in *. destruct taken2; [|done]. rewrite Hpos in Hask. subst ask1.
    eexists _, _, _, _, _. repeat (split; [done|]). simpl. by rewrite Hperm2.
  - apply andb_true_iff in Hfit as [Hf1 Hf2].
    rewrite Hf1, Hf2. simpl negb. simpl orb.
    apply CanFit_true in Hf1 as (_ & _ & _ & Hl1), Hf2 as (_ & _ & _ & Hl2).
    rewrite Hp, Hr. simpl deref. apply wp_bind, wp_ret, wp_bind, wp_ret.
    apply wp_bind, wp_bind. wp_by apply_ask_shape.
    intros [g1 ask1] e1 (pre1 & taken1 & Hperm1 & _ & Hpre1 & last1 & _ & Hask1).
    apply wp_ret, wp_bind, wp_bind. wp_by apply_ask_shape.
    intros [g2 ask2] e2 (pre & taken & Hperm & Htk & Hpre & last & Hlast & Hask).
    apply wp_ret, wp_bind, wp_bind. eapply wp_mono; [|apply apply_ask_shape; simpl; lia].
    intros [g3 ask3] e3 (pre3 & taken3 & Hperm3 & Htk3 & _). apply wp_ret, wp_ret.
    simpl in *. destruct taken3; [|done]. rewrite Hpos in Hask. rewrite app_nil_r in Hask1.
    subst ask1 ask2. rewrite app_assoc.
    eexists _, _, _, _, _. repeat (split; [done|]). split; [by apply Forall_app|].
    repeat (split; [done|]). simpl. by rewrite Hperm3.
Qed.
End launch.

(** The node after a launch on offer [o]. *)
Definition launched (frn : FrameworkRiakNode) (o : OfferHelper) (td : TaskData) : FrameworkRiakNode :=
  set_TaskData td (set_CurrentState Starting (set_TaskStatus None
    (set_Generation (wrap64 (n_Generation frn + 1))
      (set_Hostname (o_Hostname (MesosOffer o))
        (set_SlaveID (o_SlaveId (MesosOffer o)) frn))))).

(** The ports a launch takes: three different ports of the offer, no longer in it. *)
Definition ports_from (td : TaskData) (o o' : OfferHelper) : Prop :=
  NoDup [HTTPPort td; PBPort td; DisterlPort td] /\
  Forall (fun p => p ∈ Ports (UnreservedResources o) /\ p ∉ Ports (UnreservedResources o'))
    [HTTPPort td; PBPort td; DisterlPort td].

Definition offer_ports_ok (o : OfferHelper) : Prop :=
  NoDup (Ports (UnreservedResources o)) /\ Forall port_ok (Ports (UnreservedResources o)).

(** [o'] is a remainder of [o]: its ports are some of those of [o], and it
    gives nothing else back. *)
Definition offer_left (o o' : OfferHelper) : Prop :=
  (exists taken, taken ++ Ports (UnreservedResources o') ≡ₚ Ports (UnreservedResources o)) /\
  ResourcesToUneserve o' = ResourcesToUneserve o /\ VolumesToDestroy o' = VolumesToDestroy o.

Lemma offer_left_refl o : offer_left o o.
Proof. split; [by exists []|done]. Qed.

Lemma offer_left_ok o o' : offer_left o o' -> offer_ports_ok o -> offer_ports_ok o'.
Proof.
  intros [[taken Hperm] _] [Hnd Hok]. split.
  - rewrite <- Hperm in Hnd. by apply NoDup_app in Hnd as (_ & _ & ?).
  - rewrite <- Hperm in Hok. by apply Forall_app in Hok as [_ ?].
Qed.

Lemma make_task_data_ports frn sc s taken left all :
  taken ++ left ≡ₚ all -> NoDup all -> (3 <= length taken)%nat ->
  let td := make_task_data frn sc s (merge_sort Z.le taken) in
  NoDup [HTTPPort td; PBPort td; DisterlPort td] /\
  Forall (fun p => p ∈ all /\ p ∉ left) [HTTPPort td; PBPort td; DisterlPort td].
Proof.
  intros Hperm Hnd Hlen. pose proof (merge_sort_Permutation Z.le taken) as Hs.
  rewrite <- Hperm in Hnd. apply NoDup_app in Hnd as (Hnd & Hdis & _).
  assert (forall p, p ∈ merge_sort Z.le taken -> p ∈ all /\ p ∉ left) as Hin.
  { intros p. rewrite Hs. intros Hp. split; [|by apply Hdis].
    rewrite <- Hperm. apply elem_of_app. by left. }
  rewrite <- Hs in Hnd, Hlen.
  destruct (merge_sort Z.le taken) as [|p1 [|p2 [|p3 rest]]]; simpl in Hlen; [lia..|]. simpl.
  change (p1 :: p2 :: p3 :: rest) with ([p1; p2; p3] ++ rest) in Hnd.
  split; [by apply NoDup_app in Hnd as [? _]|].
  rewrite !Forall_cons. split_and!; [apply Hin..|by apply Forall_nil];
    rewrite !elem_of_cons; auto.
Qed.

Section launch_spec.
Context `{!MesosUtil, !MesosUtilLaws, !Json TaskData}.
Context {E : Type} `{!GoRand E, !GoRandLaws E, !GoEnv E, !GoEnvLaws E}.
Context (Marshal_ok : forall t : TaskData, (Marshal t).2 = None).

Lemma ApplyReservedOffer_no_fit frn o sc (e : E) : fits frn o sc = false ->
  ApplyReservedOffer frn o sc e = (Ret (false, frn, o), e).
Proof.
  intros Hf. unfold ApplyReservedOffer, take_task_resources, fits in *.
  destruct (compatibilityMode sc).
  - by rewrite Hf.
  - apply andb_false_iff in Hf as [-> | ->]; simpl; [done|].
    by rewrite orb_true_r.
Qed.

Lemma ApplyReservedOffer_fit frn o sc (e : E) :
  node_ok frn -> offer_ports_ok o -> fits frn o sc = true ->
  wp total (ApplyReservedOffer frn o sc) (fun r _ =>
    exists o1 td task, r = (true, launched frn o td, add_to_launch o1 [task]) /\
      same_but_groups o o1 /\ ports_from td o o1 /\ offer_left o o1 /\
      (ti_TaskId task = CurrentID frn /\ ti_SlaveId task = o_SlaveId (MesosOffer o)) /\
      td_FrameworkName td = frameworkName sc /\ ti_Data task = (Marshal td).1) e.
Proof.
  intros Hn [Hnd Hpok] Hfit. apply wp_bind.
  wp_by take_task_resources_spec.
  intros ? e' (o' & pre & last & execAsk & taken & -> & Hsame & Hpre & Hlast & Hlen & Hperm).
  cbv beta iota zeta. destruct Hn as (_ & _ & Hports).
  assert (NoDup taken) by (rewrite <- Hperm in Hnd; by apply NoDup_app in Hnd as [? _]).
  assert (Forall port_ok taken) by (rewrite <- Hperm in Hpok; by apply Forall_app in Hpok as [? _]).
  apply wp_bind. eapply wp_of_eq; [apply (PortIterator_ask pre taken); auto; lia|].
  apply wp_bind. wp_by Getenv_returns.
  intros chroot e'' _.
  assert (MesosOffer o' = MesosOffer o) as Hmo by (by rewrite Hsame).
  rewrite Hmo. unfold TaskData_Serialize.
  match goal with |- context [Marshal ?t] => pose proof (Marshal_ok t); set (td := t) in * end.
  destruct (Marshal td) as [bin [err|]] eqn:Hbin; [done|]. apply wp_ret.
  eexists o', td, _. split; [unfold launched; done|]. split; [done|].
  split; [apply (make_task_data_ports _ _ _ taken); [done..|lia]|].
  split; [split; [by exists taken|by rewrite Hsame]|]. split; [done|].
  split; [|by rewrite Hbin]. subst td. unfold make_task_data.
  by destruct (recv _) as [? l]; destruct (recv l) as [? l']; destruct (recv l').
Qed.
End launch_spec.

(** ** Reserving *)

(** A positive amount, as the framework is configured with. *)
Definition positive (x : float64) : Prop := fltb fzero x = true.

Lemma fadd_0_l x : positive x -> fadd fzero x = x.
Proof. by destruct x as [[]|[]| |[]]. Qed.

Lemma fleb_refl x : positive x -> fleb x x = true.
Proof.
  destruct x as [[]|[]| |[] m e]; try done. intros _.
  unfold fleb, SpecFloat.SFleb, SpecFloat.SFcompare. rewrite Z.compare_refl.
  change (Pos.compare_cont Eq m m) with (Pos.compare m m). by rewrite Pos.compare_refl.
Qed.

(** The resources Mesos offers once the reservation and the volume of [o] are
    made: the volume stands for the reserved disk. *)
Definition offered_after (o : OfferHelper) : list Resource :=
  List.filter (fun r => negb (String.eqb (r_Name r) "disk")) (ResourcesToReserve o) ++
  VolumesToCreate o.

Section reserve_spec.
Context `{!MesosUtil, !MesosUtilLaws}.
Context {E : Type} `{!GoRand E, !GoRandLaws E}.

Lemma apply_no_ports g cpus mem disk principal role pid path (e : E) :
  nonempty principal = true -> nonempty role = true -> positive cpus -> positive mem ->
  positive disk ->
  wp total (apply g cpus mem disk 0 principal role pid path) (fun r _ =>
    r.2 = [NewScalarResourceWithReservation "cpus" cpus principal role;
           NewScalarResourceWithReservation "mem" mem principal role;
           disk_ask disk principal role pid path]) e.
Proof.
  unfold positive. intros Hp Hr Hc Hm Hd. eapply wp_mono; [|apply apply_spec; lia].
  intros r e' (_ & _ & _ & taken & _ & _ & Hask).
  by rewrite Hc, Hm, Hd in Hask; unfold scalar_ask in Hask; rewrite Hp, Hr in Hask.
Qed.

Lemma ApplyUnreservedOffer_fit frn o principal role (e : E) :
  Principal frn = Some principal -> Role frn = Some role ->
  nonempty principal = true -> nonempty role = true ->
  nonempty (UUID frn) = true -> nonempty (ContainerPath frn) = true ->
  positive (n_Cpus frn) -> positive (n_Mem frn) -> positive (n_Disk frn) ->
  CanFitUnreserved o (fadd (n_Cpus frn) CPUS_PER_EXECUTOR)
    (fadd (n_Mem frn) MEM_PER_EXECUTOR) (n_Disk frn) (n_Ports frn) = true ->
  wp total (ApplyUnreservedOffer frn o) (fun r _ =>
    exists o', r = (true, set_CurrentState Reserved
        (set_Hostname (o_Hostname (MesosOffer o))
          (set_SlaveID (o_SlaveId (MesosOffer o)) frn)), o') /\
      MesosOffer o' = MesosOffer o /\ TasksToLaunch o' = TasksToLaunch o /\
      ResourcesToReserve o' = ResourcesToReserve o ++
        [NewScalarResourceWithReservation "cpus" (n_Cpus frn) principal role;
         NewScalarResourceWithReservation "mem" (n_Mem frn) principal role;
         NewScalarResourceWithReservation "disk" (n_Disk frn) principal role] /\
      VolumesToCreate o' = VolumesToCreate o ++
        [NewVolumeResourceWithReservation (n_Disk frn) (ContainerPath frn) (UUID frn)
           Volume_RW principal role]) e.
Proof.
  intros Hp Hr Hp' Hr' Hu Hpath Hc Hm Hd Hfit. unfold ApplyUnreservedOffer. rewrite Hfit.
  apply CanFit_true in Hfit as (_ & _ & _ & Hlen). simpl negb.
  apply wp_bind, wp_bind. wp_by apply_spec.
  intros [g1 a1] e1 _. apply wp_ret, wp_bind. rewrite Hp, Hr. simpl deref.
  apply wp_ret, wp_bind, wp_ret, wp_bind, wp_bind.
  wp_by apply_no_ports. intros [g2 a2] e2 Ha2. apply wp_ret.
  apply wp_bind, wp_bind. eapply wp_mono; [|apply apply_spec; simpl; lia].
  intros [g3 a3] e3 (_ & _ & _ & tk3 & _ & _ & Ha3). apply wp_ret, wp_ret.
  simpl in *. unfold positive in Hd. rewrite Hd in Ha3. subst a2 a3.
  eexists. split; [done|]. simpl. split; [done|]. split; [done|].
  unfold disk_ask, scalar_ask, PersistenceID. rewrite Hp', Hr', Hu, Hpath. done.
Qed.

(** Whatever the amounts: what a reservation changes, and that it ends. *)
Lemma ApplyUnreservedOffer_frame frn o (e : E) : node_ok frn ->
  wp total (ApplyUnreservedOffer frn o) (fun r _ =>
    r = (false, frn, o) \/
    exists o', r = (true, set_CurrentState Reserved
        (set_Hostname (o_Hostname (MesosOffer o))
          (set_SlaveID (o_SlaveId (MesosOffer o)) frn)), o') /\
      MesosOffer o' = MesosOffer o /\ TasksToLaunch o' = TasksToLaunch o /\
      offer_left o o') e.
Proof.
  intros ([principal Hp] & [role Hr] & Hports). unfold ApplyUnreservedOffer.
  destruct (CanFitUnreserved _ _ _ _ _) eqn:Hfit; [|by left].
  apply CanFit_true in Hfit as (_ & _ & _ & Hlen). simpl negb.
  apply wp_bind, wp_bind. wp_by apply_spec.
  intros [g1 a1] e1 (_ & _ & _ & tk1 & Hperm1 & _). apply wp_ret, wp_bind. rewrite Hp, Hr. simpl deref.
  apply wp_ret, wp_bind, wp_ret, wp_bind, wp_bind.
  eapply wp_mono; [|apply apply_spec; simpl; lia].
  intros [g2 a2] e2 (_ & _ & _ & tk2 & Hperm2 & _). apply wp_ret.
  apply wp_bind, wp_bind. eapply wp_mono; [|apply apply_spec; simpl; lia].
  intros [g3 a3] e3 (_ & _ & _ & tk3 & Hperm3 & _). apply wp_ret, wp_ret.
  simpl in *. right. eexists. split; [done|]. simpl. split; [done|]. split; [done|].
  split; [|done]. exists (tk1 ++ tk2 ++ tk3). simpl. by rewrite <- !app_assoc, Hperm3, Hperm2.
Qed.

Lemma unreserved_filter name rest :
  Forall (fun r => r_Reservation r = None /\ Forall range_ok (r_Ranges r)) rest ->
  List.filter (matches name true) rest = [].
Proof.
  induction 1 as [|r rest [Hr _] _ IH]; simpl; [done|].
  rewrite Hr. by rewrite andb_false_r.
Qed.

Lemma unreserved_volumes_filter rest :
  Forall (fun r => r_Reservation r = None /\ Forall range_ok (r_Ranges r)) rest ->
  List.filter (fun res => String.eqb (r_Name res) "disk" &&
    bool_decide (is_Some (r_Reservation res)) && bool_decide (is_Some (r_Disk res))) rest = [].
Proof.
  induction 1 as [|r rest [Hr _] _ IH]; simpl; [done|].
  rewrite Hr. by rewrite andb_false_r.
Qed.

Lemma getPorts_ok rs b (e : E) : Forall (fun r => Forall range_ok (r_Ranges r)) rs ->
  wp total (getPorts rs b) (fun _ _ => True) e.
Proof.
  intros Hrs. unfold getPorts. apply wp_mfoldl_simple; [|done].
  intros r acc e' Hin _. apply wp_bind.
  eapply wp_of_eq; [apply RangesToArray_ok|by apply wp_ret].
  rewrite FilterResources_filter in Hin. rewrite Forall_forall in Hrs. apply Hrs.
  apply list_elem_of_In, filter_In in Hin as [Hin _]. by apply list_elem_of_In.
Qed.

(** What a new helper sees of one reserved cpus, mem and disk resource. *)
Lemma NewOfferHelper_reserved id slave host c m d rc rm rd ci cm pid path mode rest (e : E) :
  Forall (fun r => r_Reservation r = None /\ Forall range_ok (r_Ranges r)) rest ->
  wp total (NewOfferHelper (mk_Offer id slave host
      (mk_Resource "cpus" c [] rc (Some ci) None :: mk_Resource "mem" m [] rm (Some cm) None ::
       mk_Resource "disk" d [] rd (Some cm) (Some (mk_DiskInfo pid path mode)) :: rest)))
    (fun h _ => Cpus (ReservedResources h) = fadd fzero c /\
                Mem (ReservedResources h) = fadd fzero m /\
                Disk (ReservedResources h) = fadd fzero d /\
                PersistenceIDs h = [pid]) e.
Proof.
  intros Hrest. unfold NewOfferHelper, getUnreservedResources, getReservedResources.
  assert (Forall (fun r => Forall range_ok (r_Ranges r)) rest) as Hrg
    by (eapply Forall_impl; [exact Hrest|by intros ? []]).
  cbn [o_Resources].
  apply wp_bind, wp_bind. eapply wp_mono; [|apply getPorts_ok; repeat constructor; done].
  intros ports e1 _. apply wp_ret, wp_bind, wp_bind.
  eapply wp_mono; [|apply getPorts_ok; repeat constructor; done].
  intros ports2 e2 _. apply wp_ret, wp_ret. cbn [fst snd ReservedResources Cpus Mem Disk PersistenceIDs].
  unfold getResource, getPersistenceIds. rewrite !FilterResources_filter. simpl List.filter.
  rewrite !(unreserved_filter _ rest), unreserved_volumes_filter by done. done.
Qed.
End reserve_spec.

(** Environment and codec for concrete runs. *)
Module SimNode.
#[export] Instance env : GoEnv Z := fun _ e => (Ret "", e).
#[export] Instance env_laws : GoEnvLaws Z.
Proof. done. Qed.
#[export] Instance uuid : GoUuid Z := fun e => (Ret ("uuid" +:+ itoa e), e + 1).
#[export] Instance uuid_laws : GoUuidLaws Z.
Proof. done. Qed.
#[export] Instance parse : GoParse := fun s => f64_of_Z <$> Atoi s.
#[export] Instance json : Json TaskData :=
  {| Marshal t := (itoa (HTTPPort t), None);
     Unmarshal s t := (t, None) |}.

Definition conf (compat : bool) : SchedulerConf :=
  mk_SchedulerConf (mk_SchedulerHTTPServer "h" "r" "c" "u") ["zk"] "riak" "role" "4" "16000"
    "20000" "" "" "" "principal" "" compat golang.

Definition offer (cpus mem disk : Z) : Offer :=
  mk_Offer "o1" (Some "s1") "host.example"
    [mk_Resource "cpus" (f64_of_Z cpus) [] None None None;
     mk_Resource "mem" (f64_of_Z mem) [] None None None;
     mk_Resource "disk" (f64_of_Z disk) [] None None None;
     mk_Resource "ports" fzero [mk_Value_Range 31000 31019] None None None].

Definition node : FrameworkRiakNode :=
  {| reconciled := false; lastAskedToReconcile := 0; SimpleId := 1;
     DestinationState := Started; CurrentState := Unknown; n_TaskStatus := None;
     n_Generation := 0; SlaveID := None; Hostname := ""; n_TaskData := zero_TaskData;
     FrameworkName := "riak"; ClusterName := "a"; Role := Some "role";
     Principal := Some "principal"; n_Cpus := f64_of_Z 4; n_Mem := f64_of_Z 16000;
     n_Disk := f64_of_Z 20000; n_Ports := 10; UUID := "uuid0"; ContainerPath := "root";
     RestartGeneration := 0 |}.

Definition helper (cpus : float64) : OfferHelper :=
  let g := mk_ResourceGroup cpus (f64_of_Z 20000) (f64_of_Z 30000) (seqZ 31000 20) in
  mk_OfferHelper (offer 5 20000 30000) "o1" [] g g [] [] [] [] [].
End SimNode.

(** ** Properties *)

Section node_properties.
Context `{!MesosUtil, !MesosUtilLaws, !Json TaskData}.
Context {E : Type} `{!GoRand E, !GoRandLaws E, !GoEnv E, !GoEnvLaws E}.

(** Within a framework the task id of a node determines its cluster and
    its number, although cluster names may contain dashes and digits. *)
Theorem task_id_unique (n1 n2 : FrameworkRiakNode) :
  FrameworkName n1 = FrameworkName n2 -> 0 <= SimpleId n1 -> 0 <= SimpleId n2 ->
  CurrentID n1 = CurrentID n2 ->
  ClusterName n1 = ClusterName n2 /\ SimpleId n1 = SimpleId n2.
Proof. unfold CurrentID, node_id. intros -> ??. by apply dashed_name_inj. Qed.

(** C7 [launch_outcome]: a launch on an offer that does not fit changes nothing.  On one that
    fits it always succeeds: the node is Starting on the offer's slave and
    host with the next generation, exactly one task, with the node's id, is
    added to the offer, the resources taken are the only other change, and
    the HTTP, protobuf and distribution ports are three different ports of
    the offer that are no longer in it. *)
Theorem launch_outcome (frn : FrameworkRiakNode) (o : OfferHelper) (sc : SchedulerConf) (e : E) :
  (forall t : TaskData, (Marshal t).2 = None) -> node_ok frn -> offer_ports_ok o ->
  wp total (ApplyReservedOffer frn o sc) (fun r _ =>
    if fits frn o sc then
      exists o1 td task, r = (true, launched frn o td, add_to_launch o1 [task]) /\
        same_but_groups o o1 /\ ports_from td o o1 /\
        ti_TaskId task = CurrentID frn /\ ti_SlaveId task = o_SlaveId (MesosOffer o)
    else r = (false, frn, o)) e.
Proof.
  intros Hm Hn Hp. destruct (fits frn o sc) eqn:Hf.
  - wp_by ApplyReservedOffer_fit.
    intros r e' (o1 & td & task & Hr & ? & ? & _ & ? & _). by exists o1, td, task.
  - eapply wp_of_eq; [by apply ApplyReservedOffer_no_fit|done].
Qed.

(** C25 [reservation_comes_back]: once the reservation and the volume that [ApplyUnreservedOffer] asks for are
    made, any offer of those resources next to unreserved ones passes the two
    tests that let the node launch there: [CanFitReserved] and
    [HasPersistenceId]. *)
Theorem reservation_comes_back (frn : FrameworkRiakNode) (o : OfferHelper)
    (principal role : string) (rest : list Resource) (id : string) (slave : option string)
    (host : string) (e : E) :
  ResourcesToReserve o = [] -> VolumesToCreate o = [] ->
  Principal frn = Some principal -> Role frn = Some role ->
  nonempty principal = true -> nonempty role = true ->
  nonempty (UUID frn) = true -> nonempty (ContainerPath frn) = true ->
  positive (n_Cpus frn) -> positive (n_Mem frn) -> positive (n_Disk frn) ->
  CanFitUnreserved o (fadd (n_Cpus frn) CPUS_PER_EXECUTOR)
    (fadd (n_Mem frn) MEM_PER_EXECUTOR) (n_Disk frn) (n_Ports frn) = true ->
  Forall (fun r => r_Reservation r = None /\ Forall range_ok (r_Ranges r)) rest ->
  wp total (ApplyUnreservedOffer frn o) (fun r e' =>
    r.1.1 = true /\ CurrentState r.1.2 = Reserved /\
    wp total (NewOfferHelper (mk_Offer id slave host (offered_after r.2 ++ rest)))
      (fun h _ => CanFitReserved h (n_Cpus frn) (n_Mem frn) (n_Disk frn) 0 = true /\
                  HasPersistenceId h (PersistenceID r.1.2) = true) e') e.
Proof.
  intros Hr0 Hv0 Hp Hr Hp' Hr' Hu Hpath Hc Hm Hd Hfit Hrest.
  wp_eby ApplyUnreservedOffer_fit.
  intros ? e' (o' & -> & _ & _ & Hres & Hvol). split; [done|]. split; [done|].
  rewrite Hr0 in Hres. rewrite Hv0 in Hvol. unfold offered_after. cbn [fst snd].
  rewrite Hres, Hvol, !NewScalarResourceWithReservation_eq, NewVolumeResourceWithReservation_eq.
  cbn [app]. simpl List.filter. cbn [app].
  wp_by NewOfferHelper_reserved.
  intros h e'' (Hcpus & Hmem & Hdisk & Hpids). split.
  - unfold CanFitReserved, CanFit. rewrite Hcpus, Hmem, Hdisk.
    rewrite !fadd_0_l, !fleb_refl by done. cbn [andb].
    apply Z.leb_le. lia.
  - unfold HasPersistenceId. rewrite Hpids. simpl. unfold PersistenceID. simpl.
    by rewrite String.eqb_refl.
Qed.
End node_properties.

Section node_witnesses.
Import RefMesosUtil SimRand SimNode.

Lemma task_id_unique_witness :
  node_id "riak" "a-1" 2 <> node_id "riak" "a" 12 /\ ClusterName node = ClusterName node.
Proof.
  split; [by vm_compute|]. by apply (task_id_unique node node).
Defined.

Lemma launch_outcome_witness :
  let o := helper (f64_of_Z 5) in
  wp total (ApplyReservedOffer node o (conf true)) (fun r _ =>
    if fits node o (conf true) then
      exists o1 td task, r = (true, launched node o td, add_to_launch o1 [task]) /\
        same_but_groups o o1 /\ ports_from td o o1 /\
        ti_TaskId task = CurrentID node /\ ti_SlaveId task = o_SlaveId (MesosOffer o)
    else r = (false, node, o)) 3 /\ fits node o (conf true) = true.
Proof.
  split; [|by vm_compute]. apply launch_outcome; [done| |].
  - split; [by eexists|]. split; [by eexists|by vm_compute].
  - split; [apply NoDup_seqZ|apply Forall_seqZ; unfold port_ok; lia].
Defined.

Lemma reservation_comes_back_witness :
  let o := helper (f64_of_Z 5) in
  wp total (ApplyUnreservedOffer node o) (fun r e' =>
    r.1.1 = true /\ CurrentState r.1.2 = Reserved /\
    wp total (NewOfferHelper (mk_Offer "o2" (Some "s1") "h" (offered_after r.2 ++ [])))
      (fun h _ => CanFitReserved h (n_Cpus node) (n_Mem node) (n_Disk node) 0 = true /\
                  HasPersistenceId h (PersistenceID r.1.2) = true) e') 0.
Proof.
  intros o.
  apply (reservation_comes_back node o "principal" "role" [] "o2" (Some "s1") "h" 0);
    [reflexivity..| | | | |]; [vm_compute; reflexivity..|constructor].
Defined.

(** Float64 rounding can make a reservation that passes the capacity test
    take more cpus than the offer has: 4 cpus for the node and 0.1 for the
    executor are accepted from an offer of 4.1, and less than zero is left. *)
Theorem reservation_overdraws :
  let o := helper (f64_of_frac 41 10) in
  group_ok (UnreservedResources o) /\
  wp total (ApplyUnreservedOffer node o) (fun r _ =>
    r.1.1 = true /\ f64_nonneg (Cpus (UnreservedResources r.2)) = false) 0.
Proof. split; [by repeat split|by vm_compute]. Qed.
End node_witnesses.
