(* ===== verification/Explorer.v ===== *)
(** * [riak_explorer/client.go]: the Riak Explorer client

    Every call is an HTTP request to [http://host/admin/path] whose 2xx body is
    decoded into a reply record; decoding errors are ignored and any failure of
    the request yields the zero reply.  [net/http] is the class [HttpClient]. *)

From S2P Require Import Prelude GoStrings Structs.
From Stdlib Require Import SpecFloat.

#[local] Open Scope string_scope.
#[local] Open Scope Z_scope.

(** The outcome of a request: an error, or a status with what reading the
    body gives. *)
Inductive HttpResult :=
  | HttpError (err : string)
  | HttpResponse (status : Z) (body : string) (read_err : option string).

Class HttpClient (E : Type) := {
  http_Get : string -> M E HttpResult;
  (** [http.NewRequest("PUT", url, data)] fails on a malformed URL. *)
  http_NewRequest_ok : string -> bool;
  http_Put : string -> string -> M E HttpResult }.

(** The client has no timeout: a request that no one answers blocks. *)
Definition unanswered {E} (answers : bool) (x : ending) (_ : E) : Prop := x = blocked /\ answers = false.

(** [answers] says that every request is answered. *)
Class HttpClientLaws (answers : bool) (E : Type) `{!HttpClient E} : Prop := {
  http_Get_ends url e : wpe (http_Get url) (fun _ _ => True) (unanswered answers) e;
  http_Put_ends url data e : wpe (http_Put url data) (fun _ _ => True) (unanswered answers) e }.

Lemma wpe_answered {E A} (m : M E A) Q e : wpe m Q (unanswered true) e -> wp total m Q e.
Proof. unfold wpe, wp, unanswered. destruct (m e) as [[] ?]; naive_solver. Qed.

Record RiakExplorerClient := mk_RiakExplorerClient { rex_Host : string }.

Definition NewRiakExplorerClient (host : string) : RiakExplorerClient :=
  mk_RiakExplorerClient host.

Definition admin_url (client : RiakExplorerClient) (path : string) : string :=
  "http://" +:+ rex_Host client +:+ "/admin/" +:+ path.

Definition is_2xx (status : Z) : bool := (200 <=? status) && (status <? 300).

Definition unknown_status (status : Z) : string := "Unknown HTTP Status: " +:+ itoa status.

(** Body and error of a finished request. *)
Definition read_result (r : HttpResult) : string * option string :=
  match r with
  | HttpError err => ("", Some err)
  | HttpResponse _ _ (Some err) => ("", Some err)
  | HttpResponse status body None =>
      if is_2xx status then (body, None) else (body, Some (unknown_status status))
  end.

Section requests.
Context {E : Type} `{!HttpClient E}.

Definition doGet (client : RiakExplorerClient) (path : string) : M E (string * option string) :=
  resp ← http_Get (admin_url client path);
  mret (read_result resp).

(** The error of [NewRequest] is not checked: the header is set on nil. *)
Definition doPutWithData (client : RiakExplorerClient) (path data : string) :
    M E (string * option string) :=
  if negb (http_NewRequest_ok (admin_url client path))
  then mpanic "invalid memory address or nil pointer dereference" else
  resp ← http_Put (admin_url client path) data;
  mret (read_result resp).

(** [m] zero, the request, and [json.Unmarshal] with its error dropped. *)
Definition get_reply {T} `{!Json T} (zero : T) (client : RiakExplorerClient) (path : string) :
    M E (T * option string) :=
  v ← doGet client path;
  match v.2 with
  | Some err => mret (zero, Some err)
  | None => mret ((Unmarshal v.1 zero).1, None)
  end.
End requests.

(** ** Plain bodies *)

Section json_calls.
Context {E : Type} `{!HttpClient E}.

Definition GetAAEStatusJSON (client : RiakExplorerClient) (node : string) : M E (string * option string) :=
  doGet client ("control/nodes/" +:+ node +:+ "/aae-status").
Definition GetStatusJSON (client : RiakExplorerClient) (node : string) : M E (string * option string) :=
  doGet client ("control/nodes/" +:+ node +:+ "/status").
Definition GetRingreadyJSON (client : RiakExplorerClient) (node : string) : M E (string * option string) :=
  doGet client ("control/nodes/" +:+ node +:+ "/ringready").
Definition GetTransfersJSON (client : RiakExplorerClient) (node : string) : M E (string * option string) :=
  doGet client ("control/nodes/" +:+ node +:+ "/transfers").
Definition GetBucketTypesJSON (client : RiakExplorerClient) (node : string) : M E (string * option string) :=
  doGet client ("explore/nodes/" +:+ node +:+ "/bucket_types").
Definition CreateBucketTypeJSON (client : RiakExplorerClient) (node bucketType props : string) :
    M E (string * option string) :=
  doPutWithData client ("explore/nodes/" +:+ node +:+ "/bucket_types/" +:+ bucketType) props.
End json_calls.

(** ** Replies *)

Record Links := mk_Links { Self : string; Related : string }.
Definition zero_Links : Links := mk_Links "" "".

Record PingReply := mk_PingReply { Ping_ID : string; Ping_Message : string; Ping_Links : Links }.
Definition zero_PingReply : PingReply := mk_PingReply "" "" zero_Links.

Record JoinReply := mk_JoinReply {
  Join_Success : string; Join_Error : string; Join_Links : Links }.
Definition zero_JoinReply : JoinReply := mk_JoinReply "" "" zero_Links.

Record StagedJoinReply := mk_StagedJoinReply {
  StagedJoin_Success : string; StagedJoin_Error : string; StagedJoin_Links : Links }.
Definition zero_StagedJoinReply : StagedJoinReply := mk_StagedJoinReply "" "" zero_Links.

Record LeaveReply := mk_LeaveReply {
  Leave_Success : string; Leave_Error : string; Leave_Links : Links }.
Definition zero_LeaveReply : LeaveReply := mk_LeaveReply "" "" zero_Links.

Record StagedLeaveReply := mk_StagedLeaveReply {
  StagedLeave_Success : string; StagedLeave_Error : string; StagedLeave_Links : Links }.
Definition zero_StagedLeaveReply : StagedLeaveReply := mk_StagedLeaveReply "" "" zero_Links.

Record ForceRemoveReply := mk_ForceRemoveReply {
  ForceRemove_Success : string; ForceRemove_Error : string; ForceRemove_Links : Links }.
Definition zero_ForceRemoveReply : ForceRemoveReply := mk_ForceRemoveReply "" "" zero_Links.

Record ReplaceReply := mk_ReplaceReply {
  Replace_Success : string; Replace_Error : string; Replace_Links : Links }.
Definition zero_ReplaceReply : ReplaceReply := mk_ReplaceReply "" "" zero_Links.

Record StagedReplaceReply := mk_StagedReplaceReply {
  StagedReplace_Success : string; StagedReplace_Error : string; StagedReplace_Links : Links }.
Definition zero_StagedReplaceReply : StagedReplaceReply := mk_StagedReplaceReply "" "" zero_Links.

Record ForceReplaceReply := mk_ForceReplaceReply {
  ForceReplace_Success : string; ForceReplace_Error : string; ForceReplace_Links : Links }.
Definition zero_ForceReplaceReply : ForceReplaceReply := mk_ForceReplaceReply "" "" zero_Links.

Record CommitReply := mk_CommitReply {
  Commit_Success : string; Commit_Error : string; Commit_Links : Links }.
Definition zero_CommitReply : CommitReply := mk_CommitReply "" "" zero_Links.

Record ClearReply := mk_ClearReply {
  Clear_Success : string; Clear_Error : string; Clear_Links : Links }.
Definition zero_ClearReply : ClearReply := mk_ClearReply "" "" zero_Links.

Record NodeChangeReply := mk_NodeChangeReply {
  nc_Node : string; nc_Action : string; nc_Target : string }.
Record PlanReply := mk_PlanReply {
  Plan_Changes : list NodeChangeReply; Plan_Error : string; Plan_Links : Links }.
Definition zero_PlanReply : PlanReply := mk_PlanReply [] "" zero_Links.

Record RepairReply := mk_RepairReply {
  Repair_Success : Z; Repair_Error : Z; Repair_Links : Links }.
Definition zero_RepairReply : RepairReply := mk_RepairReply 0 0 zero_Links.

(** The two percentages are [float32]. *)
Record NodeStatusReply := mk_NodeStatusReply {
  ns_ID : string; ns_Status : string; ns_RingPercentage : spec_float;
  ns_PendingPercentage : spec_float }.
Record StatusReply := mk_StatusReply {
  Status_Nodes : list NodeStatusReply; Status_Valid : Z; Status_Leaving : Z;
  Status_Exiting : Z; Status_Joining : Z; Status_Down : Z; Status_Links : Links }.
Definition zero_StatusReply : StatusReply := mk_StatusReply [] 0 0 0 0 0 zero_Links.

Record RingReadyReply := mk_RingReadyReply {
  RingReady_Ready : bool; RingReady_Nodes : list string; RingReady_Error : string;
  RingReady_Links : Links }.
Definition zero_RingReadyReply : RingReadyReply := mk_RingReadyReply false [] "" zero_Links.

(** ** Commands *)

Section commands.
Context {E : Type} `{!HttpClient E}.
Context `{!Json PingReply, !Json JoinReply, !Json StagedJoinReply, !Json LeaveReply,
  !Json StagedLeaveReply, !Json ForceRemoveReply, !Json ReplaceReply, !Json StagedReplaceReply,
  !Json ForceReplaceReply, !Json PlanReply, !Json RepairReply, !Json CommitReply,
  !Json ClearReply, !Json StatusReply, !Json RingReadyReply}.

Definition Ping (client : RiakExplorerClient) : M E (PingReply * option string) :=
  get_reply zero_PingReply client "explore/ping".
Definition rex_Join (client : RiakExplorerClient) (fromNode toNode : string) :
    M E (JoinReply * option string) :=
  get_reply zero_JoinReply client
    ("control/nodes/" +:+ fromNode +:+ "/join/" +:+ toNode).
Definition StagedJoin (client : RiakExplorerClient) (fromNode toNode : string) :
    M E (StagedJoinReply * option string) :=
  get_reply zero_StagedJoinReply client
    ("control/nodes/" +:+ fromNode +:+ "/staged-join/" +:+ toNode).
Definition rex_Leave (client : RiakExplorerClient) (stayingNode leavingNode : string) :
    M E (LeaveReply * option string) :=
  get_reply zero_LeaveReply client
    ("control/nodes/" +:+ stayingNode +:+ "/leave/" +:+ leavingNode).
Definition StagedLeave (client : RiakExplorerClient) (node : string) :
    M E (StagedLeaveReply * option string) :=
  get_reply zero_StagedLeaveReply client
    ("control/nodes/" +:+ node +:+ "/staged-leave").
Definition StagedLeaveTarget (client : RiakExplorerClient) (stayingNode leavingNode : string) :
    M E (StagedLeaveReply * option string) :=
  get_reply zero_StagedLeaveReply client
    ("control/nodes/" +:+ stayingNode +:+ "/staged-leave/" +:+ leavingNode).
Definition ForceRemove (client : RiakExplorerClient) (stayingNode leavingNode : string) :
    M E (ForceRemoveReply * option string) :=
  get_reply zero_ForceRemoveReply client
    ("control/nodes/" +:+ stayingNode +:+ "/force-remove/" +:+ leavingNode).
Definition Replace (client : RiakExplorerClient) (fromNode oldNode newNode : string) :
    M E (ReplaceReply * option string) :=
  get_reply zero_ReplaceReply client
    ("control/nodes/" +:+ fromNode +:+ "/replace/" +:+ oldNode +:+ "/" +:+ newNode).
Definition StagedReplace (client : RiakExplorerClient) (fromNode oldNode newNode : string) :
    M E (StagedReplaceReply * option string) :=
  get_reply zero_StagedReplaceReply client
    ("control/nodes/" +:+ fromNode +:+ "/staged-replace/" +:+ oldNode +:+ "/" +:+ newNode).
Definition ForceReplace (client : RiakExplorerClient) (fromNode oldNode newNode : string) :
    M E (ForceReplaceReply * option string) :=
  get_reply zero_ForceReplaceReply client
    ("control/nodes/" +:+ fromNode +:+ "/force-replace/" +:+ oldNode +:+ "/" +:+ newNode).
Definition Plan (client : RiakExplorerClient) (node : string) :
    M E (PlanReply * option string) :=
  get_reply zero_PlanReply client
    ("control/nodes/" +:+ node +:+ "/plan").
Definition Repair (client : RiakExplorerClient) (node : string) :
    M E (RepairReply * option string) :=
  get_reply zero_RepairReply client
    ("control/nodes/" +:+ node +:+ "/repair").
Definition Commit (client : RiakExplorerClient) (node : string) :
    M E (CommitReply * option string) :=
  get_reply zero_CommitReply client
    ("control/nodes/" +:+ node +:+ "/commit").
Definition Clear (client : RiakExplorerClient) (node : string) :
    M E (ClearReply * option string) :=
  get_reply zero_ClearReply client
    ("control/nodes/" +:+ node +:+ "/clear").
Definition Status (client : RiakExplorerClient) (node : string) :
    M E (StatusReply * option string) :=
  get_reply zero_StatusReply client
    ("control/nodes/" +:+ node +:+ "/status").
Definition RingReady (client : RiakExplorerClient) (node : string) :
    M E (RingReadyReply * option string) :=
  get_reply zero_RingReadyReply client
    ("control/nodes/" +:+ node +:+ "/ringready").
End commands.

(** ** Properties *)

Section explorer_properties.
Context {E : Type} `{!HttpClient E}.

Lemma read_result_ok r body :
  read_result r = (body, None) <->
  exists status, r = HttpResponse status body None /\ 200 <= status < 300.
Proof.
  split.
  - destruct r as [err|status b [err|]]; simpl; try done.
    unfold is_2xx. destruct (Z.leb_spec 200 status), (Z.ltb_spec status 300); simpl; try done.
    intros [= ->]. by exists status.
  - intros (status & -> & Hs). simpl. unfold is_2xx.
    destruct (Z.leb_spec 200 status), (Z.ltb_spec status 300); simpl; done || lia.
Qed.

(** C34 [reply_only_on_2xx]: a command makes one GET of the Explorer's admin URL; it reports no error
    exactly when the answer is a fully read 2xx response, whose body the reply
    decodes, and otherwise returns the zero reply. *)
Theorem reply_only_on_2xx {T} `{!Json T} (zero : T) (client : RiakExplorerClient)
    (path : string) (e : E) (r : HttpResult) (e' : E) :
  http_Get (admin_url client path) e = (Ret r, e') ->
  exists reply err, get_reply zero client path e = (Ret (reply, err), e') /\
    (err = None <-> exists status body, r = HttpResponse status body None /\ 200 <= status < 300) /\
    (forall status body, r = HttpResponse status body None -> err = None ->
       reply = (Unmarshal body zero).1) /\
    (err <> None -> reply = zero).
Proof.
  intros Hget. unfold get_reply, doGet, mbind, M_bind. rewrite Hget. cbn [mret M_ret].
  destruct (read_result r) as [body [err|]] eqn:Hr; cbn [fst snd].
  - exists zero, (Some err). split; [done|]. split; [|done]. split; [done|].
    intros (status & b & Hb). assert (read_result r = (b, None)) as Hr'
      by (apply read_result_ok; by exists status). congruence.
  - exists (Unmarshal body zero).1, None. split; [done|].
    apply read_result_ok in Hr as (status & -> & Hs).
    split; [split; [by eauto|done]|]. split; [|done].
    by intros ?? [= -> ->].
Qed.
End explorer_properties.

(** A scripted server for concrete runs: the state is the answers to come. *)
Module SimHttp.
#[export] Instance http : HttpClient (list HttpResult) :=
  {| http_Get url e := match e with
                       | r :: e' => (Ret r, e')
                       | [] => (Ret (HttpError "no answer"), [])
                       end;
     http_NewRequest_ok url := true;
     http_Put url data e := (Ret (HttpResponse 204 "" None), e) |}.

(** The success or error word is the whole body. *)
#[export] Instance json_join : Json JoinReply :=
  {| Marshal t := (Join_Success t, None);
     Unmarshal s t :=
       (if String.eqb s "ok" then mk_JoinReply "ok" "" zero_Links
        else mk_JoinReply "" s zero_Links, None) |}.
#[export] Instance json_remove : Json ForceRemoveReply :=
  {| Marshal t := (ForceRemove_Success t, None);
     Unmarshal s t :=
       (if String.eqb s "ok" then mk_ForceRemoveReply "ok" "" zero_Links
        else mk_ForceRemoveReply "" s zero_Links, None) |}.
End SimHttp.

Section explorer_witness.
Import SimHttp.

Lemma reply_only_on_2xx_witness :
  exists reply err,
    get_reply zero_JoinReply (NewRiakExplorerClient "host:1") "p" [HttpResponse 200 "ok" None]
      = (Ret (reply, err), []) /\
    (err = None <-> exists status body,
       HttpResponse 200 "ok" None = HttpResponse status body None /\ 200 <= status < 300) /\
    (forall status body, HttpResponse 200 "ok" None = HttpResponse status body None ->
       err = None -> reply = (Unmarshal body zero_JoinReply).1) /\
    (err <> None -> reply = zero_JoinReply).
Proof. by apply reply_only_on_2xx. Defined.
End explorer_witness.
