(* ===== verification/Cluster.v ===== *)
(** * [scheduler/cluster.go]: a cluster of Riak nodes

    A cluster holds its live nodes and its graveyard, both keyed by task id.
    The Go code shares each node between the maps by pointer; here a pointer
    to a live node is its key in [Nodes], and a change through the pointer is a
    change of that entry.  The iteration order of a Go map is unspecified:
    [map_order] chooses it anew for every loop, and the theorems hold for
    every choice. *)

From S2P Require Import Prelude GoStrings Float64 Mesos Utils Structs Offer Node Explorer.

#[local] Open Scope string_scope.
#[local] Open Scope list_scope.
#[local] Open Scope Z_scope.

(** ** Environment *)

(** The order in which [range] visits the keys of a map. *)
Class GoMap (E : Type) := map_order : list string -> M E (list string).
Class GoMapLaws (E : Type) `{!GoMap E} : Prop :=
  map_order_perm ks e : wp total (map_order ks) (fun l _ => l ≡ₚ ks) e.

Class GoTime (E : Type) := time_Now : M E Z.   (* nanoseconds *)

Definition map_keys {A} (m : gmap string A) : list string := (map_to_list m).*1.

(** [time.Since(t).Seconds() > 5]. *)
Definition since_gt_5s (now t : Z) : bool := 5 * 10 ^ 9 <? now - t.

(** ** State *)

Record FrameworkRiakCluster := mk_FrameworkRiakCluster {
  c_Name : string;
  Nodes : gmap string FrameworkRiakNode;
  Graveyard : gmap string FrameworkRiakNode;
  RiakConfig : string;
  AdvancedConfig : string;
  IsKilled : bool;
  c_IsRestarting : bool;
  c_Generation : Z }.

Definition set_Nodes (v : gmap string FrameworkRiakNode) (c : FrameworkRiakCluster) :=
  mk_FrameworkRiakCluster (c_Name c) v (Graveyard c) (RiakConfig c) (AdvancedConfig c)
    (IsKilled c) (c_IsRestarting c) (c_Generation c).
Definition set_Graveyard (v : gmap string FrameworkRiakNode) (c : FrameworkRiakCluster) :=
  mk_FrameworkRiakCluster (c_Name c) (Nodes c) v (RiakConfig c) (AdvancedConfig c)
    (IsKilled c) (c_IsRestarting c) (c_Generation c).
Definition set_RiakConfig (v : string) (c : FrameworkRiakCluster) :=
  mk_FrameworkRiakCluster (c_Name c) (Nodes c) (Graveyard c) v (AdvancedConfig c)
    (IsKilled c) (c_IsRestarting c) (c_Generation c).
Definition set_AdvancedConfig (v : string) (c : FrameworkRiakCluster) :=
  mk_FrameworkRiakCluster (c_Name c) (Nodes c) (Graveyard c) (RiakConfig c) v
    (IsKilled c) (c_IsRestarting c) (c_Generation c).
Definition set_IsKilled (v : bool) (c : FrameworkRiakCluster) :=
  mk_FrameworkRiakCluster (c_Name c) (Nodes c) (Graveyard c) (RiakConfig c) (AdvancedConfig c)
    v (c_IsRestarting c) (c_Generation c).
Definition set_IsRestarting (v : bool) (c : FrameworkRiakCluster) :=
  mk_FrameworkRiakCluster (c_Name c) (Nodes c) (Graveyard c) (RiakConfig c) (AdvancedConfig c)
    (IsKilled c) v (c_Generation c).
Definition set_c_Generation (v : Z) (c : FrameworkRiakCluster) :=
  mk_FrameworkRiakCluster (c_Name c) (Nodes c) (Graveyard c) (RiakConfig c) (AdvancedConfig c)
    (IsKilled c) (c_IsRestarting c) v.

(** Store a node through its pointer. *)
Definition put_node (key : string) (n : FrameworkRiakNode) (c : FrameworkRiakCluster) :=
  set_Nodes (<[key := n]> (Nodes c)) c.

(** The embedded artifacts; the error of [Asset] is only logged, so a missing
    one is the empty text. *)
Class Artifacts := Asset : string -> option string.

Definition NewFrameworkRiakCluster `{!Artifacts} (name : string) : FrameworkRiakCluster :=
  {| c_Name := name; Nodes := ∅; Graveyard := ∅;
     RiakConfig := default "" (Asset "riak.conf");
     AdvancedConfig := default "" (Asset "advanced.config");
     IsKilled := false; c_IsRestarting := false; c_Generation := 0 |}.

(** ** Operations without effects *)

Definition RollingRestart (frc : FrameworkRiakCluster) : FrameworkRiakCluster :=
  if c_IsRestarting frc then frc
  else set_c_Generation (wrap64 (c_Generation frc + 1)) (set_IsRestarting true frc).

Definition Cluster_KillNext (frc : FrameworkRiakCluster) : FrameworkRiakCluster :=
  set_IsKilled true frc.

Definition Cluster_CanBeRemoved (frc : FrameworkRiakCluster) : bool :=
  IsKilled frc && (size (Nodes frc) =? 0)%nat.

Definition GetNextSimpleId (frc : FrameworkRiakCluster) : Z :=
  Z.of_nat (size (Nodes frc)) + Z.of_nat (size (Graveyard frc)) + 1.

Definition HasNode (frc : FrameworkRiakCluster) (riakNodeID : string) : bool :=
  bool_decide (is_Some (Nodes frc !! riakNodeID)) ||
  bool_decide (is_Some (Graveyard frc !! riakNodeID)).

Definition RemoveNode (riakNode : FrameworkRiakNode) (frc : FrameworkRiakCluster) :=
  let c := set_Graveyard (<[CurrentID riakNode := riakNode]> (Graveyard frc)) frc in
  set_Nodes (delete (CurrentID riakNode) (Nodes c)) c.

(** ** Operations with effects *)

Section operations.
Context `{!MesosUtil, !Json TaskData, !Json JoinReply, !Json ForceRemoveReply, !GoParse}.
Context {E : Type} `{!GoRand E, !GoEnv E, !GoUuid E, !GoMap E, !GoTime E, !HttpClient E}.

Definition range {A} (m : gmap string A) : M E (list string) := map_order (map_keys m).

Definition CreateNode (sc : SchedulerConf) (frc : FrameworkRiakCluster) :
    M E (FrameworkRiakCluster * FrameworkRiakNode) :=
  let simpleId := GetNextSimpleId frc in
  riakNode ← NewFrameworkRiakNode sc (c_Name frc) (c_Generation frc) simpleId;
  mret (put_node (CurrentID riakNode) riakNode frc, riakNode).

(** *** Offers *)

Record apply_state := mk_apply_state {
  as_cluster : FrameworkRiakCluster;
  as_offer : OfferHelper;
  as_dirty : bool;
  as_needs : bool }.

(** The body of the loop over the nodes, for the node at [key]. *)
Definition ApplyOffer_node (sc : SchedulerConf) (st : apply_state) (key : string) : M E apply_state :=
  let frc := as_cluster st in
  let offerHelper := as_offer st in
  riakNode ← deref (Nodes frc !! key);
  if NeedsToBeReconciled riakNode
  then mret (mk_apply_state frc offerHelper (as_dirty st) true)
  else if CanBeScheduled riakNode && compatibilityMode sc then
    r ← ApplyReservedOffer riakNode offerHelper sc;
    mret (mk_apply_state (put_node key r.1.2 frc) r.2 (if r.1.1 : bool then true else as_dirty st)
            (as_needs st))
  else if CanBeScheduled riakNode && HasRequestedReservation riakNode &&
          HasPersistenceId offerHelper (PersistenceID riakNode) then
    r ← ApplyReservedOffer riakNode offerHelper sc;
    mret (if r.1.1 : bool
          then mk_apply_state (put_node key r.1.2 frc) r.2 true (as_needs st)
          else mk_apply_state (put_node key r.1.2 frc) r.2 (as_dirty st) true)
  else if CanBeScheduled riakNode && HasRequestedReservation riakNode &&
          (String.eqb (GetValue (SlaveID riakNode)) (GetValue (o_SlaveId (MesosOffer offerHelper))) ||
           String.eqb (Hostname riakNode) (o_Hostname (MesosOffer offerHelper))) then
    r ← ApplyReservedOffer riakNode offerHelper sc;
    mret (mk_apply_state
            (put_node key (if negb (r.1.1 : bool) then Unreserve r.1.2 else r.1.2) frc)
            r.2 true (as_needs st))
  else if CanBeScheduled riakNode && negb (HasRequestedReservation riakNode) &&
          negb (compatibilityMode sc) then
    r ← ApplyUnreservedOffer riakNode offerHelper;
    mret (mk_apply_state (put_node key r.1.2 frc) r.2 (if r.1.1 : bool then true else as_dirty st)
            (as_needs st))
  else mret st.

(** The loop; the scheduler persists its state afterwards when it is dirty. *)
Definition ApplyOffer_loop (sc : SchedulerConf) (frc : FrameworkRiakCluster)
    (offerHelper : OfferHelper) : M E apply_state :=
  keys ← range (Nodes frc);
  mfoldl (ApplyOffer_node sc) (mk_apply_state frc offerHelper false false) keys.

(** *** Restarts and removals *)

Record restart_scan := mk_restart_scan {
  rs_nodesToRestart : gmap string string;   (* id to pointer *)
  rs_alreadyRestarted : Z;
  rs_currentlyRestarting : Z }.

Definition restart_scan_node (frc : FrameworkRiakCluster) (s : restart_scan) (key : string) :
    M E (restart_scan * bool) :=
  riakNode ← deref (Nodes frc !! key);
  mret (if HasRestarted riakNode (c_Generation frc)
        then (mk_restart_scan (rs_nodesToRestart s) (rs_alreadyRestarted s + 1)
                (rs_currentlyRestarting s), true)
        else if IsRestarting riakNode (c_Generation frc)
        then (mk_restart_scan (rs_nodesToRestart s) (rs_alreadyRestarted s)
                (rs_currentlyRestarting s + 1), false)
        else (mk_restart_scan (<[CurrentID riakNode := key]> (rs_nodesToRestart s))
                (rs_alreadyRestarted s) (rs_currentlyRestarting s), false)).

(** Restart the first node of [nodesToRestart]. *)
Definition restart_first (frc : FrameworkRiakCluster) (stateModified : bool)
    (nodesToRestart : gmap string string) : M E (FrameworkRiakCluster * bool) :=
  ids ← range nodesToRestart;
  match ids with
  | [] => mret (frc, stateModified)
  | id :: _ =>
      key ← deref (nodesToRestart !! id);
      riakNode ← deref (Nodes frc !! key);
      mret (put_node key (Restart (c_Generation frc) riakNode) frc, true)
  end.

Definition GetNodesToRestart (frc : FrameworkRiakCluster) :
    M E (FrameworkRiakCluster * gmap string string * bool) :=
  if negb (c_IsRestarting frc) then mret (frc, ∅, false) else
  keys ← range (Nodes frc);
  s ← mfoldl_brk (restart_scan_node frc) (mk_restart_scan ∅ 0 0) keys;
  r ← (if rs_currentlyRestarting s =? 0
       then restart_first frc false (rs_nodesToRestart s) else mret (frc, false));
  mret (if rs_alreadyRestarted s =? Z.of_nat (size (Nodes frc))
        then (set_IsRestarting false r.1, rs_nodesToRestart s, true)
        else (r.1, rs_nodesToRestart s, r.2)).

Definition GetNodesToKillOrRemove (frc : FrameworkRiakCluster) :
    M E (gmap string string * gmap string string) :=
  keys ← range (Nodes frc);
  mfoldl (fun st key =>
    riakNode ← deref (Nodes frc !! key);
    mret (if CanBeKilled riakNode then <[CurrentID riakNode := key]> st.1 else st.1,
          if CanBeRemoved riakNode then <[CurrentID riakNode := key]> st.2 else st.2))
    (∅, ∅) keys.

Definition GetNodeTasksToReconcile (frc : FrameworkRiakCluster) :
    M E (FrameworkRiakCluster * list TaskStatus) :=
  keys ← range (Nodes frc);
  mfoldl (fun st key =>
    riakNode ← deref (Nodes st.1 !! key);
    match GetTaskStatus riakNode with
    | None => mret st
    | Some _ =>
        if reconciled riakNode then mret st else
        now ← time_Now;
        if since_gt_5s now (lastAskedToReconcile riakNode) then
          now' ← time_Now;
          let riakNode := set_lastAskedToReconcile now' riakNode in
          match GetTaskStatus riakNode with
          | Some ts => mret (put_node key riakNode st.1, st.2 ++ [ts])
          | None => mpanic "unreachable: the status does not depend on the time"
          end
        else mret st
    end) (frc, []) keys.

(** *** Joining and leaving *)

Definition rex_client (n : FrameworkRiakNode) : RiakExplorerClient :=
  NewRiakExplorerClient (Hostname n +:+ ":" +:+ itoa (HTTPPort (n_TaskData n))).

Definition node_fqn (n : FrameworkRiakNode) : string := FullyQualifiedNodeName (n_TaskData n).

Definition join_done (r : JoinReply) : bool :=
  String.eqb (Join_Success r) "ok" || String.eqb (Join_Error r) "not_single_node".

Definition leave_done (r : ForceRemoveReply) : bool :=
  String.eqb (ForceRemove_Success r) "ok" || String.eqb (ForceRemove_Error r) "not_member".

(** The recursive retries; [fuel] bounds the calls. *)
Fixpoint doJoin_fuel (fuel : nat) (oldNode newNode : FrameworkRiakNode) (retry maxRetry : Z) : M E bool :=
  match fuel with
  | O => mblock "out of fuel"
  | S fuel' =>
      if maxRetry <? retry then mret false else
      joinReply ← rex_Join (rex_client oldNode) (node_fqn newNode) (node_fqn oldNode);
      if join_done joinReply.1 then mret true
      else doJoin_fuel fuel' oldNode newNode (retry + 1) maxRetry
  end.

Fixpoint doLeave_fuel (fuel : nat) (stayingNode leavingNode : FrameworkRiakNode) (retry maxRetry : Z) : M E bool :=
  match fuel with
  | O => mblock "out of fuel"
  | S fuel' =>
      if maxRetry <? retry then mret false else
      leaveReply ← ForceRemove (rex_client stayingNode) (node_fqn stayingNode) (node_fqn leavingNode);
      if leave_done leaveReply.1 then mret true
      else doLeave_fuel fuel' stayingNode leavingNode (retry + 1) maxRetry
  end.

Definition retry_fuel (retry maxRetry : Z) : nat := S (Z.to_nat (maxRetry - retry + 1)).

Definition doJoin oldNode newNode retry maxRetry : M E bool :=
  doJoin_fuel (retry_fuel retry maxRetry) oldNode newNode retry maxRetry.
Definition doLeave stayingNode leavingNode retry maxRetry : M E bool :=
  doLeave_fuel (retry_fuel retry maxRetry) stayingNode leavingNode retry maxRetry.

Definition Join (key : string) (frc : FrameworkRiakCluster) : M E FrameworkRiakCluster :=
  newNode ← deref (Nodes frc !! key);
  if negb (CanJoinCluster newNode) then mret (put_node key (Run newNode) frc)
  else if (size (Nodes frc) =? 1)%nat then mret (put_node key (Run newNode) frc)
  else
    keys ← range (Nodes frc);
    joinSuccess ← mfoldl_brk (fun ok oldKey =>
      oldNode ← deref (Nodes frc !! oldKey);
      if CanBeJoined oldNode
      then ok' ← doJoin oldNode newNode 0 5; mret (ok', negb ok')
      else mret (ok, true)) false keys;
    mret (put_node key (Run newNode) frc).

Definition Leave (key : string) (frc : FrameworkRiakCluster) : M E bool :=
  leavingNode ← deref (Nodes frc !! key);
  if (size (Nodes frc) =? 1)%nat then mret false
  else
    keys ← range (Nodes frc);
    mfoldl_brk (fun ok stayKey =>
      stayingNode ← deref (Nodes frc !! stayKey);
      if CanBeLeft stayingNode && negb (String.eqb stayKey key)
      then ok' ← doLeave stayingNode leavingNode 0 5; mret (ok', negb ok')
      else mret (ok, true)) false keys.

(** *** Status updates *)

Definition HandleNodeStatusUpdate (status : TaskStatus) (frc : FrameworkRiakCluster) :
    M E FrameworkRiakCluster :=
  let key := ts_TaskId status in
  match Graveyard frc !! key with
  | Some deadNode => mret frc
  | None =>
      n0 ← deref (Nodes frc !! key);
      let riakNode := set_SlaveID (ts_SlaveId status)
                        (set_TaskStatus (Some status) (set_reconciled true n0)) in
      let frc := put_node key riakNode frc in
      match ts_State status with
      | TASK_STAGING => mret (put_node key (Stage riakNode) frc)
      | TASK_STARTING => mret (put_node key (Start riakNode) frc)
      | TASK_RUNNING => Join key frc
      | TASK_FINISHED =>
          let riakNode := Finish riakNode in
          let frc := put_node key riakNode frc in
          _ ← (if negb (IsRestarting riakNode (c_Generation frc)) then Leave key frc else mret true);
          mret frc
      | TASK_FAILED => mret (put_node key (Fail riakNode) frc)
      | TASK_KILLED =>
          _ ← Leave key frc;
          mret (put_node key (Kill riakNode) frc)
      | TASK_LOST => mret (put_node key (Lost riakNode) frc)
      | TASK_ERROR => mret (put_node key (Error riakNode) frc)
      | TASK_other _ => mret frc
      end
  end.
End operations.

(** ** Well-formed clusters *)

(** The part of a node that is fixed when it is created. *)
Definition static (n : FrameworkRiakNode) :=
  (FrameworkName n, ClusterName n, SimpleId n, (Role n, Principal n, n_Ports n),
   (n_Cpus n, n_Mem n, n_Disk n), (UUID n, ContainerPath n)).

Definition node_finite (n : FrameworkRiakNode) : Prop :=
  f64_finite (n_Cpus n) = true /\ f64_finite (n_Mem n) = true /\ f64_finite (n_Disk n) = true.

Definition node_count (c : FrameworkRiakCluster) : Z :=
  Z.of_nat (size (Nodes c)) + Z.of_nat (size (Graveyard c)).

Definition node_wf (fw cl : string) (count : Z) (key : string) (n : FrameworkRiakNode) : Prop :=
  key = CurrentID n /\ FrameworkName n = fw /\ ClusterName n = cl /\ 1 <= SimpleId n <= count /\
  node_ok n /\ node_finite n.

(** Both maps are keyed by task id, the numbers are those already given out,
    and no id is both alive and dead. *)
Definition cluster_wf (fw : string) (c : FrameworkRiakCluster) : Prop :=
  map_Forall (node_wf fw (c_Name c) (node_count c)) (Nodes c) /\
  map_Forall (node_wf fw (c_Name c) (node_count c)) (Graveyard c) /\
  Nodes c ##ₘ Graveyard c.

(** Two clusters with the same nodes, whatever their states. *)
Definition same_shape (c c' : FrameworkRiakCluster) : Prop :=
  c_Name c' = c_Name c /\ static <$> Nodes c' = static <$> Nodes c /\
  static <$> Graveyard c' = static <$> Graveyard c.

#[export] Instance same_shape_refl : Reflexive same_shape.
Proof. done. Qed.
#[export] Instance same_shape_trans : Transitive same_shape.
Proof. intros c1 c2 c3 (?&?&?) (?&?&?). split_and!; congruence. Qed.
#[export] Instance same_shape_sym : Symmetric same_shape.
Proof. intros c1 c2 (?&?&?). done. Qed.

Lemma node_wf_static fw cl count key n n' :
  static n = static n' -> node_wf fw cl count key n -> node_wf fw cl count key n'.
Proof.
  unfold static, node_wf, node_ok, node_finite, CurrentID.
  intros [= Hf Hc Hs Hr Hp Ho Hcp Hm Hd _ _] (-> & ? & ? & ? & ? & ?).
  rewrite <- Hf, <- Hc, <- Hs, <- Hr, <- Hp, <- Ho, <- Hcp, <- Hm, <- Hd. done.
Qed.

Lemma shape_lookup {m m' : gmap string FrameworkRiakNode} :
  static <$> m' = static <$> m -> forall k n', m' !! k = Some n' ->
  exists n, m !! k = Some n /\ static n = static n'.
Proof.
  intros Heq k n' Hk. assert ((static <$> m) !! k = Some (static n')) as Hl
    by (rewrite <- Heq, lookup_fmap, Hk; done).
  rewrite lookup_fmap in Hl. apply fmap_Some in Hl as (n & ? & ?). eauto.
Qed.

Lemma shape_none {m m' : gmap string FrameworkRiakNode} k :
  static <$> m' = static <$> m -> m !! k = None -> m' !! k = None.
Proof.
  intros Heq Hk. destruct (m' !! k) as [n'|] eqn:Hk'; [|done].
  apply (shape_lookup Heq) in Hk' as (n & ? & ?). congruence.
Qed.

Lemma shape_size {m m' : gmap string FrameworkRiakNode} :
  static <$> m' = static <$> m -> size m' = size m.
Proof. intros Heq. by rewrite <- (map_size_fmap static m'), Heq, map_size_fmap. Qed.

Lemma shape_node_count c c' : same_shape c c' -> node_count c' = node_count c.
Proof. intros (_ & HN & HG). unfold node_count. by rewrite (shape_size HN), (shape_size HG). Qed.

Lemma shape_Forall fw cl count (m m' : gmap string FrameworkRiakNode) :
  static <$> m' = static <$> m ->
  map_Forall (node_wf fw cl count) m -> map_Forall (node_wf fw cl count) m'.
Proof.
  intros Heq Hm k n' Hk. apply (shape_lookup Heq) in Hk as (n & Hk & Hst).
  eapply node_wf_static; [exact Hst|by apply Hm].
Qed.

(** Well-formedness is a property of the shape. *)
#[export] Instance cluster_wf_proper fw : Proper (same_shape ==> iff) (cluster_wf fw).
Proof.
  assert (forall c c', same_shape c c' -> cluster_wf fw c -> cluster_wf fw c') as Himp.
  { intros c c' Hsh (HN & HG & Hd). pose proof (shape_node_count _ _ Hsh) as Hn.
    destruct Hsh as (Hname & HN' & HG').
    split_and!; rewrite ?Hn, ?Hname; [by eapply shape_Forall..|].
    apply map_disjoint_spec. intros k n1 n2 H1 H2.
    apply (shape_lookup HN') in H1 as (?&?&_). apply (shape_lookup HG') in H2 as (?&?&_).
    by eapply map_disjoint_spec. }
  intros c c' Hsh. split; by apply Himp.
Qed.

Lemma put_node_shape key n n' c :
  Nodes c !! key = Some n -> static n' = static n -> same_shape c (put_node key n' c).
Proof.
  intros Hk Hs. split_and!; [done| |done]. simpl. rewrite fmap_insert.
  apply insert_id. by rewrite lookup_fmap, Hk, Hs.
Qed.

Lemma put_node_id key n c : Nodes c !! key = Some n -> put_node key n c = c.
Proof. intros Hk. unfold put_node. rewrite insert_id by done. by destruct c. Qed.

Lemma lookup_put_node key n c : Nodes (put_node key n c) !! key = Some n.
Proof. apply lookup_insert_eq. Qed.

Lemma lookup_put_node_ne key k n c : key <> k -> Nodes (put_node key n c) !! k = Nodes c !! k.
Proof. apply lookup_insert_ne. Qed.

Lemma put_put_node key n n' c : put_node key n (put_node key n' c) = put_node key n c.
Proof. unfold put_node, set_Nodes. simpl. by rewrite insert_insert_eq. Qed.

Lemma wf_key fw c k n : cluster_wf fw c -> Nodes c !! k = Some n -> CurrentID n = k.
Proof. intros (HN & _) Hk. by apply HN in Hk as [-> _]. Qed.

Lemma wf_node_ok fw c k n : cluster_wf fw c -> Nodes c !! k = Some n -> node_ok n.
Proof. intros (HN & _) Hk. by apply HN in Hk as (_ & _ & _ & _ & ? & _). Qed.

Lemma HasNode_true c k :
  HasNode c k = true <-> is_Some (Nodes c !! k) \/ is_Some (Graveyard c !! k).
Proof. unfold HasNode. by rewrite orb_true_iff, !bool_decide_eq_true. Qed.

Lemma HasNode_false c k :
  HasNode c k = false <-> Nodes c !! k = None /\ Graveyard c !! k = None.
Proof.
  unfold HasNode. rewrite orb_false_iff, !bool_decide_eq_false.
  by rewrite <- !eq_None_not_Some.
Qed.

Lemma elem_of_map_keys {A} (m : gmap string A) k : k ∈ map_keys m <-> is_Some (m !! k).
Proof.
  unfold map_keys. rewrite list_elem_of_fmap. split.
  - intros ([k' v] & -> & Hin). apply elem_of_map_to_list in Hin. by eexists.
  - intros [v Hv]. exists (k, v). split; [done|]. by apply elem_of_map_to_list.
Qed.

Lemma NoDup_map_keys {A} (m : gmap string A) : NoDup (map_keys m).
Proof. apply NoDup_fst_map_to_list. Qed.

Lemma length_map_keys {A} (m : gmap string A) : length (map_keys m) = size m.
Proof. unfold map_keys. by rewrite length_fmap, length_map_to_list. Qed.

(** *** Creating and removing *)

Lemma static_CurrentID n n' : static n = static n' -> CurrentID n = CurrentID n'.
Proof. unfold static, CurrentID. by intros [= -> -> -> _]. Qed.

Lemma node_wf_count fw cl count count' key n :
  count <= count' -> node_wf fw cl count key n -> node_wf fw cl count' key n.
Proof. unfold node_wf. intros ? (->&->&->&?&?). do 3 (split; [done|]). split; [lia|done]. Qed.

(** A node whose number is above all others has a new id. *)
Lemma wf_next_fresh fw c n :
  cluster_wf fw c -> FrameworkName n = fw -> ClusterName n = c_Name c ->
  SimpleId n = node_count c + 1 -> HasNode c (CurrentID n) = false.
Proof.
  intros (HN & HG & _) Hf Hc Hs. apply HasNode_false.
  assert (forall n', node_wf fw (c_Name c) (node_count c) (CurrentID n) n' -> False) as Habs.
  { intros n' (Hid & Hf' & Hc' & Hs' & _). unfold CurrentID, node_id in Hid.
    rewrite Hf, Hf' in Hid. apply dashed_name_inj in Hid as [_ Hid]; lia. }
  split; apply eq_None_not_Some; intros [n' Hn']; eapply Habs; [by apply HN|by apply HG].
Qed.

Lemma wf_put_fresh fw c n :
  cluster_wf fw c -> FrameworkName n = fw -> ClusterName n = c_Name c ->
  SimpleId n = node_count c + 1 -> node_ok n -> node_finite n ->
  cluster_wf fw (put_node (CurrentID n) n c).
Proof.
  intros Hwf Hf Hc Hs Hok Hfin. pose proof (wf_next_fresh _ _ _ Hwf Hf Hc Hs) as Hfresh.
  apply HasNode_false in Hfresh as [HfN HfG]. destruct Hwf as (HN & HG & Hd).
  assert (node_count (put_node (CurrentID n) n c) = node_count c + 1) as Hcount.
  { unfold node_count. simpl. rewrite map_size_insert_None by done. lia. }
  split_and!; rewrite ?Hcount; simpl.
  - apply map_Forall_insert_2.
    + unfold node_wf, node_count in *. do 3 (split; [done|]). split; [lia|done].
    + eapply map_Forall_impl; [exact HN|]. intros ??. by apply node_wf_count; lia.
  - eapply map_Forall_impl; [exact HG|]. intros ??. by apply node_wf_count; lia.
  - by apply map_disjoint_insert_l_2.
Qed.

Lemma RemoveNode_count k n c : Nodes c !! k = Some n -> CurrentID n = k ->
  Graveyard c !! k = None -> node_count (RemoveNode n c) = node_count c.
Proof.
  intros Hk Hid HG. unfold node_count. simpl. rewrite Hid, map_size_insert_None by done.
  rewrite map_size_delete_Some by (by eexists).
  assert (size (Nodes c) <> 0%nat) by (by apply (map_size_ne_0_lookup_2 _ k); eexists). lia.
Qed.

Lemma RemoveNode_wf fw c k n :
  cluster_wf fw c -> Nodes c !! k = Some n -> cluster_wf fw (RemoveNode n c).
Proof.
  intros Hwf Hk. pose proof (wf_key _ _ _ _ Hwf Hk) as Hid. destruct Hwf as (HN & HG & Hd).
  assert (Graveyard c !! k = None) as HGk by (eapply map_disjoint_Some_l; eauto).
  pose proof (RemoveNode_count _ _ _ Hk Hid HGk) as Hcount.
  split_and!; rewrite ?Hcount; simpl; rewrite ?Hid.
  - by apply map_Forall_delete.
  - apply map_Forall_insert_2; [|done]. by apply HN.
  - apply map_disjoint_insert_r_2; [apply lookup_delete_eq|by apply map_disjoint_delete_l].
Qed.

(** What [CreateNode] returns when it returns. *)
Definition created `{!GoParse} (sc : SchedulerConf) (c : FrameworkRiakCluster)
    (r : FrameworkRiakCluster * FrameworkRiakNode) : Prop :=
  r.1 = put_node (CurrentID r.2) r.2 c /\ HasNode c (CurrentID r.2) = false /\
  cluster_wf (frameworkName sc) r.1 /\
  exists cpus mem disk uuid,
    ParseFloat (nodeCpus sc) = Some cpus /\ ParseFloat (nodeMem sc) = Some mem /\
    ParseFloat (nodeDisk sc) = Some disk /\
    r.2 = mk_FrameworkRiakNode false time_zero (GetNextSimpleId c) Started Unknown None 0 None ""
      zero_TaskData (frameworkName sc) (c_Name c) (Some (frameworkRole sc))
      (Some (mesosAuthPrincipal sc)) cpus mem disk PORTS_PER_TASK uuid CONTAINER_PATH
      (c_Generation c).

(** The sizes the framework is configured with are numbers, if anything. *)
Definition sizes_finite `{!GoParse} (sc : SchedulerConf) : Prop :=
  Forall (fun s => forall x, ParseFloat s = Some x -> f64_finite x = true)
    [nodeCpus sc; nodeMem sc; nodeDisk sc].

Section creating.
Context `{!GoParse} {E : Type} `{!GoUuid E, !GoUuidLaws E}.

Lemma created_node sc c n cpus mem disk uuid :
  cluster_wf (frameworkName sc) c ->
  f64_finite cpus = true -> f64_finite mem = true -> f64_finite disk = true ->
  ParseFloat (nodeCpus sc) = Some cpus -> ParseFloat (nodeMem sc) = Some mem ->
  ParseFloat (nodeDisk sc) = Some disk ->
  n = mk_FrameworkRiakNode false time_zero (GetNextSimpleId c) Started Unknown None 0 None ""
    zero_TaskData (frameworkName sc) (c_Name c) (Some (frameworkRole sc))
    (Some (mesosAuthPrincipal sc)) cpus mem disk PORTS_PER_TASK uuid CONTAINER_PATH
    (c_Generation c) -> created sc c (put_node (CurrentID n) n c, n).
Proof.
  intros Hwf Hc Hm Hd Pc Pm Pd ->. split; [done|]. split; [by eapply wf_next_fresh|].
  split; [|by eexists _, _, _, _]. by apply wf_put_fresh.
Qed.

Lemma wp_CreateNode s sc c (e : E) :
  cluster_wf (frameworkName sc) c -> sizes_finite sc ->
  (s = total -> Forall (fun s => is_Some (ParseFloat s)) [nodeCpus sc; nodeMem sc; nodeDisk sc]) ->
  wp s (CreateNode sc c) (fun r _ => created sc c r) e.
Proof.
  unfold sizes_finite. intros Hwf Hfin Htot. rewrite !Forall_cons in Hfin. destruct Hfin as (Hfc & Hfm & Hfd & _).
  assert (forall what x (Q : float64 -> E -> Prop) e, (s = total -> is_Some (ParseFloat x)) ->
    (forall f, ParseFloat x = Some f -> Q f e) -> wp s (parse_or_panic what x) Q e) as Hparse.
  { intros what x Q e' Hs HQ. unfold parse_or_panic. destruct (ParseFloat x); [by apply wp_ret, HQ|].
    destruct s; [done|]. by destruct Hs. }
  rewrite !Forall_cons in Htot.
  unfold CreateNode, NewFrameworkRiakNode.
  apply wp_bind, wp_bind, Hparse; [naive_solver|]. intros cpus Hc.
  apply wp_bind, Hparse; [naive_solver|]. intros mem Hm.
  apply wp_bind, Hparse; [naive_solver|]. intros disk Hd.
  apply wp_bind. eapply wp_mono; [|apply wp_mode, uuid_returns]. intros uuid e' _.
  apply wp_ret, wp_ret. apply (created_node sc c _ cpus mem disk uuid); auto.
Qed.
End creating.

(** ** Loops over the nodes *)

Section loops.
Context {E : Type} `{!GoMap E, !GoMapLaws E}.

Lemma wp_range_length {A} (m : gmap string A) (e : E) :
  wp total (range m) (fun keys _ => length keys = size m /\
    NoDup keys /\ forall k, k ∈ keys <-> is_Some (m !! k)) e.
Proof.
  wp_use map_order_perm. intros keys e' Hperm. simpl in Hperm.
  split; [rewrite Hperm; apply length_map_keys|].
  split; [rewrite Hperm; apply NoDup_map_keys|].
  intros k. rewrite Hperm. apply elem_of_map_keys.
Qed.

Lemma wp_range {A} (m : gmap string A) (e : E) :
  wp total (range m) (fun keys _ =>
    NoDup keys /\ forall k, k ∈ keys <-> is_Some (m !! k)) e.
Proof. wp_use wp_range_length. by intros keys e' [_ ?]. Qed.
End loops.

(** *** Joining and leaving *)

(** Reference for the retries: at most [n] attempts, until one succeeds. *)
Fixpoint try_until {E} (n : nat) (attempt : M E bool) : M E bool :=
  match n with
  | O => mret false
  | S n' => ok ← attempt; if ok : bool then mret true else try_until n' attempt
  end.

Section joining.
Context `{!Json JoinReply, !Json ForceRemoveReply}.
Context {answers : bool} {E : Type} `{!GoMap E, !GoMapLaws E, !HttpClient E, !HttpClientLaws answers E}.
Local Abbreviation hangs := (unanswered answers).

Definition join_attempt (oldNode newNode : FrameworkRiakNode) : M E bool :=
  r ← rex_Join (rex_client oldNode) (node_fqn newNode) (node_fqn oldNode);
  mret (join_done r.1).
Definition leave_attempt (stayingNode leavingNode : FrameworkRiakNode) : M E bool :=
  r ← ForceRemove (rex_client stayingNode) (node_fqn stayingNode) (node_fqn leavingNode);
  mret (leave_done r.1).

Lemma join_attempt_bind {B} old new (f : bool -> M E B) (e : E) :
  (join_attempt old new ≫= f) e =
  (rex_Join (rex_client old) (node_fqn new) (node_fqn old) ≫= (fun r => f (join_done r.1))) e.
Proof. unfold join_attempt. by rewrite mbind_assoc. Qed.

Lemma leave_attempt_bind {B} staying leaving (f : bool -> M E B) (e : E) :
  (leave_attempt staying leaving ≫= f) e =
  (ForceRemove (rex_client staying) (node_fqn staying) (node_fqn leaving)
    ≫= (fun r => f (leave_done r.1))) e.
Proof. unfold leave_attempt. by rewrite mbind_assoc. Qed.

Lemma doJoin_fuel_try old new fuel retry maxRetry (e : E) :
  (Z.to_nat (maxRetry - retry + 1) < fuel)%nat ->
  doJoin_fuel fuel old new retry maxRetry e =
    try_until (Z.to_nat (maxRetry - retry + 1)) (join_attempt old new) e.
Proof.
  revert retry e. induction fuel as [|fuel IH]; intros retry e Hfuel; [lia|]. simpl.
  destruct (Z.ltb_spec maxRetry retry).
  - by replace (Z.to_nat (maxRetry - retry + 1)) with 0%nat by lia.
  - replace (Z.to_nat (maxRetry - retry + 1)) with (S (Z.to_nat (maxRetry - (retry + 1) + 1)))
      in * by lia.
    cbn [try_until]. rewrite join_attempt_bind. simpl.
    destruct (Z.ltb_spec maxRetry retry); [lia|].
    apply mbind_ext. intros r e'.
    destruct (join_done r.1); [done|]. apply IH. lia.
Qed.

Lemma doLeave_fuel_try staying leaving fuel retry maxRetry (e : E) :
  (Z.to_nat (maxRetry - retry + 1) < fuel)%nat ->
  doLeave_fuel fuel staying leaving retry maxRetry e =
    try_until (Z.to_nat (maxRetry - retry + 1)) (leave_attempt staying leaving) e.
Proof.
  revert retry e. induction fuel as [|fuel IH]; intros retry e Hfuel; [lia|]. simpl.
  destruct (Z.ltb_spec maxRetry retry).
  - by replace (Z.to_nat (maxRetry - retry + 1)) with 0%nat by lia.
  - replace (Z.to_nat (maxRetry - retry + 1)) with (S (Z.to_nat (maxRetry - (retry + 1) + 1)))
      in * by lia.
    cbn [try_until]. rewrite leave_attempt_bind. simpl.
    destruct (Z.ltb_spec maxRetry retry); [lia|].
    apply mbind_ext. intros r e'.
    destruct (leave_done r.1); [done|]. apply IH. lia.
Qed.

Lemma wpe_try_until n attempt (e : E) :
  (forall e, wpe attempt (fun _ _ => True) hangs e) ->
  wpe (try_until n attempt) (fun _ _ => True) hangs e.
Proof.
  intros Hatt. revert e. induction n as [|n IH]; intros e; simpl; [done|].
  apply wpe_bind. wpe_use Hatt. intros [] e' _; [done|apply IH].
Qed.

Lemma wpe_get_reply {T} `{!Json T} (zero : T) client path (e : E) :
  wpe (get_reply zero client path) (fun _ _ => True) hangs e.
Proof.
  apply wpe_bind, wpe_bind. wpe_use http_Get_ends.
  intros r e' _. apply wpe_ret. by destruct (read_result r) as [? []].
Qed.

Lemma wpe_doJoin old new retry maxRetry (e : E) :
  wpe (doJoin old new retry maxRetry) (fun _ _ => True) hangs e.
Proof.
  unfold doJoin, wpe. rewrite doJoin_fuel_try by (unfold retry_fuel; lia).
  apply wpe_try_until. intros e'. apply wpe_bind.
  wpe_use wpe_get_reply. done.
Qed.

Lemma wpe_doLeave staying leaving retry maxRetry (e : E) :
  wpe (doLeave staying leaving retry maxRetry) (fun _ _ => True) hangs e.
Proof.
  unfold doLeave, wpe. rewrite doLeave_fuel_try by (unfold retry_fuel; lia).
  apply wpe_try_until. intros e'. apply wpe_bind.
  wpe_use wpe_get_reply. done.
Qed.

Lemma wpe_range {A} (m : gmap string A) R (e : E) :
  wpe (range m) (fun ks _ => NoDup ks /\ forall k, k ∈ ks <-> is_Some (m !! k)) R e.
Proof. apply wp_wpe, wp_range. Qed.

Lemma wpe_deref_some {A} (p : option A) (Q : A -> E -> Prop) R e :
  is_Some p -> (forall a, p = Some a -> Q a e) -> wpe (deref p) Q R e.
Proof. intros [a ->] HQ. by apply HQ. Qed.

Lemma wpe_Join key n c (e : E) : Nodes c !! key = Some n ->
  wpe (Join key c) (fun c' _ => c' = put_node key (Run n) c) hangs e.
Proof.
  intros Hk. unfold Join. rewrite Hk. apply wpe_bind, wpe_ret.
  destruct (CanJoinCluster n); [|done]. cbn [negb]. case_match; [done|].
  apply wpe_bind. wpe_use wpe_range. intros keys e1 [_ Hkeys].
  apply wpe_bind. eapply (wpe_mono_post _ (fun _ _ => True)); [done|].
  apply (wpe_mfoldl_brk _ (fun _ _ => True)); [|done..].
  intros k ok e2 Hin _. apply wpe_bind, wpe_deref_some; [by apply Hkeys|].
  intros old _. destruct (CanBeJoined old); [|done].
  apply wpe_bind. wpe_use wpe_doJoin. by intros [] ? _.
Qed.

Lemma wpe_Leave key c (e : E) : is_Some (Nodes c !! key) ->
  wpe (Leave key c) (fun _ _ => True) hangs e.
Proof.
  intros Hk. unfold Leave. apply wpe_bind, wpe_deref_some; [done|]. intros n _.
  case_match; [done|].
  apply wpe_bind. wpe_use wpe_range. intros keys e1 [_ Hkeys].
  apply (wpe_mfoldl_brk _ (fun _ _ => True)); [|done..].
  intros k ok e2 Hin _. apply wpe_bind, wpe_deref_some; [by apply Hkeys|].
  intros staying _. destruct (CanBeLeft staying && _); [|done].
  apply wpe_bind. wpe_use wpe_doLeave. by intros [] ? _.
Qed.
End joining.

(** ** Status updates *)

(** The node a status update leaves: the status, the slave and the
    reconciliation are recorded, and the state follows the table. *)
Definition recorded (status : TaskStatus) (n : FrameworkRiakNode) : FrameworkRiakNode :=
  set_SlaveID (ts_SlaveId status) (set_TaskStatus (Some status) (set_reconciled true n)).

Definition after_status (status : TaskStatus) (n : FrameworkRiakNode) : FrameworkRiakNode :=
  let n' := recorded status n in
  match ts_State status with
  | TASK_STAGING | TASK_STARTING => set_DestinationState Started (set_CurrentState Starting n')
  | TASK_RUNNING => set_DestinationState Started (set_CurrentState Started n')
  | TASK_FINISHED | TASK_KILLED => set_CurrentState Shutdown n'
  | TASK_FAILED | TASK_LOST | TASK_ERROR => set_CurrentState Failed n'
  | TASK_other _ => n'
  end.

Lemma after_status_static status n : static (after_status status n) = static n.
Proof. unfold after_status. by destruct (ts_State status). Qed.

Section status.
Context `{!Json JoinReply, !Json ForceRemoveReply}.
Context {answers : bool} {E : Type} `{!GoMap E, !GoMapLaws E, !HttpClient E, !HttpClientLaws answers E}.
Local Abbreviation hangs := (unanswered answers).

Lemma wpe_status_live status n c (e : E) :
  Graveyard c !! ts_TaskId status = None -> Nodes c !! ts_TaskId status = Some n ->
  wpe (HandleNodeStatusUpdate status c) (fun c' _ =>
    c' = put_node (ts_TaskId status) (after_status status n) c) hangs e.
Proof.
  intros HG Hn. unfold HandleNodeStatusUpdate, after_status. rewrite HG, Hn.
  apply wpe_bind, wpe_ret. fold (recorded status n). cbv zeta.
  destruct (ts_State status); try (apply wpe_ret; by rewrite put_put_node).
  - eapply wpe_mono_post; [|apply wpe_Join, lookup_put_node]. intros c' e' ->.
    by rewrite put_put_node.
  - rewrite put_put_node. apply wpe_bind.
    eapply (wpe_mono_post _ (fun _ _ => True)); [by intros a e' _; apply wpe_ret|].
    case_match; [|done]. apply wpe_Leave. rewrite lookup_put_node. by eexists.
  - apply wpe_bind. eapply wpe_mono_post; [|apply wpe_Leave; rewrite lookup_put_node; by eexists].
    intros _ e' _. apply wpe_ret. by rewrite put_put_node.
  - by apply wpe_ret.
Qed.

Lemma status_dead status n c (e : E) :
  Graveyard c !! ts_TaskId status = Some n ->
  HandleNodeStatusUpdate status c e = (Ret c, e).
Proof. intros HG. unfold HandleNodeStatusUpdate. by rewrite HG. Qed.

Lemma status_unknown status c (e : E) :
  HasNode c (ts_TaskId status) = false ->
  exists msg, HandleNodeStatusUpdate status c e = (Panic msg, e).
Proof.
  intros [HN HG]%HasNode_false. unfold HandleNodeStatusUpdate. rewrite HG, HN.
  by eexists.
Qed.
End status.

(** ** Restarting and removing *)

Section restarting.
Context {E : Type} `{!GoMap E, !GoMapLaws E}.

(** What the scan finds: restarted nodes, then at most one other node. *)
Definition scan_result (c : FrameworkRiakCluster) (keys : list string) (already : Z)
    (s : restart_scan) : Prop :=
  exists done rest, keys = done ++ rest /\
    rs_alreadyRestarted s = already + Z.of_nat (length done) /\
    (forall k n, k ∈ done -> Nodes c !! k = Some n -> HasRestarted n (c_Generation c) = true) /\
    match rest with
    | [] => rs_nodesToRestart s = ∅ /\ rs_currentlyRestarting s = 0
    | k :: _ => exists n, Nodes c !! k = Some n /\ HasRestarted n (c_Generation c) = false /\
        if IsRestarting n (c_Generation c)
        then rs_nodesToRestart s = ∅ /\ rs_currentlyRestarting s = 1
        else rs_nodesToRestart s = {[CurrentID n := k]} /\ rs_currentlyRestarting s = 0
    end.

Lemma wp_restart_scan c keys already (e : E) :
  (forall k, k ∈ keys -> is_Some (Nodes c !! k)) ->
  wp total (mfoldl_brk (restart_scan_node c) (mk_restart_scan ∅ already 0) keys)
    (fun s _ => scan_result c keys already s) e.
Proof.
  revert already e. induction keys as [|k keys IH]; intros already e Hkeys; cbn [mfoldl_brk].
  - apply wp_ret. exists [], []. split_and!; [done|simpl; lia| |done..].
    intros ?? []%elem_of_nil.
  - apply wp_bind. unfold restart_scan_node at 1. apply wp_bind.
    apply wp_deref_some; [apply Hkeys; by left|]. intros n Hn. apply wp_ret.
    destruct (HasRestarted n (c_Generation c)) eqn:Hr; cbn [fst snd rs_nodesToRestart
      rs_alreadyRestarted rs_currentlyRestarting].
    + eapply wp_mono; [|apply IH; intros; apply Hkeys; by right].
      intros s e' (d & rest & -> & Ha & Hd & Hrest). exists (k :: d), rest.
      split_and!; [done|simpl; lia| |done].
      intros k' n' [->|Hin]%elem_of_cons; [congruence|by apply Hd].
    + assert (forall s go, (go = false) -> (scan_result c (k :: keys) already s) ->
        wp total (if go : bool then mfoldl_brk (restart_scan_node c) s keys else mret s)
          (fun s _ => scan_result c (k :: keys) already s) e) as Hstop
        by (intros s go -> Hs; by apply wp_ret).
      destruct (IsRestarting n (c_Generation c)) eqn:Hi; apply Hstop; try done;
        exists [], (k :: keys); (split_and!; [done|simpl; lia|by intros ?? []%elem_of_nil|]);
        exists n; by rewrite Hi.
Qed.

(** One tick of a rolling restart, on every branch. *)
Definition restart_outcome (c : FrameworkRiakCluster)
    (r : FrameworkRiakCluster * gmap string string * bool) : Prop :=
  (r = (set_IsRestarting false c, ∅, true) /\
   map_Forall (fun _ n => HasRestarted n (c_Generation c) = true) (Nodes c)) \/
  (exists k n, Nodes c !! k = Some n /\ HasRestarted n (c_Generation c) = false /\
     if IsRestarting n (c_Generation c) then r = (c, ∅, false)
     else r = (put_node k (Restart (c_Generation c) n) c, {[k := k]}, true)).

Lemma wp_restart_first c k n ids (e : E) :
  ids = {[k := k]} -> Nodes c !! k = Some n ->
  wp total (restart_first c false ids) (fun r _ =>
    r = (put_node k (Restart (c_Generation c) n) c, true)) e.
Proof.
  intros -> Hn. unfold restart_first. apply wp_bind.
  wp_use wp_range_length. intros keys e' (Hlen & _ & Hkeys).
  rewrite map_size_singleton in Hlen.
  destruct keys as [|k' [|]]; try done. assert (k' = k) as ->.
  { assert (k' ∈ [k']) as Hin by (by left). apply Hkeys in Hin as [? Hl].
    by apply lookup_singleton_Some in Hl as [-> _]. }
  rewrite lookup_singleton_eq. apply wp_bind, wp_ret, wp_bind. rewrite Hn. by apply wp_ret, wp_ret.
Qed.

Lemma wp_GetNodesToRestart fw c (e : E) :
  cluster_wf fw c -> c_IsRestarting c = true ->
  wp total (GetNodesToRestart c) (fun r _ => restart_outcome c r) e.
Proof.
  intros Hwf Hre. unfold GetNodesToRestart. rewrite Hre. cbn [negb].
  apply wp_bind. wp_use wp_range_length.
  intros keys e1 (Hlen & Hnd & Hkeys). apply wp_bind.
  eapply wp_mono; [|apply wp_restart_scan; by intros k ?%Hkeys].
  intros s e2 (d & rest & -> & Ha & Hd & Hrest). rewrite length_app in Hlen.
  apply wp_bind. destruct rest as [|k rest]; simpl in Hlen.
  - destruct Hrest as [Hnone Hz]. rewrite Hz, Hnone. simpl Z.eqb. cbv iota.
    eapply (wp_mono _ _ (fun r _ => r = (c, false))).
    + intros r e3 ->. apply wp_ret. rewrite Ha.
      destruct (Z.eqb_spec (0 + Z.of_nat (length d)) (Z.of_nat (size (Nodes c)))); [|lia].
      left. split; [done|]. intros k n Hk. apply (Hd k); [|done].
      rewrite app_nil_r in Hkeys. apply Hkeys. by eexists.
    + unfold restart_first. apply wp_bind. wp_use wp_range_length.
      intros ids e3 (Hl & _). rewrite map_size_empty in Hl. by destruct ids.
  - destruct Hrest as (n & Hn & Hr & Hcase).
    pose proof (wf_key _ _ _ _ Hwf Hn) as Hid. rewrite Hid in Hcase.
    assert ((rs_alreadyRestarted s =? Z.of_nat (size (Nodes c))) = false) as Hne by lia.
    eapply (wp_mono _ _ (fun r _ => r = if IsRestarting n (c_Generation c) then (c, false)
                           else (put_node k (Restart (c_Generation c) n) c, true))).
    + intros r e3 ->. apply wp_ret. rewrite Hne. right. exists k, n.
      split; [done|]. split; [done|].
      by destruct (IsRestarting n (c_Generation c)); destruct Hcase as [-> _].
    + destruct (IsRestarting n (c_Generation c)); destruct Hcase as [Hm ->]; simpl Z.eqb;
        cbv iota; [by apply wp_ret|by apply wp_restart_first].
Qed.

Lemma restart_outcome_shape c r : restart_outcome c r -> same_shape c r.1.1.
Proof.
  intros [[-> _]|(k & n & Hn & _ & Hcase)]; [done|].
  destruct (IsRestarting n (c_Generation c)); subst r; [done|].
  by eapply put_node_shape.
Qed.
End restarting.

Section removing.
Context {E : Type} `{!GoMap E, !GoMapLaws E}.

(** The live nodes that satisfy [p], as a map from id to pointer. *)
Definition picks (p : FrameworkRiakNode -> bool) (c : FrameworkRiakCluster)
    (m : gmap string string) : Prop :=
  forall k k', m !! k = Some k' <-> k' = k /\ exists n, Nodes c !! k = Some n /\ p n = true.

(** The same for the keys already visited. *)
Definition picks_of (p : FrameworkRiakNode -> bool) (c : FrameworkRiakCluster)
    (done : list string) (m : gmap string string) : Prop :=
  forall k k', m !! k = Some k' <->
    k' = k /\ k ∈ done /\ exists n, Nodes c !! k = Some n /\ p n = true.

Lemma picks_of_step p c done k n m :
  picks_of p c done m -> Nodes c !! k = Some n ->
  picks_of p c (done ++ [k]) (if p n then <[k := k]> m else m).
Proof.
  unfold picks_of. intros Hm Hn j j'. rewrite elem_of_app, list_elem_of_singleton.
  destruct (p n) eqn:Hp.
  - rewrite lookup_insert_Some, Hm. destruct (decide (k = j)) as [->|]; [|naive_solver].
    split.
    + intros [[_ <-]|[? _]]; [|done]. split_and!; [done|by right|by exists n].
    + intros (-> & _ & _). auto.
  - rewrite Hm. split; [naive_solver|].
    intros (-> & [Hin| ->] & n' & Hn' & Hp'); [eauto|congruence].
Qed.

Lemma wp_GetNodesToKillOrRemove fw c (e : E) : cluster_wf fw c ->
  wp total (GetNodesToKillOrRemove c) (fun r _ =>
    picks CanBeKilled c r.1 /\ picks CanBeRemoved c r.2) e.
Proof.
  intros Hwf. apply wp_bind. wp_use wp_range. intros keys e' [_ Hkeys].
  wp_use (wp_mfoldl _ _ (fun done st _ =>
    picks_of CanBeKilled c done st.1 /\ picks_of CanBeRemoved c done st.2)).
  - assert (forall p m, picks_of p c keys m -> picks p c m) as Hall.
    { unfold picks_of. intros p m Hm k k'. rewrite Hm. split; [naive_solver|].
      intros (-> & n & Hn & Hp). split; [done|]. split; [apply Hkeys; by eexists|eauto]. }
    intros st e'' [H1 H2]. auto.
  - intros d k rest st e'' Heq [H1 H2]. apply wp_bind, wp_deref_some.
    { apply Hkeys. rewrite Heq. apply elem_of_app. right. by left. }
    intros n Hn. apply wp_ret. rewrite (wf_key _ _ _ _ Hwf Hn).
    split; by apply picks_of_step.
  - split; intros k k'; cbn [fst snd]; rewrite lookup_empty; split; try done;
      by intros (_ & []%elem_of_nil & _).
Qed.
End removing.

(** ** Applying an offer *)

Section applying.
Context `{!MesosUtil, !MesosUtilLaws, !Json TaskData}.
Context {E : Type} `{!GoRand E, !GoRandLaws E, !GoEnv E, !GoEnvLaws E, !GoMap E, !GoMapLaws E}.
Context (Marshal_ok : forall t : TaskData, (Marshal t).2 = None).
Context (sc : SchedulerConf).

(** What the visit of one node can do to it: nothing, a launch, a
    reservation, or giving up a reservation that is gone. *)
Inductive node_step (o : OfferHelper) (n : FrameworkRiakNode) : FrameworkRiakNode -> list TaskInfo -> Prop :=
  | step_none : node_step o n n []
  | step_launch td task :
      CanBeScheduled n = true -> ti_TaskId task = CurrentID n ->
      ti_SlaveId task = o_SlaveId (MesosOffer o) -> node_step o n (launched n o td) [task]
  | step_reserve :
      CanBeScheduled n = true -> HasRequestedReservation n = false ->
      node_step o n (set_CurrentState Reserved (set_Hostname (o_Hostname (MesosOffer o))
        (set_SlaveID (o_SlaveId (MesosOffer o)) n))) []
  | step_unreserve :
      CanBeScheduled n = true -> HasRequestedReservation n = true ->
      node_step o n (Unreserve n) [].

Lemma node_step_static o n n' ts : node_step o n n' ts -> static n' = static n.
Proof. by destruct 1. Qed.

(** One visit, seen from outside. *)
Definition visit (st : apply_state) (key : string) (n : FrameworkRiakNode) (st' : apply_state) : Prop :=
  exists n' ts, node_step (as_offer st) n n' ts /\
    as_cluster st' = put_node key n' (as_cluster st) /\
    TasksToLaunch (as_offer st') = TasksToLaunch (as_offer st) ++ ts /\
    MesosOffer (as_offer st') = MesosOffer (as_offer st) /\
    offer_left (as_offer st) (as_offer st') /\
    (as_dirty st' = false -> as_dirty st = false /\ n' = n /\ as_offer st' = as_offer st) /\
    (as_needs st' = false -> as_needs st = false /\ NeedsToBeReconciled n = false).

Lemma visit_none st key n needs :
  (needs = false -> as_needs st = false /\ NeedsToBeReconciled n = false) ->
  visit st key n (mk_apply_state (put_node key n (as_cluster st)) (as_offer st) (as_dirty st) needs).
Proof.
  intros Hneeds. exists n, []. cbn. rewrite app_nil_r.
  split; [constructor|]. do 3 (split; [done|]). split; [apply offer_left_refl|done].
Qed.

(** The outcome of [ApplyReservedOffer]. *)
Definition reserved_outcome (o : OfferHelper) (n : FrameworkRiakNode)
    (r : bool * FrameworkRiakNode * OfferHelper) : Prop :=
  r = (false, n, o) \/
  exists o1 td task, r = (true, launched n o td, add_to_launch o1 [task]) /\
    same_but_groups o o1 /\ offer_left o o1 /\
    ti_TaskId task = CurrentID n /\ ti_SlaveId task = o_SlaveId (MesosOffer o).

Lemma wp_reserved_outcome n o (e : E) : node_ok n -> offer_ports_ok o ->
  wp total (ApplyReservedOffer n o sc) (fun r _ => reserved_outcome o n r) e.
Proof.
  intros Hn Ho. destruct (fits n o sc) eqn:Hf.
  - wp_by ApplyReservedOffer_fit.
    intros r e' (o1 & td & task & Hr & ? & _ & ? & [? ?] & _). right. by exists o1, td, task.
  - eapply wp_of_eq; [by apply ApplyReservedOffer_no_fit|by left].
Qed.

Lemma visit_launch st key n r dirty needs :
  reserved_outcome (as_offer st) n r -> r.1.1 = true ->
  CanBeScheduled n = true -> dirty = true -> needs = as_needs st ->
  visit st key n (mk_apply_state (put_node key r.1.2 (as_cluster st)) r.2 dirty needs).
Proof.
  intros [->|(o1 & td & task & -> & Hsame & Hports & Hid & Hsl)] Hr Hs -> ->; [done|].
  assert (NeedsToBeReconciled n = false) as Hnr.
  { unfold CanBeScheduled in Hs. by destruct (NeedsToBeReconciled n). }
  eexists _, [task]. split; [by apply step_launch|]. cbn.
  split; [done|]. split; [by rewrite Hsame|]. split; [by rewrite Hsame|].
  split; [destruct Hports as [? _]; split; [done|by rewrite Hsame]|done].
Qed.

Lemma visit_failed st key n r dirty needs :
  reserved_outcome (as_offer st) n r -> r.1.1 = false ->
  CanBeScheduled n = true -> dirty = as_dirty st ->
  (needs = false -> as_needs st = false) ->
  visit st key n (mk_apply_state (put_node key r.1.2 (as_cluster st)) r.2 dirty needs).
Proof.
  intros [->|(o1 & td & task & -> & _)] Hr Hs -> Hneeds; [|done]. apply visit_none.
  intros Hf. split; [by apply Hneeds|]. cbn. unfold CanBeScheduled in Hs.
  by destruct (NeedsToBeReconciled n) eqn:?.
Qed.

Lemma wp_ApplyOffer_node st key n (e : E) :
  Nodes (as_cluster st) !! key = Some n -> node_ok n -> offer_ports_ok (as_offer st) ->
  wp total (ApplyOffer_node sc st key) (fun st' _ => visit st key n st') e.
Proof.
  intros Hn Hok Hports. unfold ApplyOffer_node. rewrite Hn. apply wp_bind, wp_ret.
  assert (forall needs, (needs = false -> as_needs st = false /\ NeedsToBeReconciled n = false) ->
    visit st key n (mk_apply_state (as_cluster st) (as_offer st) (as_dirty st) needs)) as Hnone.
  { intros needs Hneeds. rewrite <- (put_node_id key n (as_cluster st)) by done.
    by apply visit_none. }
  destruct (NeedsToBeReconciled n) eqn:Hrec; [by apply wp_ret, Hnone|].
  destruct (CanBeScheduled n) eqn:Hs; cbn [andb];
    [|apply wp_ret; destruct st; by apply Hnone].
  destruct (compatibilityMode sc); cbn [andb negb].
  { apply wp_bind. wp_by wp_reserved_outcome. intros r e' Hr.
    apply wp_ret. destruct r.1.1 eqn:Hb; [by apply visit_launch|by apply visit_failed]. }
  destruct (HasRequestedReservation n) eqn:Hres; cbn [andb negb].
  - case_match.
    { apply wp_bind. wp_by wp_reserved_outcome. intros r e' Hr.
      apply wp_ret. destruct r.1.1 eqn:Hb; [by apply visit_launch|by apply visit_failed]. }
    case_match; [|apply wp_ret; destruct st; by apply Hnone].
    apply wp_bind. wp_by wp_reserved_outcome. intros r e' Hr.
    apply wp_ret. destruct r.1.1 eqn:Hb; cbn [negb]; [by apply visit_launch|].
    destruct Hr as [->|(?&?&?&->&_)]; [|done]. eexists _, []. split; [by apply step_unreserve|].
    cbn. rewrite app_nil_r. do 3 (split; [done|]). split; [apply offer_left_refl|done].
  - apply wp_bind. wp_by ApplyUnreservedOffer_frame.
    intros r e' [->|(o' & -> & Ho1 & Ho2 & Hleft)]; apply wp_ret; [by apply visit_none|].
    eexists _, []. split; [by apply step_reserve|]. cbn. rewrite app_nil_r. by split_and!.
Qed.

(** *** The loop *)

Definition tasks_of (k : string) (ts : list TaskInfo) : list TaskInfo :=
  filter (fun t => ti_TaskId t = k) ts.

(** From cluster [c] and offer [o], after visiting [done]: [ts] are the
    tasks added, and every node made the step its own tasks say. *)
Definition offer_inv (c : FrameworkRiakCluster) (o : OfferHelper) (done : list string)
    (st : apply_state) (ts : list TaskInfo) : Prop :=
  as_cluster st = set_Nodes (Nodes (as_cluster st)) c /\
  MesosOffer (as_offer st) = MesosOffer o /\
  (ResourcesToUneserve (as_offer st) = ResourcesToUneserve o /\
   VolumesToDestroy (as_offer st) = VolumesToDestroy o) /\
  TasksToLaunch (as_offer st) = TasksToLaunch o ++ ts /\
  (ti_TaskId <$> ts) `sublist_of` done /\
  (forall k, k ∉ done -> Nodes (as_cluster st) !! k = Nodes c !! k) /\
  (forall k n n', Nodes c !! k = Some n -> Nodes (as_cluster st) !! k = Some n' ->
     node_step o n n' (tasks_of k ts)) /\
  (as_dirty st = false -> as_cluster st = c /\ as_offer st = o) /\
  (as_needs st = false -> forall k n, k ∈ done -> Nodes c !! k = Some n ->
     NeedsToBeReconciled n = false).

Lemma node_step_offer o o' n n' ts :
  MesosOffer o' = MesosOffer o -> node_step o' n n' ts -> node_step o n n' ts.
Proof.
  intros Ho []; rewrite ?Ho in *; [apply step_none| |by apply step_reserve|by apply step_unreserve].
  unfold launched. rewrite Ho. by apply step_launch.
Qed.

Lemma node_step_tasks o n n' ts k : node_step o n n' ts ->
  tasks_of k ts = if decide (CurrentID n = k) then ts else [].
Proof.
  unfold tasks_of. intros []; try by case_decide.
  rewrite filter_cons, filter_nil. match goal with H : ti_TaskId _ = _ |- _ => rewrite H end.
  done.
Qed.

Lemma tasks_of_none k ts done : (ti_TaskId <$> ts) `sublist_of` done -> k ∉ done ->
  tasks_of k ts = [].
Proof.
  intros Hsub Hk. unfold tasks_of. apply elem_of_nil_inv.
  intros t [Hid Ht]%list_elem_of_filter. apply Hk. eapply elem_of_submseteq; [|by apply sublist_submseteq].
  apply list_elem_of_fmap. by exists t.
Qed.

Lemma node_step_ids o n n' ts : node_step o n n' ts ->
  (ti_TaskId <$> ts) `sublist_of` [CurrentID n].
Proof.
  intros []; cbn; try apply sublist_nil_l.
  match goal with H : ti_TaskId _ = _ |- _ => by rewrite H end.
Qed.

Lemma offer_inv_visit c o done k n st ts st' :
  k ∉ done -> Nodes c !! k = Some n -> CurrentID n = k ->
  offer_inv c o done st ts -> visit st k n st' ->
  exists ts', offer_inv c o (done ++ [k]) st' ts'.
Proof.
  intros Hk Hn Hid (Hset & Hmo & Hrel & Hts & Hsub & Hrest & Hsteps & Hdirty & Hneeds)
    (n' & ts1 & Hstep & Hc' & Hts' & Hmo' & (_ & Hu & Hv) & Hdirty' & Hneeds').
  exists (ts ++ ts1). split_and!.
  - by rewrite Hc', Hset.
  - congruence.
  - by rewrite Hu, (proj1 Hrel).
  - by rewrite Hv, (proj2 Hrel).
  - by rewrite Hts', Hts, app_assoc.
  - rewrite fmap_app. apply sublist_app; [done|]. rewrite <- Hid. by eapply node_step_ids.
  - intros j Hj. rewrite elem_of_app, list_elem_of_singleton in Hj. rewrite Hc'.
    rewrite lookup_put_node_ne by (intros ->; auto). apply Hrest. auto.
  - intros j m m' Hm Hm'. unfold tasks_of. rewrite filter_app. fold (tasks_of j ts) (tasks_of j ts1).
    rewrite (node_step_tasks _ _ _ _ _ Hstep), Hid. rewrite Hc' in Hm'.
    destruct (decide (k = j)) as [<-|Hne].
    + rewrite lookup_put_node in Hm'. rewrite (tasks_of_none _ _ _ Hsub) by done.
      assert (m = n) as -> by congruence. assert (m' = n') as -> by congruence.
      by eapply node_step_offer.
    + rewrite app_nil_r. rewrite lookup_put_node_ne in Hm' by done. by apply Hsteps.
  - intros (Hf & -> & ->)%Hdirty'. apply Hdirty in Hf as [Hcc ->]. split; [|done].
    rewrite Hc', Hcc. by apply put_node_id.
  - intros (Hf & Hr)%Hneeds' j m Hj Hm. apply elem_of_app in Hj as [Hj|Hj].
    + by eapply Hneeds.
    + apply list_elem_of_singleton in Hj as ->. congruence.
Qed.

Lemma wp_ApplyOffer_loop fw c o (e : E) :
  cluster_wf fw c -> offer_ports_ok o ->
  wp total (ApplyOffer_loop sc c o) (fun st _ =>
    same_shape c (as_cluster st) /\ offer_ports_ok (as_offer st) /\
    exists keys ts, NoDup keys /\ (forall k, k ∈ keys <-> is_Some (Nodes c !! k)) /\
      offer_inv c o keys st ts) e.
Proof.
  intros Hwf Hports. apply wp_bind. wp_use wp_range.
  intros keys e1 [Hnd Hkeys].
  eapply wp_mono; [|apply (wp_mfoldl _ _ (fun done st _ =>
    same_shape c (as_cluster st) /\ offer_ports_ok (as_offer st) /\
    exists ts, offer_inv c o done st ts))].
  - intros st e2 (? & ? & ts & ?). split_and!; [done..|]. by exists keys, ts.
  - intros d k rest st e2 -> (Hsh & Hpok & ts & Hinv).
    assert (is_Some (Nodes c !! k)) as [n Hn] by (apply Hkeys, elem_of_app; right; by left).
    assert (k ∉ d) as Hkd.
    { apply NoDup_app in Hnd as (_ & Hdis & _). intros Hin. apply (Hdis k Hin). by left. }
    assert (Nodes (as_cluster st) !! k = Some n) as Hn'.
    { destruct Hinv as (_ & _ & _ & _ & _ & Hrest & _). by rewrite Hrest. }
    eapply wp_mono; [|apply wp_ApplyOffer_node; [done|by eapply wf_node_ok|done]].
    intros st' e3 Hvisit. split_and!.
    + destruct Hvisit as (n' & ts1 & Hstep & Hc' & _). rewrite Hc'.
      etransitivity; [exact Hsh|]. eapply put_node_shape; [done|by eapply node_step_static].
    + destruct Hvisit as (n' & ts1 & _ & _ & _ & _ & Hleft & _). by eapply offer_left_ok.
    + eapply offer_inv_visit; [done|done| |done|done]. by eapply wf_key.
  - split_and!; [done..|]. exists []. split_and!; cbn; try done.
    + by destruct c.
    + by rewrite app_nil_r.
    + intros k n n' H1 H2. replace n' with n by congruence. apply step_none.
    + intros _ k n []%elem_of_nil.
Qed.
End applying.

(** ** Reconciliation *)

Section reconciling.
Context {E : Type} `{!GoMap E, !GoMapLaws E, !GoTime E}.

(** [n'] is [n] but for the time it was last asked for. *)
Definition asked (n n' : FrameworkRiakNode) : Prop :=
  exists t, n' = set_lastAskedToReconcile t n.

Definition only_asked (c c' : FrameworkRiakCluster) : Prop :=
  c' = set_Nodes (Nodes c') c /\
  forall k, match Nodes c !! k, Nodes c' !! k with
            | Some n, Some n' => asked n n'
            | None, None => True
            | _, _ => False
            end.

Lemma asked_refl n : asked n n.
Proof. exists (lastAskedToReconcile n). by destruct n. Qed.

Lemma only_asked_refl c : only_asked c c.
Proof.
  split; [by destruct c|]. intros k. destruct (Nodes c !! k); [apply asked_refl|done].
Qed.

Lemma only_asked_shape c c' : only_asked c c' -> same_shape c c'.
Proof.
  intros [Heq Hk]. split_and!; [by rewrite Heq| |by rewrite Heq]. apply map_eq. intros k.
  rewrite !lookup_fmap. specialize (Hk k).
  destruct (Nodes c !! k), (Nodes c' !! k); try done. by destruct Hk as [t ->].
Qed.

Lemma only_asked_put c c' k n t : only_asked c c' -> Nodes c' !! k = Some n ->
  only_asked c (put_node k (set_lastAskedToReconcile t n) c').
Proof.
  intros [Heq Hk] Hn. split; [by rewrite Heq|]. intros j. specialize (Hk j).
  destruct (decide (k = j)) as [->|Hne].
  - rewrite lookup_put_node. rewrite Hn in Hk. destruct (Nodes c !! j); [|done].
    destruct Hk as [t' ->]. by exists t.
  - by rewrite lookup_put_node_ne.
Qed.

(** Only live nodes that are not reconciled are asked for. *)
Definition askable (c : FrameworkRiakCluster) (ts : TaskStatus) : Prop :=
  exists k n, Nodes c !! k = Some n /\ reconciled n = false /\ GetTaskStatus n = Some ts.

Lemma GetTaskStatus_asked t n : GetTaskStatus (set_lastAskedToReconcile t n) = GetTaskStatus n.
Proof. done. Qed.

Lemma wp_GetNodeTasksToReconcile s c (e : E) :
  (forall e, wp s time_Now (fun _ _ => True) e) ->
  wp s (GetNodeTasksToReconcile c) (fun r _ =>
    only_asked c r.1 /\ Forall (askable c) r.2) e.
Proof.
  intros Hnow. apply wp_bind. eapply wp_mono; [|apply wp_mode, wp_range]. intros keys e1 [_ Hkeys].
  apply wp_mfoldl_simple; [|split; [apply only_asked_refl|constructor]].
  intros k [c' l] e2 Hin [Hask Hl]; cbn [fst snd] in *.
  apply Hkeys in Hin as [n Hn].
  pose proof (proj2 Hask k) as Hk. rewrite Hn in Hk.
  destruct (Nodes c' !! k) as [n'|] eqn:Hn'; [|done]. destruct Hk as [t ->].
  apply wp_bind, wp_ret. rewrite GetTaskStatus_asked.
  destruct (GetTaskStatus n) as [ts|] eqn:Hts; [|by apply wp_ret].
  change (reconciled (set_lastAskedToReconcile t n)) with (reconciled n).
  destruct (reconciled n) eqn:Hrec; [by apply wp_ret|].
  apply wp_bind. wp_use Hnow. intros now e3 _.
  case_match; [|by apply wp_ret].
  apply wp_bind. wp_use Hnow. intros now' e4 _.
  rewrite !GetTaskStatus_asked, Hts. apply wp_ret. split.
  - by apply only_asked_put.
  - apply Forall_app. split; [done|]. apply Forall_singleton. by exists k, n.
Qed.
End reconciling.

(** Environment for concrete runs: a counter for random numbers, identifiers
    and the clock, the answers of Riak Explorer, and for each map loop whether
    it runs backwards. *)
Module SimCluster.
Record sim := mk_sim { s_z : Z; s_http : list HttpResult; s_flip : list bool }.

Definition set_z (z : Z) (e : sim) : sim := mk_sim z (s_http e) (s_flip e).

#[export] Instance rand : GoRand sim := fun n e => (Ret (s_z e `mod` n), set_z (s_z e + 1) e).
#[export] Instance rand_laws : GoRandLaws sim.
Proof. intros n e Hn. by apply Z.mod_pos_bound. Qed.
#[export] Instance env : GoEnv sim := fun _ e => (Ret "", e).
#[export] Instance env_laws : GoEnvLaws sim.
Proof. done. Qed.
#[export] Instance uuid : GoUuid sim := fun e => (Ret ("uuid" +:+ itoa (s_z e)), set_z (s_z e + 1) e).
#[export] Instance uuid_laws : GoUuidLaws sim.
Proof. done. Qed.
#[export] Instance time : GoTime sim := fun e => (Ret (s_z e), set_z (s_z e + 6 * 10 ^ 9) e).
#[export] Instance map : GoMap sim := fun ks e =>
  match s_flip e with
  | true :: fs => (Ret (reverse ks), mk_sim (s_z e) (s_http e) fs)
  | false :: fs => (Ret ks, mk_sim (s_z e) (s_http e) fs)
  | [] => (Ret ks, e)
  end.
#[export] Instance map_laws : GoMapLaws sim.
Proof.
  intros ks e. unfold wp, map_order, map. destruct (s_flip e) as [|[] fs]; [done| |done].
  apply reverse_Permutation.
Qed.
#[export] Instance http : HttpClient sim :=
  {| http_Get url e := match s_http e with
                       | r :: rs => (Ret r, mk_sim (s_z e) rs (s_flip e))
                       | [] => (Ret (HttpError "no answer"), e)
                       end;
     http_NewRequest_ok url := true;
     http_Put url data e := (Ret (HttpResponse 204 "" None), e) |}.
#[export] Instance http_laws : HttpClientLaws true sim.
Proof. split; [|done]. intros url e. unfold wpe, http_Get, http. by destruct (s_http e). Qed.

(** Two running nodes. *)
Definition node_at (i : Z) (s d : ProcessState) : FrameworkRiakNode :=
  mk_FrameworkRiakNode true 0 i d s None 1 (Some "s1") "host.example" zero_TaskData
    "riak" "a" (Some "role") (Some "principal") (f64_of_Z 4) (f64_of_Z 16000) (f64_of_Z 20000)
    10 ("uuid" +:+ itoa i) "root" 0.
Definition n1 := node_at 1 Started Started.
Definition n2 := node_at 2 Started Started.
Definition cluster (n1 n2 : FrameworkRiakNode) : FrameworkRiakCluster :=
  mk_FrameworkRiakCluster "a" {[CurrentID n1 := n1; CurrentID n2 := n2]} ∅ "" "" false false 0.
Definition empty : FrameworkRiakCluster := mk_FrameworkRiakCluster "a" ∅ ∅ "" "" false false 0.

Lemma empty_wf : cluster_wf "riak" empty.
Proof. split_and!; cbn; auto with go. Qed.

Lemma cluster_node_wf s1 d1 s2 d2 :
  cluster_wf "riak" (cluster (node_at 1 s1 d1) (node_at 2 s2 d2)).
Proof.
  set (c := cluster _ _).
  assert (node_count c = 2) as Hc by (vm_compute; reflexivity).
  assert (forall i s d, 1 <= i <= 2 -> node_wf "riak" "a" 2 (CurrentID (node_at i s d)) (node_at i s d))
    as Hn.
  { intros i s d Hi. do 3 (split; [reflexivity|]). split; [exact Hi|]. split.
    - split; [by exists "principal"|]. split; [by exists "role"|].
      unfold node_at. cbn [n_Ports]. unfold max_int64_slice. lia.
    - unfold node_finite, node_at. cbn [n_Cpus n_Mem n_Disk].
      split; [|split]; vm_compute; reflexivity. }
  split; [|split; auto with go].
  rewrite Hc. subst c. clear Hc. unfold cluster. cbn [Nodes c_Name].
  apply map_Forall_insert_2; [apply Hn; lia|].
  apply map_Forall_insert_2; [apply Hn; lia|apply map_Forall_empty].
Qed.
End SimCluster.

(** ** Properties *)

Section cluster_properties.
Context `{!MesosUtil, !MesosUtilLaws}.
Context `{!Json TaskData, !Json JoinReply, !Json ForceRemoveReply, !GoParse}.
Context {answers : bool} {E : Type} `{!GoRand E, !GoRandLaws E, !GoEnv E, !GoEnvLaws E, !GoUuid E, !GoUuidLaws E,
  !GoMap E, !GoMapLaws E, !HttpClient E, !HttpClientLaws answers E}.

(** C19 [create_node_fresh]: with readable and finite node sizes, creating a node never
    fails and gives it an id that no node of the cluster has or had, so the
    cluster stays well-formed; the node has no reservation and waits to be
    scheduled. *)
Theorem create_node_fresh (sc : SchedulerConf) (frc : FrameworkRiakCluster) (e : E) :
  cluster_wf (frameworkName sc) frc ->
  Forall (fun s => exists x, ParseFloat s = Some x /\ f64_finite x = true)
    [nodeCpus sc; nodeMem sc; nodeDisk sc] ->
  wp total (CreateNode sc frc) (fun r _ =>
    HasNode frc (CurrentID r.2) = false /\ r.1 = put_node (CurrentID r.2) r.2 frc /\
    cluster_wf (frameworkName sc) r.1 /\
    CanBeScheduled r.2 = true /\ HasRequestedReservation r.2 = false) e.
Proof.
  intros Hwf Hsizes. apply Forall_cons in Hsizes as [(c & Hc & Hcf) Hsizes].
  apply Forall_cons in Hsizes as [(m & Hm & Hmf) Hsizes].
  apply Forall_cons in Hsizes as [(d & Hd & Hdf) _].
  eapply wp_mono; [|apply wp_CreateNode; [done| |]].
  - intros r e' (? & ? & ? & ? & ? & ? & ? & _ & _ & _ & Hst). by rewrite Hst in *.
  - repeat constructor; intros; congruence.
  - intros _. repeat constructor; by eexists.
Qed.

(** C6 [apply_offer_steps]: applying an offer to a cluster adds tasks with
    different ids, all of them nodes of the cluster, and every node makes
    exactly the step its tasks say: one launched task and the node Starting
    on the offer's slave if it could be scheduled, otherwise no change, a
    new reservation, or a reservation given up. *)
Theorem apply_offer_steps (sc : SchedulerConf) (frc : FrameworkRiakCluster) (o : OfferHelper) (e : E) :
  (forall t : TaskData, (Marshal t).2 = None) ->
  cluster_wf (frameworkName sc) frc -> offer_ports_ok o ->
  wp total (ApplyOffer_loop sc frc o) (fun st _ =>
    same_shape frc (as_cluster st) /\
    exists ts, TasksToLaunch (as_offer st) = TasksToLaunch o ++ ts /\
      NoDup (ti_TaskId <$> ts) /\
      Forall (fun t => is_Some (Nodes frc !! ti_TaskId t)) ts /\
      forall k n n', Nodes frc !! k = Some n -> Nodes (as_cluster st) !! k = Some n' ->
        node_step o n n' (tasks_of k ts)) e.
Proof.
  intros Hm Hwf Hp. wp_eby wp_ApplyOffer_loop.
  intros st e' (Hsh & _ & keys & ts & Hnd & Hkeys & _ & _ & _ & Hts & Hsub & _ & Hsteps & _).
  split; [done|]. exists ts. split; [done|]. split; [by eapply sublist_NoDup|]. split; [|done].
  apply Forall_forall. intros t Ht. apply Hkeys.
  eapply elem_of_submseteq; [|by apply sublist_submseteq]. apply list_elem_of_fmap. by exists t.
Qed.

(** The two flags of the loop are right.  When the state
    is not marked dirty, neither a node nor the offer changed, so nothing is
    lost by not persisting; and when no reconciliation is asked for, no node
    of the cluster waits for one. *)
Theorem apply_offer_flags (sc : SchedulerConf) (frc : FrameworkRiakCluster) (o : OfferHelper) (e : E) :
  (forall t : TaskData, (Marshal t).2 = None) ->
  cluster_wf (frameworkName sc) frc -> offer_ports_ok o ->
  wp total (ApplyOffer_loop sc frc o) (fun st _ =>
    (as_dirty st = false -> as_cluster st = frc /\ as_offer st = o) /\
    (as_needs st = false -> map_Forall (fun _ n => NeedsToBeReconciled n = false) (Nodes frc))) e.
Proof.
  intros Hm Hwf Hp. wp_eby wp_ApplyOffer_loop.
  intros st e' (_ & _ & keys & ts & _ & Hkeys & _ & _ & _ & _ & _ & _ & _ & Hdirty & Hneeds).
  split; [done|]. intros Hn k n Hk. apply (Hneeds Hn k); [apply Hkeys; by eexists|done].
Qed.

(** C18 [status_update_outcome]: a status update of a live node ends, whatever
    Riak Explorer answers, unless it leaves a request without an answer, and
    changes that node alone, as the state table says; one for a removed node
    changes nothing; one for an unknown node panics. *)
Theorem status_update_outcome (status : TaskStatus) (frc : FrameworkRiakCluster) (e : E) :
  match Graveyard frc !! ts_TaskId status, Nodes frc !! ts_TaskId status with
  | Some _, _ => HandleNodeStatusUpdate status frc e = (Ret frc, e)
  | None, Some n => wpe (HandleNodeStatusUpdate status frc) (fun c' _ =>
      c' = put_node (ts_TaskId status) (after_status status n) frc)
      (fun x _ => x = blocked /\ answers = false) e
  | None, None => exists msg, HandleNodeStatusUpdate status frc e = (Panic msg, e)
  end.
Proof.
  destruct (Graveyard frc !! _) eqn:HG; [by eapply status_dead|].
  destruct (Nodes frc !! _) eqn:HN; [by apply wpe_status_live|].
  by apply status_unknown, HasNode_false.
Qed.

(** C36 [join_attempts]: [doJoin] and [doLeave] are loops of at most
    [maxRetry - retry + 1] attempts, six as they are called, that stop at the
    first success; so they end whatever the server answers. *)
Theorem join_attempts (n1 n2 : FrameworkRiakNode) (retry maxRetry : Z) (e : E) :
  doJoin n1 n2 retry maxRetry e =
    try_until (Z.to_nat (maxRetry - retry + 1)) (join_attempt n1 n2) e /\
  doLeave n1 n2 retry maxRetry e =
    try_until (Z.to_nat (maxRetry - retry + 1)) (leave_attempt n1 n2) e.
Proof.
  split; [apply doJoin_fuel_try|apply doLeave_fuel_try]; unfold retry_fuel; lia.
Qed.

(** C23 [rolling_restart_tick]: one tick of a rolling restart either finds every
    node restarted and ends it, or finds a node that has not: if that node
    is restarting it waits, otherwise it restarts that node and no other. *)
Theorem rolling_restart_tick (fw : string) (frc : FrameworkRiakCluster) (e : E) :
  cluster_wf fw frc ->
  if c_IsRestarting frc
  then wp total (GetNodesToRestart frc) (fun r _ => restart_outcome frc r) e
  else GetNodesToRestart frc e = (Ret (frc, ∅, false), e).
Proof.
  intros Hwf. destruct (c_IsRestarting frc) eqn:Hr; [by eapply wp_GetNodesToRestart|].
  unfold GetNodesToRestart. by rewrite Hr.
Qed.

(** C24 [kill_or_remove_exact]: the nodes to kill and to remove are exactly the
    live nodes that can be, and removing one keeps the cluster well-formed
    and its id taken. *)
Theorem kill_or_remove_exact (fw : string) (frc : FrameworkRiakCluster) (e : E) :
  cluster_wf fw frc ->
  wp total (GetNodesToKillOrRemove frc) (fun r _ =>
    picks CanBeKilled frc r.1 /\ picks CanBeRemoved frc r.2) e /\
  forall k n, Nodes frc !! k = Some n ->
    cluster_wf fw (RemoveNode n frc) /\ HasNode (RemoveNode n frc) k = true /\
    GetNextSimpleId (RemoveNode n frc) = GetNextSimpleId frc.
Proof.
  intros Hwf. split; [by eapply wp_GetNodesToKillOrRemove|]. intros k n Hk.
  pose proof (wf_key _ _ _ _ Hwf Hk) as Hid. split; [by eapply RemoveNode_wf|]. split.
  - apply HasNode_true. right. simpl. rewrite Hid, lookup_insert_eq. by eexists.
  - assert (Graveyard frc !! k = None) as HG
      by (destruct Hwf as (_ & _ & Hd); by eapply map_disjoint_Some_l).
    pose proof (RemoveNode_count k n frc Hk Hid HG). unfold GetNextSimpleId, node_count in *. lia.
Qed.

(** A kill request for a node that is starting is
    forgotten when the node reports that it runs before the next tick: it is
    then neither killed nor removed. *)
Theorem kill_request_lost (frc : FrameworkRiakCluster) (n : FrameworkRiakNode) (status : TaskStatus)
    (e : E) :
  Graveyard frc !! ts_TaskId status = None -> Nodes frc !! ts_TaskId status = Some n ->
  CurrentState n = Starting -> ts_State status = TASK_RUNNING ->
  let killed := put_node (ts_TaskId status) (KillNext n) frc in
  CanBeKilled (KillNext n) = true /\
  wpe (HandleNodeStatusUpdate status killed) (fun c' _ =>
    exists n', Nodes c' !! ts_TaskId status = Some n' /\
      CanBeKilled n' = false /\ CanBeRemoved n' = false /\ DestinationState n' = Started)
    (unanswered answers) e.
Proof.
  intros HG Hn Hs Hst killed. split; [unfold CanBeKilled; cbn; by rewrite Hs|].
  eapply wpe_mono_post; [|apply wpe_status_live; [exact HG|apply lookup_put_node]].
  intros c' e' ->. eexists. split; [apply lookup_put_node|].
  unfold after_status. by rewrite Hst.
Qed.
End cluster_properties.

Section cluster_witnesses.
Import RefMesosUtil SimHttp SimNode SimCluster.

Definition sim0 : sim := mk_sim 0 [] [].
Definition two : FrameworkRiakCluster := cluster n1 n2.
Definition running (key : string) : TaskStatus := mk_TaskStatus key TASK_RUNNING (Some "s1") "".

Lemma create_node_fresh_witness :
  wp total (CreateNode (conf false) empty) (fun r _ =>
    HasNode empty (CurrentID r.2) = false /\ r.1 = put_node (CurrentID r.2) r.2 empty /\
    cluster_wf (frameworkName (conf false)) r.1 /\
    CanBeScheduled r.2 = true /\ HasRequestedReservation r.2 = false) sim0.
Proof.
  apply create_node_fresh; [exact empty_wf|].
  repeat constructor; eexists; (split; [reflexivity|vm_compute; reflexivity]).
Defined.

Lemma helper_ports_ok cpus : offer_ports_ok (helper cpus).
Proof. split; [apply NoDup_seqZ|apply Forall_seqZ; unfold port_ok; lia]. Qed.

Lemma apply_offer_steps_witness :
  let c := cluster (node_at 1 Unknown Started) (node_at 2 Started Started) in
  let o := helper (f64_of_Z 5) in
  wp total (ApplyOffer_loop (conf true) c o) (fun st _ =>
    same_shape c (as_cluster st) /\
    exists ts, TasksToLaunch (as_offer st) = TasksToLaunch o ++ ts /\
      NoDup (ti_TaskId <$> ts) /\
      Forall (fun t => is_Some (Nodes c !! ti_TaskId t)) ts /\
      forall k n n', Nodes c !! k = Some n -> Nodes (as_cluster st) !! k = Some n' ->
        node_step o n n' (tasks_of k ts)) sim0.
Proof.
  intros c o. apply apply_offer_steps;
    [done|apply cluster_node_wf|apply helper_ports_ok].
Defined.

Lemma apply_offer_flags_witness :
  let c := cluster (node_at 1 Unknown Started) (node_at 2 Started Started) in
  let o := helper (f64_of_Z 5) in
  wp total (ApplyOffer_loop (conf true) c o) (fun st _ =>
    (as_dirty st = false -> as_cluster st = c /\ as_offer st = o) /\
    (as_needs st = false -> map_Forall (fun _ n => NeedsToBeReconciled n = false) (Nodes c))) sim0.
Proof.
  intros c o. apply apply_offer_flags;
    [done|apply cluster_node_wf|apply helper_ports_ok].
Defined.

Lemma status_update_outcome_witness :
  wpe (HandleNodeStatusUpdate (running (CurrentID n1)) two) (fun c' _ =>
    c' = put_node (CurrentID n1) (after_status (running (CurrentID n1)) n1) two)
    (fun x _ => x = blocked /\ true = false) sim0.
Proof. exact (status_update_outcome (running (CurrentID n1)) two sim0). Defined.

Lemma rolling_restart_tick_witness :
  let c := RollingRestart two in
  if c_IsRestarting c
  then wp total (GetNodesToRestart c) (fun r _ => restart_outcome c r) sim0
  else GetNodesToRestart c sim0 = (Ret (c, ∅, false), sim0).
Proof. intros c. apply (rolling_restart_tick "riak"). apply cluster_node_wf. Defined.

Lemma kill_or_remove_exact_witness :
  wp total (GetNodesToKillOrRemove two) (fun r _ =>
    picks CanBeKilled two r.1 /\ picks CanBeRemoved two r.2) sim0 /\
  forall k n, Nodes two !! k = Some n ->
    cluster_wf "riak" (RemoveNode n two) /\ HasNode (RemoveNode n two) k = true /\
    GetNextSimpleId (RemoveNode n two) = GetNextSimpleId two.
Proof. apply kill_or_remove_exact. apply cluster_node_wf. Defined.

Lemma kill_request_lost_witness :
  let n := node_at 1 Starting Started in
  let c := cluster n n2 in
  let killed := put_node (CurrentID n) (KillNext n) c in
  CanBeKilled (KillNext n) = true /\
  wpe (HandleNodeStatusUpdate (running (CurrentID n)) killed) (fun c' _ =>
    exists n', Nodes c' !! CurrentID n = Some n' /\
      CanBeKilled n' = false /\ CanBeRemoved n' = false /\ DestinationState n' = Started)
    (unanswered true) sim0.
Proof.
  intros n c. apply (kill_request_lost c n (running (CurrentID n)) sim0); reflexivity.
Defined.

(** A rolling restart does not always wait for
    the restarting node.  With two running nodes and a map order that changes
    between two ticks, the second tick restarts the second node while the
    first still runs its old generation, so both are told to finish. *)
Theorem rolling_restart_overlaps :
  wp total (r1 ← GetNodesToRestart (RollingRestart two);
            r2 ← GetNodesToRestart r1.1.1; mret (r1, r2)) (fun r _ =>
    r.1.1.2 = {[CurrentID n1 := CurrentID n1]} /\
    r.2.1.2 = {[CurrentID n2 := CurrentID n2]} /\
    (fun n => (CurrentState n, DestinationState n)) <$> Nodes r.2.1.1 =
      {[CurrentID n1 := (Started, Restarting); CurrentID n2 := (Started, Restarting)]})
    (mk_sim 0 [] [false; false; true]).
Proof. vm_compute. split_and!; reflexivity. Qed.
End cluster_witnesses.
