(* ===== verification/Decoding.v ===== *)
(** * What JSON keeps of a cluster

    The state of the scheduler goes through [encoding/json] and back.  Three
    things are lost on the way.  The unexported fields are not encoded
    ([strip_node], [strip_cluster]).  A string whose bytes are not UTF-8 comes
    back with those bytes replaced ([to_utf8]), and two keys of a map that
    become the same one leave the entry that is encoded last, keys being
    encoded in their order ([decode_map]).  Cluster names and configurations
    are bytes of HTTP requests, so this can happen; a well-formed cluster is
    well-formed afterwards, and text that is UTF-8 is kept. *)

From S2P Require Import Prelude GoStrings Float64 Mesos Structs Node Cluster.

#[local] Open Scope string_scope.
#[local] Open Scope list_scope.
#[local] Open Scope Z_scope.

(** ** Maps *)

Definition key_le (s t : string) : Prop := String.leb s t = true.
#[export] Instance key_le_dec : RelDecision key_le.
Proof. intros s t. unfold key_le. apply _. Defined.

Section maps.
Context {A : Type}.
Implicit Types (f : A -> A) (m acc : gmap string A) (ks : list string).

(** The keys in the order in which they are encoded. *)
Definition sorted_keys m : list string := merge_sort key_le (elements (dom m)).

(** Decoding the entries one after the other. *)
Definition decode_entry f m acc (k : string) : gmap string A :=
  match m !! k with
  | Some v => <[to_utf8 k := f v]> acc
  | None => acc
  end.

Definition decode_map f m : gmap string A := foldl (decode_entry f m) ∅ (sorted_keys m).

Lemma elem_of_sorted_keys m k : k ∈ sorted_keys m <-> is_Some (m !! k).
Proof. unfold sorted_keys. by rewrite merge_sort_Permutation, elem_of_elements, elem_of_dom. Qed.

Lemma NoDup_sorted_keys m : NoDup (sorted_keys m).
Proof. unfold sorted_keys. rewrite merge_sort_Permutation. apply NoDup_elements. Qed.

Lemma length_sorted_keys m : length (sorted_keys m) = size m.
Proof. unfold sorted_keys. rewrite merge_sort_Permutation. apply size_dom. Qed.

Lemma sorted_keys_fmap (g : A -> A) m : sorted_keys (g <$> m) = sorted_keys m.
Proof. unfold sorted_keys. by rewrite dom_fmap_L. Qed.

(** Every entry comes from one. *)
Lemma decode_from f m ks acc k v : foldl (decode_entry f m) acc ks !! k = Some v ->
  acc !! k = Some v \/ exists k0 v0, m !! k0 = Some v0 /\ k = to_utf8 k0 /\ v = f v0.
Proof.
  revert acc. induction ks as [|k1 ks IH]; intros acc; cbn [foldl]; [by left|].
  intros [Hk|Hk]%IH; [|by right]. unfold decode_entry in Hk.
  destruct (m !! k1) as [v1|] eqn:H1; [|by left].
  apply lookup_insert_Some in Hk as [[<- <-]|[_ ?]]; [right; by exists k1, v1|by left].
Qed.

Lemma decode_map_from f m k v : decode_map f m !! k = Some v ->
  exists k0 v0, m !! k0 = Some v0 /\ k = to_utf8 k0 /\ v = f v0.
Proof. intros [Hk|?]%decode_from; [by rewrite lookup_empty in Hk|done]. Qed.

Lemma decode_other f m ks acc k : k ∉ to_utf8 <$> ks ->
  foldl (decode_entry f m) acc ks !! k = acc !! k.
Proof.
  revert acc. induction ks as [|k1 ks IH]; intros acc; [done|]. cbn [foldl fmap list_fmap].
  intros [Hne Hk]%not_elem_of_cons. rewrite IH by done. unfold decode_entry.
  destruct (m !! k1); [by rewrite lookup_insert_ne|done].
Qed.

Lemma decode_in f m ks acc k v : NoDup (to_utf8 <$> ks) -> k ∈ ks -> m !! k = Some v ->
  foldl (decode_entry f m) acc ks !! to_utf8 k = Some (f v).
Proof.
  intros Hnd Hk Hv. revert acc. induction ks as [|k1 ks IH]; intros acc; [by apply elem_of_nil in Hk|].
  cbn [foldl fmap list_fmap] in *. apply NoDup_cons in Hnd as [Hnew Hnd].
  apply elem_of_cons in Hk as [<-|Hk]; [|by apply IH].
  rewrite decode_other by done. unfold decode_entry. rewrite Hv. apply lookup_insert_eq.
Qed.

Lemma decode_size f m ks acc : NoDup (to_utf8 <$> ks) ->
  (forall k, k ∈ ks -> is_Some (m !! k) /\ acc !! to_utf8 k = None) ->
  size (foldl (decode_entry f m) acc ks) = (size acc + length ks)%nat.
Proof.
  revert acc. induction ks as [|k1 ks IH]; intros acc; cbn [foldl fmap list_fmap length]; [lia|].
  intros [Hnew Hnd]%NoDup_cons Hks. destruct (Hks k1) as [[v1 H1] Hacc]; [by left|].
  unfold decode_entry at 2. rewrite H1, IH; [|done|].
  - rewrite map_size_insert_None by done. lia.
  - intros k Hk. split; [by apply Hks; right|]. rewrite lookup_insert_ne.
    + apply Hks. by right.
    + intros Heq. apply Hnew. rewrite Heq. by apply list_elem_of_fmap_2.
Qed.

(** Keys that stay apart. *)
Definition keys_apart m : Prop :=
  forall k1 k2, is_Some (m !! k1) -> is_Some (m !! k2) -> to_utf8 k1 = to_utf8 k2 -> k1 = k2.

Lemma NoDup_decoded_keys m : keys_apart m -> NoDup (to_utf8 <$> sorted_keys m).
Proof.
  intros Hm. apply NoDup_fmap_2_strong; [|apply NoDup_sorted_keys].
  intros k1 k2 H1%elem_of_sorted_keys H2%elem_of_sorted_keys. by apply Hm.
Qed.

Lemma decode_map_in f m k v : keys_apart m -> m !! k = Some v -> decode_map f m !! to_utf8 k = Some (f v).
Proof.
  intros Hm Hv. apply decode_in; [by apply NoDup_decoded_keys| |done].
  apply elem_of_sorted_keys. by eexists.
Qed.

Lemma decode_map_size f m : keys_apart m -> size (decode_map f m) = size m.
Proof.
  intros Hm. unfold decode_map. rewrite decode_size, map_size_empty, length_sorted_keys.
  - done.
  - by apply NoDup_decoded_keys.
  - intros k Hk. split; [by apply elem_of_sorted_keys|apply lookup_empty].
Qed.

(** Text that is UTF-8 is kept. *)
Lemma decode_map_id f m : map_Forall (fun k _ => utf8 k) m -> decode_map f m = f <$> m.
Proof.
  intros Hm. assert (keys_apart m) as Ha.
  { intros k1 k2 [v1 H1] [v2 H2]. by rewrite (Hm _ _ H1), (Hm _ _ H2). }
  apply map_eq. intros k. rewrite lookup_fmap. destruct (m !! k) as [v|] eqn:Hk; cbn.
  - rewrite <- (Hm _ _ Hk). by apply decode_map_in.
  - destruct (decode_map f m !! k) as [v|] eqn:Hd; [|done].
    apply decode_map_from in Hd as (k0 & v0 & H0 & -> & ->). rewrite (Hm _ _ H0) in Hk. congruence.
Qed.

Lemma decode_map_ext f g m : (forall k v, m !! k = Some v -> f v = g v) -> decode_map f m = decode_map g m.
Proof.
  intros Hfg. unfold decode_map. generalize (∅ : gmap string A).
  induction (sorted_keys m) as [|k ks IH]; intros acc; [done|]. cbn [foldl]. rewrite IH. f_equal.
  unfold decode_entry. destruct (m !! k) eqn:Hk; [|done]. by erewrite Hfg.
Qed.

Lemma decode_map_fmap f (g : A -> A) m : decode_map f (g <$> m) = decode_map (fun v => f (g v)) m.
Proof.
  unfold decode_map. rewrite sorted_keys_fmap. generalize (∅ : gmap string A).
  induction (sorted_keys m) as [|k ks IH]; intros acc; [done|]. cbn [foldl]. rewrite IH. f_equal.
  unfold decode_entry. rewrite lookup_fmap. by destruct (m !! k).
Qed.

(** Decoding twice. *)
Lemma decode_map_twice f m : (forall v, f (f v) = f v) -> decode_map f (decode_map f m) = decode_map f m.
Proof.
  intros Hf. rewrite decode_map_id.
  - apply map_eq. intros k. rewrite lookup_fmap. destruct (decode_map f m !! k) as [v|] eqn:Hk; [|done].
    apply decode_map_from in Hk as (k0 & v0 & _ & _ & ->). cbn. by rewrite Hf.
  - intros k v (k0 & v0 & _ & -> & _)%decode_map_from. apply to_utf8_idemp.
Qed.
End maps.

(** ** Nodes and clusters *)

(** What is not encoded of a node and of a cluster. *)
Definition strip_node (n : FrameworkRiakNode) : FrameworkRiakNode :=
  set_reconciled false (set_lastAskedToReconcile time_zero n).
Definition strip_cluster (c : FrameworkRiakCluster) : FrameworkRiakCluster :=
  set_Graveyard (strip_node <$> Graveyard c) (set_Nodes (strip_node <$> Nodes c) c).

(** The data of a status are bytes, which JSON has in base 64. *)
Definition decode_status (ts : TaskStatus) : TaskStatus :=
  mk_TaskStatus (to_utf8 (ts_TaskId ts)) (ts_State ts) (to_utf8 <$> ts_SlaveId ts) (ts_Data ts).

Definition decode_node (n : FrameworkRiakNode) : FrameworkRiakNode :=
  {| reconciled := false;
     lastAskedToReconcile := time_zero;
     SimpleId := SimpleId n;
     DestinationState := DestinationState n;
     CurrentState := CurrentState n;
     n_TaskStatus := decode_status <$> n_TaskStatus n;
     n_Generation := n_Generation n;
     SlaveID := to_utf8 <$> SlaveID n;
     Hostname := to_utf8 (Hostname n);
     n_TaskData := json_text (n_TaskData n);
     FrameworkName := to_utf8 (FrameworkName n);
     ClusterName := to_utf8 (ClusterName n);
     Role := to_utf8 <$> Role n;
     Principal := to_utf8 <$> Principal n;
     n_Cpus := n_Cpus n;
     n_Mem := n_Mem n;
     n_Disk := n_Disk n;
     n_Ports := n_Ports n;
     UUID := to_utf8 (UUID n);
     ContainerPath := to_utf8 (ContainerPath n);
     RestartGeneration := RestartGeneration n |}.

Definition decode_cluster (c : FrameworkRiakCluster) : FrameworkRiakCluster :=
  {| c_Name := to_utf8 (c_Name c);
     Nodes := decode_map decode_node (Nodes c);
     Graveyard := decode_map decode_node (Graveyard c);
     RiakConfig := to_utf8 (RiakConfig c);
     AdvancedConfig := to_utf8 (AdvancedConfig c);
     IsKilled := IsKilled c;
     c_IsRestarting := c_IsRestarting c;
     c_Generation := c_Generation c |}.

(** *** Decoding keeps clusters well-formed *)

Lemma decode_node_id n : 0 <= SimpleId n -> CurrentID (decode_node n) = to_utf8 (CurrentID n).
Proof. intros Hn. unfold CurrentID, node_id. cbn. by rewrite to_utf8_dashed. Qed.

Lemma decode_node_wf fw cl count k n : utf8 fw -> node_wf fw cl count k n ->
  node_wf fw (to_utf8 cl) count (to_utf8 k) (decode_node n).
Proof.
  intros Hfw (-> & Hf & Hc & Hs & ([pr Hpr] & [ro Hro] & Hp) & Hfin).
  split; [rewrite decode_node_id; [done|lia]|]. cbn. rewrite Hf, Hc, Hfw.
  split; [done|]. split; [done|]. split; [done|]. split; [|done].
  split; [cbn; rewrite Hpr; by eexists|]. split; [cbn; rewrite Hro; by eexists|done].
Qed.

(** Task ids of one cluster stay apart: they end in different numbers. *)
Lemma node_ids_apart fw cl count k1 k2 n1 n2 :
  node_wf fw cl count k1 n1 -> node_wf fw cl count k2 n2 -> to_utf8 k1 = to_utf8 k2 -> k1 = k2.
Proof.
  intros (-> & Hf1 & Hc1 & Hs1 & _) (-> & Hf2 & Hc2 & Hs2 & _) Heq.
  unfold CurrentID, node_id in *. rewrite Hf1, Hc1, Hf2, Hc2 in *.
  rewrite !to_utf8_dashed in Heq by lia.
  apply dashed_name_inj in Heq as [_ ->]; [done|lia|lia].
Qed.

Lemma nodes_apart fw cl count (m : gmap string FrameworkRiakNode) :
  map_Forall (node_wf fw cl count) m -> keys_apart m.
Proof. intros Hm k1 k2 [n1 H1%Hm] [n2 H2%Hm]. by eapply node_ids_apart. Qed.

Lemma decode_cluster_count fw c : cluster_wf fw c -> node_count (decode_cluster c) = node_count c.
Proof.
  intros (HN & HG & _). unfold node_count. cbn.
  by rewrite !decode_map_size by (by eapply nodes_apart).
Qed.

Lemma decode_cluster_wf fw c : utf8 fw -> cluster_wf fw c -> cluster_wf fw (decode_cluster c).
Proof.
  intros Hfw Hwf. pose proof (decode_cluster_count _ _ Hwf) as Hcount. destruct Hwf as (HN & HG & Hd).
  unfold cluster_wf. rewrite Hcount. cbn [decode_cluster c_Name Nodes Graveyard].
  split; [|split].
  - intros k n (k0 & n0 & Hn%HN & -> & ->)%decode_map_from. by apply decode_node_wf.
  - intros k n (k0 & n0 & Hn%HG & -> & ->)%decode_map_from. by apply decode_node_wf.
  - apply map_disjoint_spec. intros k n1 n2 (k1 & m1 & H1 & -> & _)%decode_map_from
      (k2 & m2 & H2 & Heq & _)%decode_map_from.
    pose proof (node_ids_apart _ _ _ _ _ _ _ (HN _ _ H1) (HG _ _ H2) Heq) as ->.
    by eapply map_disjoint_spec.
Qed.

(** *** Decoding after stripping, and twice *)

Lemma decode_strip_cluster c : decode_cluster (strip_cluster c) = decode_cluster c.
Proof. unfold decode_cluster, strip_cluster. cbn. by rewrite !decode_map_fmap. Qed.

Lemma fmap_to_utf8_twice (o : option string) : to_utf8 <$> (to_utf8 <$> o) = to_utf8 <$> o.
Proof. destruct o as [s|]; [|done]. cbn. by rewrite to_utf8_idemp. Qed.

Lemma json_text_twice (td : TaskData) : json_text (json_text td) = json_text td.
Proof.
  unfold json_text, text_TaskData. cbn. rewrite !to_utf8_idemp. f_equal.
  rewrite <- list_fmap_compose. apply list_fmap_ext. intros ???. apply to_utf8_idemp.
Qed.

Lemma decode_node_twice n : decode_node (decode_node n) = decode_node n.
Proof.
  unfold decode_node at 1 3. cbn. rewrite !to_utf8_idemp, !fmap_to_utf8_twice, json_text_twice. f_equal.
  destruct (n_TaskStatus n) as [ts|]; [|done]. cbn. f_equal. unfold decode_status. cbn.
  by rewrite to_utf8_idemp, fmap_to_utf8_twice.
Qed.

Lemma decode_cluster_twice c : decode_cluster (decode_cluster c) = decode_cluster c.
Proof.
  unfold decode_cluster at 1 3. cbn. rewrite !to_utf8_idemp.
  by rewrite !decode_map_twice by apply decode_node_twice.
Qed.

(** *** Text in UTF-8 is kept *)

Definition opt_utf8 (o : option string) : Prop := to_utf8 <$> o = o.

Definition task_utf8 (td : TaskData) : Prop :=
  utf8 (FullyQualifiedNodeName td) /\ Forall utf8 (Zookeepers td) /\ utf8 (td_FrameworkName td) /\
  utf8 (td_ClusterName td) /\ utf8 (URI td) /\ utf8 (Host td).

Definition status_utf8 (ts : TaskStatus) : Prop := utf8 (ts_TaskId ts) /\ opt_utf8 (ts_SlaveId ts).

Definition node_utf8 (n : FrameworkRiakNode) : Prop :=
  match n_TaskStatus n with Some ts => status_utf8 ts | None => True end /\
  opt_utf8 (SlaveID n) /\ utf8 (Hostname n) /\ task_utf8 (n_TaskData n) /\ utf8 (FrameworkName n) /\
  utf8 (ClusterName n) /\ opt_utf8 (Role n) /\ opt_utf8 (Principal n) /\ utf8 (UUID n) /\
  utf8 (ContainerPath n).

Definition cluster_utf8 (c : FrameworkRiakCluster) : Prop :=
  utf8 (c_Name c) /\ utf8 (RiakConfig c) /\ utf8 (AdvancedConfig c) /\
  map_Forall (fun k n => utf8 k /\ node_utf8 n) (Nodes c) /\
  map_Forall (fun k n => utf8 k /\ node_utf8 n) (Graveyard c).

Lemma json_text_utf8 (td : TaskData) : task_utf8 td -> json_text td = td.
Proof.
  intros (H1 & H2 & H3 & H4 & H5 & H6). destruct td. unfold json_text, text_TaskData. cbn in *. f_equal; try done.
  rewrite Forall_forall in H2. rewrite <- (list_fmap_id Zookeepers) at 2.
  apply list_fmap_ext. intros i s Hs%list_elem_of_lookup_2. by apply H2.
Qed.

Lemma decode_node_utf8 n : node_utf8 n -> decode_node n = strip_node n.
Proof.
  intros (Hts & H1 & H2 & H3 & H4 & H5 & H6 & H7 & H8 & H9). unfold decode_node.
  rewrite H1, H2, H4, H5, H6, H7, H8, H9, json_text_utf8 by done.
  assert (decode_status <$> n_TaskStatus n = n_TaskStatus n) as ->; [|done].
  destruct (n_TaskStatus n) as [[]|]; [|done]. destruct Hts as [Ht Hs]. cbn in *.
  unfold decode_status. cbn. by rewrite Ht, Hs.
Qed.

Lemma decode_nodes_utf8 (m : gmap string FrameworkRiakNode) :
  map_Forall (fun k n => utf8 k /\ node_utf8 n) m -> decode_map decode_node m = strip_node <$> m.
Proof.
  intros Hm. rewrite decode_map_id by (intros k n Hk; by apply Hm in Hk as [? _]).
  apply map_fmap_ext. intros k n Hk. apply decode_node_utf8. by apply Hm in Hk as [_ ?].
Qed.

Lemma decode_cluster_utf8 c : cluster_utf8 c -> decode_cluster c = strip_cluster c.
Proof.
  intros (H1 & H2 & H3 & HN & HG). unfold decode_cluster.
  by rewrite H1, H2, H3, !decode_nodes_utf8.
Qed.

(** *** Stripping keeps the shape *)

Lemma strip_node_static n : static (strip_node n) = static n.
Proof. done. Qed.

Lemma strip_cluster_shape c : same_shape c (strip_cluster c).
Proof.
  split_and!; [done|..]; cbn; apply map_eq; intros k; rewrite !lookup_fmap;
    [destruct (Nodes c !! k)|destruct (Graveyard c !! k)]; done.
Qed.

(** ** What has a JSON form that reads back *)

(** Task states outside of the enumeration do not. *)
Definition status_known (ts : TaskStatus) : Prop :=
  match ts_State ts with TASK_other _ => False | _ => True end.
Definition known (n : FrameworkRiakNode) : Prop :=
  match n_TaskStatus n with Some ts => status_known ts | None => True end.

(** Nor do numbers that are not finite. *)
Definition node_encodable (n : FrameworkRiakNode) : Prop := node_finite n /\ known n.
Definition cluster_encodable (c : FrameworkRiakCluster) : Prop :=
  map_Forall (fun _ => node_encodable) (Nodes c) /\ map_Forall (fun _ => node_encodable) (Graveyard c).

#[export] Instance known_dec n : Decision (known n).
Proof.
  unfold known, status_known. destruct (n_TaskStatus n) as [ts|]; [|apply _].
  destruct (ts_State ts); apply _.
Defined.
#[export] Instance node_encodable_dec n : Decision (node_encodable n).
Proof. unfold node_encodable, node_finite. apply _. Defined.
#[export] Instance cluster_encodable_dec c : Decision (cluster_encodable c).
Proof. unfold cluster_encodable. apply _. Defined.

Lemma strip_cluster_encodable c : cluster_encodable (strip_cluster c) <-> cluster_encodable c.
Proof.
  assert (forall m : gmap string FrameworkRiakNode,
    map_Forall (fun _ => node_encodable) (strip_node <$> m) <-> map_Forall (fun _ => node_encodable) m) as Hn
    by (intros m; by rewrite map_Forall_fmap).
  unfold cluster_encodable. cbn. by rewrite !Hn.
Qed.

Lemma decode_known n : known n -> known (decode_node n).
Proof. unfold known. cbn. by destruct (n_TaskStatus n). Qed.
