(* ===== verification/Metadata.v ===== *)
(** * [metadata_manager]: nodes in ZooKeeper

    A [ZkNode] is a path of ZooKeeper with the data and version last read; the
    manager owns the connection and replaces it when it is broken.  Every
    operation is retried: [left] is [retry - currentRetry], so the test
    [currentRetry >= retry] is [left = 0], and the callers start with ten.
    The connection is the class [ZkApi]; what the theorems need of it is
    [ZkLaws], where [zk_stored] is what the server stores at one path. *)

From S2P Require Import Prelude GoStrings.
From Stdlib Require Import Ascii.

#[local] Open Scope string_scope.
#[local] Open Scope list_scope.
#[local] Open Scope Z_scope.

(** ** The ZooKeeper client *)

Inductive ZkError := ErrNoNode | ErrNodeExists | ErrBadVersion | ErrNotEmpty | ErrOther (msg : string).

#[export] Instance ZkError_eq_dec : EqDecision ZkError.
Proof. solve_decision. Defined.

Record Stat := mk_Stat { Version : Z }.

Inductive ConnState := StateConnected | StateHasSession | StateConnecting | StateOther.

#[export] Instance ConnState_eq_dec : EqDecision ConnState.
Proof. solve_decision. Defined.

Definition FlagEphemeral : Z := 1.

Class ZkApi (Conn E : Type) := {
  zk_Connect : list string -> M E (option Conn * option string);
  zk_State : Conn -> M E ConnState;
  zk_Close : Conn -> M E unit;
  zk_Get : Conn -> string -> M E (string * option Stat * option ZkError);
  zk_Set : Conn -> string -> string -> Z -> M E (option Stat * option ZkError);
  zk_Create : Conn -> string -> string -> Z -> M E (option ZkError);
  zk_Exists : Conn -> string -> M E (bool * option ZkError);
  zk_Children : Conn -> string -> M E (list string * option ZkError);
  zk_Delete : Conn -> string -> Z -> M E (option ZkError);
  (** [Lock] of a [zk.Lock] on a path. *)
  zk_Lock : Conn -> string -> M E (option ZkError) }.

(** ** Namespaces *)

Inductive Namespace :=
  | baseNamespace
  | SubNamespace (parent : Namespace) (component : string).

Fixpoint GetComponents (ns : Namespace) : list string :=
  match ns with
  | baseNamespace => [""]
  | SubNamespace parent component => GetComponents parent ++ [component]
  end.

Definition GetZKPath (ns : Namespace) : string :=
  match ns with
  | baseNamespace => "/"
  | SubNamespace _ _ => Join (GetComponents ns) "/"
  end.

Definition makeSubSpace (ns : Namespace) (subSpaceName : string) : Namespace :=
  SubNamespace ns subSpaceName.

(** ** State *)

Record zkLock (Conn : Type) := mk_zkLock { lock_conn : Conn; lock_path : string }.
Arguments mk_zkLock {Conn}.
Arguments lock_conn {Conn}.
Arguments lock_path {Conn}.

Record MetadataManager (Conn : Type) := mk_MetadataManager {
  frameworkID : string;
  zkConn : option Conn;
  namespace : option Namespace;
  mgr_zkLock : option (zkLock Conn);
  mgr_zookeepers : list string }.
Arguments mk_MetadataManager {Conn}.
Arguments frameworkID {Conn}.
Arguments zkConn {Conn}.
Arguments namespace {Conn}.
Arguments mgr_zkLock {Conn}.
Arguments mgr_zookeepers {Conn}.

(** The manager is the one of the process, so a node is its path and what was
    last read there. *)
Record ZkNode := mk_ZkNode {
  stat : option Stat;
  zdata : string;
  ns : Namespace }.

Definition GetData (node : ZkNode) : string := zdata node.

Section manager.
Context {Conn E : Type} `{!ZkApi Conn E}.
Local Abbreviation Mgr := (M (MetadataManager Conn * E)).

(** ** The connection *)

(** The connection to use; none is a nil pointer. *)
Definition conn : Mgr Conn := mgr ← get_st; deref (zkConn mgr).

Definition framework_ns (mgr : MetadataManager Conn) : Namespace :=
  makeSubSpace (makeSubSpace (makeSubSpace baseNamespace "riak") "frameworks") (frameworkID mgr).

Definition connect : Mgr unit :=
  mgr ← get_st;
  r ← lift (zk_Connect (mgr_zookeepers mgr));
  match r.2 with
  | Some err => c ← deref r.1; lift (zk_Close c) ;; mpanic err
  | None =>
      c ← deref r.1;
      let ns := framework_ns mgr in
      let lockPath := makeSubSpace ns "lock" in
      put_st (mk_MetadataManager (frameworkID mgr) (Some c) (Some ns)
        (Some (mk_zkLock c (GetZKPath lockPath))) (mgr_zookeepers mgr))
  end.

Definition CreateConnection : Mgr unit :=
  mgr ← get_st;
  match zkConn mgr with
  | None => connect
  | Some c =>
      s1 ← lift (zk_State c);
      if decide (s1 = StateConnected) then mret tt else
      s2 ← lift (zk_State c);
      if decide (s2 = StateHasSession) then mret tt else
      s3 ← lift (zk_State c);
      if decide (s3 = StateConnecting) then mret tt else
      lift (zk_Close c) ;; connect
  end.

(** ** Nodes *)

Fixpoint getNodeWithRetry (ns : Namespace) (left : nat) : Mgr (option ZkNode * option ZkError) :=
  c ← conn;
  r ← lift (zk_Get c (GetZKPath ns));
  match r.2, left with
  | Some err, O => mret (None, Some err)
  | Some err, S left' => CreateConnection ;; getNodeWithRetry ns left'
  | None, _ => mret (Some (mk_ZkNode r.1.2 r.1.1 ns), None)
  end.

Definition getNode (ns : Namespace) : Mgr (option ZkNode * option ZkError) := getNodeWithRetry ns 10.

Fixpoint GetRootNodeWithRetry (left : nat) : Mgr (option ZkNode) :=
  mgr ← get_st;
  ns ← deref (namespace mgr);
  r ← getNode ns;
  match r.2, left with
  | Some err, O => mpanic "Could not get Root node"
  | Some err, S left' => GetRootNodeWithRetry left'
  | None, _ => mret r.1
  end.

Definition GetRootNode : Mgr (option ZkNode) := GetRootNodeWithRetry 10.

Definition node_flags (ephemeral : bool) : Z := if ephemeral then FlagEphemeral else 0.

Fixpoint makeNodeWithRetry (ns : Namespace) (ephemeral : bool) (left : nat) :
    Mgr (option ZkNode * option ZkError) :=
  c ← conn;
  err ← lift (zk_Create c (GetZKPath ns) "" (node_flags ephemeral));
  match err, left with
  | Some _, O => mpanic "zk error"
  | Some _, S left' => CreateConnection ;; makeNodeWithRetry ns ephemeral left'
  | None, _ => getNode ns
  end.

Definition makeNode ns ephemeral := makeNodeWithRetry ns ephemeral 10.

(** The error of the branch where the node exists is a new variable of the
    inner block ([:=]), so the outer one stays nil there. *)
Definition make_with_data (ns : Namespace) (data : string) (ephemeral : bool) : Mgr (option ZkError) :=
  c ← conn;
  r ← lift (zk_Exists c (GetZKPath ns));
  match r.2 with
  | Some err => mret (Some err)
  | None =>
      if (r.1 : bool) then
        g ← lift (zk_Get c (GetZKPath ns));
        match g.2 with
        | None =>
            st ← deref g.1.2;
            _ ← lift (zk_Set c (GetZKPath ns) data (Version st));
            mret None
        | Some _ => mret None
        end
      else lift (zk_Create c (GetZKPath ns) data (node_flags ephemeral))
  end.

Fixpoint makeNodeWithDataWithRetry (ns : Namespace) (data : string) (ephemeral : bool) (left : nat) :
    Mgr (option ZkNode * option ZkError) :=
  err ← make_with_data ns data ephemeral;
  match err, left with
  | Some _, O => mpanic "Error persisting data"
  | Some _, S left' => CreateConnection ;; makeNodeWithDataWithRetry ns data ephemeral left'
  | None, _ => getNode ns
  end.

Definition makeNodeWithData ns data ephemeral := makeNodeWithDataWithRetry ns data ephemeral 10.

(** ** Creating paths *)

Definition create_if_missing (path : string) (ephemeral : bool) : Mgr (option ZkError) :=
  c ← conn;
  r ← lift (zk_Exists c path);
  match r.2 with
  | Some err => mret (Some err)
  | None => if (r.1 : bool) then mret None else lift (zk_Create c path "" (node_flags ephemeral))
  end.

Fixpoint createIfNotExistsWithRetry (path : string) (ephemeral : bool) (left : nat) : Mgr unit :=
  err ← create_if_missing path ephemeral;
  match err, left with
  | Some _, O => mpanic "zk error"
  | Some _, S left' => createIfNotExistsWithRetry path ephemeral left'
  | None, _ => mret tt
  end.

Definition createIfNotExists path ephemeral : Mgr unit := createIfNotExistsWithRetry path ephemeral 10.

(** [for idx := range components], the first one skipped; a slice [[0:idx+1]]. *)
Definition CreateNSIfNotExists (ns : Namespace) (ephemeral : bool) : Mgr unit :=
  let components := GetComponents ns in
  mfoldl (fun (_ : unit) (idx : nat) =>
    if (idx =? 0)%nat then mret tt
    else createIfNotExists (Join (take (idx + 1) components) "/") ephemeral)
    tt (seq 0 (length components)).

Definition createPathIfNotExists (path : string) (ephemeral : bool) : Mgr unit :=
  let splitString := Split path "/"%char in
  mfoldl (fun (_ : unit) (idx : nat) =>
    if (idx =? 0)%nat then mret tt
    else createIfNotExists (Join (take (idx + 1) splitString) "/") ephemeral)
    tt (seq 0 (length splitString)).

(** ** Children *)

Fixpoint get_each (ns : Namespace) (names : list string) : Mgr (list (option ZkNode) * option ZkError) :=
  match names with
  | [] => mret ([], None)
  | name :: names' =>
      r ← getNode (makeSubSpace ns name);
      match r.2 with
      | Some err => mret ([r.1], Some err)
      | None => rest ← get_each ns names'; mret (r.1 :: rest.1, rest.2)
      end
  end.

Fixpoint getChildrenWithRetry (ns : Namespace) (left : nat) : Mgr (list (option ZkNode)) :=
  c ← conn;
  r ← lift (zk_Children c (GetZKPath ns));
  res ← match r.2 with
        | Some err => mret ([], Some err)
        | None => get_each ns r.1
        end;
  match res.2, left with
  | Some _, O => mpanic "zk error"
  | Some _, S left' => getChildrenWithRetry ns left'
  | None, _ => mret res.1
  end.

Definition getChildren ns := getChildrenWithRetry ns 10.

(** [fuel] bounds the depth of the recursion: the depth of the tree, and the
    retries at its leaves. *)
Fixpoint DeleteChildrenWithRetry (fuel : nat) (path : string) (left : nat) : Mgr unit :=
  match fuel with
  | O => mblock "out of fuel"
  | S fuel' =>
      c ← conn;
      r ← lift (zk_Children c path);
      let children := r.1 in
      let branches :=
        mfoldl (fun _ name => DeleteChildrenWithRetry fuel' (path +:+ "/" +:+ name) left) tt children in
      if (length children =? 0)%nat then
        err ← lift (zk_Delete c path (-1));
        match err, left with
        | Some _, O => mpanic "zk error"
        | Some _, S left' => DeleteChildrenWithRetry fuel' path left' ;; branches
        | None, _ => mret tt
        end
      else branches
  end.

Definition DeleteChildren (fuel : nat) (path : string) : Mgr unit := DeleteChildrenWithRetry fuel path 10.

(** ** Operations of a node *)

Definition checked_child (node : ZkNode) (name : string) : Mgr Namespace :=
  if Contains name "/" then mpanic "Error, name of subnode cannot contain /"
  else mret (makeSubSpace (ns node) name).

Definition MakeEmptyChild (node : ZkNode) (name : string) : Mgr ZkNode :=
  ns ← checked_child node name; mret (mk_ZkNode None "" ns).
Definition MakeChild (node : ZkNode) (name : string) (ephemeral : bool) :=
  ns ← checked_child node name; makeNode ns ephemeral.
Definition MakeChildWithData (node : ZkNode) (name data : string) (ephemeral : bool) :=
  ns ← checked_child node name; makeNodeWithData ns data ephemeral.
Definition GetChild (node : ZkNode) (name : string) :=
  ns ← checked_child node name; getNode ns.
Definition CreateChildIfNotExists (node : ZkNode) (name : string) : Mgr unit :=
  ns ← checked_child node name; CreateNSIfNotExists ns false.
Definition GetChildren (node : ZkNode) := getChildren (ns node).
Definition Delete (fuel : nat) (node : ZkNode) : Mgr unit := DeleteChildren fuel (GetZKPath (ns node)).

(** [SetData] changes the node, so the node is part of its state. *)
Local Abbreviation NodeM := (M (MetadataManager Conn * ZkNode * E)).

Definition with_mgr {A} (m : Mgr A) : NodeM A :=
  zoom fst (fun mgr s => (mgr, s.2)) m.
Definition put_node_read (g : string * option Stat * option ZkError) : NodeM unit :=
  upd_st (fun s => (s.1, mk_ZkNode g.1.2 g.1.1 (ns s.2))).

(** One try: the body of [SetDataWithRetry] up to the tests of its error. *)
Definition set_data_once (data : string) : NodeM (option ZkError) :=
  s ← get_st;
  let path := GetZKPath (ns s.2) in
  c ← with_mgr conn;
  match stat s.2 with
  | Some _ =>
      g ← lift (zk_Get c path);
      put_node_read g ;;
      match g.2 with
      | Some err => mret (Some err)
      | None =>
          st ← deref g.1.2;
          r ← lift (zk_Set c path data (Version st));
          upd_st (fun s => (s.1, mk_ZkNode r.1 (zdata s.2) (ns s.2))) ;;
          mret r.2
      end
  | None =>
      err ← lift (zk_Create c path data 0);
      match err with
      | Some err => mret (Some err)
      | None => g ← lift (zk_Get c path); put_node_read g ;; mret g.2
      end
  end.

Fixpoint SetDataWithRetry (data : string) (left : nat) : NodeM (option ZkError) :=
  err ← set_data_once data;
  match err, left with
  | Some _, O => mpanic "Error persisting data"
  | Some _, S left' => with_mgr CreateConnection ;; SetDataWithRetry data left'
  | None, _ => mret None
  end.

Definition SetData (data : string) : NodeM (option ZkError) := SetDataWithRetry data 10.

(** ** The manager *)

Definition setup : Mgr unit :=
  mgr ← get_st;
  ns ← deref (namespace mgr);
  CreateNSIfNotExists ns false.

Definition NewMetadataManager (frameworkID : string) (zookeepers : list string) : Mgr unit :=
  put_st (mk_MetadataManager frameworkID None None None zookeepers) ;;
  CreateConnection ;; setup.

Definition SetupFramework (URI : string) : Mgr unit :=
  mgr ← get_st;
  l ← deref (mgr_zkLock mgr);
  err ← lift (zk_Lock (lock_conn l) (lock_path l));
  match err with
  | Some _ => mpanic "Unable to get framework lock"
  | None =>
      ns ← deref (namespace mgr);
      c ← conn;
      err ← lift (zk_Create c (GetZKPath (makeSubSpace ns "uri")) URI FlagEphemeral);
      match err with
      | Some _ => mpanic "zk error"
      | None => mret tt
      end
  end.
End manager.

(** ** What is relied on *)

(** [zk_stored e] is what the server has at path [p], which no other process
    writes during a call.  The node is persistent, or [eph]emeral: then it goes with the
    session that made it, which the server may end before any call. *)
Class ZkPath (p : string) (E : Type) := zk_stored : E -> option string.

(** What was stored before is there still, unless the session was lost. *)
Definition still {p E} `{!ZkPath p E} (eph : bool) (old : option string) (e : E) : Prop :=
  if eph then zk_stored e = old \/ zk_stored e = None else zk_stored e = old.

(** A failed write may or may not have happened. *)
Class ZkLaws (eph : bool) (p : string) (Conn E : Type) `{!ZkApi Conn E, !ZkPath p E} : Prop := {
  zk_Connect_ok zks e : wp total (zk_Connect zks) (fun r e' =>
    still eph (zk_stored e) e' /\ (r.2 = None -> is_Some r.1)) e;
  zk_State_ok c e : wp total (zk_State c) (fun _ e' => still eph (zk_stored e) e') e;
  zk_Close_ok c e : wp total (zk_Close c) (fun _ e' => still eph (zk_stored e) e') e;
  zk_Get_ok c q e : wp total (zk_Get c q) (fun r e' =>
    still eph (zk_stored e) e' /\
    (r.2 = None -> is_Some r.1.2 /\ (q = p -> zk_stored e' = Some r.1.1)) /\
    (r.2 = Some ErrNoNode -> q = p -> zk_stored e' = None)) e;
  zk_Exists_ok c q e : wp total (zk_Exists c q) (fun r e' =>
    still eph (zk_stored e) e' /\
    (q = p -> r.2 = None -> (r.1 = true <-> is_Some (zk_stored e')))) e;
  zk_Set_ok c q d v e : wp total (zk_Set c q d v) (fun r e' =>
    if decide (q = p)
    then if r.2 is None then zk_stored e' = Some d
         else still eph (zk_stored e) e' \/ zk_stored e' = Some d
    else still eph (zk_stored e) e') e;
  zk_Create_ok c q d f e : wp total (zk_Create c q d f) (fun r e' =>
    if decide (q = p)
    then if r is None then zk_stored e' = Some d
         else still eph (zk_stored e) e' \/ zk_stored e' = Some d
    else still eph (zk_stored e) e') e;
  zk_Lock_ok c q e : wp total (zk_Lock c q) (fun _ e' => still eph (zk_stored e) e') e }.

(** Deleting a node that has no children, as no ephemeral node has. *)
Class ZkLeafLaws (eph : bool) (p : string) (Conn E : Type) `{!ZkApi Conn E, !ZkPath p E} : Prop := {
  zk_Children_leaf c e : wp total (zk_Children c p) (fun r e' =>
    still eph (zk_stored e) e' /\ r.1 = []) e;
  zk_Delete_leaf c v e : wp total (zk_Delete c p v) (fun err e' =>
    if err is None then zk_stored e' = None
    else still eph (zk_stored e) e' \/ zk_stored e' = None) e }.

Section still.
Context {p : string} {E : Type} `{!ZkPath p E} {eph : bool}.
Implicit Types (e : E) (old : option string).

Lemma still_eq old e : zk_stored e = old -> still eph old e.
Proof. unfold still. destruct eph; auto. Qed.

Lemma still_refl e : still eph (zk_stored e) e.
Proof. by apply still_eq. Qed.

Lemma still_trans old e e' : still eph old e -> still eph (zk_stored e) e' -> still eph old e'.
Proof. unfold still. destruct eph; intuition congruence. Qed.

(** Nothing appears by itself, and what is read is what was there. *)
Lemma still_none e : still eph None e <-> zk_stored e = None.
Proof. unfold still. destruct eph; tauto. Qed.

Lemma still_some old e d : still eph old e -> zk_stored e = Some d -> old = Some d.
Proof. unfold still. destruct eph; intuition congruence. Qed.

Lemma still_cases old e : still eph old e -> zk_stored e = old \/ eph = true /\ zk_stored e = None.
Proof. unfold still. destruct eph; tauto. Qed.
End still.
#[export] Hint Resolve still_refl : go.

(** ** Paths above a node *)

Lemma Join_app l c sep : l <> [] -> Join (l ++ [c]) sep = Join l sep +:+ sep +:+ c.
Proof.
  induction l as [|s l IH]; [done|]. intros _. destruct l as [|s' l]; [done|].
  change (Join ((s :: s' :: l) ++ [c]) sep) with (s +:+ sep +:+ Join ((s' :: l) ++ [c]) sep).
  rewrite IH by done. change (Join (s :: s' :: l) sep) with (s +:+ sep +:+ Join (s' :: l) sep).
  by rewrite !append_assoc.
Qed.

Lemma Join_take_length l sep n :
  (String.length (Join (take n l) sep) <= String.length (Join l sep))%nat.
Proof.
  revert n. induction l as [|s l IH]; intros n; [by destruct n|].
  destruct n as [|n]; [cbn [take Join String.length]; lia|]. destruct l as [|s' l]; [by destruct n|].
  change (Join (s :: s' :: l) sep) with (s +:+ sep +:+ Join (s' :: l) sep). destruct n as [|n].
  - cbn [take Join]. rewrite length_append. lia.
  - change (Join (take (S (S n)) (s :: s' :: l)) sep) with (s +:+ sep +:+ Join (take (S n) (s' :: l)) sep).
    rewrite !length_append. specialize (IH (S n)). lia.
Qed.

(** The nodes that are made on the way to [nsp], and [nsp] itself, are others
    than [p]. *)
Definition not_above (nsp : Namespace) (p : string) : Prop :=
  forall n, (2 <= n <= length (GetComponents nsp))%nat -> Join (take n (GetComponents nsp)) "/" <> p.

Lemma GetComponents_ne nsp : GetComponents nsp <> [].
Proof. destruct nsp; cbn; [done|]. by destruct (GetComponents nsp). Qed.

Lemma GetZKPath_child nsp c : GetZKPath (makeSubSpace nsp c) = Join (GetComponents nsp) "/" +:+ "/" +:+ c.
Proof. apply Join_app, GetComponents_ne. Qed.

(** A node is longer than what is above it. *)
Lemma not_above_longer nsp p :
  (String.length (Join (GetComponents nsp) "/") < String.length p)%nat -> not_above nsp p.
Proof.
  intros Hl n _ <-. pose proof (Join_take_length (GetComponents nsp) "/" n). lia.
Qed.

Lemma not_above_child nsp c : not_above nsp (GetZKPath (makeSubSpace nsp c)).
Proof. apply not_above_longer. rewrite GetZKPath_child, !length_append. cbn. lia. Qed.

Lemma not_above_parent nsp c p : not_above (makeSubSpace nsp c) p -> not_above nsp p.
Proof.
  intros Ha n Hn. cbn [GetComponents makeSubSpace] in Ha. rewrite <- (take_app_le _ [c]) by lia.
  apply Ha. cbn [GetComponents makeSubSpace]. rewrite length_app. lia.
Qed.

(** ** Persisting *)

Section persisting.
Context {eph : bool} {p : string} {Conn E : Type} `{!ZkApi Conn E, !ZkPath p E, !ZkLaws eph p Conn E}.
Context (fw : string).
Local Abbreviation still := (still (p := p) eph).

(** The first state or the new data is stored. *)
Definition old_or (old : option string) (data : string) (e : E) : Prop :=
  still old e \/ still (Some data) e.

Lemma old_or_still old data e e' : old_or old data e -> still (zk_stored e) e' -> old_or old data e'.
Proof. intros [He|He] ?; [left|right]; by eapply still_trans. Qed.

Lemma old_or_new old data e : zk_stored e = Some data -> old_or old data e.
Proof. intros He. right. by apply still_eq. Qed.

(** A write that may have happened. *)
Lemma old_or_write old data e e' :
  old_or old data e -> still (zk_stored e) e' \/ zk_stored e' = Some data -> old_or old data e'.
Proof. intros He [?|?]; [by eapply old_or_still|by apply old_or_new]. Qed.

(** Where there was nothing. *)
Lemma old_or_none data e : old_or None data e <-> zk_stored e = None \/ still (Some data) e.
Proof. unfold old_or. by rewrite still_none. Qed.

(** The manager of a framework once it has been connected. *)
Definition mgr_ok (mgr : MetadataManager Conn) : Prop :=
  is_Some (zkConn mgr) /\ frameworkID mgr = fw /\ namespace mgr = Some (framework_ns mgr).

(** A manager keeps its connection. *)
Lemma wpe_connect (P : E -> Prop) (mgr : MetadataManager Conn) e :
  (forall e e', P e -> still (zk_stored e) e' -> P e') -> frameworkID mgr = fw -> P e ->
  wpe connect (fun _ w => mgr_ok w.1 /\ P w.2)
    (fun x w => x = panicked /\ w.1 = mgr /\ P w.2) (mgr, e).
Proof.
  intros HP Hfw He. unfold connect. apply wpe_bind, wpe_get_st, wpe_bind, wpe_lift, wp_wpe.
  wp_use zk_Connect_ok. intros [c err] e1 [He1 Hc]; cbn [fst snd] in *.
  assert (P e1) by eauto. destruct err as [err|]; apply wpe_bind, wpe_deref; [| done| |].
  - intros c' _. apply wpe_bind, wpe_lift, wp_wpe. wp_use zk_Close_ok.
    intros u e2 He2. apply wpe_panic. simpl. split; [done|]. split; [done|]. by eapply HP.
  - intros c' _. split; [|done]. by split; [eexists|].
  - intros Hnone. destruct Hc as [? ?]; [done|]. congruence.
Qed.

Lemma wpe_CreateConnection (P : E -> Prop) (mgr : MetadataManager Conn) e :
  (forall e e', P e -> still (zk_stored e) e' -> P e') -> mgr_ok mgr -> P e ->
  wpe CreateConnection (fun _ w => mgr_ok w.1 /\ P w.2)
    (fun x w => x = panicked /\ w.1 = mgr /\ P w.2) (mgr, e).
Proof.
  intros HP Hok He. unfold CreateConnection. apply wpe_bind, wpe_get_st. cbn [fst].
  pose proof Hok as (_ & Hfw & _).
  destruct (zkConn mgr) as [c|] eqn:Hc; [|by apply wpe_connect].
  apply wpe_bind, wpe_lift, wp_wpe. wp_use zk_State_ok. intros s1 e1 He1.
  assert (P e1) by eauto. case_decide; [done|].
  apply wpe_bind, wpe_lift, wp_wpe. wp_use zk_State_ok. intros s2 e2 He2.
  assert (P e2) by eauto. case_decide; [done|].
  apply wpe_bind, wpe_lift, wp_wpe. wp_use zk_State_ok. intros s3 e3 He3.
  assert (P e3) by eauto. case_decide; [done|].
  apply wpe_bind, wpe_lift, wp_wpe. wp_use zk_Close_ok. intros u e4 He4.
  apply wpe_connect; [done|done|]. by eapply HP.
Qed.

(** The manager is connected and the node is at [p]. *)
Definition node_ready (s : MetadataManager Conn * ZkNode) : Prop :=
  mgr_ok s.1 /\ GetZKPath (ns s.2) = p.

Lemma wp_conn {S} (set : MetadataManager Conn -> S -> S) (get : S -> MetadataManager Conn)
    (Q : Conn -> S * E -> Prop) s e :
  mgr_ok (get s) -> (forall c, Q c (set (get s) s, e)) ->
  wp total (zoom get set conn) Q (s, e).
Proof. intros [[c Hc] _] HQ. apply wp_zoom. unfold conn. apply wp_bind, wp_get_st. simpl. rewrite Hc. by apply wp_ret, HQ. Qed.

Lemma wp_set_data_once old data s e :
  node_ready s -> old_or old data e ->
  wp total (set_data_once data) (fun err w =>
    node_ready w.1 /\ if err is None then zk_stored w.2 = Some data else old_or old data w.2) (s, e).
Proof.
  destruct s as [mgr n]. intros [Hc Hp] He. unfold set_data_once. simpl in Hc, Hp.
  apply wp_bind, wp_get_st. cbn [fst snd]. cbv zeta. rewrite Hp.
  apply wp_bind. unfold with_mgr. apply wp_conn; [done|]. intros c. cbn [fst snd].
  destruct (stat n) as [st|].
  - apply wp_bind, wp_lift. wp_use zk_Get_ok. intros g e1 [He1 Hg].
    assert (old_or old data e1) as Ho1 by (by eapply old_or_still).
    apply wp_bind, wp_upd_st. cbn [fst snd]. destruct g.2 as [err|]; [by apply wp_ret|].
    destruct Hg as [[[st' Hst] _] _]; [done|]. rewrite Hst. apply wp_bind, wp_ret.
    apply wp_bind, wp_lift. wp_use zk_Set_ok. intros r e2 Hs.
    cbn beta in Hs. rewrite decide_True in Hs by done. apply wp_bind, wp_upd_st, wp_ret. split; [done|]. cbn [fst snd].
    destruct r.2; [by eapply old_or_write|done].
  - apply wp_bind, wp_lift. wp_use zk_Create_ok. intros err e1 Hs.
    cbn beta in Hs. rewrite decide_True in Hs by done. destruct err as [err|].
    + apply wp_ret. split; [done|]. by eapply old_or_write.
    + apply wp_bind, wp_lift. wp_use zk_Get_ok. intros g e2 [He2 [Hg _]].
      apply wp_bind, wp_upd_st, wp_ret. split; [done|]. cbn [snd]. rewrite Hs in He2.
      destruct g.2; [by right|]. destruct Hg as [_ Hd]; [done|].
      rewrite Hd by done. symmetry. eapply still_some; [exact He2|by apply Hd].
Qed.

Lemma wpe_SetDataWithRetry left old data s e :
  node_ready s -> old_or old data e ->
  wpe (SetDataWithRetry data left)
    (fun err w => err = None /\ node_ready w.1 /\ zk_stored w.2 = Some data)
    (fun x w => x = panicked /\ node_ready w.1 /\ old_or old data w.2) (s, e).
Proof.
  revert s e. induction left as [|left IH]; intros s e Hs He; cbn [SetDataWithRetry];
    apply wpe_bind, wp_wpe; (eapply wp_mono; [|by eapply wp_set_data_once]);
    intros [err|] [[mgr n] e1] [Hr Hst]; cbn [fst snd] in *; try done.
  apply wpe_bind. unfold with_mgr. apply wpe_zoom. cbn [fst snd]. destruct Hr as [Hcn Hp].
  eapply wpe_mono; [| |apply (wpe_CreateConnection (old_or old data))].
  - intros _ w [Hc Hw]. by apply IH.
  - intros x w (-> & -> & Hw). done.
  - apply old_or_still.
  - done.
  - done.
Qed.

(** *** Reading and creating *)

(** A node read at [ns'], with what is stored there afterwards. *)
Definition node_read (ns' : Namespace) (e : E) (n : ZkNode) : Prop :=
  ns n = ns' /\ is_Some (stat n) /\ (GetZKPath ns' = p -> zk_stored e = Some (zdata n)).

Definition read_outcome (ns' : Namespace) (e : E) (r : option ZkNode * option ZkError) : Prop :=
  match r with
  | (Some n, None) => node_read ns' e n
  | (None, Some err) => err = ErrNoNode -> GetZKPath ns' = p -> zk_stored e = None
  | _ => False
  end.

Lemma wp_my_conn (Q : Conn -> MetadataManager Conn * E -> Prop) w :
  mgr_ok w.1 -> (forall c, Q c w) -> wp total conn Q w.
Proof.
  intros [[c Hc] _] HQ. unfold conn. apply wp_bind, wp_get_st. rewrite Hc. by apply wp_ret, HQ.
Qed.

Lemma wpe_getNodeWithRetry ns' stored left w :
  mgr_ok w.1 -> still stored w.2 ->
  wpe (getNodeWithRetry ns' left)
    (fun r w' => mgr_ok w'.1 /\ still stored w'.2 /\ read_outcome ns' w'.2 r)
    (fun x w' => x = panicked /\ still stored w'.2) w.
Proof.
  revert w. induction left as [|left IH]; intros [mgr e] Hc He; cbn [getNodeWithRetry];
    apply wpe_bind, wp_wpe, wp_my_conn; try done; intros c; cbn [fst snd] in *;
    apply wpe_bind, wpe_lift, wp_wpe; (eapply wp_mono; [|apply zk_Get_ok]);
    intros [[d st] err] e1 (He1 & Hok & Hno); cbn [fst snd] in *;
    (assert (still stored e1) as He1' by (by eapply still_trans));
    (destruct err as [err|]; [|destruct Hok as [Hst Hd]; [done|]]).
  - apply wpe_ret. split; [done|]. split; [done|]. intros -> Hp. by apply Hno.
  - apply wpe_ret. by split_and!.
  - apply wpe_bind. eapply wpe_mono; [| |apply (wpe_CreateConnection (still stored))].
    + intros _ w [? ?]. by apply IH.
    + by intros x w (-> & _ & ?).
    + intros ????. by eapply still_trans.
    + done.
    + done.
  - apply wpe_ret. by split_and!.
Qed.

Lemma wpe_getNode ns' stored w :
  mgr_ok w.1 -> still stored w.2 ->
  wpe (getNode ns')
    (fun r w' => mgr_ok w'.1 /\ still stored w'.2 /\ read_outcome ns' w'.2 r)
    (fun x w' => x = panicked /\ still stored w'.2) w.
Proof. apply wpe_getNodeWithRetry. Qed.

Lemma wp_make_with_data ns' data ephemeral w :
  GetZKPath ns' = p -> mgr_ok w.1 -> old_or None data w.2 ->
  wp total (make_with_data ns' data ephemeral) (fun err w' =>
    w'.1 = w.1 /\ if err is None then still (Some data) w'.2 else old_or None data w'.2) w.
Proof.
  destruct w as [mgr e]. intros Hp Hc He. cbn [fst snd] in *. unfold make_with_data. rewrite Hp.
  apply wp_bind, wp_my_conn; [done|]. intros c.
  apply wp_bind, wp_lift. wp_use zk_Exists_ok. intros r e1 [He1 Hex].
  assert (old_or None data e1) as Ho1 by (by eapply old_or_still).
  destruct r.2 as [err|]; [by apply wp_ret|]. specialize (Hex eq_refl eq_refl).
  destruct r.1.
  - assert (still (Some data) e1) as Hd.
    { apply old_or_none in Ho1 as [Ho1|]; [|done]. destruct (proj1 Hex eq_refl). congruence. }
    apply wp_bind, wp_lift. wp_use zk_Get_ok. intros g e2 (He2 & Hg & _).
    assert (still (Some data) e2) as Hd2 by (by eapply still_trans).
    destruct g.2; [by apply wp_ret|].
    destruct Hg as [[st' Hst] _]; [done|]. rewrite Hst. apply wp_bind, wp_ret.
    apply wp_bind, wp_lift. wp_use zk_Set_ok. intros s e3 Hs.
    cbn beta in Hs. rewrite decide_True in Hs by done. apply wp_ret. split; [done|]. cbn [snd].
    destruct s.2; [|by apply still_eq]. destruct Hs as [Hs|Hs]; [by eapply still_trans|by apply still_eq].
  - apply wp_lift. wp_use zk_Create_ok. intros err e2 Hs.
    cbn beta in Hs. rewrite decide_True in Hs by done. split; [done|]. cbn [snd].
    destruct err; [by eapply old_or_write|by apply still_eq].
Qed.

(** What a read of the node that was made gives. *)
Lemma wpe_getNode_made ns' data w :
  mgr_ok w.1 -> still (Some data) w.2 ->
  wpe (getNode ns')
    (fun r w' => mgr_ok w'.1 /\ still (Some data) w'.2 /\ read_outcome ns' w'.2 r)
    (fun x w' => x = panicked /\ old_or None data w'.2) w.
Proof.
  intros Hm Hs. eapply wpe_mono; [| |by apply wpe_getNode]; [done|].
  intros x w' [-> Hw']. split; [done|]. by right.
Qed.

Lemma wpe_makeNodeWithData ns' data ephemeral left w :
  GetZKPath ns' = p -> mgr_ok w.1 -> old_or None data w.2 ->
  wpe (makeNodeWithDataWithRetry ns' data ephemeral left)
    (fun r w' => mgr_ok w'.1 /\ still (Some data) w'.2 /\ read_outcome ns' w'.2 r)
    (fun x w' => x = panicked /\ old_or None data w'.2) w.
Proof.
  intros Hp. revert w. induction left as [|left IH]; intros w Hc He;
    cbn [makeNodeWithDataWithRetry]; apply wpe_bind, wp_wpe;
    (eapply wp_mono; [|by apply wp_make_with_data]);
    intros [err|] [mgr e1] [Hm Hst]; cbn [fst snd] in *.
  - by apply wpe_panic.
  - apply wpe_getNode_made; [cbn; by rewrite Hm|done].
  - apply wpe_bind. eapply wpe_mono; [| |apply (wpe_CreateConnection (old_or None data))].
    + intros _ w' [? ?]. by apply IH.
    + by intros x w' (-> & _ & ?).
    + apply old_or_still.
    + cbn. by rewrite Hm.
    + done.
  - apply wpe_getNode_made; [cbn; by rewrite Hm|done].
Qed.

(** Making an empty node where there is none. *)
Lemma wpe_makeNode ns' ephemeral left w :
  GetZKPath ns' = p -> mgr_ok w.1 -> old_or None "" w.2 ->
  wpe (makeNodeWithRetry ns' ephemeral left)
    (fun r w' => mgr_ok w'.1 /\ still (Some "") w'.2 /\ read_outcome ns' w'.2 r)
    (fun x w' => x = panicked /\ old_or None "" w'.2) w.
Proof.
  intros Hp. revert w. induction left as [|left IH]; intros [mgr e] Hc He;
    cbn [makeNodeWithRetry]; cbn [fst snd] in *; apply wpe_bind, wp_wpe, wp_my_conn; try done;
    intros c; apply wpe_bind, wpe_lift, wp_wpe; rewrite Hp; (eapply wp_mono; [|apply zk_Create_ok]);
    intros [err|] e1 Hs; cbn beta in Hs; rewrite decide_True in Hs by done.
  - apply wpe_panic. split; [done|]. by eapply old_or_write.
  - apply wpe_getNode_made; [done|by apply still_eq].
  - apply wpe_bind. eapply wpe_mono; [| |apply (wpe_CreateConnection (old_or None ""))].
    + intros _ w' [? ?]. by apply IH.
    + by intros x w' (-> & _ & ?).
    + apply old_or_still.
    + done.
    + by eapply old_or_write.
  - apply wpe_getNode_made; [done|by apply still_eq].
Qed.

(** Deleting a node without children; [fuel] is for the retries. *)
Lemma wpe_Delete `{!ZkLeafLaws eph p Conn E} fuel left old (v : MetadataManager Conn * E) :
  (left < fuel)%nat -> mgr_ok v.1 -> still old v.2 \/ zk_stored v.2 = None ->
  wpe (DeleteChildrenWithRetry fuel p left)
    (fun _ v' => v'.1 = v.1 /\ zk_stored v'.2 = None)
    (fun x v' => x = panicked /\ (still old v'.2 \/ zk_stored v'.2 = None)) v.
Proof.
  revert fuel v. induction left as [|left IH]; intros [|fuel] [mgr z] Hf Hm Hz; try lia;
    cbn [DeleteChildrenWithRetry]; cbn [fst snd] in *;
    apply wpe_bind, wp_wpe, wp_my_conn; try done; intros c;
    apply wpe_bind, wpe_lift, wp_wpe; (eapply wp_mono; [|apply zk_Children_leaf]);
    intros [children err] z1 [Hz1 Hch]; cbn [fst snd] in *; subst children; cbn [length Nat.eqb];
    (assert (still old z1 \/ zk_stored z1 = None) as Hz1'
      by (destruct Hz as [?|Hz]; [left; by eapply still_trans|right; rewrite Hz in Hz1; by apply still_none in Hz1]));
    (apply wpe_bind, wpe_lift, wp_wpe; (eapply wp_mono; [|apply zk_Delete_leaf]);
     intros [err2|] z2 Hz2; [|by apply wpe_ret]);
    (assert (still old z2 \/ zk_stored z2 = None) as Hz2'
      by (destruct Hz2 as [Hz2|?]; [|by right]; destruct Hz1' as [?|Hz1'];
          [left; by eapply still_trans|right; rewrite Hz1' in Hz2; by apply still_none in Hz2])).
  - by apply wpe_panic.
  - apply wpe_bind. eapply wpe_mono; [| |apply IH].
    + intros u v' [Hv Hs]. by apply wpe_ret.
    + done.
    + lia.
    + done.
    + done.
Qed.

(** *** Setting up *)

(** Creating a path other than [p] leaves [p] alone. *)
Lemma wp_create_if_missing path ephemeral (w : MetadataManager Conn * E) :
  path <> p -> mgr_ok w.1 ->
  wp total (create_if_missing path ephemeral) (fun _ w' => w'.1 = w.1 /\ still (zk_stored w.2) w'.2) w.
Proof.
  destruct w as [mgr e]. intros Hp Hc. unfold create_if_missing. apply wp_bind, wp_my_conn; [done|]. intros c.
  apply wp_bind, wp_lift. wp_use zk_Exists_ok. intros r e1 [He1 _].
  destruct r.2; [by apply wp_ret|]. destruct r.1; [by apply wp_ret|].
  apply wp_lift. wp_use zk_Create_ok. intros err e2 He2. cbn beta in He2.
  rewrite decide_False in He2 by done. split; [done|]. by eapply still_trans.
Qed.

Lemma wpe_createIfNotExists path ephemeral left stored w :
  path <> p -> mgr_ok w.1 -> still stored w.2 ->
  wpe (createIfNotExistsWithRetry path ephemeral left)
    (fun _ w' => w'.1 = w.1 /\ still stored w'.2)
    (fun x w' => x = panicked /\ still stored w'.2) w.
Proof.
  intros Hp. revert w. induction left as [|left IH]; intros w Hc Hs;
    cbn [createIfNotExistsWithRetry]; apply wpe_bind, wp_wpe;
    (eapply wp_mono; [|by apply wp_create_if_missing]);
    intros [err|] w1 [Hm Hs1]; (assert (still stored w1.2) by (by eapply still_trans)); try done.
  eapply wpe_mono_post; [|apply IH; [by rewrite Hm|done]]. intros _ w' [-> ?]. by split.
Qed.

(** The node of the scheduler's state, and the paths above it. *)
Definition root_ns : Namespace :=
  makeSubSpace (makeSubSpace (makeSubSpace baseNamespace "riak") "frameworks") fw.
Definition state_ns : Namespace := makeSubSpace root_ns "SchedulerState".

Lemma mgr_ok_ns mgr : mgr_ok mgr -> namespace mgr = Some root_ns.
Proof. intros (_ & Hfw & ->). unfold framework_ns. by rewrite Hfw. Qed.

Lemma state_not_above : not_above root_ns (GetZKPath state_ns).
Proof. apply not_above_child. Qed.

(** Making the path of a namespace. *)
Lemma wpe_CreateNSIfNotExists nsp ephemeral stored w :
  not_above nsp p -> mgr_ok w.1 -> still stored w.2 ->
  wpe (CreateNSIfNotExists nsp ephemeral)
    (fun _ w' => w'.1 = w.1 /\ still stored w'.2)
    (fun x w' => x = panicked /\ still stored w'.2) w.
Proof.
  intros Hpaths Hok Hs. unfold CreateNSIfNotExists. cbv zeta.
  apply (wpe_mfoldl _ (fun _ w' => w'.1 = w.1 /\ still stored w'.2)); [|done].
  intros idx u w' Hidx%elem_of_seq [Hm He]. destruct (Nat.eqb_spec idx 0); [by apply wpe_ret|].
  eapply wpe_mono_post; [|apply wpe_createIfNotExists].
  - intros _ w'' [-> ?]. by split.
  - apply Hpaths. lia.
  - by rewrite Hm.
  - done.
Qed.

Lemma wpe_NewMetadataManager zks stored w :
  not_above root_ns p -> still stored w.2 ->
  wpe (NewMetadataManager fw zks)
    (fun _ w' => mgr_ok w'.1 /\ still stored w'.2)
    (fun x w' => x = panicked /\ still stored w'.2) w.
Proof.
  intros Hp Hs. unfold NewMetadataManager. apply wpe_bind, wpe_put_st, wpe_bind.
  unfold CreateConnection. apply wpe_bind, wpe_get_st. cbn [fst zkConn].
  eapply wpe_mono; [| |apply (wpe_connect (still stored))].
  - intros _ [mgr e] [Hok He]. cbn [fst snd] in *. unfold setup.
    apply wpe_bind, wpe_get_st, wpe_bind. cbn [fst]. rewrite (mgr_ok_ns _ Hok). apply wpe_ret.
    eapply wpe_mono_post; [|by apply wpe_CreateNSIfNotExists]. by intros _ w' [-> ?].
  - by intros x w' (-> & _ & ?).
  - intros ????. by eapply still_trans.
  - done.
  - done.
Qed.

Lemma wpe_SetupFramework uri stored w :
  p = GetZKPath state_ns -> mgr_ok w.1 -> still stored w.2 ->
  wpe (SetupFramework uri) (fun _ w' => w'.1 = w.1 /\ still stored w'.2)
    (fun x w' => x = panicked /\ w'.1 = w.1 /\ still stored w'.2) w.
Proof.
  destruct w as [mgr e]. intros Hp Hok Hs. cbn [fst snd] in *. unfold SetupFramework.
  apply wpe_bind, wpe_get_st, wpe_bind, wpe_deref; [|done]. intros l _.
  apply wpe_bind, wpe_lift, wp_wpe. wp_use zk_Lock_ok. intros err e1 He1.
  assert (still stored e1) as Hs1 by (by eapply still_trans).
  destruct err; [by apply (wpe_panic (A := unit))|].
  apply wpe_bind. cbn [fst]. rewrite (mgr_ok_ns _ Hok). apply wpe_ret, wpe_bind, wp_wpe, wp_my_conn; [done|].
  intros c. apply wpe_bind, wpe_lift, wp_wpe. wp_use zk_Create_ok.
  intros err e2 He2. cbn beta in He2. rewrite decide_False in He2.
  - assert (still stored e2) by (by eapply still_trans).
    destruct err; [by apply (wpe_panic (A := unit))|by apply (wpe_ret tt)].
  - rewrite Hp. intros Heq. apply (f_equal String.length) in Heq. cbn in Heq.
    repeat (rewrite ?length_append in Heq; cbn in Heq). lia.
Qed.

Lemma wpe_GetRootNode left stored w :
  mgr_ok w.1 -> still stored w.2 ->
  wpe (GetRootNodeWithRetry left)
    (fun r w' => mgr_ok w'.1 /\ still stored w'.2 /\ exists n, r = Some n /\ ns n = root_ns)
    (fun x w' => x = panicked /\ still stored w'.2) w.
Proof.
  revert w. induction left as [|left IH]; intros w Hok He; cbn [GetRootNodeWithRetry];
    apply wpe_bind, wpe_get_st, wpe_bind; rewrite (mgr_ok_ns _ Hok); apply wpe_ret, wpe_bind;
    (eapply wpe_mono_post; [|by apply wpe_getNode]);
    intros [[n|] [err|]] w' (Hok' & He' & Hr); cbn [read_outcome] in Hr; try done.
  - split; [done|]. split; [done|]. exists n. split; [done|]. by destruct Hr.
  - split; [done|]. split; [done|]. exists n. split; [done|]. by destruct Hr.
  - by apply IH.
Qed.
End persisting.

(** ** Paths *)

Fixpoint slash_free (nsp : Namespace) : Prop :=
  match nsp with
  | baseNamespace => True
  | SubNamespace parent component => slash_free parent /\ char_free "/"%char component
  end.

Lemma GetComponents_free nsp : slash_free nsp -> Forall (char_free "/"%char) (GetComponents nsp).
Proof.
  induction nsp as [|parent IH comp]; cbn; [by repeat constructor|].
  intros [Hp Hc]. apply Forall_app. split; [by apply IH|]. by apply Forall_singleton.
Qed.

(** The namespaces on the way to [nsp], and [nsp] itself; the base is the root
    that ZooKeeper has. *)
Fixpoint ancestors (nsp : Namespace) : list Namespace :=
  match nsp with
  | baseNamespace => []
  | SubNamespace parent _ => ancestors parent ++ [nsp]
  end.

Lemma length_GetComponents nsp : length (GetComponents nsp) = S (length (ancestors nsp)).
Proof. induction nsp as [|parent IH c]; [done|]. cbn. rewrite !length_app, IH. cbn. lia. Qed.

(** The prefixes of the components are the paths of the ancestors. *)
Lemma prefixes_ancestors nsp :
  (fun idx => Join (take (idx + 1) (GetComponents nsp)) "/") <$> seq 1 (length (ancestors nsp)) =
  GetZKPath <$> ancestors nsp.
Proof.
  induction nsp as [|parent IH c]; [done|]. cbn [ancestors]. rewrite length_app, seq_app, !fmap_app, <- IH.
  cbn [length seq]. f_equal.
  - apply list_fmap_ext. intros i idx Hidx%list_elem_of_lookup_2%elem_of_seq. cbn [GetComponents].
    rewrite take_app_le; [done|]. rewrite length_GetComponents. lia.
  - cbn [fmap list_fmap GetZKPath GetComponents]. rewrite take_ge; [done|].
    rewrite length_app, length_GetComponents. cbn. lia.
Qed.

(** A loop over the indices of a slice that skips the first one. *)
Lemma prefix_loop {S} (f : string -> M S unit) (components : list string) (w : S) :
  mfoldl (fun (_ : unit) (idx : nat) =>
    if (idx =? 0)%nat then mret tt else f (Join (take (idx + 1) components) "/")) tt
    (seq 0 (length components)) w =
  mfoldl (fun _ path => f path) tt
    ((fun idx => Join (take (idx + 1) components) "/") <$> seq 1 (length components - 1)) w.
Proof.
  destruct components as [|c components]; [done|]. cbn [length seq mfoldl Nat.eqb]. rewrite mret_bind.
  rewrite mfoldl_fmap, Nat.sub_succ, Nat.sub_0_r. apply mfoldl_ext. intros idx u w' Hidx%elem_of_seq.
  destruct (Nat.eqb_spec idx 0); [lia|done].
Qed.

(** ** A server for concrete runs *)

(** A tree of data and versions; each call takes a flag that says whether the connection fails.  As in the client library,
    a failing read still returns a version record. *)
Module SimZk.
Record zsim := mk_zsim { tree : gmap string (string * Z); faults : list bool }.

Definition lost : ZkError := ErrOther "connection lost".

Definition call {A} (bad : A) (f : gmap string (string * Z) -> A * gmap string (string * Z)) :
    M zsim A := fun e =>
  let run (fs : list bool) := (Ret (f (tree e)).1, mk_zsim (f (tree e)).2 fs) in
  match faults e with
  | [] => run []
  | false :: fs => run fs
  | true :: fs => (Ret bad, mk_zsim (tree e) fs)
  end.

Definition child_of (path q : string) : option string :=
  if HasPrefix q (path +:+ "/") then
    let name := String.substring (String.length path + 1) (String.length q) q in
    if Contains name "/" then None else Some name
  else None.

Definition children (path : string) (t : gmap string (string * Z)) : list string :=
  omap (child_of path) (map_to_list t).*1.

Definition get (path : string) (t : gmap string (string * Z)) :=
  (match t !! path with
   | Some (d, v) => (d, Some (mk_Stat v), None)
   | None => ("", Some (mk_Stat 0), Some ErrNoNode)
   end, t).

Definition set (path d : string) (v : Z) (t : gmap string (string * Z)) :=
  match t !! path with
  | Some (_, v') =>
      if v =? v' then ((Some (mk_Stat (v + 1)), None), <[path := (d, v + 1)]> t)
      else ((Some (mk_Stat 0), Some ErrBadVersion), t)
  | None => ((Some (mk_Stat 0), Some ErrNoNode), t)
  end.

Definition create (path d : string) (t : gmap string (string * Z)) :=
  match t !! path with
  | Some _ => (Some ErrNodeExists, t)
  | None => (None, <[path := (d, 0)]> t)
  end.

Definition del (path : string) (t : gmap string (string * Z)) :=
  match t !! path, children path t with
  | None, _ => (Some ErrNoNode, t)
  | Some _, _ :: _ => (Some ErrNotEmpty, t)
  | Some _, [] => (None, delete path t)
  end.

#[export] Instance api : ZkApi unit zsim :=
  {| zk_Connect zks := mret (Some tt, None);
     zk_State c := mret StateConnected;
     zk_Close c := mret tt;
     zk_Get c q := call ("", Some (mk_Stat 0), Some lost) (get q);
     zk_Set c q d v := call (Some (mk_Stat 0), Some lost) (set q d v);
     zk_Create c q d f := call (Some lost) (create q d);
     zk_Exists c q := call (false, Some lost) (fun t => ((bool_decide (is_Some (t !! q)), None), t));
     zk_Children c q := call ([], Some lost) (fun t => ((children q t, None), t));
     zk_Delete c q v := call (Some lost) (del q);
     zk_Lock c q := mret None |}.

#[export] Instance path p : ZkPath p zsim := fun e => fst <$> tree e !! p.

Lemma wp_call {A} bad f (Q : A -> zsim -> Prop) e :
  (forall fs, Q (f (tree e)).1 (mk_zsim (f (tree e)).2 fs)) ->
  (forall fs, Q bad (mk_zsim (tree e) fs)) -> wp total (call bad f) Q e.
Proof.
  intros H1 H2. unfold wp, call. destruct (faults e) as [|[] fs]; [apply H1|apply H2|apply H1].
Qed.

#[export] Instance laws p : ZkLaws false p unit zsim.
Proof.
  split; try done.
  - intros c q t. apply wp_call; [|done]. intros fs. unfold get. cbn [fst snd].
    unfold zk_stored, path. cbn [tree].
    destruct (tree t !! q) as [[d v]|] eqn:Hq; cbn [fst snd]; split_and!; try done.
    + intros _. split; [by eexists|]. intros <-. by rewrite Hq.
    + intros _ <-. by rewrite Hq.
  - intros c q t. apply wp_call; [|done]. intros fs. cbn [fst snd]. split; [done|].
    intros -> _. rewrite bool_decide_eq_true. unfold zk_stored, path. cbn [fst]. by rewrite fmap_is_Some.
  - intros c q d v t. apply wp_call; intros fs; unfold set, still, zk_stored, path; cbn [fst snd tree].
    + destruct (tree t !! q) as [[d' v']|] eqn:Hq; [destruct (v =? v')|]; cbn [fst snd];
        case_decide; subst; auto; by rewrite ?lookup_insert_eq, ?lookup_insert_ne.
    + case_decide; auto.
  - intros c q d f t. apply wp_call; intros fs; unfold create, still, zk_stored, path; cbn [fst snd tree].
    + destruct (tree t !! q) as [[d' v']|] eqn:Hq; cbn [fst snd];
        case_decide; subst; auto; by rewrite ?lookup_insert_eq, ?lookup_insert_ne.
    + case_decide; auto.
Qed.
End SimZk.

(** ZooKeeper with an ephemeral node: it has no children and takes none, and
    goes when the connection is closed. *)
Module SimLeaf.
Import SimZk.

Section leaf.
Context (leaf_path : string).

Definition leaf : ZkApi unit zsim :=
  {| zk_Connect zks := mret (Some tt, None);
     zk_State c := mret StateConnected;
     zk_Close c e := (Ret tt, mk_zsim (delete leaf_path (tree e)) (faults e));
     zk_Get c q := call ("", Some (mk_Stat 0), Some lost) (get q);
     zk_Set c q d v := call (Some (mk_Stat 0), Some lost) (set q d v);
     zk_Create c q d f := call (Some lost) (fun t =>
       if HasPrefix q (leaf_path +:+ "/") then (Some (ErrOther "no children for ephemerals"), t)
       else create q d t);
     zk_Exists c q := call (false, Some lost) (fun t => ((bool_decide (is_Some (t !! q)), None), t));
     zk_Children c q := call ([], Some lost) (fun t =>
       ((if String.eqb q leaf_path then [] else children q t, None), t));
     zk_Delete c q v := call (Some lost) (fun t =>
       if String.eqb q leaf_path
       then match t !! q with None => (Some ErrNoNode, t) | Some _ => (None, delete q t) end
       else del q t);
     zk_Lock c q := mret None |}.

(** The laws of a persistent node are those of one that is never lost. *)
Lemma never_lost old e : still (p := leaf_path) false old e -> still (p := leaf_path) true old e.
Proof. by left. Qed.

Lemma leaf_zk : @ZkLaws true leaf_path unit zsim leaf _.
Proof.
  split.
  - intros zks e. split; [apply still_refl|done].
  - intros c e. apply still_refl.
  - intros c e. right. unfold zk_stored, path. cbn [fst snd tree]. by rewrite lookup_delete_eq.
  - intros c q e. eapply wp_mono; [|exact (zk_Get_ok (ZkLaws := laws leaf_path) c q e)].
    intros r e' [Hs Hr]. split; [by apply never_lost|exact Hr].
  - intros c q e. eapply wp_mono; [|exact (zk_Exists_ok (ZkLaws := laws leaf_path) c q e)].
    intros r e' [Hs Hr]. split; [by apply never_lost|exact Hr].
  - intros c q d v e. eapply wp_mono; [|exact (zk_Set_ok (ZkLaws := laws leaf_path) c q d v e)].
    intros r e' Hs. cbn beta in Hs |- *. case_decide; [destruct r.2; [|done]; destruct Hs; [left|by right]|];
      by apply never_lost.
  - intros c q d f t. unfold zk_Create, leaf. destruct (HasPrefix q (leaf_path +:+ "/")) eqn:Hq.
    + assert (forall fs, still (p := leaf_path) true (zk_stored t) (mk_zsim (tree t) fs)) by by left.
      apply wp_call; intros fs; cbn [fst snd]; case_decide; auto.
    + eapply wp_mono; [|exact (zk_Create_ok (ZkLaws := laws leaf_path) c q d f t)].
      intros r e' Hs. cbn beta in Hs |- *. case_decide; [destruct r; [|done]; destruct Hs; [left|by right]|];
        by apply never_lost.
  - intros c q e. apply still_refl.
Qed.

Lemma leaf_laws : @ZkLeafLaws true leaf_path unit zsim leaf _.
Proof.
  split.
  - intros c t. unfold zk_Children, leaf. rewrite String.eqb_refl.
    apply wp_call; intros fs; (split; [|done]); by apply never_lost.
  - intros c v t. unfold zk_Delete, leaf. rewrite String.eqb_refl.
    apply wp_call; intros fs; [|by left; apply never_lost]. unfold zk_stored, path. cbn [tree].
    destruct (tree t !! leaf_path) eqn:Hl; cbn [fst snd]; [by rewrite lookup_delete_eq|right; by rewrite Hl].
Qed.
End leaf.
End SimLeaf.

(** ** Properties *)

Section metadata_properties.
Context {p : string} {Conn E : Type} `{!ZkApi Conn E, !ZkPath p E, !ZkLaws false p Conn E}.

(** C9 [set_data_durable]: with a connected manager, [SetData] ends, and either
    returns no error and the server stores the data, or panics after its
    eleven tries with the old or the new data stored. *)
Theorem set_data_durable (fw data : string) (mgr : MetadataManager Conn) (n : ZkNode) (e : E) :
  mgr_ok fw mgr -> GetZKPath (ns n) = p ->
  wpe (SetData data) (fun err w => err = None /\ zk_stored w.2 = Some data)
    (fun x w => x = panicked /\ (zk_stored w.2 = zk_stored e \/ zk_stored w.2 = Some data))
    ((mgr, n), e).
Proof.
  intros Hc Hp. unfold SetData. eapply wpe_mono; [| |apply (wpe_SetDataWithRetry fw _ (zk_stored e))].
  - by intros err w (? & _ & ?).
  - by intros x w (? & _ & ?).
  - done.
  - by left.
Qed.

(** C30 [create_paths_agree]: [CreateNSIfNotExists] on a namespace, and
    [createPathIfNotExists] on its path when no component has a slash, make
    the nodes above it and then its own, from the root down, and no other: the
    base has none. *)
Theorem create_paths_agree (parent : Namespace) (component : string) (ephemeral : bool)
    (w : MetadataManager Conn * E) :
  let ns := makeSubSpace parent component in
  let each := mfoldl (fun _ a => createIfNotExists (GetZKPath a) ephemeral) tt (ancestors ns) w in
  CreateNSIfNotExists ns ephemeral w = each /\
  (slash_free ns -> createPathIfNotExists (GetZKPath ns) ephemeral w = each).
Proof.
  cbv zeta. unfold createPathIfNotExists, CreateNSIfNotExists. cbv zeta.
  assert (forall components, components = GetComponents (makeSubSpace parent component) ->
    mfoldl (fun (_ : unit) (idx : nat) => if (idx =? 0)%nat then mret tt
      else createIfNotExists (Join (take (idx + 1) components) "/") ephemeral) tt (seq 0 (length components)) w =
    mfoldl (fun _ a => createIfNotExists (GetZKPath a) ephemeral) tt
      (ancestors (makeSubSpace parent component)) w) as Hloop.
  { intros components ->. etransitivity; [exact (prefix_loop (fun q => createIfNotExists q ephemeral) _ w)|].
    rewrite length_GetComponents, Nat.sub_succ, Nat.sub_0_r, prefixes_ancestors. apply mfoldl_fmap. }
  split; [by apply Hloop|]. intros Hfree. apply Hloop. cbn [GetZKPath makeSubSpace].
  by rewrite Split_Join by (apply GetComponents_ne || by apply GetComponents_free).
Qed.
End metadata_properties.

Section metadata_witnesses.
Import SimZk.

Definition ex_mgr : MetadataManager unit :=
  mk_MetadataManager "riak" (Some tt) (Some (root_ns "riak")) None [].
Definition ex_ns : Namespace := makeSubSpace baseNamespace "a".

Lemma set_data_durable_witness :
  let e := mk_zsim {["/a" := ("old", 3)]} [true; false; true] in
  wpe (SetData "new") (fun err w => err = None /\ zk_stored (p := "/a") w.2 = Some "new")
    (fun x w => x = panicked /\ (zk_stored (p := "/a") w.2 = zk_stored (p := "/a") e \/
                                 zk_stored (p := "/a") w.2 = Some "new"))
    ((ex_mgr, mk_ZkNode (Some (mk_Stat 1)) "" ex_ns), e) /\
  (SetData "new" ((ex_mgr, mk_ZkNode (Some (mk_Stat 1)) "" ex_ns), e)).1 = Ret None.
Proof.
  intros e. split; [|by vm_compute]. apply (set_data_durable "riak"); [by split; [eexists|]|reflexivity].
Defined.

Lemma create_paths_agree_witness (w := (ex_mgr, mk_zsim ∅ [])) :
  createPathIfNotExists (GetZKPath (makeSubSpace ex_ns "b")) false w =
    mfoldl (fun _ a => createIfNotExists (GetZKPath a) false) tt [ex_ns; makeSubSpace ex_ns "b"] w /\
  (tree (CreateNSIfNotExists (makeSubSpace ex_ns "b") false w).2.2 !! "/a/b") = Some ("", 0).
Proof.
  split; [|by vm_compute]. apply (proj2 (create_paths_agree ex_ns "b" false w)). by vm_compute.
Defined.

(** [MakeChildWithData] on a node that exists drops the
    error of the write: when the write fails it neither retries nor reports
    it, and returns the node with its old data. *)
Theorem make_node_data_lost :
  let w := (ex_mgr, mk_zsim {["/a" := ("", 0); "/a/b" := ("old", 3)]} [false; false; true]) in
  match MakeChildWithData (mk_ZkNode None "" ex_ns) "b" "new" false w with
  | (Ret (Some n, None), w') => GetData n = "old" /\ zk_stored (p := "/a/b") w'.2 = Some "old"
  | _ => False
  end.
Proof. by vm_compute. Qed.

(** Deleting a node with children deletes the leaves
    and keeps the node. *)
Theorem delete_keeps_branch :
  let w := (ex_mgr, mk_zsim {["/a" := ("", 0); "/a/b" := ("x", 0); "/a/c" := ("y", 0)]} []) in
  let r := Delete 20 (mk_ZkNode None "" ex_ns) w in
  r.1 = Ret tt /\ zk_stored (p := "/a") r.2.2 = Some "" /\
  zk_stored (p := "/a/b") r.2.2 = None /\ zk_stored (p := "/a/c") r.2.2 = None.
Proof. by vm_compute. Qed.
End metadata_witnesses.
