(* ===== verification/Cepm.v ===== *)
(** * [cepmd/cepm/cepm.go]: the Erlang port mapper

    The nodes of a Riak cluster find each other's ports through this server
    instead of [epmd]: [REGISTER name port] creates an ephemeral node below
    [cepmd] in ZooKeeper that lives as long as the connection, and
    [PORT_PLEASE name] reads it.  A connection is a computation over the
    manager, ZooKeeper and its own socket [NetConn]; ZooKeeper is what the
    connections, and the processes of the other nodes, share. *)

From S2P Require Import Prelude GoStrings Host Utils Structs Ser Metadata.
From Stdlib Require Import Ascii.

#[local] Open Scope string_scope.
#[local] Open Scope list_scope.
#[local] Open Scope Z_scope.

(** ** The server *)

(** [net.Conn] with its reader: [ReadString] up to a delimiter, a [Read] of one
    byte, which waits for the client, and [Close]. *)
Class NetConn (W : Type) := {
  conn_ReadString : ascii -> M W (string * option string);
  conn_Write : string -> M W (option string);
  conn_Read : M W unit;
  conn_Close : M W unit }.

(** The generated [RestoreAssets]. *)
Class CepmAssets (W : Type) := RestoreAssets : string -> string -> M W (option string).

Record CEPM := mk_CEPM {
  cepmdNode : option ZkNode;
  ln_Addr : string;
  cepm_hostname : string }.

Section cepm.
Context `{!Json DisterlData}.
Context {Conn Zk W : Type} `{!ZkApi Conn Zk}.
Local Abbreviation Mgr := (M (MetadataManager Conn * Zk)).
Local Abbreviation Cepmd := (M (MetadataManager Conn * (Zk * W))).

(** An operation of the metadata manager. *)
Definition in_zk {A} (m : Mgr A) : Cepmd A := zoom_l (fun mgr => mgr) (fun mgr _ => mgr) m.

Definition setupCPMd `{!GoNet W} (port : Z) : M W CEPM :=
  ln ← net_Listen ("localhost:" +:+ itoa port);
  match ln.2 with
  | Some err => mpanic ("Failed to bind to port: " +:+ err)
  | None =>
      hostname ← os_Hostname;
      match hostname.2 with
      | Some err => mpanic ("Failed resolve hostname: " +:+ err)
      | None => mret (mk_CEPM None ln.1 hostname.1)
      end
  end.

(** The root node is read twice. *)
Definition cepmd_child : Mgr (option ZkNode) :=
  root ← GetRootNode;
  root ← deref root;
  CreateChildIfNotExists root "cepmd" ;;
  root ← GetRootNode;
  root ← deref root;
  r ← GetChild root "cepmd";
  match r.2 with
  | Some _ => mpanic "Could not get cepmd child"
  | None => mret r.1
  end.

Definition NewCPMd `{!GoNet W} (port : Z) : Cepmd CEPM :=
  c ← io (setupCPMd port);
  node ← in_zk cepmd_child;
  mret (mk_CEPM node (ln_Addr c) (cepm_hostname c)).

Definition GetPort {E} (c : CEPM) : M E Z :=
  match SplitHostPort (ln_Addr c) with
  | None => mpanic "address"
  | Some (_, strPort) =>
      match Atoi strPort with
      | None => mpanic "invalid syntax"
      | Some port => mret port
      end
  end.

(** ** A connection *)

Section connection.
Context `{!NetConn W}.

Definition cutset : string := String (ascii_of_nat 13) newline.

(** [REGISTER]: the node lives until the client ends the connection; [fuel] is
    for its deletion. *)
Definition register (fuel : nat) (c : CEPM) (commandAndMore : list string) : Cepmd unit :=
  name ← index commandAndMore 1;
  strPort ← index commandAndMore 2;
  match Atoi strPort with
  | None => mret tt
  | Some port =>
      let disterlData := mk_DisterlData name port in
      match DisterlData_Serialize disterlData with
      | (_, Some _) => mret tt
      | (nodeByteData, None) =>
          parent ← deref (cepmdNode c);
          r ← in_zk (MakeChildWithData parent name nodeByteData true);
          match r.2 with
          | Some _ => io (conn_Write ("ERROR" +:+ newline)) ;; mret tt
          | None =>
              io (conn_Write ("OK" +:+ newline)) ;;
              deferred (node ← deref r.1; in_zk (Delete fuel node)) (io conn_Read)
          end
      end
  end.

(** A node whose data cannot be read has port 0. *)
Definition port_please (c : CEPM) (commandAndMore : list string) : Cepmd unit :=
  name ← index commandAndMore 1;
  parent ← deref (cepmdNode c);
  r ← in_zk (GetChild parent name);
  match r.2 with
  | Some _ => io (conn_Write ("NOTFOUND" +:+ newline)) ;; mret tt
  | None =>
      zkNode ← deref r.1;
      let disterlData := (DeserializeDisterlData (GetData zkNode)).1 in
      io (conn_Write (itoa (dd_DisterlPort disterlData) +:+ newline)) ;; mret tt
  end.

Definition handle_line (fuel : nat) (c : CEPM) (line : string) : Cepmd unit :=
  let commandAndMore := Split (Trim line cutset) " "%char in
  command ← index commandAndMore 0;
  if String.eqb command "REGISTER" then register fuel c commandAndMore
  else if String.eqb command "PORT_PLEASE" then port_please c commandAndMore
  else mret tt.

Definition handleConn (fuel : nat) (c : CEPM) : Cepmd unit :=
  deferred (io conn_Close)
    (r ← io (conn_ReadString (ascii_of_nat 10));
     match r.2 with
     | Some _ => mret tt
     | None => handle_line fuel c r.1
     end).
End connection.

(** ** Installing the Erlang side *)

Section install.
Context `{!GoFiles W, !CepmAssets W}.

Definition InstallInto (dir : string) : M W (option string) := RestoreAssets dir "".

Definition InstallIntoCli (dir : string) (port : Z) : M W (option string) :=
  kernelDirs ← filepath_Glob (dir +:+ "/kernel*");
  match kernelDirs.2 with
  | Some err => mfatal "Could not find kernel directory"
  | None =>
      kernelDir ← index kernelDirs.1 0;
      err ← RestoreAssets (kernelDir +:+ "/ebin") "";
      match err with
      | Some err => mpanic err
      | None =>
          err ← KillEPMD "root/riak";
          match err with
          | Some err => mfatal ("Could not kill EPMd: " +:+ err)
          | None =>
              _ ← os_MkdirAll (kernelDir +:+ "/priv");
              _ ← ioutil_WriteFile (kernelDir +:+ "/priv/cepmd_port") (itoa port +:+ ".");
              mret None
          end
      end
  end.
End install.

(** [cepmd/cepmd.go]: [main] up to the loop that accepts connections. *)
Definition cepmd_main `{!GoNet W, !GoFiles W, !CepmAssets W} (zookeeperAddr frameworkID riakLibDir : string)
    (port : Z) : Cepmd CEPM :=
  in_zk (NewMetadataManager frameworkID [zookeeperAddr]) ;;
  c ← NewCPMd port;
  port ← GetPort c;
  _ ← io (InstallIntoCli riakLibDir port);
  mret c.
End cepm.

(** ** What is relied on *)

(** A socket: the first line of the client, and what the server has written. *)
Class NetConnLaws (W : Type) `{!NetConn W} (incoming : W -> string * option string)
    (sent : W -> list string) : Prop := {
  ReadString_ok w : wp total (conn_ReadString (ascii_of_nat 10)) (fun r w' =>
    r = incoming w /\ sent w' = sent w) w;
  Write_ok s w : wp total (conn_Write s) (fun _ w' => sent w' = sent w ++ [s]) w;
  Read_ok w : wpe conn_Read (fun _ w' => sent w' = sent w) (fun x w' => x = blocked /\ sent w' = sent w) w;
  Close_ok w : wp total conn_Close (fun _ w' => sent w' = sent w) w }.

(** ** Lines *)

Definition register_line (name : string) (port : Z) : string :=
  "REGISTER " +:+ name +:+ " " +:+ itoa port +:+ newline.
Definition port_please_line (name : string) : string := "PORT_PLEASE " +:+ name +:+ newline.

(** A name that is one word of a line. *)
Definition word (s : string) : Prop :=
  char_free " " s /\ char_free (ascii_of_nat 10) s /\ char_free (ascii_of_nat 13) s.

Lemma word_itoa n : 0 <= n -> word (itoa n).
Proof. intros Hn. do 2 (split; [by apply itoa_free|]). by apply itoa_free. Qed.

(** Only the end of the line is trimmed. *)
Definition unbroken (s : string) : Prop :=
  char_free (ascii_of_nat 10) s /\ char_free (ascii_of_nat 13) s.

Lemma unbroken_app s t : unbroken s -> unbroken t -> unbroken (s +:+ t).
Proof. intros [? ?] [? ?]. split; by apply char_free_app. Qed.

Lemma in_cutset_unbroken c s : unbroken (String c s) -> in_cutset c cutset = false.
Proof.
  intros [[H1 _] [H2 _]]. unfold cutset, newline. cbn [in_cutset].
  destruct (Ascii.eqb_spec c (ascii_of_nat 13)); [done|].
  destruct (Ascii.eqb_spec c (ascii_of_nat 10)); done.
Qed.

Lemma TrimRight_unbroken s : unbroken s -> TrimRight s cutset = s.
Proof.
  induction s as [|c s IH]; [done|]. intros Hs. cbn [TrimRight].
  rewrite (in_cutset_unbroken c s) by done. destruct Hs as [[_ H1] [_ H2]].
  rewrite IH by done. by destruct s.
Qed.

Lemma TrimRight_newline s : TrimRight (s +:+ newline) cutset = TrimRight s cutset.
Proof.
  induction s as [|c s IH]; [done|].
  change (String c s +:+ newline) with (String c (s +:+ newline)). cbn [TrimRight]. by rewrite IH.
Qed.

Lemma Trim_line s : unbroken s -> s <> "" -> Trim (s +:+ newline) cutset = s.
Proof.
  intros Hs Hne. unfold Trim. destruct s as [|c s]; [done|].
  change (String c s +:+ newline) with (String c (s +:+ newline)). cbn [TrimLeft].
  rewrite (in_cutset_unbroken c s) by done.
  change (String c (s +:+ newline)) with (String c s +:+ newline).
  rewrite TrimRight_newline. by apply TrimRight_unbroken.
Qed.

Lemma register_words name port : word name -> 0 <= port ->
  Split (Trim (register_line name port) cutset) " " = ["REGISTER"; name; itoa port].
Proof.
  intros (Hs & Hn & Hr) Hp. destruct (word_itoa port Hp) as (Hs' & Hn' & Hr').
  unfold register_line. rewrite <- !append_assoc, Trim_line.
  - rewrite !append_assoc. change ("REGISTER " +:+ ?x) with ("REGISTER" +:+ String " " x).
    rewrite Split_app by (by repeat split). change (" " +:+ itoa port) with (String " " (itoa port)).
    by rewrite Split_app, Split_free.
  - repeat apply unbroken_app; try done; by repeat split.
  - done.
Qed.

Lemma port_please_words name : word name ->
  Split (Trim (port_please_line name) cutset) " " = ["PORT_PLEASE"; name].
Proof.
  intros (Hs & Hn & Hr). unfold port_please_line. rewrite <- append_assoc, Trim_line.
  - change ("PORT_PLEASE " +:+ name) with ("PORT_PLEASE" +:+ String " " name).
    rewrite Split_app by (by repeat split). by rewrite Split_free.
  - apply unbroken_app; [by repeat split|done].
  - done.
Qed.

(** ** Connections *)

Definition cepmd_ns (fw : string) : Namespace := makeSubSpace (root_ns fw) "cepmd".

(** The server of a framework. *)
Definition cepm_ok (fw : string) (c : CEPM) : Prop :=
  exists n, cepmdNode c = Some n /\ ns n = cepmd_ns fw.

(** Every registration has a JSON form that reads back. *)
Definition registered `{!Json DisterlData} (name : string) (port : Z) : string :=
  (DisterlData_Serialize (mk_DisterlData name port)).1.

Definition ok_reply : string := "OK" +:+ newline.
Definition error_reply : string := "ERROR" +:+ newline.
Definition notfound_reply : string := "NOTFOUND" +:+ newline.
Definition port_reply (port : Z) : string := itoa port +:+ newline.

Section connection_lemmas.
Context `{!Json DisterlData} (fw name : string).
Local Abbreviation p := (GetZKPath (makeSubSpace (cepmd_ns fw) name)).
Context {Conn Zk W : Type} `{!ZkApi Conn Zk, !ZkPath p Zk, !ZkLaws true p Conn Zk}.
Local Abbreviation world := (MetadataManager Conn * (Zk * W))%type.

(** The name is not registered, or its data is stored. *)
Definition at_most (port : Z) (z : Zk) : Prop :=
  zk_stored (p := p) z = None \/ zk_stored (p := p) z = Some (registered name port).

Lemma at_most_still port z : still (p := p) true (Some (registered name port)) z -> at_most port z.
Proof. intros [?|?]; [by right|by left]. Qed.

Lemma at_most_old_or port z : old_or (eph := true) (p := p) None (registered name port) z -> at_most port z.
Proof. intros [Hz%still_none|Hz]; [by left|by apply at_most_still]. Qed.

Lemma wpe_in_zk {A} (m : M (MetadataManager Conn * Zk) A) (Q : A -> world -> Prop) R (w : world) :
  wpe m (fun a v => Q a (v.1, (v.2, w.2.2))) (fun x v => R x (v.1, (v.2, w.2.2))) (w.1, w.2.1) ->
  wpe (in_zk m) Q R w.
Proof. destruct w as [mgr [z w]]. intros Hm. apply (wpe_zoom_l (fun mgr => mgr) (fun mgr _ => mgr)). exact Hm. Qed.

(** An operation on the child called [name]. *)
Lemma wpe_child {A} n (f : Namespace -> M (MetadataManager Conn * Zk) A) Q R v :
  ns n = cepmd_ns fw -> wpe (f (makeSubSpace (cepmd_ns fw) name)) Q R v -> R panicked v ->
  wpe (checked_child n name ≫= f) Q R v.
Proof.
  intros Hn Hf HR. apply wpe_bind. unfold checked_child. destruct (Contains name "/").
  - by apply (wpe_panic (A := Namespace)).
  - apply wpe_ret. by rewrite Hn.
Qed.

Section socket.
Context `{!NetConn W} {incoming : W -> string * option string} {sent : W -> list string}
  `{!NetConnLaws W incoming sent}.

(** Writing a reply. *)
Lemma wpe_reply s (Q : unit -> world -> Prop) R (w : world) :
  (forall w', w'.1 = w.1 -> w'.2.1 = w.2.1 -> sent w'.2.2 = sent w.2.2 ++ [s] -> Q tt w') ->
  wpe (io (conn_Write s) ;; mret tt) Q R w.
Proof.
  intros HQ. destruct w as [mgr [z w]]. apply wpe_bind, wpe_io, wp_wpe.
  wp_use Write_ok. intros r w' Hs. apply wpe_ret. by apply HQ.
Qed.

(** A registration: refused, or answered and deleted when the client ends. *)
Lemma wpe_register `{!ZkLeafLaws true p Conn Zk} fuel c strport port (w : world) :
  cepm_ok fw c -> (11 <= fuel)%nat -> mgr_ok fw w.1 -> zk_stored (p := p) w.2.1 = None ->
  Atoi strport = Some port -> (DisterlData_Serialize (mk_DisterlData name port)).2 = None ->
  wpe (register fuel c ["REGISTER"; name; strport])
    (fun _ w' => sent w'.2.2 = sent w.2.2 ++ [ok_reply] /\ zk_stored (p := p) w'.2.1 = None \/
                 sent w'.2.2 = sent w.2.2 ++ [error_reply] /\ at_most port w'.2.1)
    (fun x w' => match x with
      | panicked => at_most port w'.2.1
      | blocked => mgr_ok fw w'.1 /\ sent w'.2.2 = sent w.2.2 ++ [ok_reply] /\
                   zk_stored (p := p) w'.2.1 = Some (registered name port)
      | exited => False
      end) w.
Proof.
  intros (n & Hc & Hn) Hfuel Hm Hz Hport Hjson. unfold register.
  apply wpe_bind, wpe_ret, wpe_bind, wpe_ret. rewrite Hport. fold (registered name port).
  destruct (DisterlData_Serialize (mk_DisterlData name port)) as [data err] eqn:Hd.
  cbn [snd] in Hjson. subst err. assert (registered name port = data) as Hreg by (unfold registered; by rewrite Hd). clear Hd.
  rewrite Hc. apply wpe_bind, wpe_ret, wpe_bind, wpe_in_zk. destruct w as [mgr [z w]]. cbn [fst snd] in *.
  apply wpe_child; [done| |by left].
  eapply wpe_mono; [| |apply (wpe_makeNodeWithData fw); [done|done|by apply old_or_none; left]];
    [|intros x v [-> Hv]; apply at_most_old_or; rewrite Hreg; exact Hv].
  intros [node [err|]] [mgr1 z1] (Hm1 & Hz1 & Hr); cbn [fst snd read_outcome] in *.
  { apply wpe_reply. intros w' _ Hw' Hs. right. rewrite Hw'. split; [done|]. apply at_most_still. by rewrite Hreg. }
  destruct node as [node|]; [|done]. destruct Hr as (Hns & _ & Hd). specialize (Hd eq_refl).
  pose proof (still_some _ _ _ Hz1 Hd) as Heq. injection Heq as Heq. rewrite <- Heq, <- Hreg in Hd.
  apply wpe_bind, wpe_io, wp_wpe. wp_use Write_ok. intros r w1 Hs1.
  apply wpe_deferred, wpe_io. eapply wpe_mono; [| |apply Read_ok].
  - intros u w2 Hs2. apply wpe_bind, wpe_ret, wpe_in_zk. cbn [fst snd]. unfold Delete. rewrite Hns.
    eapply wpe_mono; [| |apply (wpe_Delete fw fuel 10 (Some data)); [lia|done|by left]].
    + intros u2 v [_ Hv]. left. cbn [fst snd]. rewrite Hs2, Hs1. done.
    + intros x v [-> [Hv|Hv]]; [|by left]. apply at_most_still. by rewrite Hreg.
  - intros x w2 [-> Hs2]. cbn [fst snd]. rewrite Hs2, Hs1. done.
Qed.

(** A question: the port in the data that is stored, or nothing is found. *)
Lemma wpe_port_please c stored (w : world) :
  cepm_ok fw c -> mgr_ok fw w.1 -> still (p := p) true stored w.2.1 ->
  wpe (port_please c ["PORT_PLEASE"; name])
    (fun _ w' => still (p := p) true stored w'.2.1 /\
      (sent w'.2.2 = sent w.2.2 ++ [notfound_reply] \/
       exists data, stored = Some data /\
         sent w'.2.2 = sent w.2.2 ++ [port_reply (dd_DisterlPort (DeserializeDisterlData data).1)]))
    (fun x w' => x = panicked /\ still (p := p) true stored w'.2.1 /\ sent w'.2.2 = sent w.2.2) w.
Proof.
  intros (n & Hc & Hn) Hm Hz. unfold port_please. apply wpe_bind, wpe_ret. rewrite Hc.
  apply wpe_bind, wpe_ret, wpe_bind, wpe_in_zk. destruct w as [mgr [z w]]. cbn [fst snd] in *.
  apply wpe_child; [done| |done].
  eapply wpe_mono; [| |by apply (wpe_getNode fw)]; [|by intros x v [-> Hv]].
  intros [node [err|]] [mgr1 z1] (Hm1 & Hz1 & Hr); cbn [fst snd read_outcome] in *.
  { apply wpe_reply. intros w' _ Hw' Hs. rewrite Hw'. split; [done|]. by left. }
  destruct node as [node|]; [|done]. destruct Hr as (_ & _ & Hd).
  apply wpe_bind, wpe_ret, wpe_reply. intros w' _ Hw' Hs. rewrite Hw'. split; [done|].
  right. exists (zdata node). split; [|done]. eapply still_some; [exact Hz1|by apply Hd].
Qed.

(** The line of the client reaches [handle_line], and the end closes. *)
Lemma wpe_handleConn fuel c line (Q : unit -> world -> Prop) R (w : world) :
  incoming w.2.2 = (line, None) ->
  (forall u w' w2, Q u w' -> sent w2 = sent w'.2.2 -> Q u (w'.1, (w'.2.1, w2))) ->
  (forall x w' w2, R x w' -> sent w2 = sent w'.2.2 -> R x (w'.1, (w'.2.1, w2))) ->
  (forall w', w'.1 = w.1 -> w'.2.1 = w.2.1 -> sent w'.2.2 = sent w.2.2 ->
    wpe (handle_line fuel c line) Q R w') ->
  wpe (handleConn fuel c) Q R w.
Proof.
  intros Hline HQ HR Hl. destruct w as [mgr [z w]]. cbn [fst snd] in *.
  apply wpe_deferred, wpe_bind, wpe_io, wp_wpe. wp_use ReadString_ok.
  intros r w1 [-> Hs1]. rewrite Hline. cbn [fst snd].
  eapply wpe_mono; [| |by apply Hl].
  - intros u [mgr2 [z2 w2]] Hq. apply wpe_io, wp_wpe. wp_use Close_ok. intros u' w3 Hs3.
    by apply (HQ u (mgr2, (z2, w2))).
  - intros [] [mgr2 [z2 w2]] Hr; [|done|done].
    apply wpe_io, wp_wpe. wp_use Close_ok. intros u' w3 Hs3. by apply (HR panicked (mgr2, (z2, w2))).
Qed.
Lemma wp_handleConn fuel c line (P : MetadataManager Conn -> Zk -> list string -> Prop) (w : world) :
  incoming w.2.2 = (line, None) ->
  (forall w', w'.1 = w.1 -> w'.2.1 = w.2.1 -> sent w'.2.2 = sent w.2.2 ->
    wp total (handle_line fuel c line) (fun _ w' => P w'.1 w'.2.1 (sent w'.2.2)) w') ->
  wp total (handleConn fuel c) (fun _ w' => P w'.1 w'.2.1 (sent w'.2.2)) w.
Proof.
  intros Hline Hl.
  pose proof (wpe_handleConn fuel c line (fun _ w' => P w'.1 w'.2.1 (sent w'.2.2)) (fun _ _ => False) w) as Hw.
  unfold wpe, wp in *. assert (match handleConn fuel c w with
    | (Ret a, e') => P e'.1 e'.2.1 (sent e'.2.2) | _ => False end) as Hr.
  { apply Hw; [done|intros u w' w2 Hf Hs; cbn [fst snd]; by rewrite Hs|done|].
    intros w' H1' H2' H3'. specialize (Hl w' H1' H2' H3').
    by destruct (handle_line fuel c line w') as [[] ?]. }
  by destruct (handleConn fuel c w) as [[] ?].
Qed.

(** The whole of a registration. *)
Lemma wpe_registration `{!ZkLeafLaws true p Conn Zk} fuel c port (w : world) :
  word name -> 0 <= port < 2 ^ 63 -> json_roundtrip zero_DisterlData ->
  cepm_ok fw c -> (11 <= fuel)%nat -> mgr_ok fw w.1 -> zk_stored (p := p) w.2.1 = None ->
  incoming w.2.2 = (register_line name port, None) ->
  wpe (handleConn fuel c)
    (fun _ w' => sent w'.2.2 = sent w.2.2 ++ [ok_reply] /\ zk_stored (p := p) w'.2.1 = None \/
                 sent w'.2.2 = sent w.2.2 ++ [error_reply] /\ at_most port w'.2.1)
    (fun x w' => match x with
      | panicked => at_most port w'.2.1
      | blocked => mgr_ok fw w'.1 /\ sent w'.2.2 = sent w.2.2 ++ [ok_reply] /\
                   zk_stored (p := p) w'.2.1 = Some (registered name port)
      | exited => False
      end) w.
Proof.
  intros Hname Hport Hjson Hc Hfuel Hm Hz Hline. eapply wpe_handleConn; [exact Hline|..].
  - intros u w' w2 Hq Hs. cbn [fst snd]. rewrite Hs. exact Hq.
  - intros [] w' w2 Hq Hs; cbn [fst snd]; rewrite ?Hs; exact Hq.
  - intros w' Hm' Hz' Hs'. unfold handle_line. rewrite register_words by (done || lia).
    apply wpe_bind, wpe_ret. cbn [String.eqb Ascii.eqb Bool.eqb].
    rewrite <- Hs'. apply wpe_register; try done.
    + by rewrite Hm'.
    + by rewrite Hz'.
    + by apply Atoi_itoa.
    + by apply (Hjson (mk_DisterlData name port)).
Qed.

(** A server of ZooKeeper that answers. *)
Definition zk_up (z : Zk) : Prop := forall k, wp total (zk_Get k p) (fun r _ => r.2 = None) z.

Lemma wp_getNode_up (v : MetadataManager Conn * Zk) :
  mgr_ok fw v.1 -> zk_up v.2 ->
  wp total (getNode (makeSubSpace (cepmd_ns fw) name))
    (fun r _ => exists n, r = (Some n, None) /\ zk_stored (p := p) v.2 = Some (zdata n)) v.
Proof.
  destruct v as [mgr z]. cbn [fst snd]. intros Hm Hup. unfold getNode. cbn [getNodeWithRetry].
  apply wp_bind, (wp_my_conn fw); [done|]. intros k. apply wp_bind, wp_lift.
  eapply wp_mono; [|apply wp_and; [apply (Hup k)|apply (zk_Get_ok (p := p))]].
  intros [[d st] err] z1 [Herr (Hz & Hd & _)]; cbn [fst snd] in *. subst err.
  apply wp_ret. exists (mk_ZkNode st d (makeSubSpace (cepmd_ns fw) name)). split; [done|].
  eapply still_some; [exact Hz|by apply Hd].
Qed.

Lemma wp_port_please_up c data (w : world) :
  char_free "/" name -> cepm_ok fw c -> mgr_ok fw w.1 -> zk_up w.2.1 ->
  zk_stored (p := p) w.2.1 = Some data ->
  wp total (port_please c ["PORT_PLEASE"; name]) (fun _ w' =>
    sent w'.2.2 = sent w.2.2 ++ [port_reply (dd_DisterlPort (DeserializeDisterlData data).1)]) w.
Proof.
  intros Hslash (n & Hc & Hn) Hm Hup Hz. unfold port_please. apply wp_bind, wp_ret. rewrite Hc.
  apply wp_bind, wp_ret, wp_bind. destruct w as [mgr [z w]]. cbn [fst snd] in *.
  unfold in_zk, GetChild, checked_child. rewrite Contains_free by done. rewrite Hn.
  apply (wp_zoom_l total (fun mgr => mgr) (fun mgr _ => mgr)), wp_bind, wp_ret.
  wp_use wp_getNode_up; [|done|done]. intros r v (node & -> & Hd). cbn [fst snd].
  apply wp_bind, wp_ret, wp_bind, wp_io. wp_use Write_ok. intros u w1 Hs. apply wp_ret.
  cbn [fst snd]. rewrite Hs. unfold port_reply, GetData. cbn [fst snd] in Hd. congruence.
Qed.
End socket.
End connection_lemmas.

(** ** Starting the server *)

Section starting.
Context (fw : string) {eph : bool} {p : string} {Conn Zk W : Type}.
Context `{!ZkApi Conn Zk, !ZkPath p Zk, !ZkLaws eph p Conn Zk}.
Local Abbreviation world := (MetadataManager Conn * (Zk * W))%type.

Lemma wpe_cepmd_child stored (v : MetadataManager Conn * Zk) :
  not_above (cepmd_ns fw) p -> mgr_ok fw v.1 -> still (p := p) eph stored v.2 ->
  wpe cepmd_child
    (fun r v' => mgr_ok fw v'.1 /\ still (p := p) eph stored v'.2 /\
      exists n, r = Some n /\ ns n = cepmd_ns fw)
    (fun x v' => x = panicked /\ still (p := p) eph stored v'.2) v.
Proof.
  intros Hp Hm Hs. unfold cepmd_child. apply wpe_bind. wpe_by (wpe_GetRootNode fw).
  intros r v1 (Hm1 & Hz1 & n & -> & Hn). apply wpe_bind, wpe_ret, wpe_bind.
  unfold CreateChildIfNotExists, GetChild. apply wpe_bind, wpe_ret. rewrite Hn.
  eapply wpe_mono_post; [|apply (wpe_CreateNSIfNotExists fw _ false stored v1); [exact Hp|done|done]].
  intros u v2 [Hm2 Hz2]. rewrite <- Hm2 in Hm1.
  apply wpe_bind. wpe_by (wpe_GetRootNode fw). intros r v3 (Hm3 & Hz3 & n' & -> & Hn').
  apply wpe_bind, wpe_ret, wpe_bind, wpe_bind, wpe_ret. wpe_by (wpe_getNode fw).
  intros [node err] v4 (Hm4 & Hz4 & Hr).
  destruct node as [node|], err as [err|]; cbn [read_outcome snd fst] in *; try done.
  apply wpe_ret. destruct Hr as [Hns _]. split; [done|]. split; [done|]. exists node.
  split; [done|]. by rewrite Hns, Hn'.
Qed.

Lemma wpe_NewCPMd `{!GoNet W, !GoNetLaws W} port stored (w : world) :
  not_above (cepmd_ns fw) p -> mgr_ok fw w.1 -> still (p := p) eph stored w.2.1 ->
  wpe (NewCPMd port)
    (fun c w' => mgr_ok fw w'.1 /\ still (p := p) eph stored w'.2.1 /\ cepm_ok fw c)
    (fun x w' => x = panicked /\ still (p := p) eph stored w'.2.1) w.
Proof.
  intros Hp Hm Hs. destruct w as [mgr [z w]]. cbn [fst snd] in *. unfold NewCPMd, setupCPMd.
  apply wpe_bind, wpe_io, wpe_bind, wp_wpe. wp_use net_Listen_returns. intros [addr err] w1 _.
  destruct err as [err|]; [by apply (wpe_panic (A := CEPM))|].
  apply wpe_bind, wp_wpe. wp_use os_Hostname_returns. intros [hostname err] w2 _.
  destruct err as [err|]; [by apply (wpe_panic (A := CEPM))|].
  apply wpe_ret, wpe_bind, (wpe_zoom_l (fun mgr => mgr) (fun mgr _ => mgr)).
  eapply wpe_mono_post; [|by apply (wpe_cepmd_child stored)].
  intros r v (Hm1 & Hz1 & n & -> & Hn). apply wpe_ret. split; [done|]. split; [done|]. by exists n.
Qed.
End starting.

(** ** Properties *)

Section cepm_properties.
Context `{!Json DisterlData} (fw name : string).
Local Abbreviation p := (GetZKPath (makeSubSpace (cepmd_ns fw) name)).
Context {Conn Zk W : Type} `{!ZkApi Conn Zk, !ZkPath p Zk, !ZkLaws true p Conn Zk, !ZkLeafLaws true p Conn Zk}.
Context `{!NetConn W} {incoming : W -> string * option string} {sent : W -> list string}
  `{!NetConnLaws W incoming sent}.
Local Abbreviation world := (MetadataManager Conn * (Zk * W))%type.

(** C17 [registration_lives]: a connection that registers a new name is answered
    OK only when its data is stored, and it waits for its client with the data
    stored, where it stays for as long as the session with ZooKeeper lasts.
    When the client ends the connection the node is gone, or the process
    panics.  The only other answer is ERROR.  Whatever happens, and if the
    session is lost before any call, at most the data of this registration is
    left under the name. *)
Theorem registration_lives (fuel : nat) (c : CEPM) (port : Z) (w : world) :
  word name -> 0 <= port < 2 ^ 63 -> json_roundtrip zero_DisterlData ->
  cepm_ok fw c -> (11 <= fuel)%nat -> mgr_ok fw w.1 -> zk_stored (p := p) w.2.1 = None ->
  incoming w.2.2 = (register_line name port, None) ->
  wpe (handleConn fuel c)
    (fun _ w' => sent w'.2.2 = sent w.2.2 ++ [ok_reply] /\ zk_stored (p := p) w'.2.1 = None \/
                 sent w'.2.2 = sent w.2.2 ++ [error_reply] /\ at_most fw name port w'.2.1)
    (fun x w' => match x with
      | panicked => at_most fw name port w'.2.1
      | blocked => mgr_ok fw w'.1 /\ sent w'.2.2 = sent w.2.2 ++ [ok_reply] /\
                   zk_stored (p := p) w'.2.1 = Some (registered name port)
      | exited => False
      end) w.
Proof. by apply wpe_registration. Qed.

(** C22 [port_roundtrip]: while a registration lives, another connection that asks
    for its port gets the port that was registered, if the server of ZooKeeper
    answers. *)
Theorem port_roundtrip (fuel : nat) (c : CEPM) (port : Z) (w : world) (msg : string)
    (mgr' : MetadataManager Conn) (z' : Zk) (w1 w2 : W) :
  word name -> char_free "/" name -> 0 <= port < 2 ^ 63 -> json_roundtrip zero_DisterlData ->
  cepm_ok fw c -> (11 <= fuel)%nat -> mgr_ok fw w.1 -> zk_stored (p := p) w.2.1 = None ->
  incoming w.2.2 = (register_line name port, None) ->
  handleConn fuel c w = (Block msg, (mgr', (z', w1))) ->
  incoming w2 = (port_please_line name, None) ->
  zk_up fw name z' ->
  wp total (handleConn fuel c) (fun _ w' => sent w'.2.2 = sent w2 ++ [port_reply port]) (mgr', (z', w2)).
Proof.
  intros Hname Hslash Hport Hjson Hc Hfuel Hm Hz Hline Hblock Hline2 Hup.
  pose proof (wpe_registration fw name fuel c port w Hname Hport Hjson Hc Hfuel Hm Hz Hline) as Hw.
  unfold wpe in Hw. rewrite Hblock in Hw. destruct Hw as (Hm' & _ & Hz').
  eapply (wp_handleConn fuel c (port_please_line name) (fun _ _ l => l = sent w2 ++ [port_reply port])); [done|].
  intros w3 Hm3 Hz3 Hs3. unfold handle_line. rewrite port_please_words by done.
  apply wp_bind, wp_ret. cbn [String.eqb Ascii.eqb Bool.eqb].
  cbn [fst snd] in Hm3, Hz3, Hs3. rewrite <- Hs3. destruct w3 as [mgr3 [z3 w3]]. cbn [fst snd] in *. subst mgr3 z3.
  wp_use (wp_port_please_up fw name c (registered name port)); [|done..].
  intros u w' ->. unfold DeserializeDisterlData, registered, DisterlData_Serialize.
  by destruct (Hjson (mk_DisterlData name port)) as [_ ->].
Qed.
(** C31 [line_dispatch]: a line that names one of the two commands without its
    arguments panics before anything is read or written, and no one recovers
    that panic; a line with another command changes nothing and gets no answer. *)
Theorem line_dispatch (fuel : nat) (c : CEPM) (line : string) (w : world) :
  incoming w.2.2 = (line, None) ->
  let words := Split (Trim line cutset) " " in
  let nothing (w' : world) := w'.1 = w.1 /\ w'.2.1 = w.2.1 /\ sent w'.2.2 = sent w.2.2 in
  (head words = Some "REGISTER" /\ (length words < 3)%nat \/
   head words = Some "PORT_PLEASE" /\ (length words < 2)%nat ->
   wpe (handleConn fuel c) (fun _ _ => False) (fun x w' => x = panicked /\ nothing w') w) /\
  (head words <> Some "REGISTER" -> head words <> Some "PORT_PLEASE" ->
   wp total (handleConn fuel c) (fun _ w' => nothing w') w).
Proof.
  intros Hline words nothing. split.
  - intros Hshort. eapply wpe_handleConn; [exact Hline|done| |].
    + intros x w' w2 (? & ? & ? & ?) Hs. unfold nothing. cbn [fst snd]. rewrite Hs. done.
    + intros w' Hm Hz Hs. unfold handle_line. fold words. destruct words as [|command rest]; [naive_solver|].
      apply wpe_bind, wpe_ret. cbn [head] in Hshort.
      destruct Hshort as [[[= ->] Hl]|[[= ->] Hl]]; cbn [String.eqb Ascii.eqb Bool.eqb].
      * unfold register. apply wpe_bind, wpe_index; [|done]. intros n _.
        apply wpe_bind, wpe_index; [|done]. intros sp Hsp. apply lookup_lt_Some in Hsp. lia.
      * unfold port_please. apply wpe_bind, wpe_index; [|done]. intros n Hn.
        apply lookup_lt_Some in Hn. lia.
  - intros Hreg Hport. eapply (wp_handleConn fuel c line (fun mgr z l => mgr = w.1 /\ z = w.2.1 /\ l = sent w.2.2)); [done|].
    intros w' Hm Hz Hs. unfold handle_line. fold words. destruct words as [|command rest] eqn:Hw.
    { by destruct (Split_nil (Trim line cutset) " "). }
    apply wp_bind, wp_ret. destruct (String.eqb_spec command "REGISTER"); [naive_solver|].
    destruct (String.eqb_spec command "PORT_PLEASE"); [naive_solver|]. by apply wp_ret.
Qed.
End cepm_properties.

(** ** A socket for concrete runs *)

(** A client that sends a line, and then ends the connection or does not. *)
Module SimConn.
Record sim := mk_sim { line : string * option string; ends : bool; out : list string }.

#[export] Instance conn : NetConn sim :=
  {| conn_ReadString d w := (Ret (line w), w);
     conn_Write s w := (Ret None, mk_sim (line w) (ends w) (out w ++ [s]));
     conn_Read w := (if ends w then Ret tt else Block "read", w);
     conn_Close := mret tt |}.

#[export] Instance conn_laws : NetConnLaws sim line out.
Proof. split; try done. intros w. unfold wpe. cbn. by destruct (ends w). Qed.
End SimConn.

Section cepm_witnesses.
Import SimZk SimConn SimJson.

Definition leaf_path : string := GetZKPath (makeSubSpace (cepmd_ns "riak") "riak@h1").
#[local] Instance ex_zk : ZkApi unit zsim := SimLeaf.leaf leaf_path.
#[local] Instance ex_zk_laws : ZkLaws true leaf_path unit zsim := SimLeaf.leaf_zk leaf_path.
#[local] Instance ex_zk_leaf : ZkLeafLaws true leaf_path unit zsim := SimLeaf.leaf_laws leaf_path.

Definition ex_cepm : CEPM :=
  mk_CEPM (Some (mk_ZkNode None "" (cepmd_ns "riak"))) (loopback_addr 4369) "h1".
Definition ex_client (line : string) (ends : bool) : sim := mk_sim (line, None) ends [].

Lemma registration_lives_witness :
  let w := (ex_mgr, (mk_zsim ∅ [], ex_client (register_line "riak@h1" 31000) true)) in
  wpe (handleConn 11 ex_cepm)
    (fun _ w' => out w'.2.2 = [] ++ [ok_reply] /\ zk_stored (p := leaf_path) w'.2.1 = None \/
                 out w'.2.2 = [] ++ [error_reply] /\ at_most "riak" "riak@h1" 31000 w'.2.1)
    (fun x w' => match x with
      | panicked => at_most "riak" "riak@h1" 31000 w'.2.1
      | blocked => mgr_ok "riak" w'.1 /\ out w'.2.2 = [] ++ [ok_reply] /\
                   zk_stored (p := leaf_path) w'.2.1 = Some (registered "riak@h1" 31000)
      | exited => False
      end) w /\
  (handleConn 11 ex_cepm w).1 = Ret tt.
Proof.
  intros w. split; [|vm_compute; reflexivity].
  refine (registration_lives "riak" "riak@h1" 11 ex_cepm 31000 w _ _ _ _ _ _ _ _).
  - vm_compute. repeat split; discriminate.
  - lia.
  - apply of_ser_roundtrip.
  - eexists. split; reflexivity.
  - lia.
  - split; [eexists; reflexivity|]. split; reflexivity.
  - reflexivity.
  - reflexivity.
Defined.

Lemma port_roundtrip_witness :
  let w := (ex_mgr, (mk_zsim ∅ [], ex_client (register_line "riak@h1" 31000) false)) in
  let w2 := ex_client (port_please_line "riak@h1") true in
  exists msg mgr' z' w1, handleConn 11 ex_cepm w = (Block msg, (mgr', (z', w1))) /\
  wp total (handleConn 11 ex_cepm) (fun _ w' => out w'.2.2 = [] ++ [port_reply 31000]) (mgr', (z', w2)).
Proof.
  intros w w2. do 4 eexists. split; [vm_compute; reflexivity|].
  refine (port_roundtrip "riak" "riak@h1" 11 ex_cepm 31000 w "read" _ _ _ w2 _ _ _ _ _ _ _ _ _ _ _ _).
  - vm_compute. repeat split; discriminate.
  - vm_compute. repeat split; discriminate.
  - lia.
  - apply of_ser_roundtrip.
  - eexists. split; reflexivity.
  - lia.
  - split; [eexists; reflexivity|]. split; reflexivity.
  - reflexivity.
  - reflexivity.
  - vm_compute; reflexivity.
  - reflexivity.
  - intros k. vm_compute. reflexivity.
Defined.

Lemma line_dispatch_witness :
  let w := (ex_mgr, (mk_zsim ∅ [], ex_client ("REGISTER riak@h1" +:+ newline) true)) in
  wpe (handleConn 11 ex_cepm) (fun _ _ => False)
    (fun x w' => x = panicked /\ w'.1 = w.1 /\ w'.2.1 = w.2.1 /\ out w'.2.2 = out w.2.2) w.
Proof.
  intros w.
  refine (proj1 (line_dispatch 11 ex_cepm ("REGISTER riak@h1" +:+ newline) w _) _).
  - reflexivity.
  - left. vm_compute. split; [reflexivity|lia].
Defined.

(** A registration whose session was lost: when its client ends the connection,
    the deletion of the node that is gone is tried eleven times and then
    panics. *)
Lemma lost_session_panics :
  match handleConn 11 ex_cepm (ex_mgr, (mk_zsim ∅ [], ex_client (register_line "riak@h1" 31000) false)) with
  | (Block _, (mgr, (z, _))) =>
      let node := mk_ZkNode (Some (mk_Stat 0)) "" (makeSubSpace (cepmd_ns "riak") "riak@h1") in
      (Delete 11 node (mgr, mk_zsim (delete leaf_path (tree z)) [])).1 = Panic "zk error"
  | _ => False
  end.
Proof. by vm_compute. Qed.

(** The port of the server is the one in its address. *)
Lemma GetPort_loopback {E} c port (e : E) : 0 <= port < 2 ^ 63 ->
  ln_Addr c = loopback_addr port -> GetPort c e = (Ret port, e).
Proof.
  intros Hp Ha. unfold GetPort. rewrite Ha, SplitHostPort_loopback by lia. by rewrite Atoi_itoa.
Qed.
End cepm_witnesses.
