(* ===== verification/State.v ===== *)
(** * [scheduler/state.go]: the persistent state of the scheduler

    The state is one ZooKeeper node with the compressed JSON of the clusters
    and their graveyard.  What is read back is [decoded]: without the unexported
    fields, so no node is reconciled, and with the bytes replaced that are not
    UTF-8 ([Decoding]). *)

From S2P Require Import Prelude GoStrings Float64 Mesos Structs Node Cluster Decoding Metadata.

#[local] Open Scope string_scope.
#[local] Open Scope list_scope.
#[local] Open Scope Z_scope.

(** ** State *)

Record SchedulerState := mk_SchedulerState {
  zkNode : option ZkNode;
  MesosMaster : string;
  FrameworkID : option string;
  Clusters : gmap string FrameworkRiakCluster;
  s_Graveyard : gmap string FrameworkRiakCluster }.

Definition set_zkNode (v : option ZkNode) (ss : SchedulerState) : SchedulerState :=
  mk_SchedulerState v (MesosMaster ss) (FrameworkID ss) (Clusters ss) (s_Graveyard ss).
Definition set_MesosMaster (v : string) (ss : SchedulerState) : SchedulerState :=
  mk_SchedulerState (zkNode ss) v (FrameworkID ss) (Clusters ss) (s_Graveyard ss).
Definition set_FrameworkID (v : option string) (ss : SchedulerState) : SchedulerState :=
  mk_SchedulerState (zkNode ss) (MesosMaster ss) v (Clusters ss) (s_Graveyard ss).
Definition set_Clusters (v : gmap string FrameworkRiakCluster) (ss : SchedulerState) : SchedulerState :=
  mk_SchedulerState (zkNode ss) (MesosMaster ss) (FrameworkID ss) v (s_Graveyard ss).
Definition set_s_Graveyard (v : gmap string FrameworkRiakCluster) (ss : SchedulerState) : SchedulerState :=
  mk_SchedulerState (zkNode ss) (MesosMaster ss) (FrameworkID ss) (Clusters ss) v.

(** The zero value, and [emptySchedulerState]. *)
Definition emptySchedulerState : SchedulerState := mk_SchedulerState None "" None ∅ ∅.

(** The part of the [SchedulerCore] that changes. *)
Record SchedulerCore (Conn : Type) := mk_SchedulerCore {
  sc_mgr : MetadataManager Conn;
  schedulerState : SchedulerState;
  rServer_enabled : bool }.
Arguments mk_SchedulerCore {Conn}.
Arguments sc_mgr {Conn}.
Arguments schedulerState {Conn}.
Arguments rServer_enabled {Conn}.

Section setters.
Context {Conn : Type}.
Definition set_sc_mgr (v : MetadataManager Conn) (sc : SchedulerCore Conn) : SchedulerCore Conn :=
  mk_SchedulerCore v (schedulerState sc) (rServer_enabled sc).
Definition set_schedulerState (v : SchedulerState) (sc : SchedulerCore Conn) : SchedulerCore Conn :=
  mk_SchedulerCore (sc_mgr sc) v (rServer_enabled sc).
Definition set_enabled (v : bool) (sc : SchedulerCore Conn) : SchedulerCore Conn :=
  mk_SchedulerCore (sc_mgr sc) (schedulerState sc) v.
End setters.

(** ** Encoding *)

(** [compress/zlib]: what a writer that is closed has written, and reading a
    whole stream. *)
Class Zlib := {
  zlib_compress : string -> string * option string;
  zlib_decompress : string -> string + string }.

(** What is not encoded, and what is read back. *)
Definition strip (ss : SchedulerState) : SchedulerState :=
  mk_SchedulerState None (MesosMaster ss) (FrameworkID ss) (strip_cluster <$> Clusters ss)
    (strip_cluster <$> s_Graveyard ss).
Definition decoded (ss : SchedulerState) : SchedulerState :=
  mk_SchedulerState None (to_utf8 (MesosMaster ss)) (to_utf8 <$> FrameworkID ss)
    (decode_map decode_cluster (Clusters ss)) (decode_map decode_cluster (s_Graveyard ss)).

Section state.
Context `{!Json SchedulerState, !Zlib}.
Context {Conn Zk W : Type} `{!ZkApi Conn Zk}.
Local Abbreviation Core := (M (SchedulerCore Conn * (Zk * W))).

(** The error of [Encode] is ignored: nothing is written then. *)
Definition encoded (ss : SchedulerState) : string :=
  match Marshal ss with
  | (text, None) => text +:+ newline
  | (_, Some _) => ""
  end.

Definition serialize {S} (ss : SchedulerState) : M S string :=
  match zlib_compress (encoded ss) with
  | (bytes, None) => mret bytes
  | (_, Some err) => mpanic err
  end.

Definition DeserializeSchedulerState {S} (data : string) : M S SchedulerState :=
  match zlib_decompress data with
  | inr err => mpanic err
  | inl text =>
      match Unmarshal text emptySchedulerState with
      | (t, None) => mret t
      | (_, Some err) => mpanic err
      end
  end.

(** ** Operations *)

Definition get_state : Core SchedulerState := sc ← get_st; mret (schedulerState sc).
Definition upd_state (f : SchedulerState -> SchedulerState) : Core unit :=
  upd_st (fun sc => set_schedulerState (f (schedulerState sc)) sc).

Definition in_mgr {A} (m : M (MetadataManager Conn * Zk) A) : Core A := zoom_l sc_mgr set_sc_mgr m.

Definition Persist : Core (option ZkError) :=
  ss ← get_state;
  b ← serialize ss;
  node ← deref (zkNode ss);
  zoom_l (fun sc => (sc_mgr sc, node))
    (fun t sc => set_schedulerState (set_zkNode (Some t.2) (schedulerState sc)) (set_sc_mgr t.1 sc))
    (SetData b).

(** A missing node is created; any other error leaves a nil node, whose data
    is then read. *)
Definition GetSchedulerState : M (MetadataManager Conn * Zk) SchedulerState :=
  root ← GetRootNode;
  root ← deref root;
  r ← GetChild root "SchedulerState";
  if decide (r.2 = Some ErrNoNode) then
    let ess := emptySchedulerState in
    root ← GetRootNode;
    root ← deref root;
    b ← serialize ess;
    r ← MakeChildWithData root "SchedulerState" b false;
    match r.2 with
    | Some _ => mpanic "zk error"
    | None => mret (set_zkNode r.1 ess)
    end
  else
    node ← deref r.1;
    ss ← DeserializeSchedulerState (GetData node);
    mret (set_zkNode (Some node) ss).
End state.

(** ** Well-formed states *)

(** Whether Mesos only reports the task states of the enumeration: the code
    handles any other ([TASK_other]), but a state with such a status is not
    read back. *)
Class Legible := legible : bool.

Section well_formed.
Context `{!Legible}.

Definition legible_node (n : FrameworkRiakNode) : Prop := legible = true -> known n.

Definition cluster_ok (fw : string) (c : FrameworkRiakCluster) : Prop :=
  cluster_wf fw c /\ map_Forall (fun _ => legible_node) (Nodes c) /\
  map_Forall (fun _ => legible_node) (Graveyard c).

(** Clusters are filed under their names. *)
Definition clusters_ok (fw : string) (m : gmap string FrameworkRiakCluster) : Prop :=
  map_Forall (fun name c => c_Name c = name /\ cluster_ok fw c) m.

Lemma clusters_ok_empty fw : clusters_ok fw ∅.
Proof. apply no_keys_Forall. Qed.

Definition state_wf (fw : string) (ss : SchedulerState) : Prop :=
  clusters_ok fw (Clusters ss) /\ clusters_ok fw (s_Graveyard ss).

Lemma state_wf_empty fw : state_wf fw emptySchedulerState.
Proof. split; apply clusters_ok_empty. Qed.
End well_formed.
#[export] Hint Resolve clusters_ok_empty state_wf_empty : go.

(** What JSON can represent. *)
Definition encodable (ss : SchedulerState) : Prop :=
  map_Forall (fun _ => cluster_encodable) (Clusters ss) /\
  map_Forall (fun _ => cluster_encodable) (s_Graveyard ss).

#[export] Instance encodable_dec ss : Decision (encodable ss).
Proof. unfold encodable. apply _. Defined.

Lemma encodable_empty : encodable emptySchedulerState.
Proof. split; auto with go. Qed.

Lemma strip_encodable ss : encodable (strip ss) <-> encodable ss.
Proof.
  assert (forall m : gmap string FrameworkRiakCluster,
    map_Forall (fun _ => cluster_encodable) (strip_cluster <$> m) <->
    map_Forall (fun _ => cluster_encodable) m) as Hc.
  { intros m. rewrite map_Forall_fmap.
    split; intros Hm k c Hk; specialize (Hm k c Hk); by apply strip_cluster_encodable. }
  unfold encodable, strip. cbn. by rewrite !Hc.
Qed.

(** Text that is UTF-8. *)
Definition clusters_utf8 (m : gmap string FrameworkRiakCluster) : Prop :=
  map_Forall (fun k c => utf8 k /\ cluster_utf8 c) m.
Definition state_utf8 (ss : SchedulerState) : Prop :=
  utf8 (MesosMaster ss) /\ opt_utf8 (FrameworkID ss) /\
  clusters_utf8 (Clusters ss) /\ clusters_utf8 (s_Graveyard ss).

(** *** What decoding keeps *)

Lemma decoded_strip ss : decoded (strip ss) = decoded ss.
Proof.
  unfold decoded, strip. cbn. rewrite !decode_map_fmap.
  f_equal; apply decode_map_ext; intros ???; apply decode_strip_cluster.
Qed.

Lemma decoded_set_zkNode n ss : decoded (set_zkNode n ss) = decoded ss.
Proof. done. Qed.

Lemma decoded_master m ss ss' : strip ss = strip ss' ->
  decoded (set_MesosMaster m ss) = decoded (set_MesosMaster m ss').
Proof.
  intros Heq. rewrite <- (decoded_strip (set_MesosMaster m ss)), <- (decoded_strip (set_MesosMaster m ss')).
  f_equal. change (set_MesosMaster m (strip ss) = set_MesosMaster m (strip ss')). by rewrite Heq.
Qed.

Lemma decoded_twice ss : decoded (decoded ss) = decoded ss.
Proof.
  unfold decoded at 1 3. cbn. rewrite to_utf8_idemp, fmap_to_utf8_twice.
  by rewrite !decode_map_twice by apply decode_cluster_twice.
Qed.

Lemma decoded_empty : decoded emptySchedulerState = emptySchedulerState.
Proof.
  unfold decoded, emptySchedulerState. cbn [Clusters s_Graveyard MesosMaster FrameworkID].
  rewrite decode_map_id by apply map_Forall_empty. by rewrite fmap_empty.
Qed.

Lemma clusters_utf8_decoded m : clusters_utf8 m -> decode_map decode_cluster m = strip_cluster <$> m.
Proof.
  intros Hm. rewrite decode_map_id by (intros k n Hk; by destruct (Hm _ _ Hk)).
  apply map_fmap_ext. intros k c Hk. apply decode_cluster_utf8. by destruct (Hm _ _ Hk).
Qed.

(** Nothing but the unexported fields is lost of a state whose text is UTF-8. *)
Lemma decoded_utf8 ss : state_utf8 ss -> decoded ss = strip ss.
Proof. intros (H1 & H2 & HC & HG). unfold decoded. by rewrite H1, H2, !clusters_utf8_decoded. Qed.

Section decoded_wf.
Context `{!Legible}.

Lemma cluster_ok_encodable fw c : legible = true -> cluster_ok fw c -> cluster_encodable c.
Proof.
  intros Hl ((HN & HG & _) & HkN & HkG). split; intros k n Hk; split.
  - by apply HN in Hk as (_ & _ & _ & _ & _ & ?).
  - by eapply HkN.
  - by apply HG in Hk as (_ & _ & _ & _ & _ & ?).
  - by eapply HkG.
Qed.

Lemma state_wf_encodable fw ss : legible = true -> state_wf fw ss -> encodable ss.
Proof.
  intros Hl [HC HG]. split; intros name c Hc; apply (cluster_ok_encodable fw); try done;
    [by apply HC in Hc as [_ ?]|by apply HG in Hc as [_ ?]].
Qed.

Lemma decode_cluster_ok fw c : utf8 fw -> cluster_ok fw c -> cluster_ok fw (decode_cluster c).
Proof.
  intros Hfw (Hwf & HN & HG). split; [by apply decode_cluster_wf|].
  split; intros k n (k0 & n0 & Hk & _ & ->)%decode_map_from Hl; apply decode_known;
    [by eapply HN|by eapply HG].
Qed.

Lemma decoded_clusters_ok fw m : utf8 fw -> clusters_ok fw m -> clusters_ok fw (decode_map decode_cluster m).
Proof.
  intros Hfw Hm name c (name0 & c0 & Hc & -> & ->)%decode_map_from. apply Hm in Hc as [<- ?].
  split; [done|by apply decode_cluster_ok].
Qed.

Lemma decoded_wf fw ss : utf8 fw -> state_wf fw ss -> state_wf fw (decoded ss).
Proof. intros Hfw [? ?]. split; by apply decoded_clusters_ok. Qed.
End decoded_wf.

(** ** What is relied on of the encodings *)

Class StateCodecLaws `{!Json SchedulerState, !Zlib} : Prop := {
  zlib_ok text : exists b, zlib_compress text = (b, None) /\ zlib_decompress b = inl text;
  (** The unexported fields are not encoded. *)
  marshal_strip ss : Marshal (strip ss) = Marshal ss;
  json_state_ok ss : encodable ss -> exists text, Marshal ss = (text, None) /\
    Unmarshal (text +:+ newline) emptySchedulerState = (decoded ss, None);
  (** A number that is not finite fails to encode, and a task state that is not
      known to decode. *)
  json_state_bad ss : ~ encodable ss ->
    exists err, (Unmarshal (encoded ss) emptySchedulerState).2 = Some err }.

Section persistence.
Context `{!Json SchedulerState, !Zlib, !StateCodecLaws}.
Context {Conn Zk W : Type} `{!ZkApi Conn Zk}.
Context `{!Legible} (fw : string) (p : string) (Hp : p = GetZKPath (state_ns fw)).
Context `{!ZkPath p Zk, !ZkLaws false p Conn Zk}.
Local Abbreviation world := (SchedulerCore Conn * (Zk * W))%type.

(** The bytes of a state. *)
Definition bytes (ss : SchedulerState) : string := (zlib_compress (encoded ss)).1.

Lemma serialize_bytes {S} ss (e : S) : serialize ss e = (Ret (bytes ss), e).
Proof.
  unfold serialize, bytes. destruct (zlib_ok (encoded ss)) as (b & -> & _). done.
Qed.

Lemma bytes_strip ss ss' : strip ss = strip ss' -> bytes ss = bytes ss'.
Proof.
  intros Heq. unfold bytes, encoded. by rewrite <- (marshal_strip ss), Heq, marshal_strip.
Qed.

Lemma deserialize_bytes {S} ss (e : S) : encodable ss ->
  DeserializeSchedulerState (bytes ss) e = (Ret (decoded ss), e).
Proof.
  intros (text & Hm & Hu)%json_state_ok. unfold DeserializeSchedulerState, bytes, encoded.
  rewrite Hm. destruct (zlib_ok (text +:+ newline)) as (b & -> & Hd). cbn [fst].
  by rewrite Hd, Hu.
Qed.

Lemma deserialize_bad ss : ~ encodable ss ->
  exists msg, forall S (e : S), DeserializeSchedulerState (bytes ss) e = (Panic msg, e).
Proof.
  intros (err & Hu)%json_state_bad. exists err. intros S e. unfold DeserializeSchedulerState, bytes.
  destruct (zlib_ok (encoded ss)) as (b & -> & Hd). cbn [fst]. rewrite Hd.
  destruct (Unmarshal (encoded ss) emptySchedulerState) as [t e']. cbn in Hu. by subst e'.
Qed.

(** The bytes determine what is read. *)
Lemma bytes_inj ss ss' : encodable ss -> bytes ss = bytes ss' -> decoded ss = decoded ss'.
Proof.
  intros Hs Hb. pose proof (deserialize_bytes ss tt Hs) as Hd. rewrite Hb in Hd.
  destruct (decide (encodable ss')) as [Hs'|Hs'].
  - rewrite deserialize_bytes in Hd by done. congruence.
  - destruct (deserialize_bad ss' Hs') as [msg Hd']. by rewrite Hd' in Hd.
Qed.

Lemma bytes_encodable ss ss' : encodable ss -> bytes ss = bytes ss' -> encodable ss'.
Proof.
  intros Hs Hb. destruct (decide (encodable ss')) as [|Hs']; [done|].
  destruct (deserialize_bad ss' Hs') as [msg Hd]. specialize (Hd unit tt).
  by rewrite <- Hb, deserialize_bytes in Hd.
Qed.

(** The core has its connection and its node in ZooKeeper. *)
Definition core_ready (sc : SchedulerCore Conn) : Prop :=
  mgr_ok fw (sc_mgr sc) /\
  exists n, zkNode (schedulerState sc) = Some n /\ GetZKPath (ns n) = p.

(** The server has the bytes of some well-formed state. *)
Definition stored_wf (z : Zk) : Prop :=
  exists ss, state_wf fw ss /\ zk_stored (p := p) z = Some (bytes ss).

(** Memory and server agree. *)
Definition in_sync (w : world) : Prop :=
  zk_stored (p := p) w.2.1 = Some (bytes (schedulerState w.1)).

(** What is read from the server is what would be read of the memory, but for
    the address of the master, which [Run] only sets in memory. *)
Definition agrees (w : world) : Prop :=
  exists ss master, state_wf fw ss /\ zk_stored (p := p) w.2.1 = Some (bytes ss) /\
    decoded ss = decoded (set_MesosMaster master (schedulerState w.1)).

Definition inv (w : world) : Prop :=
  state_wf fw (schedulerState w.1) /\ core_ready w.1 /\ stored_wf w.2.1.

Lemma in_sync_agrees w : inv w -> in_sync w -> agrees w.
Proof.
  intros [Hwf _] Hs. exists (schedulerState w.1), (MesosMaster (schedulerState w.1)).
  split; [done|]. split; [done|]. by destruct (schedulerState w.1).
Qed.

(** The same state but for the ZooKeeper node. *)
Definition same_memory (w w' : world) : Prop :=
  schedulerState w'.1 = set_zkNode (zkNode (schedulerState w'.1)) (schedulerState w.1) /\
  rServer_enabled w'.1 = rServer_enabled w.1 /\ w'.2.2 = w.2.2.

Lemma bytes_set_zkNode n ss : bytes (set_zkNode n ss) = bytes ss.
Proof. by apply bytes_strip. Qed.

(** Whatever the state is, and whether or not it has JSON. *)
Lemma wpe_Persist_core (w : world) : core_ready w.1 ->
  wpe Persist
    (fun r w' => r = None /\ core_ready w'.1 /\ in_sync w' /\ same_memory w w')
    (fun x w' => x = panicked /\ core_ready w'.1 /\ same_memory w w' /\
      (zk_stored (p := p) w'.2.1 = zk_stored (p := p) w.2.1 \/ in_sync w')) w.
Proof.
  destruct w as [sc [z w]]. intros (Hmgr & n & Hn & Hns). cbn [fst snd] in *.
  unfold Persist, get_state. apply wpe_bind, wpe_bind, wpe_get_st, wpe_ret, wpe_bind. cbn [fst].
  apply wp_wpe. eapply wp_of_eq; [apply serialize_bytes|]. apply wpe_bind. rewrite Hn. apply wpe_ret.
  apply wpe_zoom_l. cbn [fst snd].
  eapply wpe_mono; [| |apply (wpe_SetDataWithRetry (eph := false) fw 10 (zk_stored z) (bytes (schedulerState sc)))].
  - intros err [[mgr' n'] z'] (-> & [Hm' Hn'] & Hz'). cbn [fst snd] in *.
    split; [done|]. split; [split; [done|]; by exists n'|].
    split; [unfold in_sync; cbn; by rewrite bytes_set_zkNode|done].
  - intros x [[mgr' n'] z'] (-> & [Hm' Hn'] & Hz'). cbn [fst snd] in *.
    split; [done|]. split; [split; [done|]; by exists n'|]. split; [done|].
    destruct Hz' as [Hz'|Hz']; [by left|right]. unfold in_sync. cbn. by rewrite bytes_set_zkNode.
  - done.
  - by left.
Qed.

Lemma wpe_Persist (w : world) : inv w ->
  wpe Persist
    (fun r w' => r = None /\ inv w' /\ in_sync w' /\ same_memory w w')
    (fun x w' => x = panicked /\ inv w' /\ same_memory w w') w.
Proof.
  intros (Hwf & Hcore & Hst).
  assert (forall w', same_memory w w' -> state_wf fw (schedulerState w'.1)) as Hkeep
    by (intros w' [-> _]; exact Hwf).
  eapply wpe_mono; [| |by apply wpe_Persist_core].
  - intros r w' (-> & Hc & Hs & Hm). split; [done|]. split; [|done]. split; [by apply Hkeep|].
    split; [done|]. exists (schedulerState w'.1). split; [by apply Hkeep|done].
  - intros x w' (-> & Hc & Hm & Hz). split; [done|]. split; [|done]. split; [by apply Hkeep|].
    split; [done|]. destruct Hz as [Hz|Hz].
    + destruct Hst as (ss & ? & ?). exists ss. split; [done|]. by rewrite Hz.
    + exists (schedulerState w'.1). split; [by apply Hkeep|done].
Qed.

(** *** Reading the state back *)

Lemma checked_state_child (n : ZkNode) (w : MetadataManager Conn * Zk) :
  ns n = root_ns fw ->
  checked_child n "SchedulerState" w = (Ret (state_ns fw), w).
Proof. intros Hn. unfold checked_child. rewrite Hn. by vm_compute. Qed.

(** What is restored: the state whose bytes are stored, or the empty one. *)
Definition restored (stored : option string) (ss0 : SchedulerState) : Prop :=
  encodable ss0 /\
  (stored = Some (bytes ss0) \/ stored = None /\ ss0 = emptySchedulerState).

Lemma wpe_create_state (w : MetadataManager Conn * Zk) (n : ZkNode) :
  mgr_ok fw w.1 -> zk_stored (p := p) w.2 = None -> ns n = root_ns fw ->
  wpe (MakeChildWithData n "SchedulerState" (bytes emptySchedulerState) false)
    (fun r w' => mgr_ok fw w'.1 /\
      zk_stored (p := p) w'.2 = Some (bytes emptySchedulerState) /\
      read_outcome (p := p) (state_ns fw) w'.2 r)
    (fun x w' => x = panicked /\ (zk_stored (p := p) w'.2 = None \/
      zk_stored (p := p) w'.2 = Some (bytes emptySchedulerState))) w.
Proof.
  intros Hm Hs Hn. unfold MakeChildWithData. apply wpe_bind, wp_wpe.
  eapply wp_of_eq; [by apply checked_state_child|].
  apply (wpe_makeNodeWithData (eph := false)); [by rewrite Hp|done|by left].
Qed.

(** What [GetSchedulerState] leaves when it panics. *)
Definition read_failed (stored : option string) (x : ending) (w : MetadataManager Conn * Zk) : Prop :=
  x = panicked /\ (zk_stored (p := p) w.2 = stored \/
    stored = None /\ zk_stored (p := p) w.2 = Some (bytes emptySchedulerState)).

Lemma wpe_read_existing ss (n : ZkNode) (w : MetadataManager Conn * Zk) :
  mgr_ok fw w.1 -> zk_stored (p := p) w.2 = Some (bytes ss) -> zdata n = bytes ss -> GetZKPath (ns n) = p ->
  wpe (ss ← DeserializeSchedulerState (GetData n); mret (set_zkNode (Some n) ss))
    (fun ss' w' => mgr_ok fw w'.1 /\ exists n ss0, GetZKPath (ns n) = p /\
      ss' = set_zkNode (Some n) (decoded ss0) /\ restored (Some (bytes ss)) ss0 /\
      zk_stored (p := p) w'.2 = Some (bytes ss0))
    (read_failed (Some (bytes ss))) w.
Proof.
  intros Hm Hs Hd Hns. apply wpe_bind. unfold GetData. rewrite Hd.
  destruct (decide (encodable ss)) as [He|He].
  - apply wp_wpe. eapply wp_of_eq; [by apply deserialize_bytes|]. apply wpe_ret. split; [done|].
    exists n, ss. split; [done|]. split; [done|]. split; [|done]. split; [done|by left].
  - destruct (deserialize_bad ss He) as [msg Hmsg]. unfold wpe. rewrite Hmsg. split; [done|by left].
Qed.

Lemma wpe_GetSchedulerState stored (w : MetadataManager Conn * Zk) :
  mgr_ok fw w.1 -> zk_stored (p := p) w.2 = stored ->
  (forall d, stored = Some d -> exists ss, d = bytes ss) ->
  wpe GetSchedulerState
    (fun ss w' => mgr_ok fw w'.1 /\ exists n ss0, GetZKPath (ns n) = p /\
      ss = set_zkNode (Some n) (decoded ss0) /\ restored stored ss0 /\
      zk_stored (p := p) w'.2 = Some (bytes ss0))
    (read_failed stored) w.
Proof.
  intros Hm Hs Henc. unfold GetSchedulerState. apply wpe_bind.
  eapply wpe_mono; [| |by apply (wpe_GetRootNode (eph := false) fw 10 stored)];
    [|intros x w' [-> ?]; split; [done|by left]].
  intros r w1 (Hm1 & Hs1 & root & -> & Hroot). apply wpe_bind, wpe_ret, wpe_bind.
  unfold GetChild. apply wpe_bind, wp_wpe. eapply wp_of_eq; [by apply checked_state_child|].
  eapply wpe_mono; [| |by apply (wpe_getNode (eph := false) fw _ stored)];
    [|intros x w' [-> ?]; split; [done|by left]].
  intros [node err] w2 (Hm2 & Hs2 & Hr). cbn [fst snd still] in *. case_decide as Herr.
  - subst err. destruct node; [done|]. cbn in Hr. specialize (Hr eq_refl (eq_sym Hp)).
    rewrite Hr in Hs2. subst stored. rewrite <- Hs2 in *. apply wpe_bind.
    eapply wpe_mono; [| |by apply (wpe_GetRootNode (eph := false) fw 10 None)];
      [|intros x w' [-> ?]; split; [done|by left]].
    intros r w3 (Hm3 & Hs3 & root' & -> & Hroot'). apply wpe_bind, wpe_ret, wpe_bind, wp_wpe.
    eapply wp_of_eq; [apply serialize_bytes|]. apply wpe_bind.
    eapply wpe_mono; [| |by apply wpe_create_state];
      [|intros x w' [-> [?|?]]; split; auto].
    intros [node err] w4 (Hm4 & Hs4 & Hr4). cbn [fst snd].
    destruct node as [n|], err as [err|]; cbn in Hr4; try done.
    + apply wpe_ret. split; [done|]. destruct Hr4 as [Hns _].
      exists n, emptySchedulerState. rewrite Hns, decoded_empty. split; [done|]. split; [done|].
      split; [|done]. split; [apply encodable_empty|by right].
    + apply wpe_panic. split; [done|]. by right.
  - destruct node as [n|], err as [err|]; cbn in Hr; try done.
    + apply wpe_bind, wpe_ret. destruct Hr as (Hns & _ & Hd).
      specialize (Hd (eq_sym Hp)). rewrite Hs2 in Hd. destruct (Henc _ Hd) as (ss & Hb).
      rewrite Hd, Hb. apply wpe_read_existing; [done|congruence|done|by rewrite Hns].
    + apply wpe_bind, wpe_deref; [done|]. intros _. split; [done|]. by left.
Qed.
End persistence.
