(* ===== verification/Codec.v ===== *)
(** * Codecs for concrete runs

    A text encoding of the scheduler's state that satisfies the laws [State]
    relies on: the fields one after the other as stdpp's [encode] makes them
    positive numbers, written in binary. *)

From S2P Require Import Prelude GoStrings Float64 Mesos Structs Ser Node Cluster Decoding Metadata State.
From stdpp Require Import countable.
From Stdlib Require Import Ascii SpecFloat.

#[local] Open Scope string_scope.
#[local] Open Scope list_scope.
#[local] Open Scope Z_scope.

(** ** Countable types *)

#[export] Instance spec_float_eq_dec : EqDecision spec_float.
Proof. solve_decision. Defined.
#[export] Instance spec_float_countable : Countable spec_float.
Proof.
  refine (inj_countable'
    (fun x => match x with
      | S754_zero b => inl (inl b) | S754_infinity b => inl (inr b)
      | S754_nan => inr (inl ()) | S754_finite s m e => inr (inr (s, m, e)) end)
    (fun y => match y with
      | inl (inl b) => S754_zero b | inl (inr b) => S754_infinity b
      | inr (inl _) => S754_nan | inr (inr (s, m, e)) => S754_finite s m e end) _).
  by intros [].
Defined.
#[export] Instance float64_eq_dec : EqDecision float64 := spec_float_eq_dec.
#[export] Instance float64_countable : Countable float64 := spec_float_countable.

#[export] Instance TaskState_countable : Countable TaskState.
Proof.
  refine (inj_countable'
    (fun x => match x with
      | TASK_STAGING => (0, 0) | TASK_STARTING => (1, 0) | TASK_RUNNING => (2, 0)
      | TASK_FINISHED => (3, 0) | TASK_FAILED => (4, 0) | TASK_KILLED => (5, 0)
      | TASK_LOST => (6, 0) | TASK_ERROR => (7, 0) | TASK_other n => (8, n) end)
    (fun y : Z * Z => match y.1 with
      | 0 => TASK_STAGING | 1 => TASK_STARTING | 2 => TASK_RUNNING | 3 => TASK_FINISHED
      | 4 => TASK_FAILED | 5 => TASK_KILLED | 6 => TASK_LOST | 7 => TASK_ERROR
      | _ => TASK_other y.2 end) _).
  by intros [].
Defined.

#[export] Instance ProcessState_countable : Countable ProcessState.
Proof.
  refine (inj_countable' state_index
    (fun z => match z with
      | 1 => Reserved | 2 => Starting | 3 => Started | 4 => ShuttingDown | 5 => Shutdown
      | 6 => Failed | 7 => Restarting | _ => Unknown end) _). by intros [].
Defined.

(** ** Serializing *)

#[export] Instance ser_float : Ser float64 := ser_leaf.
#[export] Instance ser_TaskState : Ser TaskState := ser_leaf.
#[export] Instance ser_ProcessState : Ser ProcessState := ser_leaf.
#[export] Instance ser_TaskStatus : Ser TaskStatus.
Proof.
  refine (ser_inj (fun x => (ts_TaskId x, ts_State x, ts_SlaveId x, ts_Data x))
    (fun '(a, b, c, d) => mk_TaskStatus a b c d) _). by intros [].
Defined.

#[export] Instance ser_node : Ser FrameworkRiakNode.
Proof.
  refine (ser_inj
    (fun x => (reconciled x, lastAskedToReconcile x, SimpleId x, DestinationState x, CurrentState x,
       n_TaskStatus x, n_Generation x, SlaveID x, Hostname x, n_TaskData x, FrameworkName x,
       ClusterName x, Role x, Principal x, n_Cpus x, n_Mem x, n_Disk x, n_Ports x, UUID x,
       ContainerPath x, RestartGeneration x))
    (fun '(a, b, c, d, e, f, g, h, i, j, k, l, m, n, o, p, q, r, s, t, u) =>
       mk_FrameworkRiakNode a b c d e f g h i j k l m n o p q r s t u) _). by intros [].
Defined.

#[export] Instance ser_cluster : Ser FrameworkRiakCluster.
Proof.
  refine (ser_inj
    (fun x => (c_Name x, Nodes x, Graveyard x, RiakConfig x, AdvancedConfig x, IsKilled x,
       c_IsRestarting x, c_Generation x))
    (fun '(a, b, c, d, e, f, g, h) => mk_FrameworkRiakCluster a b c d e f g h) _). by intros [].
Defined.

(** The node in ZooKeeper is not part of it. *)
Definition state_tuple (ss : SchedulerState) :=
  (MesosMaster ss, FrameworkID ss, Clusters ss, s_Graveyard ss).

Definition write_state (ss : SchedulerState) : positive := positives_flatten (ser (state_tuple ss)).
Definition read_state (p : positive) : option SchedulerState :=
  l ← positives_unflatten p;
  r ← de l;
  let '(a, b, c, d) := r.1 in Some (mk_SchedulerState None a b c d).

Lemma read_write ss : zkNode ss = None -> read_state (write_state ss) = Some ss.
Proof.
  intros Hz. unfold read_state, write_state. rewrite positives_unflatten_flatten. cbn [mbind option_bind].
  rewrite <- (app_nil_r (ser _)), de_ser. cbn. destruct ss. cbn in Hz. by subst.
Qed.

(** ** The codec *)

Module SimCodec.
#[export] Instance json_state : Json SchedulerState :=
  {| Marshal ss :=
       if decide (encodable ss) then (bits (write_state (decoded ss)), None)
       else ("", Some "json: unsupported value");
     Unmarshal s z :=
       match read_state (unbits s) with
       | Some ss => (ss, None)
       | None => (z, Some "invalid character")
       end |}.

(** The identity, which is a compression. *)
#[export] Instance zlib : Zlib := {| zlib_compress s := (s, None); zlib_decompress s := inl s |}.

#[export] Instance laws : StateCodecLaws.
Proof.
  split.
  - intros text. by exists text.
  - intros ss. unfold Marshal, json_state. rewrite decoded_strip.
    apply decide_ext, strip_encodable.
  - intros ss Hss. unfold Marshal, Unmarshal, json_state. rewrite decide_True by done.
    eexists. split; [done|]. by rewrite unbits_bits, read_write.
  - intros ss Hss. unfold encoded, Marshal, Unmarshal, json_state. rewrite decide_False by done.
    eexists. reflexivity.
Qed.
End SimCodec.
