(* ===== verification/Persistence.v ===== *)
(** * What survives a restart of the scheduler

    Theorems on [State]: what is persisted is what a new process reads back,
    and what it may do with it. *)

From S2P Require Import Prelude GoStrings Float64 Mesos Structs Node Cluster Decoding Metadata State Codec.

#[local] Open Scope string_scope.
#[local] Open Scope list_scope.
#[local] Open Scope Z_scope.

Section persistence_properties.
Context `{!Json SchedulerState, !Zlib, !StateCodecLaws}.
Context {Conn Zk W : Type} `{!ZkApi Conn Zk}.
Context `{!Legible} (fw : string).
Local Abbreviation p := (GetZKPath (state_ns fw)).
Context `{!ZkPath p Zk, !ZkLaws false p Conn Zk}.
Local Abbreviation world := (SchedulerCore Conn * (Zk * W))%type.

(** A new process: the manager, then the state. *)
Definition restart (zookeepers : list string) : M (MetadataManager Conn * Zk) SchedulerState :=
  NewMetadataManager fw zookeepers ;; GetSchedulerState.

Lemma wpe_restart stored zks w :
  zk_stored (p := p) w.2 = stored ->
  (forall d, stored = Some d -> exists ss, d = bytes ss) ->
  wpe (restart zks)
    (fun ss w' => mgr_ok fw w'.1 /\ exists n ss0, GetZKPath (ns n) = p /\
      ss = set_zkNode (Some n) (decoded ss0) /\ restored stored ss0 /\
      zk_stored (p := p) w'.2 = Some (bytes ss0))
    (read_failed p stored) w.
Proof.
  intros Hs Henc. apply wpe_bind.
  eapply wpe_mono; [| |apply (wpe_NewMetadataManager (eph := false) fw _ stored); [apply state_not_above|done]].
  - intros u w' [Hm Hs']. by apply wpe_GetSchedulerState.
  - intros x w' [-> Hs']. split; [done|by left].
Qed.

(** A node that may have a task. *)
Definition has_task (n : FrameworkRiakNode) : Prop := state_index Reserved < state_index (CurrentState n).

Lemma decode_needs_reconciliation n : has_task n -> NeedsToBeReconciled (decode_node n) = true.
Proof. unfold has_task, NeedsToBeReconciled. cbn. by destruct (CurrentState n). Qed.

Lemma decoded_not_scheduled ss name c k n :
  Clusters (decoded ss) !! name = Some c -> Nodes c !! k = Some n -> has_task n -> CanBeScheduled n = false.
Proof.
  intros (? & c0 & _ & _ & ->)%decode_map_from (? & n0 & _ & _ & ->)%decode_map_from Ht.
  unfold CanBeScheduled. by rewrite decode_needs_reconciliation.
Qed.


(** On a server that has no state a new process starts with the empty
    state and stores it; on one that has a state it never overwrites it. *)
Theorem first_start (zks : list string) (w : MetadataManager Conn * Zk) :
  (forall d, zk_stored (p := p) w.2 = Some d -> exists ss, d = bytes ss) ->
  wpe (restart zks)
    (fun ss w' => match zk_stored (p := p) w.2 with
      | None => ss = set_zkNode (zkNode ss) emptySchedulerState /\
                zk_stored (p := p) w'.2 = Some (bytes emptySchedulerState)
      | Some d => zk_stored (p := p) w'.2 = Some d
      end)
    (fun x w' => x = panicked /\ (zk_stored (p := p) w'.2 = zk_stored (p := p) w.2 \/
      zk_stored (p := p) w.2 = None)) w.
Proof.
  intros Henc. eapply wpe_mono; [| |by apply (wpe_restart (zk_stored (p := p) w.2))].
  - intros ss w' (_ & n & ss0 & _ & -> & [_ Hr] & ->).
    destruct Hr as [-> | [-> ->]]; done.
  - intros x w' [-> [?|[? _]]]; split; auto.
Qed.

(** Bytes that [GetSchedulerState] panics on. *)
Definition unreadable (b : string) : Prop :=
  exists msg, forall w : MetadataManager Conn * Zk, DeserializeSchedulerState b w = (Panic msg, w).

(** When the state has no JSON, [Persist] reports success and replaces the stored
    state by one that the next process panics on. *)
Theorem encode_error_lost (w : world) :
  core_ready fw p w.1 -> ~ encodable (schedulerState w.1) ->
  wpe Persist (fun r w' => r = None /\ exists b, zk_stored (p := p) w'.2.1 = Some b /\ unreadable b)
    (fun x _ => x = panicked) w.
Proof.
  intros Hcore Hbad. eapply wpe_mono; [| |by apply wpe_Persist_core]; [|by intros x w' [-> _]].
  intros r w' (-> & _ & Hsync & [Hsame _]). split; [done|].
  unfold in_sync in Hsync. rewrite Hsame, bytes_set_zkNode in Hsync.
  eexists. split; [exact Hsync|].
  destruct (deserialize_bad (schedulerState w.1) Hbad) as [msg Hmsg]. exists msg. intros v. apply Hmsg.
Qed.
End persistence_properties.

Section persistence_witnesses.
Import SimZk SimCodec SimCluster.
#[local] Instance ex_legible : Legible := true.

Definition ex_core (ss : SchedulerState) : SchedulerCore unit :=
  mk_SchedulerCore (mk_MetadataManager "riak" (Some tt) (Some (root_ns "riak")) None [])
    (set_zkNode (Some (mk_ZkNode (Some (mk_Stat 0)) "" (state_ns "riak"))) ss) false.

(** A cluster with a node of which all is known, and one that has no JSON. *)
Definition ex_state (cpus : float64) : SchedulerState :=
  let n := node_at 1 Started Started in
  let n := mk_FrameworkRiakNode true 0 1 Started Started None 1 (Some "s1") "h" zero_TaskData "riak" "a"
    (Some "role") (Some "principal") cpus (f64_of_Z 1) (f64_of_Z 1) 10 "u" "root" 0 in
  mk_SchedulerState None "" (Some "f1")
    {["a" := mk_FrameworkRiakCluster "a" {["riak-a-1" := n]} ∅ "" "" false false 0]} ∅.

Definition ex_zk (d : string) (fs : list bool) : zsim :=
  mk_zsim {["/riak/frameworks/riak/SchedulerState" := (d, 0)]} fs.

Lemma ex_state_wf `{!Legible} n : state_wf "riak" (set_zkNode n (ex_state (f64_of_Z 4))).
Proof.
  split; [|cbn; auto with go]. apply map_Forall_singleton. split; [done|].
  split; [|split; [by apply map_Forall_singleton|cbn; auto with go]].
  split; [|split; cbn; auto with go].
  apply map_Forall_singleton. split; [reflexivity|]. split; [reflexivity|]. split; [reflexivity|].
  split; [by vm_compute|]. split.
  - split; [by exists "principal"|]. split; [by exists "role"|]. by vm_compute.
  - split; [|split]; vm_compute; reflexivity.
Qed.

Lemma ex_core_ready ss : core_ready "riak" "/riak/frameworks/riak/SchedulerState" (ex_core ss).
Proof.
  split; [split; [by eexists|done]|]. eexists. split; reflexivity.
Qed.


Lemma first_start_witness :
  let w := (ex_mgr, mk_zsim ∅ [true; false]) in
  wpe (restart "riak" ["zk"])
    (fun ss w' => match zk_stored (p := GetZKPath (state_ns "riak")) w.2 with
      | None => ss = set_zkNode (zkNode ss) emptySchedulerState /\
          zk_stored (p := GetZKPath (state_ns "riak")) w'.2 = Some (bytes emptySchedulerState)
      | Some d => zk_stored (p := GetZKPath (state_ns "riak")) w'.2 = Some d
      end)
    (fun x w' => x = panicked /\
      (zk_stored (p := GetZKPath (state_ns "riak")) w'.2 =
         zk_stored (p := GetZKPath (state_ns "riak")) w.2 \/
       zk_stored (p := GetZKPath (state_ns "riak")) w.2 = None)) w.
Proof.
  intros w. assert (forall d, zk_stored (p := GetZKPath (state_ns "riak")) w.2 = Some d ->
    exists ss, d = bytes ss) as H by (intros d Hd; discriminate Hd).
  exact (first_start "riak" ["zk"] w H).
Defined.

Lemma encode_error_lost_witness :
  let w := (ex_core (ex_state (SpecFloat.S754_infinity false)), (ex_zk "old" [], tt)) in
  wpe Persist (fun r w' => r = None /\ exists b,
      zk_stored (p := GetZKPath (state_ns "riak")) w'.2.1 = Some b /\ unreadable (Conn := unit) (Zk := zsim) b)
    (fun x _ => x = panicked) w.
Proof.
  intros w. refine (encode_error_lost "riak" w (ex_core_ready _) _).
  intros [Hc _]. specialize (Hc "a" _ (lookup_singleton_eq _ _)). destruct Hc as [Hn _].
  specialize (Hn "riak-a-1" _ (lookup_singleton_eq _ _)). destruct Hn as [[Hf _] _]. discriminate Hf.
Defined.

(** A configuration whose body is not UTF-8 is another one after a restart. *)
Lemma config_altered :
  let body := String (Ascii.ascii_of_nat 255) "" in
  let ss := ex_state (f64_of_Z 4) in
  let ss := set_Clusters (set_RiakConfig body <$> Clusters ss) ss in
  match Persist (ex_core ss, (ex_zk "old" [], tt)) with
  | (Ret None, (_, (z, _))) =>
      match restart "riak" ["zk"] (ex_mgr, z) with
      | (Ret ss', _) => RiakConfig <$> Clusters ss' !! "a" = Some RuneError
      | _ => False
      end
  | _ => False
  end.
Proof. vm_compute. reflexivity. Qed.
End persistence_witnesses.
