(* ===== verification/Scheduler.v ===== *)
(** * [scheduler/scheduler.go] and [scheduler/reconcilation.go]

    The callbacks of the Mesos driver and the ticks of the reconciliation
    server.  Each runs under the scheduler's lock, so it is one step on the
    [SchedulerCore]; the goroutines that accept offers run outside of it and
    are returned.  A pointer to a cluster is its key in [Clusters]. *)

From S2P Require Import Prelude GoStrings Float64 Mesos Host Utils Structs Offer Node Explorer Cluster Decoding Metadata Cepm State.

#[local] Open Scope string_scope.
#[local] Open Scope list_scope.
#[local] Open Scope Z_scope.

(** ** The driver *)

Inductive DriverStatus := DRIVER_RUNNING | DRIVER_other (status : Z).

#[export] Instance DriverStatus_eq_dec : EqDecision DriverStatus.
Proof. solve_decision. Defined.

(** What the framework registers as. *)
Record FrameworkInfo := mk_FrameworkInfo {
  fi_Name : string;
  fi_Id : option string;
  fi_FailoverTimeout : float64;
  fi_WebuiUrl : string;
  fi_Checkpoint : bool;
  fi_Role : string;
  fi_User : string;
  fi_Principal : option string }.

(** What a driver is made from.  The context of [WithAuthContext] has the login
    provider, and the binding address if there is one, which is looked up each
    time. *)
Record DriverConfig := mk_DriverConfig {
  dc_Framework : FrameworkInfo;
  dc_Master : string;
  dc_Credential : option (string * string);      (* principal and secret *)
  dc_HostnameOverride : string;
  dc_BindingAddress : option string;
  dc_WithAuthContext : option (string * option string) }.

(** [scheduler.SchedulerDriver] of mesos-go: status and error of each call. *)
Class SchedulerDriver (E : Type) := {
  NewMesosSchedulerDriver : DriverConfig -> M E (option string);
  SendFrameworkMessage : string -> option string -> string -> M E (DriverStatus * option string);
  KillTask : string -> M E (DriverStatus * option string);
  ReconcileTasks : list TaskStatus -> M E (DriverStatus * option string);
  LaunchTasks : list string -> list TaskInfo -> float64 -> M E (DriverStatus * option string);
  AcceptOffers : list string -> list Offer_Operation -> float64 -> M E (DriverStatus * option string) }.

Definition OFFER_INTERVAL : float64 := f64_of_Z 5.

Section scheduler.
Context `{!MesosUtil, !Json TaskData, !Json JoinReply, !Json ForceRemoveReply}.
Context `{!Json SchedulerState, !Zlib}.
Context {Conn Zk W : Type} `{!ZkApi Conn Zk}.
Context `{!GoRand W, !GoEnv W, !GoUuid W, !GoMap W, !GoTime W, !HttpClient W, !SchedulerDriver W}.
Context (sc : SchedulerConf).
Local Abbreviation Core := (M (SchedulerCore Conn * (Zk * W))).

Definition put_cluster (name : string) (frc : FrameworkRiakCluster) : Core unit :=
  upd_state (fun ss => set_Clusters (<[name := frc]> (Clusters ss)) ss).

(** ** Offers *)

(** [ApplyOffer] of the cluster called [name]. *)
Definition ApplyOffer (name : string) (offerHelper : OfferHelper) : Core (OfferHelper * bool) :=
  ss ← get_state;
  frc ← deref (Clusters ss !! name);
  st ← io (ApplyOffer_loop sc frc offerHelper);
  put_cluster name (as_cluster st) ;;
  (if as_dirty st then Persist ;; mret tt else mret tt) ;;
  mret (as_offer st, as_needs st).

Definition offer_clusters (offerHelper : OfferHelper) : Core (OfferHelper * bool) :=
  ss ← get_state;
  names ← io (range (Clusters ss));
  mfoldl (fun st name =>
    r ← ApplyOffer name st.1;
    mret (r.1, if (r.2 : bool) then true else st.2)) (offerHelper, false) names.

Definition operations_for (offer : Offer) : Core (list Offer_Operation) :=
  offerHelper ← NewOfferHelper offer;
  r ← offer_clusters offerHelper;
  let offerHelper := if negb (r.2 : bool) then MaybeUnreserve r.1 else r.1 in
  mret (Operations offerHelper).

Definition createOperationsForOffers (offers : list Offer) : Core (gmap string (list Offer_Operation)) :=
  mfoldl (fun operations offer =>
    ops ← operations_for offer;
    mret (<[o_Id offer := ops]> operations)) ∅ offers.

(** The goroutines it starts: an offer and what to do with it. *)
Definition ResourceOffers (offers : list Offer) : Core (list (Offer * list Offer_Operation)) :=
  operations ← createOperationsForOffers offers;
  mret ((fun offer => (offer, default [] (operations !! o_Id offer))) <$> offers).

Definition is_launch (op : Offer_Operation) : bool :=
  match op_Type op with Offer_Operation_LAUNCH => true | _ => false end.

(** The tasks of the last LAUNCH operation. *)
Definition launch_tasks (operations : list Offer_Operation) : list TaskInfo :=
  foldl (fun tasks op => if is_launch op then op_TaskInfos op else tasks) [] operations.

Definition acceptOffer (offer : Offer) (operations : list Offer_Operation) : M W unit :=
  r ← (if compatibilityMode sc
       then LaunchTasks [o_Id offer] (launch_tasks operations) OFFER_INTERVAL
       else AcceptOffers [o_Id offer] operations OFFER_INTERVAL);
  if negb (bool_decide (r.1 = DRIVER_RUNNING))
  then mfatal "Driver not running, while trying to accept offers"
  else match r.2 with
       | Some err => mpanic ("Failed to launch tasks: " +:+ err)
       | None => mret tt
       end.

(** ** Status updates *)

Definition find_status (status : TaskStatus) (names : list string) : Core bool :=
  mfoldl_brk (fun found name =>
    ss ← get_state;
    cluster ← deref (Clusters ss !! name);
    if HasNode cluster (ts_TaskId status) then
      c' ← io (HandleNodeStatusUpdate status cluster);
      put_cluster name c' ;;
      mret (true, false)
    else mret (found, true)) false names.

(** The search of the graveyard only decides what is logged. *)
Definition StatusUpdate (status : TaskStatus) : Core unit :=
  ss ← get_state;
  names ← io (range (Clusters ss));
  foundNode ← find_status status names;
  if (foundNode : bool) then Persist ;; mret tt
  else
    names ← io (range (s_Graveyard ss));
    _ ← mfoldl_brk (fun found name =>
      cluster ← deref (s_Graveyard ss !! name);
      mret (if HasNode cluster (ts_TaskId status) then (true, false) else (found, true)))
      false names;
    mret tt.

(** ** Registration *)

Definition enable : Core unit := upd_st (set_enabled true).
Definition disable : Core unit := upd_st (set_enabled false).

Definition Registered (frameworkId : option string) : Core unit :=
  upd_state (set_FrameworkID frameworkId) ;;
  _ ← Persist;
  enable.

Definition Reregistered : Core unit := enable.

(** ** Reconciliation *)

Definition finishRiakNode (riakNode : FrameworkRiakNode) : M W bool :=
  r ← SendFrameworkMessage (ExecutorID riakNode) (SlaveID riakNode) "finish";
  if negb (bool_decide (r.1 = DRIVER_RUNNING))
  then mfatal "Driver not running, while trying to send framework message"
  else mret (bool_decide (r.2 = None)).

Definition killRiakNode (riakNode : FrameworkRiakNode) : M W bool :=
  r ← KillTask (CurrentID riakNode);
  if negb (bool_decide (r.1 = DRIVER_RUNNING))
  then mfatal "Driver not running, while trying to kill tasks"
  else mret (bool_decide (r.2 = None)).

(** Finish the nodes that [picked] points to, or kill them. *)
Definition stop_nodes (frc : FrameworkRiakCluster) (picked : gmap string string) : M W unit :=
  ids ← range picked;
  mfoldl (fun _ id =>
    key ← deref (picked !! id);
    riakNode ← deref (Nodes frc !! key);
    ok ← finishRiakNode riakNode;
    if negb (ok : bool) then killRiakNode riakNode ;; mret tt else mret tt) tt ids.

Definition remove_nodes (frc : FrameworkRiakCluster) (picked : gmap string string) :
    M W FrameworkRiakCluster :=
  ids ← range picked;
  mfoldl (fun c id =>
    key ← deref (picked !! id);
    riakNode ← deref (Nodes frc !! key);
    mret (RemoveNode riakNode c)) frc ids.

(** The first part of the body of the loop: the nodes to kill and remove. *)
Definition kill_and_remove (frc : FrameworkRiakCluster) : M W (FrameworkRiakCluster * bool) :=
  r ← GetNodesToKillOrRemove frc;
  stop_nodes frc r.1 ;;
  if (0 <? size r.2)%nat
  then frc' ← remove_nodes frc r.2; mret (frc', true)
  else mret (frc, false).

(** Move a cluster to the graveyard; the pointer then lives there. *)
Definition bury (frc : FrameworkRiakCluster) : Core unit :=
  upd_state (fun ss =>
    set_Clusters (delete (c_Name frc) (Clusters ss))
      (set_s_Graveyard (<[c_Name frc := frc]> (s_Graveyard ss)) ss)).

Definition put_buried (frc : FrameworkRiakCluster) : Core unit :=
  upd_state (fun ss => set_s_Graveyard (<[c_Name frc := frc]> (s_Graveyard ss)) ss).

Definition kill_cluster (stateDirty : bool) (name : string) : Core bool :=
  ss ← get_state;
  cluster ← deref (Clusters ss !! name);
  r ← io (kill_and_remove cluster);
  put_cluster name r.1 ;;
  let buried := Cluster_CanBeRemoved r.1 in
  (if buried then bury r.1 else mret tt) ;;
  t ← io (GetNodesToRestart r.1);
  (if buried then put_buried t.1.1 else put_cluster name t.1.1) ;;
  io (stop_nodes t.1.1 t.1.2) ;;
  mret (stateDirty || r.2 || buried || t.2).

Definition killTasks : Core unit :=
  ss ← get_state;
  names ← io (range (Clusters ss));
  stateDirty ← mfoldl kill_cluster false names;
  if (stateDirty : bool) then Persist ;; mret tt else mret tt.

Definition reconcileTasks : Core bool :=
  ss ← get_state;
  names ← io (range (Clusters ss));
  mfoldl (fun tasksReconcilable name =>
    ss ← get_state;
    cluster ← deref (Clusters ss !! name);
    r ← io (GetNodeTasksToReconcile cluster);
    put_cluster name r.1 ;;
    if (length r.2 =? 0)%nat then mret tasksReconcilable
    else io (ReconcileTasks r.2) ;; mret true) false names.

Definition reconcile : Core unit :=
  c ← get_st;
  if rServer_enabled c then
    reconciling ← reconcileTasks;
    if negb (reconciling : bool) then killTasks else mret tt
  else mret tt.

(** ** Starting *)

(** [server.go]: the first address of a name. *)
Definition parseIP {E} `{!GoNet E} (address : string) : M E string :=
  addr ← net_LookupIP address;
  match addr.2, addr.1 with
  | Some err, _ => mfatal err
  | None, [] => mfatal ("failed to parse IP from address '" +:+ address +:+ "'")
  | None, ip :: _ => mret ip
  end.

(** Up to the HTTP server; the port mapper goes on in the background. *)
Definition NewSchedulerCore `{!GoNet W} : M (MetadataManager Conn * (Zk * W)) (SchedulerCore Conn) :=
  in_zk (NewMetadataManager (frameworkName sc) (zookeepers sc)) ;;
  ss ← in_zk GetSchedulerState;
  _ ← NewCPMd 0;
  mgr ← get_st;
  mret (mk_SchedulerCore mgr ss false).

Definition framework_info (ss : SchedulerState) : FrameworkInfo :=
  {| fi_Name := frameworkName sc;
     fi_Id := FrameworkID ss;
     fi_FailoverTimeout := f64_of_Z 86400;
     fi_WebuiUrl := GetURI (schedulerHTTPServer sc);
     fi_Checkpoint := true;
     fi_Role := frameworkRole sc;
     fi_User := if nonempty (sched_user sc) then sched_user sc else "guest";
     fi_Principal := if nonempty (mesosAuthPrincipal sc) then Some (mesosAuthPrincipal sc) else None |}.

(** The secret is read only for a principal. *)
Definition credential {E} `{!GoFiles E} : M E (option (string * string)) :=
  if nonempty (mesosAuthSecretFile sc) && nonempty (mesosAuthPrincipal sc) then
    secret ← ioutil_ReadFile (mesosAuthSecretFile sc);
    match secret.2 with
    | Some err => mfatal err
    | None => mret (Some (mesosAuthPrincipal sc, secret.1))
    end
  else mret None.

Definition driver_config {E} `{!GoNet E, !GoFiles E} (mesosMaster : string) (fwinfo : FrameworkInfo) :
    M E DriverConfig :=
  cred ← credential;
  hostname ← os_Hostname;
  match hostname.2 with
  | Some err => mfatal err
  | None =>
      address ← (if nonempty (schedulerIPAddr sc)
                 then ip ← parseIP (schedulerIPAddr sc); mret (Some ip) else mret None);
      mret {| dc_Framework := fwinfo;
              dc_Master := mesosMaster;
              dc_Credential := cred;
              dc_HostnameOverride := hostname.1;
              dc_BindingAddress := address;
              dc_WithAuthContext :=
                if nonempty (authProvider sc) && nonempty (mesosAuthPrincipal sc)
                then Some (authProvider sc,
                           if nonempty (schedulerIPAddr sc) then Some (schedulerIPAddr sc) else None)
                else None |}
  end.

(** [Run] up to [driver.Run]: the reconciliation server starts disabled; a
    driver that could not be made is nil. *)
Definition Run `{!GoNet W, !GoFiles W} (mesosMaster : string) : Core DriverConfig :=
  upd_state (set_MesosMaster mesosMaster) ;;
  ss ← get_state;
  config ← io (driver_config mesosMaster (framework_info ss));
  err ← io (NewMesosSchedulerDriver config);
  disable ;;
  in_mgr (SetupFramework (server_URI (schedulerHTTPServer sc))) ;;
  match err with
  | Some _ => mpanic "invalid memory address or nil pointer dereference"
  | None => mret config
  end.
End scheduler.

(** ** Reading an offer *)

Section offers.
Context `{!MesosUtil, !MesosUtilLaws}.

(** The ports of the resources that [getPorts] reads. *)
Definition ports_of (rs : list Resource) (withReservation : bool) : list Z :=
  concat ((fun r => concat (range_ports <$> r_Ranges r)) <$>
    FilterResources rs (matches "ports" withReservation)).

(** An offer as Mesos makes it: ranges of ports, no port twice. *)
Definition offer_ok (o : Offer) : Prop :=
  Forall (fun r => Forall range_ok (r_Ranges r)) (o_Resources o) /\
  NoDup (ports_of (o_Resources o) false) /\ Forall port_ok (ports_of (o_Resources o) false).

Lemma getPorts_eq {E} rs b (e : E) : Forall (fun r => Forall range_ok (r_Ranges r)) rs ->
  getPorts rs b e = (Ret (ports_of rs b), e).
Proof.
  intros Hrs. unfold getPorts, ports_of. rewrite FilterResources_filter.
  assert (Forall (fun r => Forall range_ok (r_Ranges r)) (List.filter (matches "ports" b) rs)) as Hf.
  { rewrite Forall_forall in Hrs |- *. intros r Hr. apply Hrs.
    apply list_elem_of_In, filter_In in Hr as [Hr _]. by apply list_elem_of_In. }
  change (concat ?l) with ([] ++ concat l). generalize (@nil Z) as acc.
  induction Hf as [|r rs' Hr Hf IH]; intros acc; cbn [mfoldl].
  - by rewrite app_nil_r.
  - unfold mbind at 1, M_bind at 1. unfold mbind at 1, M_bind at 1.
    rewrite RangesToArray_ok by done. cbn [mret M_ret]. rewrite IH. by rewrite <- app_assoc.
Qed.

Lemma wp_NewOfferHelper {E} o (e : E) : offer_ok o ->
  wp total (NewOfferHelper o) (fun h e' => e' = e /\ MesosOffer h = o /\ offer_ports_ok h /\
    TasksToLaunch h = [] /\ ResourcesToUneserve h = [] /\ VolumesToDestroy h = []) e.
Proof.
  intros (Hr & Hnd & Hok). unfold NewOfferHelper, getUnreservedResources, getReservedResources.
  apply wp_bind, wp_bind. eapply wp_of_eq; [by apply getPorts_eq|]. apply wp_ret, wp_bind, wp_bind.
  eapply wp_of_eq; [by apply getPorts_eq|]. by apply wp_ret, wp_ret.
Qed.
End offers.

(** ** What every callback keeps *)

(** Calls of the driver and the clock always return. *)
Class GoTimeLaws (E : Type) `{!GoTime E} : Prop :=
  time_Now_returns e : wp total time_Now (fun _ _ => True) e.
Class DriverLaws (E : Type) `{!SchedulerDriver E} : Prop := {
  NewMesosSchedulerDriver_returns c e : wp total (NewMesosSchedulerDriver c) (fun _ _ => True) e;
  SendFrameworkMessage_returns i s m e : wp total (SendFrameworkMessage i s m) (fun _ _ => True) e;
  KillTask_returns t e : wp total (KillTask t) (fun _ _ => True) e;
  ReconcileTasks_returns l e : wp total (ReconcileTasks l) (fun _ _ => True) e }.

Section cluster_ok.
Context `{!MesosUtil, !MesosUtilLaws, !Json TaskData, !Json JoinReply, !Json ForceRemoveReply, !GoParse}.
Context `{!Legible} {answers : bool}.
Context {W : Type} `{!GoRand W, !GoRandLaws W, !GoEnv W, !GoEnvLaws W, !GoUuid W, !GoUuidLaws W,
  !GoMap W, !GoMapLaws W, !HttpClient W, !HttpClientLaws answers W, !GoTime W, !GoTimeLaws W,
  !SchedulerDriver W, !DriverLaws W}.
Context (Marshal_ok : forall t : TaskData, (Marshal t).2 = None).
Context (sc : SchedulerConf).
Local Abbreviation fw := (frameworkName sc).

(** A cluster changed by an operation that keeps its name and its invariant. *)
Definition kept (c c' : FrameworkRiakCluster) : Prop :=
  c_Name c' = c_Name c /\ (cluster_ok fw c -> cluster_ok fw c').

Lemma kept_refl c : kept c c.
Proof. done. Qed.

(** A change of the live nodes alone that keeps their static part. *)
Lemma kept_nodes c c' : c' = set_Nodes (Nodes c') c -> same_shape c c' ->
  (forall k n n', Nodes c !! k = Some n -> Nodes c' !! k = Some n' -> legible_node n -> legible_node n') ->
  kept c c'.
Proof.
  intros Heq Hsh Hk. split; [apply Hsh|]. intros (Hwf & HN & HG).
  split; [by rewrite <- Hsh|]. split.
  - intros k n' Hn'. destruct (shape_lookup (proj1 (proj2 Hsh)) _ _ Hn') as (n & Hn & _).
    eapply Hk; [done..|]. by eapply HN.
  - by rewrite Heq.
Qed.

Lemma kept_put key n n' c : Nodes c !! key = Some n -> static n' = static n ->
  (legible_node n -> legible_node n') -> kept c (put_node key n' c).
Proof.
  intros Hn Hs Hk. apply kept_nodes; [done|by eapply put_node_shape|].
  intros k m m' Hm Hm'. destruct (decide (key = k)) as [<-|].
  - rewrite lookup_put_node in Hm'. injection Hm' as <-. rewrite Hn in Hm. by injection Hm as <-.
  - rewrite lookup_put_node_ne in Hm' by done. rewrite Hm in Hm'. by injection Hm' as <-.
Qed.

Lemma node_step_known o n n' ts : node_step o n n' ts -> legible_node n -> legible_node n'.
Proof. by destruct 1. Qed.

Lemma restart_outcome_kept c r : restart_outcome c r -> kept c r.1.1.
Proof.
  intros [[-> _]|(k & n & Hn & _ & Hcase)]; [done|].
  destruct (IsRestarting n (c_Generation c)); subst r; [done|]. by eapply kept_put.
Qed.

Lemma only_asked_kept c c' : only_asked c c' -> kept c c'.
Proof.
  intros Ha. apply kept_nodes; [apply Ha|by apply only_asked_shape|].
  intros k n n' Hn Hn' Hk. destruct Ha as [_ Ha]. specialize (Ha k). rewrite Hn, Hn' in Ha.
  by destruct Ha as [t ->].
Qed.

(** A status as Mesos sends it. *)
Definition status_ok (status : TaskStatus) : Prop := legible = true -> status_known status.

Lemma after_status_known status n : status_ok status -> legible_node (after_status status n).
Proof.
  intros Hs Hl. specialize (Hs Hl). unfold known. assert (n_TaskStatus (after_status status n) = Some status) as ->; [|done].
  unfold after_status. by destruct (ts_State status).
Qed.

(** *** The loops of a tick *)

Lemma wpe_stop_nodes frc picked (w : W) :
  (forall id key, picked !! id = Some key -> is_Some (Nodes frc !! key)) ->
  wpe (stop_nodes frc picked) (fun _ _ => True) (fun x _ => x = exited) w.
Proof.
  intros Hp. apply wpe_bind, wp_wpe. wp_use wp_range. intros ids w1 [_ Hids].
  apply (wpe_mfoldl _ (fun _ _ => True)); [|done]. intros id u w2 Hin _.
  apply Hids in Hin as [key Hkey]. rewrite Hkey. apply wpe_bind, wpe_ret.
  destruct (Hp _ _ Hkey) as [n Hn]. rewrite Hn. apply wpe_bind, wpe_ret, wpe_bind.
  unfold finishRiakNode. apply wpe_bind, wp_wpe.
  wp_use SendFrameworkMessage_returns. intros r w3 _.
  destruct (negb _); [done|]. apply wpe_ret. destruct (negb _); [|by apply wpe_ret].
  apply wpe_bind. unfold killRiakNode. apply wpe_bind, wp_wpe.
  wp_use KillTask_returns. intros r' w4 _. destruct (negb _); [done|].
  by apply wpe_ret, wpe_ret.
Qed.

Lemma wp_remove_nodes frc picked (w : W) :
  cluster_ok fw frc -> picks CanBeRemoved frc picked ->
  wp total (remove_nodes frc picked) (fun c _ => kept frc c /\ cluster_ok fw c /\
    c_Generation c = c_Generation frc /\ c_IsRestarting c = c_IsRestarting frc) w.
Proof.
  intros Hok Hp. apply wp_bind. wp_use wp_range. intros ids w1 [Hnd Hids].
  eapply wp_mono; [|apply (wp_mfoldl _ _ (fun done c _ => c_Name c = c_Name frc /\
    cluster_ok fw c /\ c_Generation c = c_Generation frc /\ c_IsRestarting c = c_IsRestarting frc /\
    forall k, k ∉ done -> Nodes c !! k = Nodes frc !! k))].
  - intros c w2 (? & ? & ? & ? & _). done.
  - intros d id rest c w2 -> (Hname & (Hwf & HN & HG) & Hgen & Hre & Hrest).
    assert (is_Some (picked !! id)) as [key Hkey] by (apply Hids, elem_of_app; right; by left).
    rewrite Hkey. apply wp_bind, wp_ret. apply Hp in Hkey as (-> & n & Hn & _).
    rewrite Hn. apply wp_bind, wp_ret, wp_ret.
    assert (id ∉ d) as Hid.
    { apply NoDup_app in Hnd as (_ & Hdis & _). intros Hin. apply (Hdis id Hin). by left. }
    assert (Nodes c !! id = Some n) as Hn' by (by rewrite Hrest).
    pose proof (wf_key _ _ _ _ Hwf Hn') as Hcid.
    split; [done|]. split.
    + split; [by eapply RemoveNode_wf|]. cbn. rewrite Hcid. split.
      * by apply map_Forall_delete.
      * apply map_Forall_insert_2; [by eapply HN|done].
    + split; [done|]. split; [done|]. intros k Hk. cbn. rewrite Hcid.
      rewrite elem_of_app, list_elem_of_singleton in Hk.
      rewrite lookup_delete_ne by (intros ->; auto). apply Hrest. auto.
  - by split_and!.
Qed.
End cluster_ok.

Section callbacks.
Context `{!MesosUtil, !MesosUtilLaws, !Json TaskData, !Json JoinReply, !Json ForceRemoveReply, !GoParse}.
Context `{!Json SchedulerState, !Zlib, !StateCodecLaws}.
Context {Conn Zk W : Type} `{!ZkApi Conn Zk}.
Context `{!Legible} (answers : bool).
Context `{!GoRand W, !GoRandLaws W, !GoEnv W, !GoEnvLaws W, !GoUuid W, !GoUuidLaws W,
  !GoMap W, !GoMapLaws W, !HttpClient W, !HttpClientLaws answers W, !GoTime W, !GoTimeLaws W,
  !SchedulerDriver W, !DriverLaws W}.
Context (Marshal_ok : forall t : TaskData, (Marshal t).2 = None).
Context (sc : SchedulerConf).
Local Abbreviation fw := (frameworkName sc).
Local Abbreviation p := (GetZKPath (state_ns (frameworkName sc))).
Context `{!ZkPath p Zk, !ZkLaws false p Conn Zk}.
Local Abbreviation world := (SchedulerCore Conn * (Zk * W))%type.
Context (synced : bool).

(** The invariant, with memory and server in agreement but for the master's
    address if they were when the process was started ([synced]), and what is
    left of it when a callback does not return: it blocks only for an answer of
    Riak Explorer that does not come. *)
Definition good (w : world) : Prop := inv fw p w /\ (synced = true -> agrees fw p w).
Definition bad (x : ending) (w : world) : Prop := (x = blocked -> answers = false) /\ inv fw p w.

Definition clusters_of (w : world) : gmap string FrameworkRiakCluster := Clusters (schedulerState w.1).

(** A world that differs in the clusters. *)
Definition put_clusters (m : gmap string FrameworkRiakCluster) (w : world) : world :=
  (set_schedulerState (set_Clusters m (schedulerState w.1)) w.1, w.2).

Lemma put_cluster_eq name c (w : world) :
  put_cluster name c w = (Ret tt, put_clusters (<[name := c]> (clusters_of w)) w).
Proof. done. Qed.

Lemma wpe_put_cluster name c (Q : unit -> world -> Prop) R w :
  Q tt (put_clusters (<[name := c]> (clusters_of w)) w) -> wpe (put_cluster name c) Q R w.
Proof. done. Qed.

Lemma wpe_get_state (Q : SchedulerState -> world -> Prop) R w :
  Q (schedulerState w.1) w -> wpe get_state Q R w.
Proof. done. Qed.

Lemma inv_put_clusters m (w : world) : inv fw p w -> clusters_ok fw m -> inv fw p (put_clusters m w).
Proof. intros ([_ HG] & Hr & Hst) Hm. by split_and!. Qed.

Lemma clusters_ok_put m name c c' : clusters_ok fw m -> m !! name = Some c -> kept sc c c' ->
  clusters_ok fw (<[name := c']> m).
Proof.
  intros Hm Hc [Hn Hk]. apply map_Forall_insert_2; [|done].
  apply Hm in Hc as [? ?]. split; [congruence|auto].
Qed.

Lemma put_clusters_id name c (w : world) : clusters_of w !! name = Some c ->
  put_clusters (<[name := c]> (clusters_of w)) w = w.
Proof.
  intros Hc. unfold put_clusters. rewrite insert_id by done. by destruct w as [[? [] ?] ?].
Qed.

(** Running a computation of the environment. *)
Lemma wpe_env {A} (m : M W A) (Q : A -> world -> Prop) R (s : SchedulerCore Conn) (z : Zk) w :
  wp total m (fun a w' => Q a (s, (z, w'))) w -> wpe (io m) Q R (s, (z, w)).
Proof. intros Hwp. by apply wpe_io, wp_wpe. Qed.

Lemma wpe_persist_tail (w : world) (Q : unit -> world -> Prop) :
  inv fw p w ->
  (forall w', good w' -> same_memory w w' -> Q tt w') ->
  wpe (Persist ;; mret tt) Q bad w.
Proof.
  intros Hinv HQ. apply wpe_bind. eapply wpe_mono; [| |by apply (wpe_Persist fw p)].
  - intros r w' (_ & Hinv' & Hs & Hm). apply wpe_ret, HQ; [by split; [|intros _; apply in_sync_agrees]|done].
  - intros x w' (-> & Hinv' & _). by split.
Qed.

Lemma same_memory_clusters (w w' : world) : same_memory w w' -> clusters_of w' = clusters_of w.
Proof. intros [Hs _]. unfold clusters_of. by rewrite Hs. Qed.

(** *** Offers *)

(** What applying an offer to cluster [c] gives. *)
Definition applied (c c' : FrameworkRiakCluster) (o o' : OfferHelper) (needs : bool) : Prop :=
  MesosOffer o' = MesosOffer o /\ offer_ports_ok o' /\
  ResourcesToUneserve o' = ResourcesToUneserve o /\ VolumesToDestroy o' = VolumesToDestroy o /\
  kept sc c c' /\
  (needs = false -> map_Forall (fun _ n => NeedsToBeReconciled n = false) (Nodes c)) /\
  exists ts, TasksToLaunch o' = TasksToLaunch o ++ ts /\ NoDup (ti_TaskId <$> ts) /\
    Forall (fun t => exists n', Nodes c' !! ti_TaskId t = Some n' /\ CurrentState n' = Starting) ts.

Lemma offer_inv_applied c o st keys ts :
  cluster_wf fw c -> same_shape c (as_cluster st) -> offer_ports_ok (as_offer st) -> NoDup keys ->
  (forall k, k ∈ keys <-> is_Some (Nodes c !! k)) -> offer_inv c o keys st ts ->
  applied c (as_cluster st) o (as_offer st) (as_needs st).
Proof.
  intros Hwf Hsh Hports Hnd Hkeys (Hset & Hmo & [Hu Hv] & Hts & Hsub & _ & Hsteps & _ & Hneeds).
  split_and!; [done..| | |].
  - apply kept_nodes; [done|done|]. intros k n n' Hn Hn' Hk.
    eapply node_step_known; [|done]. by eapply Hsteps.
  - intros Hf k n Hk. apply (Hneeds Hf k); [apply Hkeys; by eexists|done].
  - exists ts. split; [done|]. split; [by eapply sublist_NoDup|].
    apply Forall_forall. intros t Ht.
    assert (ti_TaskId t ∈ keys) as Hin.
    { eapply elem_of_submseteq; [|by apply sublist_submseteq]. apply list_elem_of_fmap. by exists t. }
    apply Hkeys in Hin as [n Hn].
    destruct (Nodes (as_cluster st) !! ti_TaskId t) as [n'|] eqn:Hn'.
    + exists n'. split; [done|]. specialize (Hsteps _ _ _ Hn Hn').
      assert (t ∈ tasks_of (ti_TaskId t) ts) as Hin by (by apply list_elem_of_filter).
      destruct Hsteps; try (by apply elem_of_nil in Hin). done.
    + exfalso. assert (is_Some (static <$> Nodes (as_cluster st) !! ti_TaskId t)) as Habs.
      { rewrite <- lookup_fmap, (proj1 (proj2 Hsh)), lookup_fmap, Hn. by eexists. }
      rewrite Hn' in Habs. by destruct Habs.
Qed.

Lemma wpe_ApplyOffer name c o w :
  good w -> offer_ports_ok o -> clusters_of w !! name = Some c ->
  wpe (ApplyOffer sc name o) (fun r w' => good w' /\ exists c',
      clusters_of w' = <[name := c']> (clusters_of w) /\ applied c c' o r.1 r.2) bad w.
Proof.
  destruct w as [s [z w]]. intros [Hinv Hsync] Ho Hc.
  pose proof Hinv as ([HC _] & _). pose proof (HC _ _ Hc) as [_ [Hwf _]].
  unfold ApplyOffer. apply wpe_bind, wpe_get_state, wpe_bind. unfold clusters_of in Hc.
  rewrite Hc. apply wpe_ret, wpe_bind, wpe_env.
  wp_eby wp_ApplyOffer_loop.
  intros st w1 (Hsh & Hports & keys & ts & Hnd & Hkeys & Hoi).
  assert (applied c (as_cluster st) o (as_offer st) (as_needs st)) as Happ
    by (by eapply offer_inv_applied).
  apply wpe_bind, wpe_put_cluster, wpe_bind.
  set (w2 := put_clusters (<[name := as_cluster st]> (clusters_of (s, (z, w1)))) (s, (z, w1))).
  assert (inv fw p w2) as Hinv2.
  { apply inv_put_clusters; [done|]. eapply clusters_ok_put; [done|exact Hc|].
    by destruct Happ as (_ & _ & _ & _ & ? & _). }
  destruct (as_dirty st) eqn:Hd.
  - apply wpe_persist_tail; [done|]. intros w3 Hg Hs. apply wpe_ret. split; [done|].
    exists (as_cluster st). split; [by rewrite (same_memory_clusters _ _ Hs)|done].
  - apply wpe_ret, wpe_ret. destruct Hoi as (_ & _ & _ & _ & _ & _ & _ & Hdirty & _).
    destruct (Hdirty Hd) as [Hcc _]. split.
    + split; [done|]. unfold w2. rewrite Hcc, put_clusters_id by done. done.
    + by exists (as_cluster st).
Qed.

(** Two clusters have no task id in common. *)
Lemma clusters_disjoint m name1 name2 c1 c2 k :
  clusters_ok fw m -> m !! name1 = Some c1 -> m !! name2 = Some c2 ->
  is_Some (Nodes c1 !! k) -> is_Some (Nodes c2 !! k) -> name1 = name2.
Proof.
  intros Hm H1' H2' [n1 Hn1] [n2 Hn2].
  apply Hm in H1' as [<- [(HN1 & _) _]], H2' as [<- [(HN2 & _) _]].
  apply HN1 in Hn1 as (-> & Hf1 & Hc1 & Hs1 & _). apply HN2 in Hn2 as (Hid & Hf2 & Hc2 & Hs2 & _).
  unfold CurrentID, node_id in Hid. rewrite Hf1, Hf2 in Hid.
  apply dashed_name_inj in Hid as [Hid _]; [congruence|lia|lia].
Qed.

(** A task of a node that is starting in one of the clusters [names]. *)
Definition starts_in (names : list string) (m : gmap string FrameworkRiakCluster) (t : TaskInfo) : Prop :=
  exists name c n, name ∈ names /\ m !! name = Some c /\ Nodes c !! ti_TaskId t = Some n /\
    CurrentState n = Starting.

Definition no_reconcile (c : FrameworkRiakCluster) : Prop :=
  map_Forall (fun _ n => NeedsToBeReconciled n = false) (Nodes c).

(** From world [w0] and offer [o], after the clusters [done]. *)
Definition offered (w0 : world) (o : OfferHelper) (done : list string) (st : OfferHelper * bool)
    (w : world) : Prop :=
  good w /\ offer_ports_ok st.1 /\ MesosOffer st.1 = MesosOffer o /\
  ResourcesToUneserve st.1 = [] /\ VolumesToDestroy st.1 = [] /\
  (forall name, is_Some (clusters_of w !! name) <-> is_Some (clusters_of w0 !! name)) /\
  (forall name, name ∉ done -> clusters_of w !! name = clusters_of w0 !! name) /\
  NoDup (ti_TaskId <$> TasksToLaunch st.1) /\
  Forall (starts_in done (clusters_of w)) (TasksToLaunch st.1) /\
  (st.2 = false -> forall name c, name ∈ done -> clusters_of w0 !! name = Some c -> no_reconcile c).

Lemma starts_in_mono names name m c ts : name ∉ names ->
  Forall (starts_in names m) ts -> Forall (starts_in (names ++ [name]) (<[name := c]> m)) ts.
Proof.
  intros Hname Hts. eapply Forall_impl; [exact Hts|]. intros t (name' & c' & n & Hin & Hc & Hn & Hs).
  exists name', c', n. split; [apply elem_of_app; by left|].
  split; [|done]. rewrite lookup_insert_ne; [done|by intros ->].
Qed.

Lemma offered_step w0 o done name c c' st w r w' :
  name ∉ done -> clusters_of w0 !! name = Some c -> offered w0 o done st w ->
  good w' -> clusters_of w' = <[name := c']> (clusters_of w) -> applied c c' st.1 r.1 r.2 ->
  offered w0 o (done ++ [name]) (r.1, if (r.2 : bool) then true else st.2) w'.
Proof.
  intros Hname Hc0 (Hg & Hp & Hmo & Hu & Hv & Hdom & Hrest & Hnd & Hst & Hnr) Hg' Hcl
    (Hmo' & Hp' & Hu' & Hv' & Hk & Hneeds & ts & Hts & Hndts & Hstart).
  assert (Forall (starts_in (done ++ [name]) (clusters_of w')) ts) as Hnew.
  { eapply Forall_impl; [exact Hstart|]. intros t (n & Hn & Hs). exists name, c', n. rewrite Hcl.
    split; [apply elem_of_app; right; by left|]. by rewrite lookup_insert_eq. }
  split; [done|]. split; [done|]. cbn [fst snd]. split; [congruence|].
  split; [congruence|]. split; [congruence|]. split; [|split; [|split; [|split]]].
  - intros k. rewrite <- Hdom, Hcl. destruct (decide (name = k)) as [<-|].
    + rewrite lookup_insert_eq, Hrest, Hc0 by done. split; by eexists.
    + by rewrite lookup_insert_ne.
  - intros k Hk'. rewrite elem_of_app, list_elem_of_singleton in Hk'. rewrite Hcl.
    rewrite lookup_insert_ne by (intros ->; auto). apply Hrest. auto.
  - rewrite Hts, fmap_app. apply NoDup_app. split; [done|]. split; [|done].
    intros k (t1 & -> & Ht1)%list_elem_of_fmap (t2 & Heq & Ht2)%list_elem_of_fmap.
    rewrite Forall_forall in Hst, Hstart.
    apply Hst in Ht1 as (name1 & c1 & n1 & Hin1 & Hc1 & Hn1 & _).
    apply Hstart in Ht2 as (n2 & Hn2 & _). destruct Hg' as [([HC _] & _) _].
    assert (name1 = name) as <-; [|done].
    apply (clusters_disjoint (clusters_of w') _ _ c1 c' (ti_TaskId t1)); [exact HC| | | |].
    + rewrite Hcl, lookup_insert_ne; [done|by intros ->].
    + by rewrite Hcl, lookup_insert_eq.
    + by eexists.
    + rewrite Heq. by eexists.
  - rewrite Hts. apply Forall_app. split; [|done]. rewrite Hcl. by apply starts_in_mono.
  - intros Hf k ck Hk' Hck. destruct r.2 eqn:Hr2; [done|].
    apply elem_of_app in Hk' as [Hk'|Hk']; [by eapply Hnr|].
    apply list_elem_of_singleton in Hk' as ->. rewrite Hc0 in Hck. injection Hck as <-.
    by apply Hneeds.
Qed.

Lemma wpe_offer_clusters o w :
  good w -> offer_ports_ok o -> TasksToLaunch o = [] -> ResourcesToUneserve o = [] ->
  VolumesToDestroy o = [] ->
  wpe (offer_clusters sc o) (fun st w' => exists names, 
      (forall name, name ∈ names <-> is_Some (clusters_of w !! name)) /\
      offered w o names st w') bad w.
Proof.
  intros Hg Hp Ht Hu Hv. unfold offer_clusters. apply wpe_bind, wpe_get_state, wpe_bind.
  destruct w as [s [z w]]. apply wpe_env. wp_use wp_range.
  intros names w1 [Hnd Hnames].
  eapply wpe_mono_post; [|apply (wpe_mfoldl_done _ (offered (s, (z, w1)) o))].
  - intros st w' Ho. by exists names.
  - intros d name rest st w' -> Ho. apply wpe_bind.
    assert (name ∉ d) as Hd.
    { apply NoDup_app in Hnd as (_ & Hdis & _). intros Hin. apply (Hdis name Hin). by left. }
    assert (is_Some (clusters_of (s, (z, w1)) !! name)) as [c Hc]
      by (apply Hnames, elem_of_app; right; by left).
    pose proof Ho as (Hg' & Hp' & _ & _ & _ & _ & Hrest & _).
    eapply wpe_mono_post; [|apply (wpe_ApplyOffer name c); [done|done|by rewrite Hrest]].
    intros r w2 (Hg2 & c' & Hcl & Happ). apply wpe_ret. by eapply offered_step.
  - split_and!; cbn [fst snd]; try done; rewrite ?Ht; [apply NoDup_nil_2|constructor|].
    by intros _ name c []%elem_of_nil.
Qed.

(** The operations for one offer, launching some tasks. *)
Definition offer_answer (w w' : world) (ops : list Offer_Operation) : Prop :=
  exists o, ops = Operations o /\
    NoDup (ti_TaskId <$> TasksToLaunch o) /\
    (exists names, Forall (starts_in names (clusters_of w')) (TasksToLaunch o)) /\
    (TasksToLaunch o <> [] \/ ~ map_Forall (fun _ => no_reconcile) (clusters_of w) ->
       ResourcesToUneserve o = [] /\ VolumesToDestroy o = []).

Lemma MaybeUnreserve_tasks o : TasksToLaunch (MaybeUnreserve o) = TasksToLaunch o.
Proof. unfold MaybeUnreserve. repeat case_match; done. Qed.

Lemma MaybeUnreserve_launch o : TasksToLaunch o <> [] -> MaybeUnreserve o = o.
Proof. unfold MaybeUnreserve. by destruct (TasksToLaunch o). Qed.

Lemma wpe_operations_for offer w :
  good w -> offer_ok offer ->
  wpe (operations_for sc offer) (fun ops w' => good w' /\ offer_answer w w' ops) bad w.
Proof.
  intros Hg Ho. unfold operations_for. apply wpe_bind, wp_wpe.
  wp_by wp_NewOfferHelper. intros h w1 (-> & _ & Hp & Ht & Hu & Hv).
  apply wpe_bind. wpe_by wpe_offer_clusters.
  intros [o needs] w2 (names & Hnames & Hg2 & _ & _ & Hu2 & Hv2 & _ & _ & Hnd & Hst & Hnr).
  cbn [fst snd] in *. apply wpe_ret. split; [done|]. eexists. split; [done|].
  destruct needs; cbn [negb].
  - split; [done|]. split; [by exists names|]. done.
  - rewrite MaybeUnreserve_tasks. split; [done|]. split; [by exists names|].
    intros [Hne|Hwait]; [by rewrite MaybeUnreserve_launch|]. exfalso. apply Hwait.
    intros name c Hc. apply (Hnr eq_refl name); [apply Hnames; by eexists|done].
Qed.

Lemma wpe_createOperations offers w :
  good w -> Forall offer_ok offers ->
  wpe (createOperationsForOffers sc offers) (fun _ w' => good w') bad w.
Proof.
  intros Hg Ho. apply (wpe_mfoldl _ (fun _ w' => good w')); [|done].
  intros offer ops w' Hin Hg'. apply wpe_bind.
  eapply wpe_mono_post; [|apply wpe_operations_for; [done|by eapply Forall_forall]].
  intros ops' w'' [? _]. by apply wpe_ret.
Qed.

Lemma wpe_ResourceOffers offers w :
  good w -> Forall offer_ok offers ->
  wpe (ResourceOffers sc offers) (fun l w' => good w' /\ l.*1 = offers) bad w.
Proof.
  intros Hg Ho. apply wpe_bind. wpe_by wpe_createOperations.
  intros ops w' Hg'. apply wpe_ret. split; [done|].
  rewrite <- list_fmap_compose. by apply list_fmap_id.
Qed.

(** *** Status updates *)

(** The specification: the cluster that has the task records the status, on
    the node if it is alive; a task of no cluster changes nothing. *)
Definition updated (status : TaskStatus) (c : FrameworkRiakCluster) : FrameworkRiakCluster :=
  match Graveyard c !! ts_TaskId status, Nodes c !! ts_TaskId status with
  | None, Some n => put_node (ts_TaskId status) (after_status status n) c
  | _, _ => c
  end.

Definition status_effect (status : TaskStatus) (m m' : gmap string FrameworkRiakCluster) : Prop :=
  (exists name c, m !! name = Some c /\ HasNode c (ts_TaskId status) = true /\
     m' = <[name := updated status c]> m) \/
  (map_Forall (fun _ c => HasNode c (ts_TaskId status) = false) m /\ m' = m).

Lemma updated_kept status c : status_ok status -> kept sc c (updated status c).
Proof.
  intros Hs. unfold updated. destruct (Graveyard c !! _); [done|].
  destruct (Nodes c !! _) as [n|] eqn:Hn; [|done].
  eapply kept_put; [done|apply after_status_static|]. intros _. by apply after_status_known.
Qed.

Lemma wpe_status c status (w : W) : HasNode c (ts_TaskId status) = true ->
  wpe (HandleNodeStatusUpdate status c) (fun c' _ => c' = updated status c) (unanswered answers) w.
Proof.
  intros Hn%HasNode_true. unfold updated.
  destruct (Graveyard c !! ts_TaskId status) as [n|] eqn:HG.
  - apply wp_wpe. eapply wp_of_eq; [by eapply status_dead|done].
  - destruct Hn as [[n Hn]|[? ?]]; [|done]. rewrite Hn. by apply wpe_status_live.
Qed.

(** The search stops at the first cluster that has the task. *)
Lemma wpe_find_status status names w :
  inv fw p w -> status_ok status -> (forall name, name ∈ names -> is_Some (clusters_of w !! name)) ->
  wpe (find_status status names) (fun found w' => inv fw p w' /\
    if found : bool
    then exists name c, clusters_of w !! name = Some c /\ HasNode c (ts_TaskId status) = true /\
           clusters_of w' = <[name := updated status c]> (clusters_of w)
    else w' = w /\ forall name c, name ∈ names -> clusters_of w !! name = Some c ->
           HasNode c (ts_TaskId status) = false) bad w.
Proof.
  intros Hinv Hs. destruct w as [s [z v]].
  induction names as [|name names IH]; intros Hnames; cbn [find_status mfoldl_brk].
  - apply wpe_ret. split; [done|]. split; [done|]. by intros name c []%elem_of_nil.
  - apply wpe_bind, wpe_bind, wpe_get_state, wpe_bind.
    destruct (Hnames name) as [c Hc]; [by left|]. pose proof Hc as Hc'. unfold clusters_of in Hc'.
    rewrite Hc'. apply wpe_ret. destruct (HasNode c (ts_TaskId status)) eqn:Hh.
    + apply wpe_bind, wpe_io. eapply wpe_mono; [| |by apply wpe_status]; [|by intros x v' [-> ->]].
      intros c' v' ->.
      apply wpe_bind, wpe_put_cluster, wpe_ret, wpe_ret. split.
      * apply inv_put_clusters; [done|]. eapply clusters_ok_put; [|exact Hc|by apply updated_kept].
        by destruct Hinv as [[? _] _].
      * by exists name, c.
    + apply wpe_ret. cbn [fst snd]. eapply wpe_mono_post; [|apply IH; intros; apply Hnames; by right].
      intros [] w' [Hinv' Hw']; (split; [done|]); [done|]. destruct Hw' as [-> Hrest].
      split; [done|]. intros k c2 [->|Hin]%elem_of_cons Hc2; [congruence|by eapply Hrest].
Qed.

Lemma wpe_StatusUpdate status w :
  good w -> status_ok status ->
  wpe (StatusUpdate status) (fun _ w' => good w' /\
    status_effect status (clusters_of w) (clusters_of w')) bad w.
Proof.
  intros [Hinv Hsync] Hs. unfold StatusUpdate. apply wpe_bind, wpe_get_state, wpe_bind.
  destruct w as [s [z w]]. apply wpe_env. wp_use wp_range.
  intros names w1 [Hnd Hnames]. apply wpe_bind.
  eapply wpe_mono_post; [|apply wpe_find_status; [done|done|by intros name ?%Hnames]].
  intros [] w2 [Hinv2 Heff].
  - apply wpe_persist_tail; [done|]. intros w3 Hg Hm. split; [done|]. left.
    rewrite (same_memory_clusters _ _ Hm). exact Heff.
  - destruct Heff as [-> Hnone].
    assert (status_effect status (clusters_of (s, (z, w))) (clusters_of (s, (z, w)))) as Heff.
    { right. split; [|done]. intros name c Hc. eapply Hnone; [|done]. apply Hnames. by eexists. }
    apply wpe_bind, wpe_env. wp_use wp_range. intros gnames w3 [_ Hg].
    apply wpe_bind. eapply (wpe_mono_post _ (fun _ w' => good w' /\
      status_effect status (clusters_of (s, (z, w))) (clusters_of w')));
      [intros u w' Hg'; by apply (wpe_ret tt)|].
    apply (wpe_mfoldl_brk _ (fun _ w' => good w' /\
      status_effect status (clusters_of (s, (z, w))) (clusters_of w') /\ w'.1 = s));
      [|by intros b w' (? & ? & _)|done].
    intros name found w' Hin (Hg' & Heff' & Hs').
    apply Hg in Hin as [c Hc]. rewrite Hc.
    apply wpe_bind, wpe_ret, wpe_ret. by destruct (HasNode _ _).
Qed.

(** *** Registration *)

Lemma inv_upd (f : SchedulerState -> SchedulerState) (w : world) :
  inv fw p w -> Clusters (f (schedulerState w.1)) = Clusters (schedulerState w.1) ->
  s_Graveyard (f (schedulerState w.1)) = s_Graveyard (schedulerState w.1) ->
  zkNode (f (schedulerState w.1)) = zkNode (schedulerState w.1) ->
  inv fw p (set_schedulerState (f (schedulerState w.1)) w.1, w.2).
Proof.
  intros ([HC HG] & [Hm Hz] & Hst) H1' H2' H3'. split; [|split; [|done]].
  - unfold state_wf. cbn. by rewrite H1', H2'.
  - split; [done|]. cbn. by rewrite H3'.
Qed.

Lemma wpe_Registered id w : good w -> wpe (Registered id) (fun _ w' => good w') bad w.
Proof.
  intros [Hinv _]. unfold Registered. apply wpe_bind, wpe_upd_st, wpe_bind.
  eapply wpe_mono; [| |apply (wpe_Persist fw p); by apply (inv_upd (set_FrameworkID id))].
  - intros r w' (_ & Hinv' & Hsync & _). apply wpe_upd_st. split; [done|intros _; by apply in_sync_agrees].
  - intros x w' (-> & Hinv' & _). by split.
Qed.

Lemma wpe_Reregistered (w : world) : good w -> wpe Reregistered (fun _ w' => good w') bad w.
Proof. intros Hg. by apply wpe_upd_st. Qed.

(** *** Ticks *)

Lemma only_asked_strip c c' : only_asked c c' -> strip_cluster c' = strip_cluster c.
Proof.
  intros [-> Hk]. unfold strip_cluster. cbn. f_equal. unfold set_Nodes. cbn. f_equal.
  apply map_eq. intros k. rewrite !lookup_fmap. specialize (Hk k). cbn in Hk.
  destruct (Nodes c !! k), (Nodes c' !! k); try done. by destruct Hk as [t ->].
Qed.

Lemma put_clusters_strip name c c' (w : world) :
  clusters_of w !! name = Some c -> strip_cluster c' = strip_cluster c ->
  strip (schedulerState (put_clusters (<[name := c']> (clusters_of w)) w).1) =
  strip (schedulerState w.1).
Proof.
  intros Hc Heq. unfold strip. cbn. f_equal. rewrite fmap_insert, Heq. apply insert_id.
  unfold clusters_of in Hc. by rewrite lookup_fmap, Hc.
Qed.

Lemma wpe_reconcileTasks w : good w -> wpe reconcileTasks (fun _ w' => good w') bad w.
Proof.
  intros Hg. unfold reconcileTasks. apply wpe_bind, wpe_get_state, wpe_bind.
  destruct w as [s [z w]]. apply wpe_env. wp_use wp_range.
  intros names w1 [_ Hnames].
  eapply (wpe_mono_post _ (fun _ w' => good w' /\
    forall name, is_Some (clusters_of w' !! name) <-> is_Some (clusters_of (s, (z, w1)) !! name)));
    [by intros ?? []|].
  apply (wpe_mfoldl _ (fun _ w' => good w' /\
    forall name, is_Some (clusters_of w' !! name) <-> is_Some (clusters_of (s, (z, w1)) !! name)));
    [|by split].
  intros name found [s2 [z2 w2]] Hin [[Hinv Hsync] Hdom].
  apply wpe_bind, wpe_get_state, wpe_bind.
  assert (is_Some (clusters_of (s2, (z2, w2)) !! name)) as [c Hc] by (by apply Hdom, Hnames).
  pose proof Hc as Hc'. unfold clusters_of in Hc'. rewrite Hc'. apply wpe_ret, wpe_bind, wpe_env.
  eapply wp_mono; [|apply wp_GetNodeTasksToReconcile; intros; apply time_Now_returns].
  intros [c' l] w3 [Hask _]. cbn [fst snd] in *. apply wpe_bind, wpe_put_cluster.
  assert (forall w', good (put_clusters (<[name := c']> (clusters_of (s2, (z2, w')))) (s2, (z2, w'))) /\
    forall name', is_Some (<[name := c']> (clusters_of (s2, (z2, w'))) !! name') <->
      is_Some (clusters_of (s, (z, w1)) !! name')) as Hgood.
  { intros w'. split; [split|].
    - apply inv_put_clusters; [done|]. eapply clusters_ok_put; [|exact Hc|by apply only_asked_kept].
      by destruct Hinv as [[? _] _].
    - intros Hb. destruct (Hsync Hb) as (ss & master & Hwf & Hs & Hd). exists ss, master.
      split; [done|]. split; [done|]. rewrite Hd. symmetry. apply decoded_master.
      exact (put_clusters_strip name c c' (s2, (z2, w')) Hc (only_asked_strip _ _ Hask)).
    - intros k. rewrite <- Hdom. change (clusters_of (s2, (z2, w'))) with (clusters_of (s2, (z2, w2))).
      destruct (decide (name = k)) as [<-|]; [|by rewrite lookup_insert_ne].
      rewrite lookup_insert_eq, Hc. split; by eexists. }
  destruct (length l =? 0)%nat; [by apply wpe_ret|].
  apply wpe_bind. unfold put_clusters. apply wpe_env.
  wp_use ReconcileTasks_returns. intros r w4 _. apply (wpe_ret true), (Hgood w4).
Qed.

(** One cluster of a kill tick. *)
Definition kill_kept (c : FrameworkRiakCluster) (r : FrameworkRiakCluster * bool) : Prop :=
  kept sc c r.1 /\ (r.2 = false -> r.1 = c).

Lemma wpe_kill_and_remove c (w : W) :
  cluster_ok fw c ->
  wpe (kill_and_remove c) (fun r _ => kill_kept c r) (fun x _ => x = exited) w.
Proof.
  intros Hok. unfold kill_and_remove. apply wpe_bind, wp_wpe.
  eapply wp_mono; [|by eapply wp_GetNodesToKillOrRemove, Hok]. intros r w1 [Hk Hr].
  apply wpe_bind. wpe_use wpe_stop_nodes.
  - intros u w2 _. case_match; [|by apply wpe_ret].
    apply wpe_bind, wp_wpe. wp_by wp_remove_nodes.
    intros c' w3 (? & _). apply wpe_ret. by split.
  - intros id key (-> & n & Hn & _)%Hk. by eexists.
Qed.

(** What a restart scan returns when the cluster may not be restarting. *)
Lemma wp_restarts c (w : W) : cluster_ok fw c ->
  wp total (GetNodesToRestart c) (fun t _ => kept sc c t.1.1 /\ (t.2 = false -> t.1.1 = c) /\
    forall id key, t.1.2 !! id = Some key -> is_Some (Nodes t.1.1 !! key)) w.
Proof.
  intros [Hwf _]. destruct (c_IsRestarting c) eqn:Hre.
  - wp_eby wp_GetNodesToRestart. intros t w' Hout.
    split; [by apply restart_outcome_kept|].
    destruct Hout as [[-> _]|(k & n & Hn & _ & Hcase)]; [done|].
    destruct (IsRestarting n (c_Generation c)); subst t; [done|]. split; [done|].
    cbn [fst snd]. intros id key [-> ->]%lookup_singleton_Some. rewrite lookup_put_node. by eexists.
  - unfold GetNodesToRestart. rewrite Hre. by apply wp_ret.
Qed.

Lemma inv_bury c (w : world) : inv fw p w -> cluster_ok fw c ->
  inv fw p (set_schedulerState
    (set_Clusters (delete (c_Name c) (Clusters (schedulerState w.1)))
      (set_s_Graveyard (<[c_Name c := c]> (s_Graveyard (schedulerState w.1))) (schedulerState w.1))) w.1, w.2).
Proof.
  intros ([HC HG] & Hr & Hst) Hok. split; [|done]. split; cbn.
  - by apply map_Forall_delete.
  - by apply map_Forall_insert_2.
Qed.

Lemma inv_put_buried c (w : world) : inv fw p w -> cluster_ok fw c ->
  inv fw p (set_schedulerState
    (set_s_Graveyard (<[c_Name c := c]> (s_Graveyard (schedulerState w.1))) (schedulerState w.1)) w.1, w.2).
Proof. intros ([HC HG] & Hr & Hst) Hok. split; [|done]. split; [done|]. by apply map_Forall_insert_2. Qed.

Lemma wpe_kill_cluster dirty name c w :
  inv fw p w -> clusters_of w !! name = Some c ->
  wpe (kill_cluster dirty name) (fun dirty' w' =>
    inv fw p w' /\
    (dirty' = false -> dirty = false /\ w'.1 = w.1 /\ w'.2.1 = w.2.1) /\
    forall k, k <> name -> clusters_of w' !! k = clusters_of w !! k) bad w.
Proof.
  destruct w as [s [z w]]. intros Hinv Hc. pose proof Hinv as ([HC _] & _).
  pose proof (HC _ _ Hc) as [Hname Hok].
  unfold kill_cluster. apply wpe_bind, wpe_get_state, wpe_bind.
  pose proof Hc as Hc'. unfold clusters_of in Hc'. rewrite Hc'.
  apply wpe_ret, wpe_bind, wpe_io. eapply wpe_mono; [| |by apply wpe_kill_and_remove];
    [|by intros x w' ->].
  intros r w1 [[Hn1 Hk1] Hr]. specialize (Hk1 Hok). apply wpe_bind, wpe_put_cluster.
  assert (inv fw p (put_clusters (<[name := r.1]> (clusters_of (s, (z, w1)))) (s, (z, w1)))) as Hinv1
    by (apply inv_put_clusters; [done|]; by eapply clusters_ok_put).
  cbv zeta. destruct (Cluster_CanBeRemoved r.1) eqn:Hb.
  - apply wpe_bind, wpe_upd_st, wpe_bind.
    pose proof (inv_bury _ _ Hinv1 Hk1) as Hinv2.
    apply wpe_env. wp_by wp_restarts. intros t w2 ([Hn2 Hk2] & Ht & Hptr).
    apply wpe_bind, wpe_upd_st. pose proof (inv_put_buried _ _ Hinv2 (Hk2 Hk1)) as Hinv3.
    apply wpe_bind, wpe_io. eapply wpe_mono; [| |by apply wpe_stop_nodes]; [|by intros x w' ->].
    intros u w3 _. apply wpe_ret. split; [exact Hinv3|]. rewrite orb_true_r. split; [done|].
    intros k Hk. unfold clusters_of, put_clusters. cbn.
    rewrite Hn1, Hname, lookup_delete_ne, lookup_insert_ne by done. done.
  - apply wpe_bind, wpe_ret, wpe_bind. unfold put_clusters at 1.
    apply wpe_env. wp_by wp_restarts. intros t w2 ([Hn2 Hk2] & Ht & Hptr).
    apply wpe_bind, wpe_put_cluster.
    match goal with |- wpe _ _ _ ?w' => assert (inv fw p w') as Hinv3 end.
    { apply inv_put_clusters; [done|]. eapply clusters_ok_put; [|apply lookup_insert_eq|done].
      by destruct Hinv1 as [[? _] _]. }
    unfold put_clusters in *. apply wpe_bind, wpe_io.
    eapply wpe_mono; [| |by apply wpe_stop_nodes]; [|by intros x w' ->].
    intros u w3 _. apply wpe_ret. split; [exact Hinv3|]. split.
    + intros (((-> & Hr2)%orb_false_iff & _)%orb_false_iff & Ht2)%orb_false_iff.
      split; [done|]. split; [|done]. cbn [fst]. rewrite (Ht Ht2), (Hr Hr2).
      unfold clusters_of. cbn. rewrite insert_insert_eq, insert_id by done.
      by destruct s as [? [] ?].
    + intros k Hk. unfold clusters_of. cbn. by rewrite !lookup_insert_ne by done.
Qed.

Lemma wpe_killTasks w : good w -> wpe killTasks (fun _ w' => good w') bad w.
Proof.
  intros [Hinv Hsync]. unfold killTasks. apply wpe_bind, wpe_get_state, wpe_bind.
  destruct w as [s [z w]]. apply wpe_env. wp_use wp_range.
  intros names w1 [Hnd Hnames]. apply wpe_bind.
  eapply wpe_mono_post; [|apply (wpe_mfoldl_done _ (fun done dirty w' =>
    inv fw p w' /\ (dirty = false -> w'.1 = s /\ w'.2.1 = z) /\
    forall k, k ∉ done -> clusters_of w' !! k = clusters_of (s, (z, w1)) !! k))].
  - intros [] [s2 [z2 w2]] (Hinv2 & Heq & _); [by apply wpe_persist_tail|].
    destruct (Heq eq_refl) as [Hs2 Hz2]. cbn in Hs2, Hz2. subst. by apply (wpe_ret tt).
  - intros d name rest dirty w2 -> (Hinv2 & Heq & Hrest).
    assert (name ∉ d) as Hd.
    { apply NoDup_app in Hnd as (_ & Hdis & _). intros Hin. apply (Hdis name Hin). by left. }
    assert (is_Some (clusters_of (s, (z, w1)) !! name)) as [c Hc]
      by (apply Hnames, elem_of_app; right; by left).
    eapply wpe_mono_post; [|apply (wpe_kill_cluster dirty name c); [done|by rewrite Hrest]].
    intros dirty' w3 (Hinv3 & Heq3 & Hrest3). split; [done|]. split.
    + intros (Hdirty & -> & ->)%Heq3. by apply Heq.
    + intros k Hk. rewrite elem_of_app, list_elem_of_singleton in Hk.
      rewrite Hrest3 by (intros ->; auto). apply Hrest. auto.
  - by split_and!.
Qed.

Lemma wpe_reconcile w : good w -> wpe reconcile (fun _ w' => good w') bad w.
Proof.
  intros Hg. unfold reconcile. apply wpe_bind, wpe_get_st. case_match; [|by apply wpe_ret].
  apply wpe_bind. wpe_by wpe_reconcileTasks.
  intros [] w' Hg'; [by apply (wpe_ret tt)|by apply wpe_killTasks].
Qed.
End callbacks.
