(* ===== verification/Server.v ===== *)
(** * [scheduler/server.go]: the HTTP interface of the scheduler

    One definition per handler.  A handler runs under the scheduler's lock and
    returns what it does to the response writer, in order.  A panic in a
    handler is caught by [net/http]: the process goes on with the state the
    handler left. *)

From S2P Require Import Prelude GoStrings Float64 Mesos Host Utils Structs Offer Node Explorer Cluster Decoding Metadata State Scheduler.

#[local] Open Scope string_scope.
#[local] Open Scope list_scope.
#[local] Open Scope Z_scope.

(** ** Responses *)

(** Calls on the [ResponseWriter].  [Format] is [fmt.Fprintf] with the text as
    the format and no operands. *)
Inductive Action :=
  | WriteHeader (code : Z)
  | Write (text : string)
  | Format (format : string).

Definition Response := list Action.

(** The status that is sent: the first header, or 200 with the first byte. *)
Definition status_of (r : Response) : Z :=
  match r with
  | WriteHeader code :: _ => code
  | _ => 200
  end.

Definition Encode {T} `{!Json T} (x : T) : Response :=
  match Marshal x with
  | (text, None) => [Write (text +:+ newline)]
  | (_, Some _) => []
  end.

Definition println (l : list string) : Action := Write (GoStrings.Join l " " +:+ newline).

(** The text of an error of the client library. *)
Class ZkErrorText := zk_error_text : ZkError -> string.

(** [ioutil.ReadAll(r.Body)]. *)
Definition Body : Type := string * option string.

Section handlers.
Context `{!MesosUtil, !Json TaskData, !Json JoinReply, !Json ForceRemoveReply, !GoParse, !Artifacts, !ZkErrorText}.
Context `{!Json SchedulerState, !Zlib, !Json FrameworkRiakCluster, !Json FrameworkRiakNode,
  !Json (gmap string FrameworkRiakCluster), !Json (gmap string FrameworkRiakNode)}.
Context {Conn Zk W : Type} `{!ZkApi Conn Zk}.
Context `{!GoRand W, !GoEnv W, !GoUuid W, !GoMap W, !GoTime W, !HttpClient W}.
Context (sc : SchedulerConf).
Local Abbreviation Core := (M (SchedulerCore Conn * (Zk * W))).

Definition not_found (what name : string) : Response :=
  [WriteHeader 404; Write (what +:+ " " +:+ name +:+ " not found")].

(** The guard of the handlers of a cluster, and of a node. *)
Definition with_cluster (clusterName : string) (f : FrameworkRiakCluster -> Core Response) : Core Response :=
  ss ← get_state;
  match Clusters ss !! clusterName with
  | None => mret (not_found "Cluster" clusterName)
  | Some cluster => f cluster
  end.

Definition with_node (clusterName nodeName : string) (f : FrameworkRiakNode -> Core Response) : Core Response :=
  with_cluster clusterName (fun cluster =>
    match Nodes cluster !! nodeName with
    | None => mret (not_found "Node" nodeName)
    | Some node => f node
    end).

(** ** Clusters *)

Definition createCluster (clusterName : string) : Core Response :=
  ss ← get_state;
  match Clusters ss !! clusterName with
  | Some _ => mret [WriteHeader 409]
  | None =>
      let cluster := NewFrameworkRiakCluster clusterName in
      put_cluster clusterName cluster ;;
      _ ← Persist;
      mret (WriteHeader 200 :: Encode cluster)
  end.

Definition restartCluster (clusterName : string) : Core Response :=
  with_cluster clusterName (fun cluster =>
    let cluster := RollingRestart cluster in
    put_cluster clusterName cluster ;;
    _ ← Persist;
    mret (WriteHeader 202 :: Encode cluster)).

(** [KillNext] of every node. *)
Definition kill_nodes (frc : FrameworkRiakCluster) : M W FrameworkRiakCluster :=
  keys ← range (Nodes frc);
  mfoldl (fun c key =>
    node ← deref (Nodes c !! key);
    mret (put_node key (KillNext node) c)) frc keys.

Definition removeCluster (clusterName : string) : Core Response :=
  with_cluster clusterName (fun cluster =>
    cluster ← io (kill_nodes cluster);
    put_cluster clusterName (Cluster_KillNext cluster) ;;
    _ ← Persist;
    mret [WriteHeader 202]).

Definition persist_reply : Core Response :=
  err ← Persist;
  match err with
  | Some err => mret [WriteHeader 503; println ["Unable persist cluster data: "; zk_error_text err]]
  | None => mret [WriteHeader 200; Write "Success!"]
  end.

Definition setConfig (clusterName : string) (body : Body) : Core Response :=
  with_cluster clusterName (fun cluster =>
    match body with
    | (_, Some err) => mret [WriteHeader 503; println ["Unable to read file: "; err]]
    | (data, None) => put_cluster clusterName (set_RiakConfig data cluster) ;; persist_reply
    end).

Definition getConfig (clusterName : string) : Core Response :=
  with_cluster clusterName (fun cluster => mret [WriteHeader 200; Write (RiakConfig cluster)]).

Definition setAdvancedConfig (clusterName : string) (body : Body) : Core Response :=
  with_cluster clusterName (fun cluster =>
    match body with
    | (_, Some err) => mret [WriteHeader 503; println ["Unable to read file: "; err]]
    | (data, None) => put_cluster clusterName (set_AdvancedConfig data cluster) ;; persist_reply
    end).

Definition getAdvancedConfig (clusterName : string) : Core Response :=
  with_cluster clusterName (fun cluster => mret [WriteHeader 200; Write (AdvancedConfig cluster)]).

Definition serveClusters : Core Response :=
  ss ← get_state; mret (Encode (Clusters ss)).

(** [http.NotFound]. *)
Definition http_NotFound : Response := [WriteHeader 404; println ["404 page not found"]].

Definition getCluster (clusterName : string) : Core Response :=
  ss ← get_state;
  match Clusters ss !! clusterName with
  | None => mret http_NotFound
  | Some cluster => mret (Encode cluster)
  end.

(** ** Nodes *)

Definition removeNode (clusterName nodeID : string) : Core Response :=
  with_cluster clusterName (fun cluster =>
    match Nodes cluster !! nodeID with
    | None => mret (not_found "Node" nodeID)
    | Some node =>
        put_cluster clusterName (put_node nodeID (KillNext node) cluster) ;;
        _ ← Persist;
        mret [WriteHeader 202]
    end).

Definition createNode (clusterName : string) : Core Response :=
  with_cluster clusterName (fun cluster =>
    r ← io (CreateNode sc cluster);
    put_cluster clusterName r.1 ;;
    _ ← Persist;
    mret (WriteHeader 200 :: Encode r.2)).

Definition serveNodes (clusterName : string) : Core Response :=
  with_cluster clusterName (fun cluster => mret (WriteHeader 200 :: Encode (Nodes cluster))).

(** A handler that passes on what Riak Explorer says of the node. *)
Definition proxy (clusterName nodeName : string)
    (call : RiakExplorerClient -> string -> M W (string * option string)) : Core Response :=
  with_node clusterName nodeName (fun node =>
    r ← io (call (rex_client node) (node_fqn node));
    match r.2 with
    | Some err => mret [WriteHeader 503; println ["Unable to read data: "; err]]
    | None => mret [WriteHeader 200; Format r.1]
    end).

Definition nodeAAE (clusterName nodeName : string) := proxy clusterName nodeName GetAAEStatusJSON.
Definition nodeStatus (clusterName nodeName : string) := proxy clusterName nodeName GetStatusJSON.
Definition nodeRingready (clusterName nodeName : string) := proxy clusterName nodeName GetRingreadyJSON.
Definition nodeTransfers (clusterName nodeName : string) := proxy clusterName nodeName GetTransfersJSON.
Definition nodeTypes (clusterName nodeName : string) := proxy clusterName nodeName GetBucketTypesJSON.

Definition nodeCreateType (clusterName nodeName bucketType : string) (body : Body) : Core Response :=
  with_node clusterName nodeName (fun node =>
    match body with
    | (_, Some err) => mret [WriteHeader 503; println ["Unable to read data: "; err]]
    | (data, None) =>
        r ← io (CreateBucketTypeJSON (rex_client node) (node_fqn node) bucketType data);
        match r.2 with
        | Some err => mret [WriteHeader 500; Format r.1]
        | None => mret [WriteHeader 200; Format r.1]
        end
    end).

Definition healthcheck : Response := [println ["Scheduler: OK"]; WriteHeader 200].

(** ** Requests *)

(** The routes of the API; [gorilla/mux] picks one and its variables. *)
Inductive Request :=
  | ServeClusters
  | CreateCluster (cluster : string)
  | RestartCluster (cluster : string)
  | RemoveCluster (cluster : string)
  | GetCluster (cluster : string)
  | ServeNodes (cluster : string)
  | RemoveNodeReq (cluster node : string)
  | NodeAAE (cluster node : string)
  | NodeStatus (cluster node : string)
  | NodeRingready (cluster node : string)
  | NodeTransfers (cluster node : string)
  | NodeCreateType (cluster node bucketType : string) (body : Body)
  | NodeTypes (cluster node : string)
  | SetConfig (cluster : string) (body : Body)
  | GetConfig (cluster : string)
  | SetAdvancedConfig (cluster : string) (body : Body)
  | GetAdvancedConfig (cluster : string)
  | CreateNodeReq (cluster : string)
  | Healthcheck.

Definition handle (r : Request) : Core Response :=
  match r with
  | ServeClusters => serveClusters
  | CreateCluster c => createCluster c
  | RestartCluster c => restartCluster c
  | RemoveCluster c => removeCluster c
  | GetCluster c => getCluster c
  | ServeNodes c => serveNodes c
  | RemoveNodeReq c n => removeNode c n
  | NodeAAE c n => nodeAAE c n
  | NodeStatus c n => nodeStatus c n
  | NodeRingready c n => nodeRingready c n
  | NodeTransfers c n => nodeTransfers c n
  | NodeCreateType c n b body => nodeCreateType c n b body
  | NodeTypes c n => nodeTypes c n
  | SetConfig c body => setConfig c body
  | GetConfig c => getConfig c
  | SetAdvancedConfig c body => setAdvancedConfig c body
  | GetAdvancedConfig c => getAdvancedConfig c
  | CreateNodeReq c => createNode c
  | Healthcheck => mret healthcheck
  end.
End handlers.

(** ** Starting *)

Definition static_uri (URI name : string) : string := URI +:+ "/static/" +:+ name.

(** [ServeExecutorArtifact] up to the router: the port comes from Marathon, or
    is any free one, and is read back from the listener. *)
Definition ServeExecutorArtifact {E} `{!GoNet E, !GoEnv E} (schedulerHostname : string) :
    M E SchedulerHTTPServer :=
  port0 ← Getenv "PORT0";
  let strBindPort := if String.eqb port0 "" then "0" else port0 in
  ln ← net_Listen (":" +:+ strBindPort);
  match ln.2 with
  | Some err => mfatal err
  | None =>
      match SplitHostPort ln.1 with
      | None => mfatal "address"
      | Some (_, strPort) =>
          match Atoi strPort with
          | None => mfatal "invalid syntax"
          | Some port =>
              name ← (if String.eqb schedulerHostname "" then
                        hostname ← os_Hostname;
                        match hostname.2 with
                        | Some err => mfatal err
                        | None => mret hostname.1
                        end
                      else mret schedulerHostname);
              let URI := "http://" +:+ name +:+ ":" +:+ itoa port in
              mret {| hostURI := static_uri URI "riak_mesos_executor.tar.gz";
                      riakURI := static_uri URI "riak-bin.tar.gz";
                      cepmdURI := static_uri URI "cepmd_linux_amd64";
                      server_URI := URI |}
          end
      end
  end.

(** The artifacts are below the URI that is published. *)
Definition artifacts_at (http : SchedulerHTTPServer) : Prop :=
  hostURI http = static_uri (server_URI http) "riak_mesos_executor.tar.gz" /\
  riakURI http = static_uri (server_URI http) "riak-bin.tar.gz" /\
  cepmdURI http = static_uri (server_URI http) "cepmd_linux_amd64".

Lemma wpe_ServeExecutorArtifact {E} `{!GoNet E, !GoNetLaws E, !GoEnv E, !GoEnvLaws E} hostname (e : E) :
  wpe (ServeExecutorArtifact hostname)
    (fun http _ => artifacts_at http /\ HasPrefix (server_URI http) ("http://" +:+ hostname) = true)
    (fun x _ => x = exited) e.
Proof.
  apply wpe_bind, wp_wpe. wp_use Getenv_returns. intros port0 e1 _.
  apply wpe_bind, wp_wpe. wp_use net_Listen_returns. intros [addr [err|]] e2 _; [done|]. cbn [fst snd].
  destruct (SplitHostPort addr) as [[h strPort]|]; [|done]. destruct (Atoi strPort) as [port|]; [|done].
  apply wpe_bind. destruct (String.eqb_spec hostname "") as [->|].
  - apply wpe_bind, wp_wpe. wp_use os_Hostname_returns. intros [name [err|]] e3 _; [done|].
    apply wpe_ret, wpe_ret. split; [done|]. cbn [server_URI fst]. apply HasPrefix_app.
  - apply wpe_ret, wpe_ret. split; [done|]. cbn [server_URI].
    rewrite <- append_assoc. apply HasPrefix_app.
Qed.

(** ** What every handler keeps *)

Section handlers_keep.
Context `{!MesosUtil, !MesosUtilLaws, !Json TaskData, !Json JoinReply, !Json ForceRemoveReply, !GoParse,
  !Artifacts, !ZkErrorText}.
Context `{!Json SchedulerState, !Zlib, !StateCodecLaws, !Json FrameworkRiakCluster,
  !Json FrameworkRiakNode, !Json (gmap string FrameworkRiakCluster),
  !Json (gmap string FrameworkRiakNode)}.
Context {Conn Zk W : Type} `{!ZkApi Conn Zk}.
Context `{!Legible} (answers : bool).
Context `{!GoRand W, !GoRandLaws W, !GoEnv W, !GoEnvLaws W, !GoUuid W, !GoUuidLaws W,
  !GoMap W, !GoMapLaws W, !HttpClient W, !HttpClientLaws answers W}.
Context (sc : SchedulerConf).
Local Abbreviation fw := (frameworkName sc).
Local Abbreviation p := (GetZKPath (state_ns (frameworkName sc))).
Context `{!ZkPath p Zk, !ZkLaws false p Conn Zk}.
Local Abbreviation world := (SchedulerCore Conn * (Zk * W))%type.
Context (synced : bool).
Local Abbreviation good := (good (Conn := Conn) (Zk := Zk) (W := W) sc synced).
Local Abbreviation bad := (bad (Conn := Conn) (Zk := Zk) (W := W) answers sc).

(** The node sizes of the configuration can be read, and are finite, and the
    name of the framework is text in UTF-8. *)
Definition conf_ok : Prop :=
  sizes_finite sc /\ Forall (fun s => is_Some (ParseFloat s)) [nodeCpus sc; nodeMem sc; nodeDisk sc] /\
  utf8 fw.

Lemma wpe_persisted {A} (f : option ZkError -> M world A) (w : world) (Q : A -> world -> Prop) :
  inv fw p w -> (forall w', good w' -> same_memory w w' -> wpe (f None) Q bad w') ->
  wpe (Persist ≫= f) Q bad w.
Proof.
  intros Hinv HQ. apply wpe_bind. eapply wpe_mono; [| |by apply (wpe_Persist fw p)].
  - intros r w' (-> & Hinv' & Hs & Hm). apply HQ; [|done]. split; [done|intros _; by apply in_sync_agrees].
  - intros x w' (-> & Hinv' & _). by split.
Qed.

(** Putting a kept cluster, persisting it, and answering. *)
Lemma wpe_put_persist {A} name c c' (f : option ZkError -> M world A) (w : world)
    (Q : A -> world -> Prop) :
  inv fw p w -> clusters_of w !! name = Some c -> kept sc c c' ->
  (forall w', good w' -> clusters_of w' = <[name := c']> (clusters_of w) -> wpe (f None) Q bad w') ->
  wpe (put_cluster name c' ;; Persist ≫= f) Q bad w.
Proof.
  intros Hinv Hc Hk HQ. apply wpe_bind, wpe_put_cluster, wpe_persisted.
  - apply inv_put_clusters; [done|]. eapply clusters_ok_put; [|exact Hc|done].
    by destruct Hinv as [[? _] _].
  - intros w' Hg Hm. apply HQ; [done|]. by rewrite (same_memory_clusters _ _ Hm).
Qed.

Lemma NewCluster_ok name : cluster_ok fw (NewFrameworkRiakCluster name).
Proof.
  split; [|split; auto with go].
  split; [|split]; cbn; auto with go.
Qed.

(** [removeCluster] asks every node to be killed. *)
Definition all_killed (c : FrameworkRiakCluster) : FrameworkRiakCluster :=
  set_Nodes (KillNext <$> Nodes c) c.

Lemma wp_kill_nodes c (w : W) : wp total (kill_nodes c) (fun c' _ => c' = all_killed c) w.
Proof.
  apply wp_bind. wp_use wp_range. intros keys w1 [Hnd Hkeys].
  eapply wp_mono; [|apply (wp_mfoldl _ _ (fun done c' _ =>
    c' = set_Nodes (Nodes c') c /\ forall k, Nodes c' !! k =
      if decide (k ∈ done) then KillNext <$> Nodes c !! k else Nodes c !! k))].
  - intros c' w2 [Heq Hk]. rewrite Heq. unfold all_killed. f_equal. apply map_eq. intros k.
    rewrite Hk, lookup_fmap. case_decide as Hin; [done|].
    destruct (Nodes c !! k) eqn:Hn; [|done]. destruct Hin. apply Hkeys. by eexists.
  - intros d key rest c' w2 -> [Heq Hk].
    assert (is_Some (Nodes c !! key)) as [n Hn] by (apply Hkeys, elem_of_app; right; by left).
    assert (key ∉ d) as Hd.
    { apply NoDup_app in Hnd as (_ & Hdis & _). intros Hin. apply (Hdis key Hin). by left. }
    assert (Nodes c' !! key = Some n) as Hn' by (rewrite Hk; by rewrite decide_False).
    rewrite Hn'. apply wp_bind, wp_ret, wp_ret. split; [by rewrite Heq|]. intros k.
    destruct (decide (key = k)) as [<-|Hne].
    + rewrite lookup_put_node. rewrite decide_True by (apply elem_of_app; right; by left).
      by rewrite Hn.
    + rewrite lookup_put_node_ne by done. rewrite Hk. apply decide_ext.
      rewrite elem_of_app, list_elem_of_singleton. naive_solver.
  - split; [by destruct c|]. intros k. rewrite decide_False; [done|]. apply not_elem_of_nil.
Qed.

Lemma all_killed_kept c : kept sc c (all_killed c).
Proof.
  apply kept_nodes; [done| |].
  - split; [done|split; [|done]]. apply map_eq. intros k. unfold all_killed. cbn.
    rewrite !lookup_fmap. by destruct (Nodes c !! k).
  - intros k n n' Hn Hn'. unfold all_killed in Hn'. cbn in Hn'. rewrite lookup_fmap, Hn in Hn'.
    by injection Hn' as <-.
Qed.

Lemma created_kept c r : cluster_ok fw c -> created sc c r -> kept sc c r.1.
Proof.
  intros (Hwf & HN & HG) (Heq & _ & Hwf' & cpus & mem & disk & uuid & _ & _ & _ & Hn).
  rewrite Heq. split; [done|]. intros _. rewrite <- Heq. split; [done|]. rewrite Heq. split; [|done].
  cbn. apply map_Forall_insert_2; [|done]. by rewrite Hn.
Qed.

Lemma wpe_with_cluster name f (w : world) (Q : Response -> world -> Prop) R :
  (clusters_of w !! name = None -> Q [WriteHeader 404; Write ("Cluster " +:+ name +:+ " not found")] w) ->
  (forall c, clusters_of w !! name = Some c -> wpe (f c) Q R w) ->
  wpe (with_cluster name f) Q R w.
Proof.
  intros H1' H2'. unfold with_cluster. apply wpe_bind, wpe_get_state. unfold clusters_of in *.
  destruct (Clusters (schedulerState w.1) !! name); [by apply H2'|by apply (wpe_ret [WriteHeader 404; _]), H1'].
Qed.

Lemma wpe_with_node name k f (w : world) (Q : Response -> world -> Prop) R :
  (clusters_of w !! name = None -> Q [WriteHeader 404; Write ("Cluster " +:+ name +:+ " not found")] w) ->
  (forall c, clusters_of w !! name = Some c -> Nodes c !! k = None ->
    Q [WriteHeader 404; Write ("Node " +:+ k +:+ " not found")] w) ->
  (forall c n, clusters_of w !! name = Some c -> Nodes c !! k = Some n -> wpe (f n) Q R w) ->
  wpe (with_node name k f) Q R w.
Proof.
  intros Hcl Hno Hf. apply wpe_with_cluster; [done|]. intros c Hc.
  destruct (Nodes c !! k) as [n|] eqn:Hn; [by eapply Hf|by apply (wpe_ret [WriteHeader 404; _]), (Hno c)].
Qed.

(** *** The specification of the requests *)

(** A page of Riak Explorer on the node [n]. *)
Definition explorer_url (n : FrameworkRiakNode) (area page : string) : string :=
  "http://" +:+ Hostname n +:+ ":" +:+ itoa (HTTPPort (n_TaskData n)) +:+ "/admin/" +:+
  area +:+ "/nodes/" +:+ FullyQualifiedNodeName (n_TaskData n) +:+ "/" +:+ page.

(** The answer that passes on a page, or says that it could not be read. *)
Definition page_answer (res : HttpResult) : Response :=
  match read_result res with
  | (body, None) => [WriteHeader 200; Format body]
  | (_, Some err) => [WriteHeader 503; println ["Unable to read data: "; err]]
  end.

(** The answer to a bucket type that was sent to Riak Explorer. *)
Definition created_answer (res : HttpResult) : Response :=
  match read_result res with
  | (body, None) => [WriteHeader 200; Format body]
  | (body, Some _) => [WriteHeader 500; Format body]
  end.

(** From clusters [m] in the environment [v], the answer [r] and clusters [m']:
    every answer is given in full, and no request changes more than the
    cluster that it names. *)
Definition request_effect (req : Request) (v : W) (m : gmap string FrameworkRiakCluster)
    (r : Response) (m' : gmap string FrameworkRiakCluster) : Prop :=
  let answers_with (ans : Response) := r = ans /\ m' = m in
  let changes name c (ans : Response) := r = ans /\ m' = <[name := c]> m in
  let on name (f : FrameworkRiakCluster -> Prop) :=
    match m !! name with
    | None => answers_with [WriteHeader 404; Write ("Cluster " +:+ name +:+ " not found")]
    | Some c => f c
    end in
  let on_node name k (f : FrameworkRiakCluster -> FrameworkRiakNode -> Prop) := on name (fun c =>
    match Nodes c !! k with
    | None => answers_with [WriteHeader 404; Write ("Node " +:+ k +:+ " not found")]
    | Some n => f c n
    end) in
  let page name k area what := on_node name k (fun _ n => exists res v',
    http_Get (explorer_url n area what) v = (Ret res, v') /\ answers_with (page_answer res)) in
  let config name (body : Body) (f : string -> FrameworkRiakCluster -> FrameworkRiakCluster) := on name (fun c =>
    match body with
    | (_, Some err) => answers_with [WriteHeader 503; println ["Unable to read file: "; err]]
    | (data, None) => changes name (f data c) [WriteHeader 200; Write "Success!"]
    end) in
  match req with
  | ServeClusters => answers_with (Encode m)
  | CreateCluster name =>
      match m !! name with
      | Some _ => answers_with [WriteHeader 409]
      | None =>
          let c := mk_FrameworkRiakCluster name ∅ ∅ (default "" (Asset "riak.conf"))
            (default "" (Asset "advanced.config")) false false 0 in
          changes name c (WriteHeader 200 :: Encode c)
      end
  | RestartCluster name => on name (fun c =>
      let c' := if c_IsRestarting c then c
                else set_c_Generation (wrap64 (c_Generation c + 1)) (set_IsRestarting true c) in
      changes name c' (WriteHeader 202 :: Encode c'))
  | RemoveCluster name => on name (fun c =>
      changes name (set_IsKilled true (set_Nodes (set_DestinationState Shutdown <$> Nodes c) c)) [WriteHeader 202])
  | GetCluster name =>
      match m !! name with
      | Some c => answers_with (Encode c)
      | None => answers_with [WriteHeader 404; Write ("404 page not found" +:+ newline)]
      end
  | ServeNodes name => on name (fun c => answers_with (WriteHeader 200 :: Encode (Nodes c)))
  | RemoveNodeReq name k => on_node name k (fun c n =>
      changes name (put_node k (set_DestinationState Shutdown n) c) [WriteHeader 202])
  | NodeAAE name k => page name k "control" "aae-status"
  | NodeStatus name k => page name k "control" "status"
  | NodeRingready name k => page name k "control" "ringready"
  | NodeTransfers name k => page name k "control" "transfers"
  | NodeTypes name k => page name k "explore" "bucket_types"
  | NodeCreateType name k bucketType body => on_node name k (fun _ n =>
      match body with
      | (_, Some err) => answers_with [WriteHeader 503; println ["Unable to read data: "; err]]
      | (data, None) => exists res v',
          http_Put (explorer_url n "explore" ("bucket_types/" +:+ bucketType)) data v = (Ret res, v') /\
          answers_with (created_answer res)
      end)
  | SetConfig name body => config name body set_RiakConfig
  | GetConfig name => on name (fun c => answers_with [WriteHeader 200; Write (RiakConfig c)])
  | SetAdvancedConfig name body => config name body set_AdvancedConfig
  | GetAdvancedConfig name => on name (fun c => answers_with [WriteHeader 200; Write (AdvancedConfig c)])
  | CreateNodeReq name => on name (fun c => exists c' n,
      created sc c (c', n) /\ changes name c' (WriteHeader 200 :: Encode n))
  | Healthcheck => answers_with [Write ("Scheduler: OK" +:+ newline); WriteHeader 200]
  end.

(** The request [req] is answered as specified. *)
Definition meets (req : Request) (w : world) (r : Response) (w' : world) : Prop :=
  good w' /\ request_effect req w.2.2 (clusters_of w) r (clusters_of w').

(** *** It is met *)

Lemma admin_url_eq n path : admin_url (rex_client n) path =
  "http://" +:+ Hostname n +:+ ":" +:+ itoa (HTTPPort (n_TaskData n)) +:+ "/admin/" +:+ path.
Proof. unfold admin_url, rex_client. cbn [rex_Host NewRiakExplorerClient]. by rewrite !append_assoc. Qed.

(** A page that is passed on. *)
Lemma wpe_page name k req call area what (w : world) :
  (forall n, call (rex_client n) (node_fqn n) =
    doGet (rex_client n) (area +:+ "/nodes/" +:+ node_fqn n +:+ "/" +:+ what)) ->
  (forall r m', request_effect req w.2.2 (clusters_of w) r m' =
    match clusters_of w !! name with
    | None => r = [WriteHeader 404; Write ("Cluster " +:+ name +:+ " not found")] /\ m' = clusters_of w
    | Some c =>
        match Nodes c !! k with
        | None => r = [WriteHeader 404; Write ("Node " +:+ k +:+ " not found")] /\ m' = clusters_of w
        | Some n => exists res v', http_Get (explorer_url n area what) w.2.2 = (Ret res, v') /\
            r = page_answer res /\ m' = clusters_of w
        end
    end) ->
  good w -> wpe (proxy name k call) (meets req w) bad w.
Proof.
  intros Hcall Hreq Hg. unfold meets. apply wpe_with_node.
  - intros Hc. rewrite Hreq, Hc. by split.
  - intros c Hc Hn. rewrite Hreq, Hc, Hn. by split.
  - intros c n Hc Hn. destruct w as [s [z v]]. apply wpe_bind, wpe_io. rewrite Hcall. unfold doGet.
    rewrite admin_url_eq. apply wpe_bind.
    eapply wpe_mono; [| |apply wpe_eqn, http_Get_ends].
    + intros res v' [Hres _]. apply wpe_ret.
      assert (request_effect req v (clusters_of (s, (z, v))) (page_answer res) (clusters_of (s, (z, v)))) as Hmet
        by (rewrite (Hreq (page_answer res)), Hc, Hn; by exists res, v').
      unfold page_answer in Hmet. destruct (read_result res) as [body [err|]]; cbn [fst snd];
        by apply (wpe_ret (A := Response)).
    + intros x v' [-> ->]. split; [done|apply Hg].
Qed.

(** A bucket type that is sent on. *)
Lemma wpe_create_type name k bucketType body (w : world) :
  good w -> wpe (nodeCreateType name k bucketType body) (meets (NodeCreateType name k bucketType body) w) bad w.
Proof.
  intros Hg. unfold meets, request_effect. apply wpe_with_node.
  - intros Hc. rewrite Hc. by split.
  - intros c Hc Hn. rewrite Hc, Hn. by split.
  - intros c n Hc Hn. rewrite Hc, Hn. destruct body as [data [err|]]; [by apply wpe_ret|].
    destruct w as [s [z v]]. apply wpe_bind, wpe_io. unfold CreateBucketTypeJSON, doPutWithData.
    rewrite admin_url_eq. destruct (negb _); [by apply wpe_panic; split; [|apply Hg]|]. apply wpe_bind.
    eapply wpe_mono; [| |apply wpe_eqn, http_Put_ends].
    + intros res v' [Hres _]. apply wpe_ret. unfold created_answer in *.
      destruct (read_result res) as [body [err|]] eqn:Hr; cbn [fst snd]; apply (wpe_ret (A := Response));
        (split; [done|]; exists res, v'; rewrite Hr; by split).
    + intros x v' [-> ->]. split; [done|apply Hg].
Qed.

(** A request that changes one cluster: it is put, persisted and answered. *)
Lemma wpe_change name c c' (w : world) (ans : Response) (Q : Response -> world -> Prop) :
  inv fw p w -> clusters_of w !! name = Some c -> kept sc c c' ->
  (forall w', good w' -> clusters_of w' = <[name := c']> (clusters_of w) -> Q ans w') ->
  wpe (put_cluster name c' ;; (_ ← Persist; mret ans)) Q bad w.
Proof. intros Hinv Hc Hk HQ. eapply wpe_put_persist; [done..|]. intros w' Hg Hcl. by apply wpe_ret, HQ. Qed.

Lemma wpe_set_config name c c' (w : world) (Q : Response -> world -> Prop) :
  inv fw p w -> clusters_of w !! name = Some c -> kept sc c c' ->
  (forall w', good w' -> clusters_of w' = <[name := c']> (clusters_of w) ->
    Q [WriteHeader 200; Write "Success!"] w') ->
  wpe (put_cluster name c' ;; persist_reply) Q bad w.
Proof.
  intros Hinv Hc Hk HQ. eapply wpe_put_persist; [done..|]. intros w' Hg Hcl. by apply wpe_ret, HQ.
Qed.

Lemma wpe_createCluster name (w : world) :
  good w -> wpe (createCluster name) (meets (CreateCluster name) w) bad w.
Proof.
  intros Hg. pose proof Hg as [Hinv _]. pose proof Hinv as ([HC _] & _). unfold meets, request_effect.
  apply wpe_bind, wpe_get_state. fold (clusters_of w).
  destruct (clusters_of w !! name) as [c|] eqn:Hc; [by apply wpe_ret|].
  apply wpe_bind, wpe_put_cluster, wpe_persisted.
  - apply inv_put_clusters; [done|]. apply map_Forall_insert_2; [|done]. split; [done|apply NewCluster_ok].
  - intros w' Hg' Hm. apply wpe_ret. split; [done|]. split; [done|]. by rewrite (same_memory_clusters _ _ Hm).
Qed.

Lemma wpe_createNode name (w : world) :
  conf_ok -> good w -> wpe (createNode sc name) (meets (CreateNodeReq name) w) bad w.
Proof.
  intros (Hfin & Hread & _) Hg. pose proof Hg as [Hinv _]. pose proof Hinv as ([HC _] & _).
  unfold meets, request_effect. apply wpe_with_cluster; [by intros ->|]. intros c Hc. rewrite Hc.
  destruct w as [s [z w]]. apply wpe_bind, wpe_env. destruct (HC _ _ Hc) as [_ Hok].
  eapply wp_mono; [|apply wp_CreateNode; [by destruct Hok|done|done]]. intros [c' n] w1 Hr.
  eapply wpe_change; [done|exact Hc|by eapply (created_kept _ (c', n))|].
  intros w' Hg' Hcl. split; [done|]. by exists c', n.
Qed.

Lemma wpe_removeCluster name (w : world) :
  good w -> wpe (removeCluster name) (meets (RemoveCluster name) w) bad w.
Proof.
  intros Hg. pose proof Hg as [Hinv _]. unfold meets, request_effect.
  apply wpe_with_cluster; [by intros ->|]. intros c Hc. rewrite Hc.
  destruct w as [s [z w]]. apply wpe_bind, wpe_env. wp_use wp_kill_nodes. intros c' w1 ->.
  eapply wpe_change; [done|exact Hc|apply all_killed_kept|by intros].
Qed.

Lemma wpe_removeNode name k (w : world) :
  good w -> wpe (removeNode name k) (meets (RemoveNodeReq name k) w) bad w.
Proof.
  intros Hg. pose proof Hg as [Hinv _]. unfold meets, request_effect.
  apply wpe_with_cluster; [by intros ->|]. intros c Hc. rewrite Hc.
  destruct (Nodes c !! k) as [n|] eqn:Hn; [|by apply wpe_ret].
  eapply wpe_change; [done|exact Hc|by eapply kept_put|by intros].
Qed.

(** The specification is met, and the invariant kept. *)
Lemma wpe_handle req (w : world) : conf_ok -> good w -> wpe (handle sc req) (meets req w) bad w.
Proof.
  intros Hconf Hg. pose proof Hg as [Hinv _]. destruct req; cbn [handle].
  - by apply wpe_bind, wpe_get_state, wpe_ret.
  - by apply wpe_createCluster.
  - unfold meets, request_effect. apply wpe_with_cluster; [by intros ->|]. intros c Hc. rewrite Hc.
    eapply wpe_change; [done|exact Hc| |by intros]. unfold RollingRestart. by destruct (c_IsRestarting c).
  - by apply wpe_removeCluster.
  - unfold meets, request_effect. apply wpe_bind, wpe_get_state. fold (clusters_of w).
    destruct (clusters_of w !! cluster); by apply (wpe_ret (A := Response)).
  - unfold meets, request_effect. apply wpe_with_cluster; [by intros ->|]. intros c Hc. rewrite Hc. by apply wpe_ret.
  - by apply wpe_removeNode.
  - by apply (wpe_page _ _ _ _ "control" "aae-status").
  - by apply (wpe_page _ _ _ _ "control" "status").
  - by apply (wpe_page _ _ _ _ "control" "ringready").
  - by apply (wpe_page _ _ _ _ "control" "transfers").
  - by apply wpe_create_type.
  - by apply (wpe_page _ _ _ _ "explore" "bucket_types").
  - unfold meets, request_effect. apply wpe_with_cluster; [by intros ->|]. intros c Hc. rewrite Hc.
    destruct body as [data [err|]]; [by apply wpe_ret|]. by eapply wpe_set_config.
  - unfold meets, request_effect. apply wpe_with_cluster; [by intros ->|]. intros c Hc. rewrite Hc. by apply wpe_ret.
  - unfold meets, request_effect. apply wpe_with_cluster; [by intros ->|]. intros c Hc. rewrite Hc.
    destruct body as [data [err|]]; [by apply wpe_ret|]. by eapply wpe_set_config.
  - unfold meets, request_effect. apply wpe_with_cluster; [by intros ->|]. intros c Hc. rewrite Hc. by apply wpe_ret.
  - by apply wpe_createNode.
  - by apply wpe_ret.
Qed.
End handlers_keep.
