(* ===== verification/System.v ===== *)
(** * The scheduler as a whole

    A process boots, is up, hangs in an event, or is down; a step is one callback
    of the driver, one tick, one HTTP request, a crash, a start, or a write of
    another scheduler.  The theorems hold in every reachable state, for every
    behaviour of Riak Explorer, of the map order and of a failing ZooKeeper
    connection.  Of Mesos they assume that offers have ranges of valid ports, and,
    where [Legible] says so, that its task states are those of the enumeration. *)

From S2P Require Import Prelude GoStrings Float64 Mesos Host Utils Structs Offer Node Explorer Cluster Decoding Metadata Cepm State Codec Persistence Scheduler Server.

#[local] Open Scope string_scope.
#[local] Open Scope list_scope.
#[local] Open Scope Z_scope.

(** ** Events *)

Inductive event :=
  | EOffers (offers : list Offer)
  | EStatus (status : TaskStatus)
  | ETick
  | ERegistered (frameworkId : option string)
  | EReregistered
  | ERequest (req : Request).

(** What is assumed of an event: the offers are as Mesos makes them, and so
    are the statuses if [legible]. *)
Definition event_ok `{!MesosUtil, !Legible} (ev : event) : Prop :=
  match ev with
  | EOffers offers => Forall offer_ok offers
  | EStatus status => status_ok status
  | _ => True
  end.

Definition is_request (ev : event) : bool :=
  match ev with ERequest _ => true | _ => false end.

Section system.
Context `{!MesosUtil, !Json TaskData, !Json JoinReply, !Json ForceRemoveReply, !GoParse,
  !Artifacts, !ZkErrorText}.
Context `{!Json SchedulerState, !Zlib, !Json FrameworkRiakCluster,
  !Json FrameworkRiakNode, !Json (gmap string FrameworkRiakCluster),
  !Json (gmap string FrameworkRiakNode)}.
Context {Conn Zk W : Type} `{!ZkApi Conn Zk}.
Context `{!Legible, !GoRand W, !GoEnv W, !GoUuid W, !GoMap W, !GoTime W, !HttpClient W,
  !SchedulerDriver W, !GoNet W, !GoFiles W}.
Context (sc : SchedulerConf) (master : string).
Context `{!ZkPath (GetZKPath (state_ns (frameworkName sc))) Zk}.
Local Abbreviation world := (SchedulerCore Conn * (Zk * W))%type.

Definition run_event (ev : event) : M world unit :=
  match ev with
  | EOffers offers => ResourceOffers sc offers ;; mret tt
  | EStatus status => StatusUpdate status
  | ETick => reconcile
  | ERegistered id => Registered id
  | EReregistered => Reregistered
  | ERequest req => handle sc req ;; mret tt
  end.

(** The start of a process: the manager is new, then [Run]. *)
Definition boot (mgr : MetadataManager Conn) : M (Zk * W) (DriverConfig * SchedulerCore Conn) :=
  r ← run_in mgr (NewSchedulerCore sc);
  run_in r.1 (Run sc master).

(** A process is booting from the moment it has its [SchedulerCore] and serves
    HTTP until [Run] has the lock in ZooKeeper and the driver; it hangs when an
    event that does not end has its lock. *)
Inductive system := Up (w : world) | Booting (w : world) | Hung (w : world) | Down (env : Zk * W).

(** What a process has in memory, and what is left without it. *)
Definition memory (s : system) : option world :=
  match s with
  | Up w | Booting w | Hung w => Some w
  | Down _ => None
  end.

Definition outside (s : system) : Zk * W :=
  match s with
  | Up w | Booting w | Hung w => w.2
  | Down env => env
  end.

Definition start (mgr : MetadataManager Conn) (env : Zk * W) : system :=
  match run_in mgr (NewSchedulerCore sc) env with
  | (Ret (core, _), env') => Booting (core, env')
  | (_, env') => Down env'
  end.

(** [Run] does not take the lock of the scheduler. *)
Definition run (w : world) : system :=
  match Run sc master w with
  | (Ret _, w') => Up w'
  | (_, w') => Down w'.2
  end.

(** A process that serves events, and what becomes of it with one.  A panic is
    caught by [net/http] in a request and ends the process elsewhere; so does
    [log.Fatal] anywhere. *)
Inductive serves : event -> world -> system -> (world -> system) -> Prop :=
  | serves_up ev w : serves ev w (Up w) Up
  | serves_booting req w : serves (ERequest req) w (Booting w) Booting.

Definition after_event (ev : event) (r : res unit) (next : world -> system) (w : world) : system :=
  match r with
  | Ret _ => next w
  | Panic _ => if is_request ev then next w else Down w.2
  | Fatal _ => Down w.2
  | Block _ => Hung w
  end.

(** Another scheduler may write its state: one that has the lock in ZooKeeper
    while this one boots, or one that got it because this one lost its session. *)
Inductive step : system -> system -> Prop :=
  | step_event ev w s next r w' : event_ok ev -> serves ev w s next -> run_event ev w = (r, w') ->
      step s (after_event ev r next w')
  | step_crash s : step s (Down (outside s))
  | step_outside_up s z v v' : step (Up (s, (z, v))) (Up (s, (z, v')))
  | step_outside_booting s z v v' : step (Booting (s, (z, v))) (Booting (s, (z, v')))
  | step_outside_down z v v' : step (Down (z, v)) (Down (z, v'))
  | step_other_up s z z' v : stored_wf (frameworkName sc) (GetZKPath (state_ns (frameworkName sc))) z' ->
      step (Up (s, (z, v))) (Up (s, (z', v)))
  | step_other_booting s z z' v : stored_wf (frameworkName sc) (GetZKPath (state_ns (frameworkName sc))) z' ->
      step (Booting (s, (z, v))) (Booting (s, (z', v)))
  | step_start mgr env : step (Down env) (start mgr env)
  | step_run w : step (Booting w) (run w).
End system.

(** ** The invariant *)

Section system_invariant.
Context `{!MesosUtil, !MesosUtilLaws, !Json TaskData, !Json JoinReply, !Json ForceRemoveReply, !GoParse,
  !Artifacts, !ZkErrorText}.
Context `{!Json SchedulerState, !Zlib, !StateCodecLaws, !Json FrameworkRiakCluster,
  !Json FrameworkRiakNode, !Json (gmap string FrameworkRiakCluster),
  !Json (gmap string FrameworkRiakNode)}.
Context {Conn Zk W : Type} `{!ZkApi Conn Zk}.
Context `{!Legible} (answers : bool).
Context `{!GoRand W, !GoRandLaws W, !GoEnv W, !GoEnvLaws W, !GoUuid W, !GoUuidLaws W,
  !GoMap W, !GoMapLaws W, !HttpClient W, !HttpClientLaws answers W, !GoTime W, !GoTimeLaws W,
  !SchedulerDriver W, !DriverLaws W, !GoNet W, !GoNetLaws W, !GoFiles W, !GoFilesLaws W}.
Context (sc : SchedulerConf) (master : string).
Local Abbreviation fw := (frameworkName sc).
Local Abbreviation p := (GetZKPath (state_ns (frameworkName sc))).
Context `{!ZkPath p Zk, !ZkLaws false p Conn Zk}.
Local Abbreviation world := (SchedulerCore Conn * (Zk * W))%type.
Local Abbreviation good := (good (Conn := Conn) (Zk := Zk) (W := W) sc).
Local Abbreviation bad := (bad (Conn := Conn) (Zk := Zk) (W := W) answers sc).
Local Abbreviation boot := (boot (Conn := Conn) (Zk := Zk) (W := W) sc master).
Local Abbreviation start := (start (Conn := Conn) (Zk := Zk) (W := W) sc).
Local Abbreviation run := (run (Conn := Conn) (Zk := Zk) (W := W) sc master).
Local Abbreviation step := (step (Conn := Conn) (Zk := Zk) (W := W) sc master).
Local Abbreviation system := (system (Conn := Conn) (Zk := Zk) (W := W)).

(** Every event, from a state that agrees with the server or not. *)
Lemma wpe_run_event b ev w :
  (forall t : TaskData, (Marshal t).2 = None) -> conf_ok sc -> event_ok ev -> good b w ->
  wpe (run_event sc ev) (fun _ w' => good b w') bad w.
Proof.
  intros HM Hsz Hev Hg. destruct ev; cbn [run_event].
  - apply wpe_bind. wpe_by wpe_ResourceOffers.
    intros l w' [? _]. by apply wpe_ret.
  - wpe_by wpe_StatusUpdate. by intros u w' [? _].
  - by apply wpe_reconcile.
  - by apply wpe_Registered.
  - by apply wpe_Reregistered.
  - apply wpe_bind. wpe_by wpe_handle.
    intros r w' [? _]. by apply wpe_ret.
Qed.

(** *** Starting *)

(** The server has state [ss], or none and [ss] is the empty state. *)
Definition stores (z : Zk) (ss : SchedulerState) : Prop :=
  state_wf fw ss /\
  (zk_stored (p := p) z = Some (bytes ss) \/
   zk_stored (p := p) z = None /\ ss = emptySchedulerState).

Lemma stores_stable (z z' : Zk) ss : stores z ss -> zk_stored (p := p) z' = zk_stored (p := p) z ->
  stores z' ss.
Proof. intros [? Hs] Hz. split; [done|]. by rewrite Hz. Qed.

Lemma stored_stores (z : Zk) : stored_wf fw p z -> exists ss, stores z ss.
Proof. intros (ss & ? & ?). exists ss. split; [done|by left]. Qed.

(** The state's node is not on the way to the port mapper's. *)
Lemma state_beside_cepmd : not_above (cepmd_ns fw) p.
Proof.
  apply not_above_longer. unfold cepmd_ns, state_ns. rewrite GetZKPath_child.
  change (GetComponents (makeSubSpace ?n ?c)) with (GetComponents n ++ [c]).
  rewrite Join_app by apply GetComponents_ne. rewrite !length_append. cbn. lia.
Qed.

(** The state is read or made, and stays. *)
Lemma wpe_read_state (mgr : MetadataManager Conn) (z : Zk) ss : mgr_ok fw mgr -> stores z ss ->
  wpe GetSchedulerState
    (fun ss' v => mgr_ok fw v.1 /\ (exists n, zkNode ss' = Some n /\ GetZKPath (ns n) = p) /\
      ss' = set_zkNode (zkNode ss') (decoded ss) /\ zk_stored (p := p) v.2 = Some (bytes ss))
    (fun x v => x = panicked /\ stores v.2 ss) (mgr, z).
Proof.
  intros Hm [Hwf Hs].
  eapply wpe_mono; [| |apply (wpe_GetSchedulerState fw p eq_refl (zk_stored (p := p) z)); [exact Hm|done|]].
  - intros ss' [mgr2 z2] (Hm2 & n & ss0 & Hn & -> & [He Hr] & Hz2). cbn [fst snd] in *.
    split; [done|]. split; [by exists n|]. cbn.
    destruct Hs as [Hs|[Hs ->]], Hr as [Hr|[Hr ->]]; rewrite Hs in Hr; try done.
    injection Hr as Hr. symmetry in Hr. rewrite (bytes_inj _ _ He Hr). split; [done|].
    etransitivity; [exact Hz2|by rewrite Hr].
  - intros x [mgr2 z2] (-> & Hz2). cbn [fst snd] in *. split; [done|]. split; [done|].
    destruct Hz2 as [->|[Hz ->]]; [done|]. destruct Hs as [Hs|[_ ->]]; [congruence|by left].
  - intros d Hd. destruct Hs as [Hs|[Hs _]]; [|congruence]. exists ss. congruence.
Qed.

Lemma wpe_NewSchedulerCore (mgr : MetadataManager Conn) (env : Zk * W) ss :
  stores env.1 ss ->
  wpe (NewSchedulerCore sc)
    (fun core w' => core_ready fw p core /\ rServer_enabled core = false /\
      schedulerState core = set_zkNode (zkNode (schedulerState core)) (decoded ss) /\
      zk_stored (p := p) w'.2.1 = Some (bytes ss))
    (fun x w' => x = panicked /\ stores w'.2.1 ss) (mgr, env).
Proof.
  destruct env as [z v]. intros Hst. unfold NewSchedulerCore. apply wpe_bind.
  unfold in_zk. apply (wpe_zoom_l (fun mgr => mgr) (fun mgr _ => mgr)).
  eapply wpe_mono; [| |apply (wpe_NewMetadataManager (eph := false) fw _ (zk_stored (p := p) z));
    [apply state_not_above|done]].
  2: { intros x w' [-> Hz]. split; [done|]. by eapply stores_stable. }
  intros u [mgr1 z1] [Hm1 Hz1]. cbn [fst snd] in *.
  apply wpe_bind, (wpe_zoom_l (fun mgr => mgr) (fun mgr _ => mgr)).
  eapply wpe_mono; [| |apply wpe_read_state; [done|by eapply stores_stable]]; [|done].
  intros ss' [mgr2 z2] (Hm2 & (n & Hn & Hp) & Heq & Hz2). cbn [fst snd] in *.
  apply wpe_bind. eapply wpe_mono; [| |apply (wpe_NewCPMd (eph := false) fw 0 (Some (bytes ss)));
    [apply state_beside_cepmd|done|done]].
  - intros c [mgr3 [z3 v3]] (Hm3 & Hz3 & _). cbn [fst snd] in *. apply wpe_bind, wpe_get_st, wpe_ret.
    split; [split; [done|by exists n]|]. by split.
  - intros x [mgr3 [z3 v3]] [-> Hz3]. split; [done|]. split; [apply Hst|by left].
Qed.

Lemma wpe_parseIP address (v : W) : wpe (parseIP address) (fun _ _ => True) (fun x _ => x <> blocked) v.
Proof.
  apply wpe_bind, wp_wpe. wp_use net_LookupIP_returns. by intros [[|ip l] [err|]] v' _.
Qed.

Lemma wpe_driver_config fwinfo (v : W) :
  wpe (driver_config sc master fwinfo) (fun c _ => dc_Framework c = fwinfo) (fun x _ => x <> blocked) v.
Proof.
  unfold driver_config, credential. apply wpe_bind.
  eapply (wpe_mono _ (fun _ _ => True)); [| |instantiate (1 := fun x _ => x <> blocked)]; [|done|].
  2: { case_match; [|done]. apply wpe_bind, wp_wpe. wp_use ioutil_ReadFile_returns.
       by intros [secret [err|]] v' _. }
  intros cred v1 _. apply wpe_bind, wp_wpe. wp_use os_Hostname_returns. intros [hostname [err|]] v2 _; [done|].
  apply wpe_bind. case_match; [|done]. apply wpe_bind. wpe_use wpe_parseIP. intros ip v3 _. done.
Qed.

Lemma wpe_Run (core : SchedulerCore Conn) (z : Zk) (v : W) :
  mgr_ok fw (sc_mgr core) ->
  wpe (Run sc master)
    (fun c w' => dc_Framework c = framework_info sc (set_MesosMaster master (schedulerState core)) /\
      w'.1 = set_enabled false (set_schedulerState (set_MesosMaster master (schedulerState core)) core) /\
      zk_stored (p := p) w'.2.1 = zk_stored (p := p) z)
    (fun x w' => x <> blocked /\ zk_stored (p := p) w'.2.1 = zk_stored (p := p) z) (core, (z, v)).
Proof.
  intros Hm. unfold Run. apply wpe_bind, wpe_upd_st, wpe_bind, wpe_get_state.
  apply wpe_bind, wpe_io. eapply wpe_mono; [| |apply wpe_driver_config]; [|done].
  intros c v1 Hc. apply wpe_bind, wpe_io, wp_wpe. wp_use NewMesosSchedulerDriver_returns. intros err v2 _.
  apply wpe_bind, wpe_upd_st, wpe_bind, wpe_zoom_l. cbn [fst snd].
  eapply wpe_mono; [| |by apply (wpe_SetupFramework (eph := false) fw _ (zk_stored (p := p) z))].
  - intros u [mgr1 z1] [Hm1 Hz]. cbn [fst snd] in *. subst mgr1.
    destruct err; [by apply (wpe_panic (A := DriverConfig))|]. apply wpe_ret. by destruct core.
  - intros x [mgr1 z1] (-> & _ & Hz). done.
Qed.

(** A process that starts has the stored state as JSON keeps it. *)
Definition booted (ss : SchedulerState) (c : DriverConfig) (w : world) : Prop :=
  (utf8 fw -> good true w) /\ rServer_enabled w.1 = false /\
  schedulerState w.1 = set_zkNode (zkNode (schedulerState w.1)) (set_MesosMaster master (decoded ss)) /\
  dc_Framework c = framework_info sc (schedulerState w.1).

Lemma read_good ss (core : SchedulerCore Conn) z (v : W) :
  utf8 fw -> state_wf fw ss -> core_ready fw p core ->
  schedulerState core = set_zkNode (zkNode (schedulerState core)) (decoded ss) ->
  zk_stored (p := p) z = Some (bytes ss) -> good true (core, (z, v)).
Proof.
  intros Hfw Hwf Hcore Heq Hz. split; [|intros _].
  - split; [|split; [done|by exists ss]]. cbn [fst]. rewrite Heq. by apply (decoded_wf fw ss).
  - exists ss, (to_utf8 (MesosMaster ss)). split; [done|]. split; [done|]. cbn [fst]. rewrite Heq.
    symmetry. apply (decoded_twice ss).
Qed.

(** [Run] changes the master's address alone. *)
Lemma good_Run b (w : world) (core : SchedulerCore Conn) z (v : W) :
  good b w -> core = set_enabled false (set_schedulerState (set_MesosMaster master (schedulerState w.1)) w.1) ->
  zk_stored (p := p) z = zk_stored (p := p) w.2.1 -> good b (core, (z, v)).
Proof.
  intros [(Hwf & Hcore & Hst) Hag] -> Hz. split.
  - split; [exact Hwf|]. split; [exact Hcore|]. unfold stored_wf. cbn [fst snd]. by rewrite Hz.
  - intros (ss & m & Hss & Hs & Hd)%Hag. exists ss, m. split; [done|]. split; [|exact Hd].
    cbn [fst snd]. by rewrite Hz.
Qed.

Lemma run_booted ss c (core core' : SchedulerCore Conn) z z' (v v' : W) :
  state_wf fw ss -> core_ready fw p core ->
  schedulerState core = set_zkNode (zkNode (schedulerState core)) (decoded ss) ->
  zk_stored (p := p) z = Some (bytes ss) ->
  dc_Framework c = framework_info sc (set_MesosMaster master (schedulerState core)) ->
  core' = set_enabled false (set_schedulerState (set_MesosMaster master (schedulerState core)) core) ->
  zk_stored (p := p) z' = zk_stored (p := p) z -> booted ss c (core', (z', v')).
Proof.
  intros Hwf Hcore Heq Hz Hc Hcore' Hz'. split.
  - intros Hfw. eapply (good_Run true (core, (z, v))); [by eapply read_good|done..].
  - subst core'. split; [done|]. split; [|done]. cbn. by rewrite Heq.
Qed.

Lemma wpe_boot mgr env ss : stores env.1 ss ->
  wpe (boot mgr) (fun r env' => booted ss r.1 (r.2, env'))
    (fun x env' => x <> blocked /\ stores env'.1 ss) env.
Proof.
  intros Hst. apply wpe_bind, wpe_run_in.
  eapply wpe_mono; [| |by apply (wpe_NewSchedulerCore mgr)]; [|by intros x w' [-> ?]].
  intros core [mgr1 [z1 v1]] (Hcore & _ & Heq & Hz). cbn [fst snd] in *. apply wpe_run_in.
  eapply wpe_mono; [| |by apply wpe_Run, Hcore].
  - intros c [core' [z2 v2]] (Hc & Hcore' & Hz2). cbn [fst snd] in *.
    eapply (run_booted ss c core core' z1 z2 v1); [apply Hst|done..].
  - intros x [core' [z2 v2]] [? Hz2]. split; [done|]. split; [apply Hst|].
    left. etransitivity; [exact Hz2|exact Hz].
Qed.

(** *** Reachable states *)

Definition system_ok (s : system) : Prop :=
  match s with
  | Up w | Booting w | Hung w => inv fw p w
  | Down env => exists ss, stores env.1 ss
  end.

Lemma inv_good (w : world) : inv fw p w -> good false w.
Proof. by split. Qed.

Lemma inv_down (w : world) : inv fw p w -> exists ss, stores w.2.1 ss.
Proof. intros (_ & _ & Hs). by apply stored_stores. Qed.

Lemma start_ok mgr env ss : utf8 fw -> stores env.1 ss -> system_ok (start mgr env).
Proof.
  intros Hfw Hs. assert (wpe (run_in mgr (NewSchedulerCore sc)) (fun r env' => inv fw p (r.1, env'))
    (fun _ env' => stores env'.1 ss) env) as Hb.
  { apply wpe_run_in. eapply wpe_mono; [| |by apply (wpe_NewSchedulerCore mgr)]; [|by intros x w' [_ ?]].
    intros core [mgr1 [z1 v1]] (Hcore & _ & Heq & Hz).
    by eapply (read_good ss core z1 v1 Hfw (proj1 Hs)). }
  unfold wpe in Hb. unfold System.start.
  destruct (run_in mgr (NewSchedulerCore sc) env) as [[[core mgr']|msg|msg|msg] env']; [done|by exists ss..].
Qed.

Lemma run_ok (w : world) : inv fw p w -> system_ok (run w).
Proof.
  intros Hinv. destruct w as [core [z v]]. pose proof (wpe_Run core z v (proj1 (proj1 (proj2 Hinv)))) as Hr.
  assert (forall z' : Zk, zk_stored (p := p) z' = zk_stored (p := p) z -> exists ss, stores z' ss) as Hd.
  { intros z' Hz. destruct (inv_down _ Hinv) as [ss Hss]. exists ss. by eapply stores_stable. }
  unfold wpe in Hr. unfold System.run. destruct (Run sc master (core, (z, v))) as [[c|msg|msg|msg] [core' [z' v']]].
  1: destruct Hr as (_ & Hc & Hz); apply (good_Run false (core, (z, v)) core' z' v' (inv_good _ Hinv) Hc Hz).
  all: by apply Hd, Hr.
Qed.

Lemma event_keeps ev (w : world) s next r w' :
  (forall t : TaskData, (Marshal t).2 = None) -> conf_ok sc -> event_ok ev -> serves ev w s next ->
  run_event sc ev w = (r, w') -> system_ok s -> system_ok (after_event ev r next w').
Proof.
  intros HM Hconf He Hsv Hr Hok. assert (inv fw p w) as Hw by (by destruct Hsv).
  assert (inv fw p w') as Hw'.
  { pose proof (wpe_run_event false ev w HM Hconf He (inv_good _ Hw)) as Hev. unfold wpe in Hev.
    rewrite Hr in Hev. destruct r; apply Hev. }
  assert (system_ok (next w')) by (by destruct Hsv).
  destruct r; cbn [after_event]; [done| |by apply inv_down|done].
  destruct (is_request ev); [done|by apply inv_down].
Qed.

Lemma step_ok s s' : (forall t : TaskData, (Marshal t).2 = None) -> conf_ok sc ->
  step s s' -> system_ok s -> system_ok s'.
Proof.
  intros HM Hconf Hst Hok.
  destruct Hst as [ev w s next r w' ? ? ?|s|s z v v'|s z v v'|z v v'|s z z' v Hz|s z z' v Hz|mgr env|w].
  - by eapply event_keeps.
  - destruct s as [w|w|w|env]; [by apply inv_down..|done].
  - exact Hok.
  - exact Hok.
  - exact Hok.
  - destruct Hok as (? & ? & _). by split.
  - destruct Hok as (? & ? & _). by split.
  - destruct Hok as [ss Hs]. eapply start_ok; [apply Hconf|done].
  - by apply run_ok.
Qed.

Lemma reachable_ok env s : (forall t : TaskData, (Marshal t).2 = None) -> conf_ok sc ->
  zk_stored (p := p) env.1 = None -> rtc step (Down env) s -> system_ok s.
Proof.
  intros HM Hconf Hz Hr. assert (system_ok (Down env)) as H0'.
  { exists emptySchedulerState. split; [apply state_wf_empty|by right]. }
  remember (Down env) as s0 eqn:Hs0. clear Hs0.
  induction Hr as [|s1 s2 s3 H12 _ IH]; [done|]. apply IH. by eapply step_ok.
Qed.

(** *** What holds in every reachable state *)

(** A node of a live cluster. *)
Definition live_node (w : world) (name k : string) (n : FrameworkRiakNode) : Prop :=
  exists c, clusters_of w !! name = Some c /\ Nodes c !! k = Some n.

(** The server has a well-formed state; the next process reads it if Mesos only
    reports task states that are known. *)
Definition stores_readable (z : Zk) : Prop :=
  exists ss, state_wf fw ss /\ zk_stored (p := p) z = Some (bytes ss) /\
    (legible = true -> forall S (e : S), DeserializeSchedulerState (bytes ss) e = (Ret (decoded ss), e)).

Lemma stored_wf_readable (z : Zk) : stored_wf fw p z -> stores_readable z.
Proof.
  intros (ss & Hwf & Hs). exists ss. split; [done|]. split; [done|]. intros Hl S e.
  by eapply deserialize_bytes, state_wf_encodable.
Qed.


(** C3 [task_ids_unique]: in every reachable state of a process two live nodes with
    the same task id are the same node of the same cluster. *)
Theorem task_ids_unique (env : Zk * W) (s : system) (w : world) name1 name2 k1 k2 n1 n2 :
  (forall t : TaskData, (Marshal t).2 = None) -> conf_ok sc ->
  zk_stored (p := p) env.1 = None -> rtc step (Down env) s -> memory s = Some w ->
  live_node w name1 k1 n1 -> live_node w name2 k2 n2 -> CurrentID n1 = CurrentID n2 ->
  name1 = name2 /\ k1 = k2.
Proof.
  intros HM Hconf Hz Hr Hw (c1 & Hc1 & Hn1) (c2 & Hc2 & Hn2) Hid.
  assert (inv fw p w) as ([HC _] & _).
  { pose proof (reachable_ok env _ HM Hconf Hz Hr) as Hok. by destruct s; cbn in Hw; simplify_eq. }
  assert (k1 = CurrentID n1) as Hk1 by (symmetry; eapply wf_key; [by apply HC in Hc1 as [_ [? _]]|done]).
  assert (k2 = CurrentID n2) as Hk2 by (symmetry; eapply wf_key; [by apply HC in Hc2 as [_ [? _]]|done]).
  split; [|congruence].
  eapply (clusters_disjoint sc (clusters_of w) name1 name2 c1 c2 k1); [exact HC|done|done| |].
  - by eexists.
  - exists n2. congruence.
Qed.

(** C2 [crash_loses_nothing]: when memory and ZooKeeper agree and a callback, a
    tick or a request returns, they agree again, and a process that starts
    after it has the same state but for the in-memory marks and for what
    [encoding/json] does not keep, which is nothing when all text is UTF-8.
    If the event does not return, ZooKeeper still has a well-formed state; it
    only blocks when Riak Explorer leaves a request of the scheduler unanswered.
    Offers, statuses and configuration are as in the first property. *)
Theorem crash_loses_nothing (ev : event) (w : world) :
  (forall t : TaskData, (Marshal t).2 = None) -> conf_ok sc -> event_ok ev -> good true w ->
  wpe (run_event sc ev)
    (fun _ w' => good true w' /\
      forall mgr, wpe (boot mgr)
        (fun r env => good true (r.2, env) /\ rServer_enabled r.2 = false /\
          schedulerState r.2 = set_zkNode (zkNode (schedulerState r.2))
            (set_MesosMaster master (decoded (schedulerState w'.1))) /\
          (state_utf8 (schedulerState w'.1) ->
            schedulerState r.2 = set_zkNode (zkNode (schedulerState r.2))
              (set_MesosMaster master (strip (schedulerState w'.1)))))
        (fun x _ => x <> blocked) w'.2)
    (fun x w' => (x = blocked -> answers = false) /\ inv fw p w') w.
Proof.
  intros HM Hconf Hev Hg. wpe_by wpe_run_event.
  intros u w' Hg'. split; [done|]. intros mgr. pose proof Hg' as [_ Hag].
  destruct (Hag eq_refl) as (ss & m & Hwf & Hs & Hd).
  assert (stores w'.2.1 ss) as Hst by (split; [exact Hwf|by left]).
  assert (set_MesosMaster master (decoded ss) = set_MesosMaster master (decoded (schedulerState w'.1))) as Heq
    by (by rewrite Hd).
  eapply wpe_mono; [| |by apply wpe_boot]; [|by intros x env' [? _]].
  intros r env' (Hg2 & Hen & Hr & _). split; [apply Hg2, Hconf|]. split; [exact Hen|].
  cbn [fst] in Hr. rewrite Heq in Hr. split; [exact Hr|]. intros Hu. by rewrite <- decoded_utf8.
Qed.

(** C10 [failover_same_framework]: after [Registered] returns, a process that starts
    registers as the same framework, with checkpointing and a failover
    timeout of a day, and waits with reconciliation until it is registered. *)
Theorem failover_same_framework (id : string) (w : world) :
  utf8 id -> inv fw p w ->
  wpe (Registered (Some id))
    (fun _ w' => rServer_enabled w'.1 = true /\
      forall mgr, wpe (boot mgr)
        (fun r _ => let fi := dc_Framework r.1 in fi_Id fi = Some id /\ fi_Checkpoint fi = true /\
          fi_FailoverTimeout fi = f64_of_Z 86400 /\ rServer_enabled r.2 = false)
        (fun x _ => x <> blocked) w'.2)
    (fun x _ => x = panicked) w.
Proof.
  intros Hid Hinv. unfold Registered. apply wpe_bind, wpe_upd_st, wpe_bind.
  eapply wpe_mono; [| |apply (wpe_Persist fw p); by apply (inv_upd _ (set_FrameworkID (Some id)))].
  - intros r w' (_ & Hinv' & Hsync & Hm & _). apply wpe_upd_st. split; [done|]. intros mgr.
    assert (stores w'.2.1 (schedulerState w'.1)) as Hst by (split; [apply Hinv'|by left]).
    eapply wpe_mono; [| |apply (wpe_boot mgr _ _ Hst)]; [|by intros x env' [? _]].
    intros r' env' (_ & Hen & Heq & ->). split; [|done].
    unfold framework_info. cbn [fi_Id]. rewrite Heq, Hm. cbn. by rewrite Hid.
  - by intros x w' (-> & _).
Qed.

(** C4 [offer_answer_safe]: the operations sent for an offer launch tasks with
    different ids, each of a live node that is Starting afterwards; nothing
    is unreserved or destroyed while a node waits for reconciliation, or
    together with a launch. *)
Theorem offer_answer_safe (offer : Offer) (w : world) :
  (forall t : TaskData, (Marshal t).2 = None) -> inv fw p w -> offer_ok offer ->
  wpe (operations_for sc offer) (fun ops w' =>
    let tasks := concat (op_TaskInfos <$> ops) in
    NoDup (ti_TaskId <$> tasks) /\
    Forall (fun t => exists name n, live_node w' name (ti_TaskId t) n /\ CurrentState n = Starting) tasks /\
    (tasks <> [] \/ (exists name k n, live_node w name k n /\ NeedsToBeReconciled n = true) ->
      Forall (fun op => ~ gives_back op) ops))
    (fun x _ => x <> blocked) w.
Proof.
  intros HM Hinv Ho.
  eapply wpe_mono; [| |apply (wpe_operations_for true HM sc false); [by apply inv_good|done]];
    [|by intros x w' [Hx _] Hb; specialize (Hx Hb)].
  intros ops w' (_ & o & -> & Hnd & (names & Hst) & Hkeep). cbv zeta. rewrite Operations_tasks.
  split; [done|]. split.
  - eapply Forall_impl; [exact Hst|]. intros t (name & c & n & _ & Hc & Hn & Hs).
    exists name, n. split; [by exists c|done].
  - intros Hcase. destruct Hkeep as [Hu Hv]; [|by apply Operations_keep].
    destruct Hcase as [Hne|(name & k & n & (c & Hc & Hn) & Hneeds)]; [by left|right].
    intros Hall. pose proof (Hall _ _ Hc _ _ Hn) as Hf. congruence.
Qed.

(** C11 [status_routed]: a status update that returns records the status in the cluster that
    has the task, on the node if it is alive, and changes no other cluster; for a task of
    no cluster nothing changes.  It blocks only when Riak Explorer leaves a
    request unanswered. *)
Theorem status_routed (status : TaskStatus) (w : world) :
  inv fw p w -> status_ok status ->
  wpe (StatusUpdate status) (fun _ w' => status_effect status (clusters_of w) (clusters_of w'))
    (fun x _ => x = blocked -> answers = false) w.
Proof.
  intros Hinv Hs. eapply wpe_mono; [| |apply (wpe_StatusUpdate answers sc false); [by apply inv_good|done]].
  - by intros u w' [_ ?].
  - by intros x w' [? _].
Qed.


(** *** Task ids of removed clusters *)

(** A task of a cluster has the name of the cluster in its id. *)
Lemma cluster_task_id name c k : c_Name c = name -> cluster_wf fw c -> HasNode c k = true ->
  exists i, 0 <= i /\ k = node_id fw name i.
Proof.
  intros <- (HN & HG & _) [[n Hn]|[n Hn]]%HasNode_true;
    [apply HN in Hn as (-> & Hf & Hc & Hs & _)|apply HG in Hn as (-> & Hf & Hc & Hs & _)];
    exists (SimpleId n); unfold CurrentID; rewrite Hf, Hc; (split; [lia|done]).
Qed.

(** The first node that is created in a new cluster. *)
Lemma first_node name c' n : created sc (NewFrameworkRiakCluster name) (c', n) ->
  CurrentID n = node_id fw name 1 /\ Nodes c' = {[CurrentID n := n]} /\ Graveyard c' = ∅ /\
  CurrentState n = Unknown /\ n_TaskStatus n = None.
Proof.
  intros (Hc & _ & _ & cpus & mem & disk & uuid & _ & _ & _ & Hn). cbn [fst snd] in *.
  rewrite Hc. unfold put_node. cbn. by rewrite Hn.
Qed.

Lemma create_first_node name (w : world) : conf_ok sc -> inv fw p w -> clusters_of w !! name = None ->
  wpe (handle sc (CreateCluster name) ;; handle sc (CreateNodeReq name))
    (fun _ w' => inv fw p w' /\ exists c n, clusters_of w' !! name = Some c /\
      created sc (NewFrameworkRiakCluster name) (c, n)) (fun x _ => x = blocked -> answers = false) w.
Proof.
  intros Hconf Hinv Hw. apply wpe_bind.
  eapply wpe_mono; [| |by apply (wpe_handle answers sc false (CreateCluster name) w Hconf), inv_good];
    [|by intros x w' [Hx _]].
  intros r w1 [Hg1 He1]. cbn [request_effect] in He1. rewrite Hw in He1. destruct He1 as [_ He1].
  eapply wpe_mono; [| |by apply (wpe_handle answers sc false (CreateNodeReq name) w1 Hconf)];
    [|by intros x w' [Hx _]].
  intros r' w2 [[Hinv2 _] He2]. cbn [request_effect] in He2. rewrite He1, lookup_insert_eq in He2.
  destruct He2 as (c & n & Hc & _ & He2). split; [done|]. exists c, n. by rewrite He2, lookup_insert_eq.
Qed.

(** C37 [task_id_reused]: a cluster that is created under the name of a
    removed one uses the task ids of its dead nodes again.  The first
    node of the new cluster has the id of the dead first node, and a late status
    of the dead task is recorded as one of the new node, which was never
    launched. *)
Theorem task_id_reused (name k : string) (gone : FrameworkRiakCluster) (dead : FrameworkRiakNode)
    (status : TaskStatus) (w : world) :
  conf_ok sc -> inv fw p w -> clusters_of w !! name = None ->
  s_Graveyard (schedulerState w.1) !! name = Some gone -> Graveyard gone !! k = Some dead ->
  SimpleId dead = 1 -> ts_TaskId status = CurrentID dead -> status_ok status ->
  wpe ((handle sc (CreateCluster name) ;; handle sc (CreateNodeReq name)) ;; StatusUpdate status)
    (fun _ w' => exists n, CurrentID n = CurrentID dead /\ CurrentState n = Unknown /\
      n_TaskStatus n = None /\ live_node w' name (CurrentID dead) (after_status status n))
    (fun x _ => x = blocked -> answers = false) w.
Proof.
  intros Hconf Hinv Hw Hg Hd H1' Hid Hst. pose proof Hinv as ([_ HG] & _).
  assert (CurrentID dead = node_id fw name 1) as Hdead.
  { apply HG in Hg as [Hname [(_ & HGr & _) _]]. apply HGr in Hd as (_ & Hf & Hc & _).
    unfold CurrentID. by rewrite Hf, Hc, Hname, H1'. }
  apply wpe_bind. eapply wpe_mono; [| |by apply create_first_node]; [|done].
  intros r w1 (Hinv1 & c & n & Hc & (Hn & HN & HGr & Hs & Ht)%first_node).
  assert (ts_TaskId status = CurrentID n) as Hts by congruence.
  assert (HasNode c (ts_TaskId status) = true) as Hhas.
  { apply HasNode_true. left. rewrite HN, Hts, lookup_singleton_eq. by eexists. }
  eapply wpe_mono; [| |apply (wpe_StatusUpdate answers sc false status w1); [by apply inv_good|done]];
    [|by intros x w' [Hx _]].
  intros u w2 [_ [(name' & c' & Hc' & Hh' & Heq)|[Hnone _]]].
  2: { specialize (Hnone _ _ Hc). congruence. }
  assert (name' = name) as ->.
  { pose proof Hinv1 as ([HC _] & _). apply HC in Hc' as [Hname' [Hwf' _]].
    destruct (cluster_task_id _ _ _ Hname' Hwf' Hh') as (i & Hi & Hk). rewrite Hid, Hdead in Hk.
    symmetry. by apply (dashed_name_inj fw name name' 1 i) in Hk as [? _]; [|lia..]. }
  rewrite Hc in Hc'. injection Hc' as <-. exists n. split; [congruence|]. split; [done|]. split; [done|].
  exists (updated status c). rewrite Heq, lookup_insert_eq. split; [done|]. unfold updated.
  rewrite HGr, lookup_empty, HN, Hts, lookup_singleton_eq. cbn [Nodes put_node set_Nodes].
  rewrite Hdead, <- Hn. apply lookup_insert_eq.
Qed.

(** *** Where the code does not do what it means to *)

(** A process that waited for the lock in ZooKeeper goes on with the state it
    read before: the first write replaces what the process before it stored. *)
Lemma stale_takeover (id : string) (w : world) (z' : Zk) : inv fw p w -> stored_wf fw p z' ->
  wpe (Run sc master ;; Registered (Some id))
    (fun _ w' => clusters_of w' = clusters_of w /\ in_sync p w')
    (fun x _ => x <> blocked) (w.1, (z', w.2.2)).
Proof.
  intros Hinv Hz. assert (inv fw p (w.1, (z', w.2.2))) as Hinv' by (destruct Hinv as (? & ? & _); by split).
  apply wpe_bind. eapply wpe_mono; [| |apply wpe_Run, Hinv]; [|by intros x w' [? _]].
  intros c w1 (_ & Hc & Hz1). destruct w1 as [core1 [z1 v1]]. cbn [fst snd] in *.
  pose proof (good_Run false _ core1 z1 v1 (inv_good _ Hinv') Hc Hz1) as [Hinv1 _].
  unfold Registered. apply wpe_bind, wpe_upd_st, wpe_bind.
  eapply wpe_mono; [| |apply (wpe_Persist fw p); by apply (inv_upd _ (set_FrameworkID (Some id)))];
    [|by intros x w' (-> & _)].
  intros r w2 (_ & _ & Hsync & Hm). apply wpe_upd_st. split; [|exact Hsync].
  pose proof (same_memory_clusters _ _ Hm) as Hcl. subst core1. exact Hcl.
Qed.

(** A request that Riak Explorer leaves unanswered keeps the lock of the
    scheduler: nothing but the end of the process follows. *)
Lemma unanswered_request_hangs name k c n msg core (z : Zk) (v v' : W) :
  Clusters (schedulerState core) !! name = Some c -> Nodes c !! k = Some n ->
  http_Get (explorer_url n "control" "aae-status") v = (Block msg, v') ->
  step (Up (core, (z, v))) (Hung (core, (z, v'))) /\
  forall s, step (Hung (core, (z, v'))) s -> s = Down (z, v').
Proof.
  intros Hc Hn Hg. split.
  - assert (run_event sc (ERequest (NodeAAE name k)) (core, (z, v)) = (Block msg, (core, (z, v')))) as Hr.
    { cbn [run_event handle]. unfold nodeAAE, proxy, with_node, with_cluster, get_state, io, zoom_l, get_st.
      unfold mbind, M_bind, mret, M_ret. cbn [fst snd]. rewrite Hc, Hn.
      assert (GetAAEStatusJSON (rex_client n) (node_fqn n) =
        doGet (rex_client n) ("control" +:+ "/nodes/" +:+ node_fqn n +:+ "/" +:+ "aae-status")) as -> by done.
      unfold doGet. rewrite admin_url_eq. unfold explorer_url in Hg. unfold node_fqn, lift, mbind, M_bind.
      cbn [fst snd]. by rewrite Hg. }
    refine (step_event sc master (ERequest (NodeAAE name k)) _ _ _ _ _ I (serves_up _ _) Hr).
  - intros s Hs. inversion Hs as [ev w s' next r w' _ Hsv| | | | | | | |]; [inversion Hsv|done].
Qed.
End system_invariant.

(** ** Concrete runs *)

Module SimSystem.
Import SimCluster SimZk SimCodec SimNode SimHost.

(** A driver that runs, names for the errors, and the text of the rest. *)
#[export] Instance driver : SchedulerDriver sim :=
  {| NewMesosSchedulerDriver _ := mret None;
     SendFrameworkMessage _ _ _ := mret (DRIVER_RUNNING, None);
     KillTask _ := mret (DRIVER_RUNNING, None);
     ReconcileTasks _ := mret (DRIVER_RUNNING, None);
     LaunchTasks _ _ _ := mret (DRIVER_RUNNING, None);
     AcceptOffers _ _ _ := mret (DRIVER_RUNNING, None) |}.
#[export] Instance driver_laws : DriverLaws sim.
Proof. by split. Qed.
#[export] Instance time_laws : GoTimeLaws sim.
Proof. done. Qed.
#[export] Instance artifacts : Artifacts := fun name => Some name.
#[export] Instance zk_text : ZkErrorText := fun _ => "zk: error".
#[export] Instance json_cluster : Json FrameworkRiakCluster :=
  {| Marshal c := (c_Name c, None); Unmarshal s c := (c, None) |}.
#[export] Instance json_node : Json FrameworkRiakNode :=
  {| Marshal n := (CurrentID n, None); Unmarshal s n := (n, None) |}.
#[export] Instance json_clusters : Json (gmap string FrameworkRiakCluster) :=
  {| Marshal m := ("clusters", None); Unmarshal s m := (m, None) |}.
#[export] Instance json_nodes : Json (gmap string FrameworkRiakNode) :=
  {| Marshal m := ("nodes", None); Unmarshal s m := (m, None) |}.

Definition world : Type := SchedulerCore unit * (zsim * sim).
End SimSystem.

Section system_witnesses.
Import RefMesosUtil SimHttp SimNode SimCluster SimZk SimCodec SimHost SimSystem.

Definition ex_conf : SchedulerConf := conf true.
Definition ex_env (faults : list bool) : zsim * sim := (mk_zsim ∅ faults, mk_sim 0 [] []).
#[local] Existing Instance ex_legible.
Definition ex_start (env : zsim * sim) : system :=
  match start ex_conf ex_mgr env with
  | Booting w => run ex_conf "master" w
  | s => s
  end.

(** The events one after the other, if all of them return. *)
Fixpoint run_events (evs : list event) (w : SimSystem.world) : option SimSystem.world :=
  match evs with
  | [] => Some w
  | ev :: evs =>
      match run_event ex_conf ev w with
      | (Ret _, w') => run_events evs w'
      | _ => None
      end
  end.
Definition ex_run (evs : list event) : option SimSystem.world :=
  match ex_start (ex_env []) with
  | Up w => run_events evs w
  | _ => None
  end.

(** A cluster with one node that runs, and with the same task gone. *)
Definition ex_up : list event :=
  [ERegistered (Some "f1"); ERequest (CreateCluster "a"); ERequest (CreateNodeReq "a");
   EOffers [SimNode.offer 8 32000 40000]; EStatus (running "riak-a-1")].
Definition ex_gone : list event :=
  [ERequest (RemoveCluster "a"); ETick;
   EStatus (mk_TaskStatus "riak-a-1" TASK_FINISHED (Some "s1") ""); ETick].

Definition the_node (name k : string) (m : gmap string FrameworkRiakCluster)
    (nodes : FrameworkRiakCluster -> gmap string FrameworkRiakNode) : option (string * ProcessState) :=
  c ← m !! name; n ← nodes c !! k; Some (UUID n, CurrentState n).

(** When ZooKeeper cannot be reached [createCluster] panics
    in [Persist], which [net/http] catches; the new cluster stays in memory and not in
    ZooKeeper, and the client that tries again is told that it exists. *)
Theorem panicked_request_ahead :
  match ex_start (ex_env []) with
  | Up (core, (z, v)) =>
      let w := (core, (mk_zsim (tree z) (repeat true 40), v)) in
      match handle ex_conf (CreateCluster "a") w with
      | (Panic _, w') =>
          is_Some (Clusters (schedulerState w'.1) !! "a") /\
          zk_stored (p := GetZKPath (state_ns "riak")) w'.2.1 = Some (bytes emptySchedulerState) /\
          status_of (default [] (match (handle ex_conf (CreateCluster "a") w').1 with
                                 | Ret r => Some r | _ => None end)) = 409
      | _ => False
      end
  | _ => False
  end.
Proof. vm_compute. split; [eexists; reflexivity|]. split; reflexivity. Qed.

(** A state with one node that agrees with the server. *)
Definition ex_ss : SchedulerState := ex_state (f64_of_Z 4).
Definition ex_world (faults : list bool) : SimSystem.world :=
  (ex_core ex_ss, (ex_zk (bytes ex_ss) faults, sim0)).

Lemma ex_inv faults : inv "riak" (GetZKPath (state_ns "riak")) (ex_world faults).
Proof.
  split; [apply ex_state_wf|]. split; [apply ex_core_ready|].
  exists ex_ss. split; [apply (ex_state_wf None)|reflexivity].
Qed.

Lemma ex_good faults : good ex_conf true (ex_world faults).
Proof. split; [apply ex_inv|]. intros _. apply in_sync_agrees; [apply ex_inv|reflexivity]. Qed.

Lemma ex_conf_ok : conf_ok ex_conf.
Proof.
  split; [|split; [|reflexivity]]; repeat (constructor; [|]); try constructor; try (by eexists).
  all: intros x; vm_compute; by intros [= <-].
Qed.

Lemma ex_marshal (t : TaskData) : (Marshal t).2 = None.
Proof. reflexivity. Qed.

Lemma ex_offer_ok : offer_ok (SimNode.offer 8 32000 40000).
Proof.
  split; [|].
  - unfold SimNode.offer. cbn [o_Resources].
    do 3 (apply Forall_cons; split; [apply Forall_nil_2|]).
    apply Forall_singleton, Forall_singleton. unfold range_ok, max_int64_slice. cbn [vr_Begin vr_End]. lia.
  - assert (ports_of (o_Resources (SimNode.offer 8 32000 40000)) false = seqZ 31000 20) as ->
      by (vm_compute; reflexivity).
    split; [apply NoDup_seqZ|]. apply Forall_seqZ. unfold port_ok. lia.
Qed.

Local Abbreviation p := (GetZKPath (state_ns "riak")).
Local Abbreviation ex_step := (step (Conn := unit) (Zk := zsim) (W := sim) ex_conf "master").

(** Running events is taking steps. *)
Lemma run_events_steps evs w w' :
  Forall event_ok evs -> run_events evs w = Some w' -> rtc ex_step (Up w) (Up w').
Proof.
  intros Hevs. revert w. induction Hevs as [|ev evs Hev _ IH]; intros w Hr; cbn [run_events] in Hr.
  - injection Hr as ->. apply rtc_refl.
  - destruct (run_event ex_conf ev w) as [[[]| | |] w1] eqn:Hw; try done.
    eapply rtc_l; [exact (step_event ex_conf "master" ev w (Up w) Up (Ret tt) w1 Hev (serves_up ev w) Hw)|by apply IH].
Qed.

Lemma ex_start_steps env : rtc ex_step (Down env) (ex_start env).
Proof.
  eapply rtc_l; [apply (step_start ex_conf "master" ex_mgr env)|]. unfold ex_start.
  generalize (start ex_conf ex_mgr env : system). intros s. destruct s; [apply rtc_refl|apply rtc_once, step_run|apply rtc_refl..].
Qed.

Lemma ex_run_steps evs w : Forall event_ok evs -> ex_run evs = Some w ->
  rtc ex_step (Down (ex_env [])) (Up w).
Proof.
  intros Hevs Hr. pose proof (ex_start_steps (ex_env [])) as Hs. unfold ex_run in Hr. revert Hs Hr.
  generalize (ex_start (ex_env [])). intros s Hs Hr. destruct s as [w0| | |]; [|discriminate Hr..].
  etransitivity; [exact Hs|by eapply run_events_steps].
Qed.

Lemma ex_up_ok : Forall event_ok ex_up.
Proof.
  do 3 (apply Forall_cons; split; [exact I|]).
  apply Forall_cons; split; [apply Forall_singleton, ex_offer_ok|].
  by apply Forall_singleton.
Qed.

Lemma ex_gone_ok : Forall event_ok (ex_up ++ ex_gone).
Proof. apply Forall_app. split; [apply ex_up_ok|]. repeat (apply Forall_cons; split; [done|]). by apply Forall_nil. Qed.

(** The worlds after [ex_up], and after [ex_gone]. *)
Definition ex_up_world : SimSystem.world := default (ex_world []) (ex_run ex_up).
Definition ex_gone_world : SimSystem.world := default (ex_world []) (ex_run (ex_up ++ ex_gone)).

Lemma ex_up_steps : rtc ex_step (Down (ex_env [])) (Up ex_up_world).
Proof. apply (ex_run_steps ex_up); [apply ex_up_ok|]. vm_compute. reflexivity. Qed.

Lemma ex_gone_inv : inv "riak" p ex_gone_world.
Proof.
  apply (reachable_ok true ex_conf "master" (ex_env []) (Up ex_gone_world) ex_marshal ex_conf_ok eq_refl).
  apply (ex_run_steps (ex_up ++ ex_gone)); [apply ex_gone_ok|]. vm_compute. reflexivity.
Qed.


Definition ex_up_node : FrameworkRiakNode :=
  default n1 (c ← clusters_of ex_up_world !! "a"; Nodes c !! "riak-a-1").

Lemma task_ids_unique_witness : live_node ex_up_world "a" "riak-a-1" ex_up_node /\ "a" = "a" /\ "riak-a-1" = "riak-a-1".
Proof.
  assert (live_node ex_up_world "a" "riak-a-1" ex_up_node) as Hn
    by (eexists; split; vm_compute; reflexivity).
  split; [exact Hn|].
  exact (task_ids_unique true ex_conf "master" (ex_env []) (Up ex_up_world) ex_up_world "a" "a" "riak-a-1" "riak-a-1"
    ex_up_node ex_up_node ex_marshal ex_conf_ok eq_refl ex_up_steps eq_refl Hn Hn eq_refl).
Defined.

Lemma crash_loses_nothing_witness :
  let w := ex_world [true; false] in
  wpe (run_event ex_conf (ERequest (CreateNodeReq "a")))
    (fun _ w' => good ex_conf true w' /\
      forall mgr, wpe (boot ex_conf "master" mgr)
        (fun r env => good ex_conf true (r.2, env) /\ rServer_enabled r.2 = false /\
          schedulerState r.2 = set_zkNode (zkNode (schedulerState r.2))
            (set_MesosMaster "master" (decoded (schedulerState w'.1))) /\
          (state_utf8 (schedulerState w'.1) ->
            schedulerState r.2 = set_zkNode (zkNode (schedulerState r.2))
              (set_MesosMaster "master" (strip (schedulerState w'.1)))))
        (fun x _ => x <> blocked) w'.2)
    (fun x w' => (x = blocked -> true = false) /\ inv "riak" p w') w.
Proof.
  exact (crash_loses_nothing true ex_conf "master" (ERequest (CreateNodeReq "a"))
    (ex_world [true; false]) ex_marshal ex_conf_ok I (ex_good _)).
Defined.

Lemma failover_same_framework_witness :
  wpe (Registered (Some "f2"))
    (fun _ w' => rServer_enabled w'.1 = true /\
      forall mgr, wpe (boot ex_conf "master" mgr)
        (fun r _ => let fi := dc_Framework r.1 in fi_Id fi = Some "f2" /\ fi_Checkpoint fi = true /\
          fi_FailoverTimeout fi = f64_of_Z 86400 /\ rServer_enabled r.2 = false)
        (fun x _ => x <> blocked) w'.2)
    (fun x _ => x = panicked) (ex_world []).
Proof. exact (failover_same_framework ex_conf "master" "f2" (ex_world []) eq_refl (ex_inv [])). Defined.

Lemma offer_answer_safe_witness :
  let w := ex_world [] in
  wpe (operations_for ex_conf (SimNode.offer 8 32000 40000)) (fun ops w' =>
    let tasks := concat (op_TaskInfos <$> ops) in
    NoDup (ti_TaskId <$> tasks) /\
    Forall (fun t => exists name n, live_node w' name (ti_TaskId t) n /\ CurrentState n = Starting) tasks /\
    (tasks <> [] \/ (exists name k n, live_node w name k n /\ NeedsToBeReconciled n = true) ->
      Forall (fun op => ~ gives_back op) ops))
    (fun x _ => x <> blocked) w.
Proof.
  exact (offer_answer_safe ex_conf (SimNode.offer 8 32000 40000) (ex_world []) ex_marshal
    (ex_inv []) ex_offer_ok).
Defined.

Lemma status_routed_witness :
  let status := mk_TaskStatus "riak-a-1" TASK_LOST None "" in
  wpe (StatusUpdate status)
    (fun _ w' => status_effect status (clusters_of (ex_world [])) (clusters_of w'))
    (fun x _ => x = blocked -> true = false) (ex_world []).
Proof.
  exact (status_routed true ex_conf (mk_TaskStatus "riak-a-1" TASK_LOST None "") (ex_world []) (ex_inv [])
    (fun _ => I)).
Defined.


Definition ex_dead_cluster : FrameworkRiakCluster :=
  default (NewFrameworkRiakCluster "a") (s_Graveyard (schedulerState ex_gone_world.1) !! "a").
Definition ex_dead_node : FrameworkRiakNode := default n1 (Graveyard ex_dead_cluster !! "riak-a-1").

Lemma task_id_reused_witness :
  let late := mk_TaskStatus "riak-a-1" TASK_LOST (Some "s1") "of the first task" in
  wpe ((handle ex_conf (CreateCluster "a") ;; handle ex_conf (CreateNodeReq "a")) ;; StatusUpdate late)
    (fun _ w' => exists n, CurrentID n = CurrentID ex_dead_node /\ CurrentState n = Unknown /\
      n_TaskStatus n = None /\ live_node w' "a" (CurrentID ex_dead_node) (after_status late n))
    (fun x _ => x = blocked -> true = false) ex_gone_world.
Proof.
  intros late.
  assert (clusters_of ex_gone_world !! "a" = None) as Hw by (vm_compute; reflexivity).
  assert (s_Graveyard (schedulerState ex_gone_world.1) !! "a" = Some ex_dead_cluster) as Hg
    by (vm_compute; reflexivity).
  assert (Graveyard ex_dead_cluster !! "riak-a-1" = Some ex_dead_node) as Hd by (vm_compute; reflexivity).
  assert (SimpleId ex_dead_node = 1) as Hs by (vm_compute; reflexivity).
  assert (ts_TaskId late = CurrentID ex_dead_node) as Hid by (vm_compute; reflexivity).
  exact (task_id_reused true ex_conf "a" "riak-a-1" ex_dead_cluster ex_dead_node late ex_gone_world
    ex_conf_ok ex_gone_inv Hw Hg Hd Hs Hid (fun _ => I)).
Defined.
End system_witnesses.
