(* ===== verification/Framework.v ===== *)
(** * [framework/framework.go]: the command line of the scheduler

    The flags, the check of the framework's name, and the start: the scheduler
    reads its state, serves its artifacts, and runs the driver. *)

From S2P Require Import Prelude GoStrings Float64 Mesos Host Utils Structs Offer Node Explorer Cluster Decoding Metadata Cepm State Codec Persistence Scheduler Server System.
From Stdlib Require Import Ascii.

#[local] Open Scope string_scope.
#[local] Open Scope list_scope.
#[local] Open Scope Z_scope.

(** ** The name of the framework *)

Definition in_range (a b c : ascii) : bool :=
  (nat_of_ascii a <=? nat_of_ascii c)%nat && (nat_of_ascii c <=? nat_of_ascii b)%nat.

(** The two classes of [[a-zA-Z][a-zA-Z0-9-_]*]. *)
Definition name_start (c : ascii) : bool := in_range "a" "z" c || in_range "A" "Z" c.
Definition name_char (c : ascii) : bool :=
  name_start c || in_range "0" "9" c || Ascii.eqb c "-" || Ascii.eqb c "_".

(** The longest match at the front of the second part. *)
Fixpoint name_rest (s : string) : string :=
  match s with
  | String c s' => if name_char c then String c (name_rest s') else ""
  | EmptyString => ""
  end.

(** [frameNameRegex.FindString]: the leftmost match, and the empty string when
    there is none. *)
Fixpoint FindString (s : string) : string :=
  match s with
  | String c s' => if name_start c then String c (name_rest s') else FindString s'
  | EmptyString => ""
  end.

Definition name_valid (frameworkName : string) : bool :=
  String.eqb (FindString frameworkName) frameworkName.

(** ** Flags *)

Record Flags := mk_Flags {
  mesosMaster : string;
  zookeeperAddr : string;
  schedulerHostname : string;
  f_schedulerIPAddr : string;
  f_user : string;
  logFile : string;
  f_frameworkName : string;
  f_frameworkRole : string;
  f_nodeCpus : string;
  f_nodeMem : string;
  f_nodeDisk : string;
  f_authProvider : string;
  f_mesosAuthPrincipal : string;
  f_mesosAuthSecretFile : string;
  useReservations : bool }.

(** The values when no flag is given; [provider] is [sasl.ProviderName]. *)
Definition init_flags (provider : string) : Flags :=
  mk_Flags "zk://master.mesos:2181/mesos" "master.mesos:2181" "" "" "" "" "riak" "*"
    "1.0" "16000" "20000" provider "" "" false.

(** The fields that [NewSchedulerCore] fills, with the server [http]. *)
Definition conf_of (build : ExecutorBuild) (flags : Flags) (http : SchedulerHTTPServer) : SchedulerConf :=
  {| schedulerHTTPServer := http;
     zookeepers := [zookeeperAddr flags];
     frameworkName := f_frameworkName flags;
     frameworkRole := f_frameworkRole flags;
     nodeCpus := f_nodeCpus flags;
     nodeMem := f_nodeMem flags;
     nodeDisk := f_nodeDisk flags;
     schedulerIPAddr := f_schedulerIPAddr flags;
     sched_user := f_user flags;
     authProvider := f_authProvider flags;
     mesosAuthPrincipal := f_mesosAuthPrincipal flags;
     mesosAuthSecretFile := f_mesosAuthSecretFile flags;
     compatibilityMode := negb (useReservations flags);
     executor_build := build |}.

Definition no_server : SchedulerHTTPServer := mk_SchedulerHTTPServer "" "" "" "".

Section main.
Context `{!MesosUtil, !Json TaskData, !Json JoinReply, !Json ForceRemoveReply}.
Context `{!Json SchedulerState, !Zlib}.
Context {Conn Zk W : Type} `{!ZkApi Conn Zk}.
Context `{!GoEnv W, !SchedulerDriver W, !GoNet W, !GoFiles W}.
Context (build : ExecutorBuild).

(** [main] up to [driver.Run]: the configuration, what the driver is made from,
    and the core. *)
Definition main (flags : Flags) (mgr : MetadataManager Conn) :
    M (Zk * W) (SchedulerConf * (DriverConfig * SchedulerCore Conn)) :=
  logErr ← (if String.eqb (logFile flags) "" then mret None else lift (os_OpenFile (logFile flags)));
  match logErr with
  | Some err => mpanic err
  | None =>
      if negb (name_valid (f_frameworkName flags)) then mfatal "Error, framework name not valid" else
      r ← run_in mgr (NewSchedulerCore (conf_of build flags no_server));
      http ← lift (ServeExecutorArtifact (schedulerHostname flags));
      let sc := conf_of build flags http in
      s ← run_in r.1 (Run sc (mesosMaster flags));
      mret (sc, s)
  end.
End main.

(** ** Names that pass *)

Fixpoint all_chars (f : ascii -> bool) (s : string) : bool :=
  match s with
  | String c s' => f c && all_chars f s'
  | EmptyString => true
  end.

Lemma name_rest_short s : (String.length (name_rest s) <= String.length s)%nat.
Proof. induction s as [|c s IH]; cbn; [lia|]. destruct (name_char c); cbn; lia. Qed.

Lemma FindString_short s : (String.length (FindString s) <= String.length s)%nat.
Proof.
  induction s as [|c s IH]; cbn; [lia|]. pose proof (name_rest_short s). destruct (name_start c); cbn; lia.
Qed.

Lemma name_rest_all s : name_rest s = s <-> all_chars name_char s = true.
Proof.
  induction s as [|c s IH]; cbn; [done|]. destruct (name_char c); cbn; [|done].
  rewrite <- IH. split; [by intros [=]|by intros ->].
Qed.

(** What the check is meant to accept. *)
Definition good_name (s : string) : Prop :=
  match s with
  | String c s' => name_start c = true /\ all_chars name_char s' = true
  | EmptyString => False
  end.

Lemma name_valid_good s : s <> "" -> name_valid s = true <-> good_name s.
Proof.
  intros Hne. unfold name_valid. rewrite String.eqb_eq. destruct s as [|c s]; [done|]. cbn.
  destruct (name_start c).
  - rewrite <- name_rest_all. split; [by intros [=]|by intros [_ ->]].
  - split; [|by intros []]. intros Heq. pose proof (FindString_short s) as Hlen.
    rewrite Heq in Hlen. cbn in Hlen. lia.
Qed.

Lemma name_char_free c s : name_char c = false -> all_chars name_char s = true -> char_free c s.
Proof.
  intros Hc. induction s as [|d s IH]; cbn; [done|]. intros [Hd Hs]%andb_true_iff.
  split; [|by apply IH]. by intros ->; rewrite Hc in Hd.
Qed.

Lemma name_valid_free c s : name_char c = false -> name_valid s = true -> char_free c s.
Proof.
  intros Hc Hv. destruct (decide (s = "")) as [->|Hne]; [done|].
  apply name_valid_good in Hv; [|done]. destruct s as [|d s]; [done|]. destruct Hv as [Hd Hs].
  split; [|by apply name_char_free]. intros ->. unfold name_char in Hc. by rewrite Hd in Hc.
Qed.

(** A name that passes is plain ASCII. *)
Lemma name_char_ascii c : name_char c = true -> is_ascii c.
Proof. destruct c as [[] [] [] [] [] [] [] []]; vm_compute; intros Hc; (reflexivity || discriminate Hc). Qed.

Lemma name_valid_utf8 s : name_valid s = true -> utf8 s.
Proof.
  intros Hv. apply utf8_ascii. destruct (decide (s = "")) as [->|Hne]; [done|].
  apply name_valid_good in Hv; [|done]. destruct s as [|d s]; [done|]. destruct Hv as [Hd Hs].
  assert (all_chars name_char (String d s) = true) as Hall by (cbn; unfold name_char at 1; by rewrite Hd, Hs).
  clear Hd Hs Hne. induction (String d s) as [|c s' IH]; [done|].
  apply andb_true_iff in Hall as [Hc Hs]. split; [by apply name_char_ascii|by apply IH].
Qed.

Section framework_properties.

(** C33 [framework_name]: the check accepts the empty name and exactly the names of
    a letter followed by letters, digits, dashes and underscores; so the paths
    of an accepted framework split into their components again. *)
Theorem framework_name (frameworkName : string) :
  (name_valid frameworkName = true <-> frameworkName = "" \/ good_name frameworkName) /\
  (name_valid frameworkName = true -> slash_free (root_ns frameworkName)).
Proof.
  split.
  - destruct (decide (frameworkName = "")) as [->|Hne]; [split; [by left|done]|].
    rewrite name_valid_good by done. naive_solver.
  - intros Hv. split; [|by apply name_valid_free]. by repeat split.
Qed.
End framework_properties.

Section main_properties.
Context `{!MesosUtil, !MesosUtilLaws, !Json TaskData, !Json JoinReply, !Json ForceRemoveReply}.
Context `{!Json SchedulerState, !Zlib, !StateCodecLaws}.
Context {Conn Zk W : Type} `{!ZkApi Conn Zk}.
Context `{!Legible, !GoEnv W, !GoEnvLaws W, !SchedulerDriver W, !DriverLaws W, !GoNet W, !GoNetLaws W,
  !GoFiles W, !GoFilesLaws W}.
Context (build : ExecutorBuild) (flags : Flags).
Local Abbreviation p := (GetZKPath (state_ns (f_frameworkName flags))).
Context `{!ZkPath p Zk, !ZkLaws false p Conn Zk}.

End main_properties.

Section framework_witnesses.
Import SimNode SimCluster SimZk SimCodec SimHost SimSystem RefMesosUtil.

#[local] Existing Instance ex_legible.

Definition ex_flags (name : string) : Flags :=
  mk_Flags "master" "zk" "" "" "" "" name "*" "1.0" "16000" "20000" "SASL" "" "" true.

End framework_witnesses.
