(* ===== verification/ProcessManager.v ===== *)
(** * [process_manager]: the supervision of a child process

    [manager.go]: the goroutine that starts a process, waits until it is
    healthy, and then watches it; [manager_linux.go]: the environment and the
    limits of the process; [manager_reaper.go]: the loop that collects dead
    children.  What the goroutine does to others is recorded in order as a list
    of [Action]s; what it waits for ([select]) and the system calls are the
    class [PmOs].  A [select] that is never answered, and one after [n] of them
    in the endless loop, is [Block]. *)

From S2P Require Import Prelude GoStrings.
From Stdlib Require Import Ascii.

#[local] Open Scope string_scope.
#[local] Open Scope list_scope.
#[local] Open Scope Z_scope.

(** ** The system *)

(** What a [select] of the goroutine receives; [Timer] is [time.After] of one
    second and only offered while the process starts. *)
Inductive pm_event :=
  | SubscribeReq (sub : Z)
  | SignalReceived
  | ProcessExited (exitStatus : Z)
  | TearDownReq (reply : Z)
  | Timer.

Record Rlimit := mk_Rlimit { Cur : Z; Max : Z }.

(** [syscall.ProcAttr]; every process gets its own group and the standard
    files. *)
Record ProcAttr := mk_ProcAttr { Dir : string; Env : list string }.

Definition SIGTERM : Z := 15.
Definition SIGKILL : Z := 9.

Class PmOs (E : Type) := {
  os_Environ : M E (list string);
  os_Getenv : string -> M E string;
  os_Getwd : M E (string * option string);
  Getrlimit : M E (Rlimit * option string);
  Setrlimit : Rlimit -> M E (option string);
  ForkExec : string -> list string -> ProcAttr -> M E (Z * option string);
  syscall_Kill : Z -> Z -> M E (option string);
  (** The [select]s of the two loops: with the timer, and without it. *)
  select : bool -> M E pm_event;
  (** Whether the exit is notified within five seconds, and waiting for it. *)
  exits_in_5s : M E bool;
  wait_exit : M E unit;
  healthcheck : M E (option string) }.

(** What the goroutine does to others. *)
Inductive Action :=
  | Subscribed (sub : Z)                 (* a [Listen] is taken *)
  | Notified (sub : Z) (status : Z)      (* a status sent to a [Listen] *)
  | ToreDown                             (* [tdcb] *)
  | Replied (reply : Z)                  (* a [TearDown] is answered *)
  | Started                              (* [retChan <- pm] *)
  | Signalled (sig : Z)                  (* a signal sent to the process *)
  | Closed.                              (* the deferred closing of the channels *)

#[export] Instance Action_eq_dec : EqDecision Action.
Proof. solve_decision. Defined.

Section manager.
Context {E : Type} `{!PmOs E}.
Local Abbreviation PM := (M (list Action * E)).

Definition act (a : Action) : PM unit := upd_st (fun l => l ++ [a]).

(** ** [manager_linux.go] *)

Definition openFilesLimit : Z := 65536.

Definition extra_path : list string :=
  ["/usr/local/sbin"; "/usr/local/bin"; "/usr/sbin"; "/usr/bin"; "/sbin:/bin"; "/usr/games"; "/usr/local/games"].

(** The loop over the environment: the first [PATH] is extended. *)
Fixpoint extend_path {S} (env : list string) : M S (list string * bool) :=
  match env with
  | [] => mret ([], false)
  | val :: env' =>
      let splitArray := Split val "="%char in
      if bool_decide (head splitArray = Some "PATH") then
        path ← index splitArray 1;
        mret (("PATH=" +:+ Join (Split path ":"%char ++ extra_path) ":") :: env', true)
      else r ← extend_path env'; mret (val :: r.1, r.2)
  end.

Definition GetProcAttributes : M E ProcAttr :=
  env ← os_Environ;
  home ← os_Getenv "HOME";
  procattr ← (if String.eqb home "" then
           wd ← os_Getwd;
           match wd.2 with
           | Some _ => mfatal "Could not get current working directory"
           | None => environ ← os_Environ; mret (mk_ProcAttr wd.1 (environ ++ ["HOME=" +:+ wd.1]))
           end
         else mret (mk_ProcAttr "" env));
  r ← extend_path (Env procattr);
  mret (mk_ProcAttr (Dir procattr)
          (if r.2 : bool then r.1
           else r.1 ++ ["PATH=/usr/local/sbin:/usr/local/bin:/usr/sbin:/usr/bin:/sbin:/bin:/usr/games:/usr/local/games"])).

Definition setOpenFilesLimit (cur max : Z) : M E (option string) :=
  r ← Getrlimit;
  match r.2 with
  | Some err => mret (Some err)
  | None =>
      if (Cur r.1 <? cur) || (Max r.1 <? max) then
        Setrlimit (mk_Rlimit (if Cur r.1 <? cur then cur else Cur r.1)
                             (if Max r.1 <? max then max else Max r.1))
      else mret None
  end.

(** A failing limit is only logged. *)
Definition doStart (executablePath : string) (args : list string) (procattr : ProcAttr) : M E Z :=
  _ ← setOpenFilesLimit openFilesLimit openFilesLimit;
  r ← ForkExec executablePath args procattr;
  match r.2 with
  | Some err => mpanic ("Error starting process " +:+ err)
  | None => mret r.1
  end.

(** [maybeChroot], which dereferences the path it is given. *)
Definition start (executablePath : string) (args : list string) (chroot : option string) : M E Z :=
  chroot ← deref chroot;
  let executablePath := filepath_Join [chroot; executablePath] in
  procattr ← GetProcAttributes;
  doStart executablePath (executablePath :: args) procattr.

(** ** [manager.go] *)

(** The channels have room for one status and get one, so no send is dropped. *)
Definition notify (status : Z) (subscriptions : list Z) : PM unit :=
  mfoldl (fun _ sub => act (Notified sub status)) tt subscriptions.

Definition send_signal (pid sig : Z) : PM unit :=
  _ ← lift (syscall_Kill pid sig); act (Signalled sig).

Definition killProcess (pid : Z) : PM unit :=
  err ← lift (syscall_Kill pid 0);
  match err with
  | Some _ => mret tt
  | None =>
      send_signal pid SIGTERM ;;
      exited ← lift exits_in_5s;
      if exited : bool then mret tt else send_signal pid SIGKILL ;; lift wait_exit
  end.

(** The three ways to end that both loops have; the process is only killed
    before [tdcb] runs where the code does so. *)
Definition on_signal (pid : Z) (subscriptions : list Z) (tdcb_last : bool) : PM unit :=
  notify (-1) subscriptions ;;
  if tdcb_last then killProcess pid ;; act ToreDown else act ToreDown ;; killProcess pid.

Definition on_exit (pid status : Z) (subscriptions : list Z) : PM unit :=
  notify status subscriptions ;; act ToreDown ;; killProcess pid.

Definition on_teardown (pid reply : Z) (subscriptions : list Z) : PM unit :=
  notify (-1) subscriptions ;; killProcess pid ;; act ToreDown ;; act (Replied reply).

(** The endless loop, for [n] rounds. *)
Fixpoint background (n : nat) (pid : Z) (subscriptions : list Z) : PM unit :=
  match n with
  | O => mblock "select"
  | S n =>
      ev ← lift (select false);
      match ev with
      | ProcessExited status => on_exit pid status subscriptions
      | SignalReceived => on_signal pid subscriptions false
      | TearDownReq reply => on_teardown pid reply subscriptions
      | SubscribeReq sub => act (Subscribed sub) ;; background n pid (subscriptions ++ [sub])
      | Timer => background n pid subscriptions
      end
  end.

(** The loop that waits for the process, [rounds] of sixty left. *)
Fixpoint start_loop (n rounds : nat) (pid : Z) (subscriptions : list Z) : PM unit :=
  match rounds with
  | O => killProcess pid
  | S rounds =>
      ev ← lift (select true);
      match ev with
      | SubscribeReq sub => act (Subscribed sub) ;; start_loop n rounds pid (subscriptions ++ [sub])
      | SignalReceived => on_signal pid subscriptions true
      | ProcessExited status => on_exit pid status subscriptions
      | TearDownReq reply => on_teardown pid reply subscriptions
      | Timer =>
          err ← lift healthcheck;
          match err with
          | None => act Started ;; background n pid subscriptions
          | Some _ => start_loop n rounds pid subscriptions
          end
      end
  end.

(** [startProcessManager] with [n] rounds of the endless loop. *)
Definition startProcessManager (n : nat) (executablePath : string) (args : list string)
    (chroot : option string) : PM unit :=
  pid ← lift (start executablePath args chroot);
  start_loop n 60 pid [] ;;
  act Closed.
End manager.

(** What [NewProcessManager] receives on its channel, if anything: the manager,
    or nil when the channel is closed. *)
Fixpoint NewProcessManager_result (log : list Action) : option bool :=
  match log with
  | [] => None
  | Started :: _ => Some true
  | Closed :: _ => Some false
  | _ :: log => NewProcessManager_result log
  end.

(** ** [manager_reaper.go] *)

(** A channel is its identity; it has room for one notification. *)
Record reaper := mk_reaper {
  subscriptions : gmap Z Z;              (* pid to channel *)
  delivered : gmap Z (Z * Z) }.          (* channel to the pid and status in it *)

Inductive reaper_event :=
  | Subscribe (pid replyChan : Z)
  | Unsubscribe (pid : Z)
  | Sigchld (wait4 : option (Z * Z)).    (* what [Wait4] returns: a pid and status, or an error *)

Definition reap (ev : reaper_event) : M reaper unit := fun r =>
  match ev with
  | Subscribe pid replyChan =>
      match subscriptions r !! pid with
      | None => (Ret tt, mk_reaper (<[pid := replyChan]> (subscriptions r)) (delivered r))
      | Some _ => (Panic "Duplicate subscription for a PID", r)
      end
  | Unsubscribe pid => (Ret tt, mk_reaper (delete pid (subscriptions r)) (delivered r))
  | Sigchld None => (Ret tt, r)
  | Sigchld (Some (waitPid, status)) =>
      match subscriptions r !! waitPid with
      | Some ch =>
          match delivered r !! ch with
          | None => (Ret tt, mk_reaper (subscriptions r) (<[ch := (waitPid, status)]> (delivered r)))
          | Some _ => (Ret tt, mk_reaper (delete waitPid (subscriptions r)) (delivered r))
          end
      | None => (Ret tt, r)
      end
  end.

(** [processManagerLoop] on the events so far. *)
Definition processManagerLoop (evs : list reaper_event) : M reaper unit :=
  mfoldl (fun _ ev => reap ev) tt evs.

(** ** What is relied on *)

(** [gone]: the process has ended.  Signal 0 fails only then, and the other
    calls return. *)
Class PmOsLaws (E : Type) `{!PmOs E} (gone : E -> Prop) : Prop := {
  Environ_returns e : wp total os_Environ (fun _ _ => True) e;
  os_Getenv_returns s e : wp total (os_Getenv s) (fun _ _ => True) e;
  Getwd_returns e : wp total os_Getwd (fun _ _ => True) e;
  Getrlimit_returns e : wp total Getrlimit (fun _ _ => True) e;
  Setrlimit_returns r e : wp total (Setrlimit r) (fun _ _ => True) e;
  ForkExec_returns p args env e : wp total (ForkExec p args env) (fun _ _ => True) e;
  Kill_0 pid e : wp total (syscall_Kill pid 0) (fun err e' => err <> None -> gone e') e;
  Kill_returns pid sig e : wp total (syscall_Kill pid sig) (fun _ _ => True) e;
  select_returns b e : wp total (select b) (fun _ _ => True) e;
  exits_in_5s_ok e : wp total exits_in_5s (fun b e' => b = true -> gone e') e;
  wait_exit_ok e : wpe wait_exit (fun _ e' => gone e') (fun x _ => x = blocked) e;
  healthcheck_returns e : wp total healthcheck (fun _ _ => True) e }.

(** ** Reading the record *)

Definition subscribers (log : list Action) : list Z :=
  omap (fun a => match a with Subscribed sub => Some sub | _ => None end) log.
Definition notified (log : list Action) : list (Z * Z) :=
  omap (fun a => match a with Notified sub status => Some (sub, status) | _ => None end) log.
Definition replied (log : list Action) : list Z :=
  omap (fun a => match a with Replied reply => Some reply | _ => None end) log.
Definition signals (log : list Action) : list Z :=
  omap (fun a => match a with Signalled sig => Some sig | _ => None end) log.
Definition teardowns (log : list Action) : nat := length (filter (fun a => a = ToreDown) log).

(** The goroutine is in one of its loops. *)
Definition watching (log : list Action) (subs : list Z) : Prop :=
  subscribers log = subs /\ notified log = [] /\ replied log = [] /\ signals log = [] /\
  teardowns log = 0%nat /\ Closed ∉ log.

(** It has ended after the process did: each subscriber got the same status
    once, [tdcb] ran once, and at most one [TearDown] was answered. *)
Definition wound_up (log : list Action) : Prop :=
  (exists status, notified log = (fun sub => (sub, status)) <$> subscribers log) /\
  teardowns log = 1%nat /\ (length (replied log) <= 1)%nat.

(** It has given up on a process that did not get healthy in time. *)
Definition gave_up (log : list Action) : Prop :=
  notified log = [] /\ teardowns log = 0%nat /\ replied log = [] /\ Started ∉ log.

Section manager_lemmas.
Context {E : Type} `{!PmOs E} {gone : E -> Prop} `{!PmOsLaws E gone}.
Local Abbreviation world := (list Action * E)%type.

Lemma wp_act s a (Q : unit -> world -> Prop) w : Q tt (w.1 ++ [a], w.2) -> wp s (act a) Q w.
Proof. done. Qed.

Lemma wpe_act a (Q : unit -> world -> Prop) R w : Q tt (w.1 ++ [a], w.2) -> wpe (act a) Q R w.
Proof. done. Qed.

Lemma wpe_notify status subs (w : world) R :
  wpe (notify status subs) (fun _ w' => w' = (w.1 ++ ((fun sub => Notified sub status) <$> subs), w.2)) R w.
Proof.
  unfold notify. destruct w as [log e]. cbn [fst snd].
  apply (wpe_mfoldl_done _ (fun done _ w' => w' = (log ++ ((fun sub => Notified sub status) <$> done), e))).
  - intros d sub rest u w' -> ->. apply wpe_act. cbn [fst snd]. by rewrite fmap_app, app_assoc.
  - cbn. by rewrite app_nil_r.
Qed.

(** The signals that [killProcess] sends. *)
Lemma wpe_killProcess pid (w : world) :
  wpe (killProcess pid)
    (fun _ w' => gone w'.2 /\ exists sigs, w'.1 = w.1 ++ (Signalled <$> sigs))
    (fun x w' => x = blocked /\ exists sigs, w'.1 = w.1 ++ (Signalled <$> sigs) /\ SIGKILL ∈ sigs) w.
Proof.
  destruct w as [log e]. unfold killProcess, send_signal. cbn [fst snd].
  apply wpe_bind, wpe_lift, wp_wpe. wp_use Kill_0. intros [err|] e1 Hgone.
  { apply wpe_ret. split; [by apply Hgone|]. exists []. cbn. by rewrite app_nil_r. }
  apply wpe_bind, wpe_bind, wpe_lift, wp_wpe. wp_use Kill_returns. intros r e2 _.
  apply wpe_act, wpe_bind, wpe_lift, wp_wpe. wp_use exits_in_5s_ok. cbn [fst snd].
  intros [] e3 Hgone3.
  { apply wpe_ret. split; [by apply Hgone3|]. by exists [SIGTERM]. }
  apply wpe_bind, wpe_bind, wpe_lift, wp_wpe. wp_use Kill_returns. intros r' e4 _.
  apply wpe_act, wpe_lift. cbn [fst snd]. rewrite <- app_assoc.
  eapply wpe_mono; [| |apply wait_exit_ok].
  - intros u e5 Hg. split; [done|]. by exists [SIGTERM; SIGKILL].
  - intros x e5 ->. split; [done|]. exists [SIGTERM; SIGKILL]. split; [done|]. right. by left.
Qed.

(** How the record reads after appending to it. *)
Lemma read_app log1 log2 :
  subscribers (log1 ++ log2) = subscribers log1 ++ subscribers log2 /\
  notified (log1 ++ log2) = notified log1 ++ notified log2 /\
  replied (log1 ++ log2) = replied log1 ++ replied log2 /\
  signals (log1 ++ log2) = signals log1 ++ signals log2 /\
  teardowns (log1 ++ log2) = (teardowns log1 + teardowns log2)%nat.
Proof.
  unfold teardowns. rewrite filter_app, length_app.
  split_and!; [..|done]; unfold subscribers, notified, replied, signals; apply omap_app.
Qed.

Lemma read_signals sigs :
  subscribers (Signalled <$> sigs) = [] /\ notified (Signalled <$> sigs) = [] /\
  replied (Signalled <$> sigs) = [] /\ teardowns (Signalled <$> sigs) = 0%nat.
Proof. by induction sigs. Qed.

Lemma read_notified status subs :
  let l := (fun sub => Notified sub status) <$> subs in
  subscribers l = [] /\ notified l = (fun sub => (sub, status)) <$> subs /\
  replied l = [] /\ teardowns l = 0%nat.
Proof.
  induction subs as [|sub subs (IH1 & IH2 & IH3 & IH4)]; [done|]. cbn in *.
  split_and!; try done. by f_equal.
Qed.

(** The tail of a record that ends it. *)
Definition ending_tail (tail : list Action) : Prop :=
  subscribers tail = [] /\ notified tail = [] /\ (length (replied tail) <= 1)%nat /\
  teardowns tail = 1%nat /\ (Closed ∉ tail) /\ (Started ∉ tail).

Lemma watching_wound_up log subs status tail :
  watching log subs -> ending_tail tail ->
  wound_up (log ++ (((fun sub => Notified sub status) <$> subs) ++ tail) : list Action).
Proof.
  intros (Hs & Hn & Hr & _ & Ht & _) (Hs' & Hn' & Hr' & Ht' & _).
  pose proof (read_app log (((fun sub => Notified sub status) <$> subs) ++ tail)) as (Es & En & Er & _ & Et).
  pose proof (read_app ((fun sub => Notified sub status) <$> subs) tail) as (Es' & En' & Er' & _ & Et').
  pose proof (read_notified status subs) as (Es2 & En2 & Er2 & Et2).
  unfold wound_up. rewrite Es, En, Er, Et, Es', En', Er', Et', Es2, En2, Er2, Et2, Hs, Hn, Hr, Ht, Hs', Hn', Ht'.
  rewrite !app_nil_r. split; [by exists status|]. split; [done|exact Hr'].
Qed.

Lemma ending_tails sigs :
  ending_tail (ToreDown :: (Signalled <$> sigs)) /\ ending_tail ((Signalled <$> sigs) ++ [ToreDown]) /\
  forall reply, ending_tail ((Signalled <$> sigs) ++ [ToreDown; Replied reply]).
Proof.
  pose proof (read_signals sigs) as (Es & En & Er & Et).
  assert (forall a, (forall s, a <> Signalled s) -> a ∉ Signalled <$> sigs) as Hnot.
  { intros a Ha (s & -> & _)%list_elem_of_fmap. by eapply Ha. }
  assert (forall tail, subscribers tail = [] -> notified tail = [] -> (length (replied tail) <= 1)%nat ->
    teardowns tail = 1%nat -> Closed ∉ tail -> Started ∉ tail -> ending_tail ((Signalled <$> sigs) ++ tail)) as Happ.
  { intros tail H1 H2 H3 H4 H5 H6. pose proof (read_app (Signalled <$> sigs) tail) as (Fs & Fn & Fr & _ & Ft).
    unfold ending_tail. rewrite Fs, Fn, Fr, Ft, Es, En, Er, Et, H1, H2, H4.
    split_and!; try done; rewrite elem_of_app; intros [Hin|Hin]; try done; by eapply Hnot in Hin. }
  split; [|split].
  - unfold ending_tail, teardowns. cbn [subscribers notified replied omap list_omap].
    fold (subscribers (Signalled <$> sigs)) (notified (Signalled <$> sigs)) (replied (Signalled <$> sigs)).
    rewrite Es, En, Er. rewrite filter_cons_True by done. cbn [length]. fold (teardowns (Signalled <$> sigs)).
    rewrite Et. split_and!; try done; try (cbn; lia); intros [?|Hin]%elem_of_cons; try done; by eapply Hnot in Hin.
  - apply Happ; try reflexivity; try (cbn; lia); by intros [?|[]%elem_of_nil]%elem_of_cons.
  - intros reply. apply Happ; try reflexivity; try (cbn; lia);
      by intros [?|[?|[]%elem_of_nil]%elem_of_cons]%elem_of_cons.
Qed.

(** How a loop that was entered with [log] is left; it may hang on a process
    that survives SIGKILL. *)
Definition over (log log' : list Action) : Prop :=
  wound_up log' /\ (Closed ∉ log') /\ (Started ∈ log' <-> Started ∈ log).
Definition stuck (log' : list Action) : Prop := SIGKILL ∈ signals log'.

Lemma over_tail log subs status tail : watching log subs -> ending_tail tail ->
  over log (log ++ (((fun sub => Notified sub status) <$> subs) ++ tail) : list Action).
Proof.
  intros Hw Ht. split; [by apply watching_wound_up|].
  destruct Hw as (_ & _ & _ & _ & _ & Hc), Ht as (_ & _ & _ & _ & Hct & Hst).
  assert (forall a, (forall s, a <> Notified s status) -> a ∉ (fun sub => Notified sub status) <$> subs) as Hnot.
  { intros a Ha (s & -> & _)%list_elem_of_fmap. by eapply Ha. }
  rewrite !elem_of_app. split; [|split].
  - intros [?|[Hin|?]]; try done. by eapply Hnot in Hin.
  - intros [?|[Hin|?]]; try done. by eapply Hnot in Hin.
  - by left.
Qed.

Lemma stuck_app log sigs log2 : SIGKILL ∈ sigs -> stuck ((log ++ (Signalled <$> sigs)) ++ log2).
Proof.
  intros Hin. unfold stuck. destruct (read_app (log ++ (Signalled <$> sigs)) log2) as (_ & _ & _ & -> & _).
  destruct (read_app log (Signalled <$> sigs)) as (_ & _ & _ & -> & _).
  rewrite !elem_of_app. left. right. induction Hin as [s l|s s' l _ IH]; cbn; [by left|by right].
Qed.

Lemma wpe_on_exit pid status subs (w : world) : watching w.1 subs ->
  wpe (on_exit pid status subs) (fun _ w' => gone w'.2 /\ over w.1 w'.1)
    (fun x w' => x = blocked /\ stuck w'.1) w.
Proof.
  intros Hw. unfold on_exit. apply wpe_bind. eapply wpe_mono_post; [|apply wpe_notify].
  intros u w1 ->. apply wpe_bind, wpe_act.
  eapply wpe_mono; [| |apply wpe_killProcess]; cbn [fst snd].
  - intros u2 [log2 e2] [Hg (sigs & Heq)]; cbn [fst snd] in *; subst log2. split; [done|]. rewrite <- !app_assoc.
    apply over_tail; [done|]. apply ending_tails.
  - intros x [log2 e2] (-> & sigs & Heq & Hin); cbn [fst snd] in *; subst log2. split; [done|]. rewrite <- (app_nil_r (_ ++ _)). by apply stuck_app.
Qed.

Lemma wpe_on_signal pid subs b (w : world) : watching w.1 subs ->
  wpe (on_signal pid subs b) (fun _ w' => gone w'.2 /\ over w.1 w'.1)
    (fun x w' => x = blocked /\ stuck w'.1) w.
Proof.
  intros Hw. unfold on_signal. apply wpe_bind. eapply wpe_mono_post; [|apply wpe_notify].
  intros u w1 ->. destruct b; apply wpe_bind; [|apply wpe_act].
  - eapply wpe_mono; [| |apply wpe_killProcess]; cbn [fst snd].
    + intros u2 [log2 e2] [Hg (sigs & Heq)]; cbn [fst snd] in *; subst log2. apply wpe_act. split; [done|]. cbn [fst]. rewrite <- !app_assoc.
      apply over_tail; [done|]. apply ending_tails.
    + intros x [log2 e2] (-> & sigs & Heq & Hin); cbn [fst snd] in *; subst log2. split; [done|]. rewrite <- (app_nil_r (_ ++ _)). by apply stuck_app.
  - eapply wpe_mono; [| |apply wpe_killProcess]; cbn [fst snd].
    + intros u2 [log2 e2] [Hg (sigs & Heq)]; cbn [fst snd] in *; subst log2. split; [done|]. rewrite <- !app_assoc.
      apply over_tail; [done|]. apply ending_tails.
    + intros x [log2 e2] (-> & sigs & Heq & Hin); cbn [fst snd] in *; subst log2. split; [done|]. rewrite <- (app_nil_r (_ ++ _)). by apply stuck_app.
Qed.

Lemma wpe_on_teardown pid reply subs (w : world) : watching w.1 subs ->
  wpe (on_teardown pid reply subs) (fun _ w' => gone w'.2 /\ over w.1 w'.1)
    (fun x w' => x = blocked /\ stuck w'.1) w.
Proof.
  intros Hw. unfold on_teardown. apply wpe_bind. eapply wpe_mono_post; [|apply wpe_notify].
  intros u w1 ->. apply wpe_bind. eapply wpe_mono; [| |apply wpe_killProcess]; cbn [fst snd].
  - intros u2 [log2 e2] [Hg (sigs & Heq)]; cbn [fst snd] in *; subst log2. apply wpe_bind, wpe_act, wpe_act. split; [done|]. cbn [fst].
    rewrite <- !app_assoc. apply over_tail; [done|]. apply ending_tails.
  - intros x [log2 e2] (-> & sigs & Heq & Hin); cbn [fst snd] in *; subst log2. split; [done|]. rewrite <- (app_nil_r (_ ++ _)). by apply stuck_app.
Qed.

Lemma watching_subscribed log subs sub : watching log subs -> watching (log ++ [Subscribed sub]) (subs ++ [sub]).
Proof.
  intros (Hs & Hn & Hr & Hsg & Ht & Hc).
  destruct (read_app log [Subscribed sub]) as (Es & En & Er & Eg & Et).
  unfold watching. rewrite Es, En, Er, Eg, Et, Hs, Hn, Hr, Hsg, Ht. do 5 (split; [reflexivity|]).
  rewrite elem_of_app. by intros [?|[?|[]%elem_of_nil]%elem_of_cons].
Qed.

Lemma watching_started log subs : watching log subs -> watching (log ++ [Started]) subs.
Proof.
  intros (Hs & Hn & Hr & Hsg & Ht & Hc).
  destruct (read_app log [Started]) as (Es & En & Er & Eg & Et).
  unfold watching. rewrite Es, En, Er, Eg, Et, Hs, Hn, Hr, Hsg, Ht. split; [apply app_nil_r|]. do 4 (split; [reflexivity|]).
  rewrite elem_of_app. by intros [?|[?|[]%elem_of_nil]%elem_of_cons].
Qed.

(** The endless loop only ends when everything is wound up. *)
Lemma wpe_background n pid subs (w : world) : watching w.1 subs -> Started ∈ w.1 ->
  wpe (background n pid subs) (fun _ w' => gone w'.2 /\ over w.1 w'.1)
    (fun x w' => x = blocked /\ (stuck w'.1 \/ Started ∈ w'.1 /\ (Closed ∉ w'.1))) w.
Proof.
  revert subs w. induction n as [|n IH]; intros subs [log e] Hw Hst; cbn [background].
  { split; [done|]. right. split; [done|apply Hw]. }
  apply wpe_bind, wpe_lift, wp_wpe. wp_use select_returns. intros ev e1 _. cbn [fst] in Hw, Hst.
  destruct ev as [sub| |status|reply|].
  - apply wpe_bind, wpe_act. cbn [fst snd].
    eapply wpe_mono_post; [|apply IH; [by apply watching_subscribed|cbn; rewrite elem_of_app; by left]].
    intros u w' (Hg & Hwu & Hc & Hst'). split; [done|]. split; [done|]. split; [done|].
    cbn [fst] in *. rewrite elem_of_app in Hst'. split; [done|]. intros _. apply Hst'. by left.
  - eapply wpe_mono; [| |by apply wpe_on_signal]; [done|]. intros x w' [-> ?]. auto.
  - eapply wpe_mono; [| |by apply wpe_on_exit]; [done|]. intros x w' [-> ?]. auto.
  - eapply wpe_mono; [| |by apply wpe_on_teardown]; [done|]. intros x w' [-> ?]. auto.
  - by apply (IH subs (log, e1)).
Qed.

(** The loop of the start ends after its rounds, or goes on to the endless one. *)
Lemma wpe_start_loop n rounds pid subs (w : world) : watching w.1 subs -> (Started ∉ w.1) ->
  wpe (start_loop n rounds pid subs)
    (fun _ w' => gone w'.2 /\ (Closed ∉ w'.1) /\ (wound_up w'.1 \/ gave_up w'.1))
    (fun x w' => x = blocked /\ (stuck w'.1 \/ Started ∈ w'.1 /\ (Closed ∉ w'.1))) w.
Proof.
  revert subs w. induction rounds as [|rounds IH]; intros subs [log e] Hw Hst; cbn [start_loop].
  { eapply wpe_mono; [| |apply wpe_killProcess]; cbn [fst snd] in *.
    - intros u [log2 e2] [Hg (sigs & Heq)]; cbn [fst snd] in *; subst log2.
      destruct Hw as (Hs & Hn & Hr & _ & Ht & Hc).
      destruct (read_app log (Signalled <$> sigs)) as (_ & En & Er & _ & Et).
      destruct (read_signals sigs) as (_ & En2 & Er2 & Et2).
      assert (forall a, (forall s, a <> Signalled s) -> a ∉ log -> a ∉ log ++ (Signalled <$> sigs)) as Hnot.
      { intros a Ha Hl [?|(s & -> & _)%list_elem_of_fmap]%elem_of_app; [done|by eapply Ha]. }
      split; [done|]. split; [by apply Hnot|]. right. unfold gave_up.
      rewrite En, Er, Et, Hn, Hr, Ht, En2, Er2, Et2. do 3 (split; [done|]). by apply Hnot.
    - intros x [log2 e2] (-> & sigs & Heq & Hin); cbn [fst snd] in *; subst log2. split; [done|].
      left. rewrite <- (app_nil_r (_ ++ _)). by apply stuck_app. }
  apply wpe_bind, wpe_lift, wp_wpe. wp_use select_returns. intros ev e1 _. cbn [fst] in Hw, Hst.
  destruct ev as [sub| |status|reply|].
  - apply wpe_bind, wpe_act. cbn [fst snd].
    apply IH; [by apply watching_subscribed|]. cbn. rewrite elem_of_app.
    by intros [?|[?|[]%elem_of_nil]%elem_of_cons].
  - eapply wpe_mono; [| |by apply wpe_on_signal].
    + intros u w' (Hg & Hwu & Hc & _). auto.
    + intros x w' [-> ?]. auto.
  - eapply wpe_mono; [| |by apply wpe_on_exit].
    + intros u w' (Hg & Hwu & Hc & _). auto.
    + intros x w' [-> ?]. auto.
  - eapply wpe_mono; [| |by apply wpe_on_teardown].
    + intros u w' (Hg & Hwu & Hc & _). auto.
    + intros x w' [-> ?]. auto.
  - apply wpe_bind, wpe_lift, wp_wpe. wp_use healthcheck_returns. intros [err|] e2 _.
    { by apply IH. }
    apply wpe_bind, wpe_act. cbn [fst snd].
    eapply wpe_mono_post; [|apply wpe_background; [by apply watching_started|]].
    + intros u w' (Hg & Hwu & Hc & _). auto.
    + cbn. rewrite elem_of_app. right. by left.
Qed.

(** Starting the child fails, or gives its pid. *)
Lemma extend_path_ends {S} env (s : S) :
  wpe (extend_path env) (fun _ _ => True) (fun x _ => x = panicked) s.
Proof.
  revert s. induction env as [|val env IH]; intros s; cbn [extend_path]; [done|].
  case_bool_decide.
  - apply wpe_bind, wpe_index; [|done]. intros path _. by apply wpe_ret.
  - apply wpe_bind. wpe_use IH. intros r s' _. by apply wpe_ret.
Qed.

Lemma wpe_doStart executablePath args procattr (e : E) :
  wpe (doStart executablePath args procattr) (fun _ _ => True) (fun x _ => x <> blocked) e.
Proof.
  unfold doStart, setOpenFilesLimit.
  apply wpe_bind, wpe_bind, wp_wpe. wp_use Getrlimit_returns. intros [l [err|]] e2 _; cbn [fst snd].
  1: apply wpe_ret. 2: case_match; [apply wp_wpe; wp_use Setrlimit_returns; intros r2 e3 _|apply wpe_ret].
  all: apply wpe_bind, wp_wpe; wp_use ForkExec_returns; intros [pid [err2|]] e4 _; cbn [fst snd];
    [by apply (wpe_panic (A := Z))|by apply wpe_ret].
Qed.

Lemma wpe_GetProcAttributes (e : E) :
  wpe GetProcAttributes (fun _ _ => True) (fun x _ => x <> blocked) e.
Proof.
  unfold GetProcAttributes. apply wpe_bind, wp_wpe. wp_use Environ_returns. intros env e1 _.
  apply wpe_bind, wp_wpe. wp_use os_Getenv_returns. intros home e2 _. apply wpe_bind.
  assert (forall procattr (e : E), wpe (r ← extend_path (Env procattr);
    mret (mk_ProcAttr (Dir procattr) (if r.2 : bool then r.1 else
    r.1 ++ ["PATH=/usr/local/sbin:/usr/local/bin:/usr/sbin:/usr/bin:/sbin:/bin:/usr/games:/usr/local/games"])))
    (fun _ _ => True) (fun x _ => x <> blocked) e) as Hrest.
  { intros procattr e3. apply wpe_bind. eapply wpe_mono; [| |apply extend_path_ends]; [|by intros x e' ->].
    intros r e4 _. by apply wpe_ret. }
  destruct (String.eqb home "").
  - apply wpe_bind, wp_wpe. wp_use Getwd_returns. intros [wd [err|]] e3 _; cbn [fst snd]; [done|].
    apply wpe_bind, wp_wpe. wp_use Environ_returns. intros environ e4 _. apply wpe_ret, Hrest.
  - apply wpe_ret, Hrest.
Qed.

Lemma wpe_start executablePath args chroot (e : E) :
  wpe (start executablePath args chroot) (fun _ _ => True) (fun x _ => x <> blocked) e.
Proof.
  unfold start. apply wpe_bind, wpe_deref; [|done]. intros path _.
  apply wpe_bind. eapply wpe_mono; [| |apply wpe_GetProcAttributes]; [|done].
  intros procattr e1 _. apply wpe_doStart.
Qed.

Lemma result_closed log : (Closed ∉ log) ->
  NewProcessManager_result (log ++ [Closed]) = Some (bool_decide (Started ∈ log)).
Proof.
  induction log as [|a log IH]; intros Hc; [done|]. apply not_elem_of_cons in Hc as [Hne Hc].
  destruct (decide (a = Started)) as [->|Hs].
  - cbn. by rewrite bool_decide_true by (by left).
  - transitivity (NewProcessManager_result (log ++ [Closed])); [by destruct a|]. rewrite IH by done.
    f_equal. apply bool_decide_ext. rewrite elem_of_cons. naive_solver.
Qed.

Lemma result_started log : (Closed ∉ log) -> Started ∈ log -> NewProcessManager_result log = Some true.
Proof.
  induction log as [|a log IH]; intros Hc Hs; [by apply elem_of_nil in Hs|].
  apply not_elem_of_cons in Hc as [Hne Hc]. destruct (decide (a = Started)) as [->|Hs']; [done|].
  apply elem_of_cons in Hs as [?|Hs]; [congruence|].
  transitivity (NewProcessManager_result log); [by destruct a|by apply IH].
Qed.
End manager_lemmas.

(** ** Properties *)

Section manager_properties.
Context {E : Type} `{!PmOs E} {gone : E -> Prop} `{!PmOsLaws E gone}.

(** C38 [manager_cleans_up]: when the goroutine of a process manager ends, its
    process has ended too.  Then every [Listen] that was taken got the same
    status exactly once, the callback ran once and at most one [TearDown] was
    answered, or the process did not get healthy in its sixty rounds and no one
    was told.  [NewProcessManager] gets the manager exactly when the goroutine
    sent it; it is left waiting only for a process that survives SIGKILL. *)
Theorem manager_cleans_up (n : nat) (executablePath : string) (args : list string)
    (chroot : option string) (e : E) :
  wpe (startProcessManager n executablePath args chroot)
    (fun _ w => gone w.2 /\ (wound_up w.1 \/ gave_up w.1) /\
      NewProcessManager_result w.1 = Some (bool_decide (Started ∈ w.1)))
    (fun x w => match x with
      | blocked => stuck w.1 \/ NewProcessManager_result w.1 = Some true
      | _ => w.1 = []
      end) ([], e).
Proof.
  unfold startProcessManager. apply wpe_bind, wpe_lift.
  eapply wpe_mono; [| |apply wpe_start]; [|by intros [] e' ?].
  intros pid e1 _. apply wpe_bind.
  eapply wpe_mono; [| |apply wpe_start_loop]; cbn [fst snd].
  - intros u [log e2] (Hg & Hc & Hend). apply wpe_act. cbn [fst snd] in *. split; [done|].
    assert (Started ∈ log ++ [Closed] <-> Started ∈ log) as Hst.
    { rewrite elem_of_app, list_elem_of_singleton. naive_solver. }
    destruct (read_app log [Closed]) as (Es & En & Er & _ & Et).
    split.
    + unfold wound_up, gave_up in *. rewrite Es, En, Er, Et, Hst, !app_nil_r, Nat.add_0_r. exact Hend.
    + rewrite result_closed by done. f_equal. by apply bool_decide_ext.
  - intros x w [-> [?|[Hs Hc]]]; [by left|right; by apply result_started].
  - do 5 (split; [done|]). by intros []%elem_of_nil.
  - by intros []%elem_of_nil.
Qed.

(** Within [k] rounds the [select]s receive the [TearDown] [reply], with the
    [Listen]s [listens] before it and nothing else but timers. *)
Fixpoint teardown_within (k : nat) (reply : Z) (listens : list Z) (e : E) : Prop :=
  match k with
  | O => False
  | S k => wp total (select false) (fun ev e' =>
      match ev with
      | TearDownReq r => r = reply /\ listens = []
      | SubscribeReq sub => exists rest, listens = sub :: rest /\ teardown_within k reply rest e'
      | Timer => teardown_within k reply listens e'
      | _ => False
      end) e
  end.

Lemma wp_killProcess pid (w : list Action * E) :
  (forall e, wp total wait_exit (fun _ e' => gone e') e) ->
  wp total (killProcess pid) (fun _ w' => gone w'.2 /\ exists sigs, w'.1 = w.1 ++ (Signalled <$> sigs)) w.
Proof.
  intros Hk. pose proof (wpe_killProcess (gone := gone) pid w) as Hw.
  assert (wpe (killProcess pid) (fun _ _ => True) (fun x _ => False) w) as Hret.
  { unfold killProcess, send_signal. destruct w as [log e].
    apply wpe_bind, wpe_lift, wp_wpe. wp_use Kill_0. intros [err|] e1 _; [by apply wpe_ret|].
    apply wpe_bind, wpe_bind, wpe_lift, wp_wpe. wp_use Kill_returns. intros r e2 _.
    apply wpe_act, wpe_bind, wpe_lift, wp_wpe. wp_use exits_in_5s_ok. intros [] e3 _; [by apply wpe_ret|].
    apply wpe_bind, wpe_bind, wpe_lift, wp_wpe. wp_use Kill_returns. intros r' e4 _.
    apply wpe_act, wpe_lift, wp_wpe. by wp_use Hk. }
  unfold wpe, wp in *. destruct (killProcess pid w) as [[] w']; done.
Qed.

(** C39 [teardown_answered]: while the manager watches its process with the
    subscribers [subs], a [TearDown] that the goroutine receives after the [Listen]s
    [listens] is answered within its round, for every process that SIGKILL ends:
    the process has ended by then, each of the subscribers and of the new [Listen]s was
    sent the status -1 once, in the order of subscription, and no other status
    was sent. *)
Theorem teardown_answered (n k : nat) (pid reply : Z) (subs listens : list Z) (log : list Action) (e : E) :
  (forall e, wp total wait_exit (fun _ e' => gone e') e) ->
  watching log subs -> teardown_within k reply listens e -> (k <= n)%nat ->
  wp total (background n pid subs) (fun _ w => gone w.2 /\ replied w.1 = [reply] /\
    notified w.1 = (fun sub => (sub, -1)) <$> (subs ++ listens)) (log, e).
Proof.
  intros Hk. revert k subs listens log e. induction n as [|n IH]; intros k subs listens log e Hw Htd Hkn.
  { destruct k; [done|lia]. }
  destruct k as [|k]; [done|]. cbn [background teardown_within] in *.
  apply wp_bind, wp_lift. eapply wp_mono; [|exact Htd]. intros ev e1 Hev.
  destruct ev as [sub| | |r|]; try done.
  - destruct Hev as (rest & -> & Hev). apply wp_bind, wp_act. cbn [fst snd].
    eapply wp_mono; [|apply (IH k _ rest); [by apply watching_subscribed|done|lia]].
    intros u w. by rewrite <- app_assoc.
  - destruct Hev as [-> ->]. unfold on_teardown.
    pose proof (wpe_notify (-1) subs (log, e1) (fun _ _ => False)) as Hnot.
    apply wp_bind. unfold wpe in Hnot. unfold wp at 1.
    destruct (notify (-1) subs (log, e1)) as [[u| | |] w1]; try done. subst w1.
    apply wp_bind. wp_use wp_killProcess; [|done]. intros u2 [log2 e2] [Hg (sigs & Heq)].
    cbn [fst snd] in *. subst log2. apply wp_bind, wp_act, wp_act. cbn [fst snd]. split; [done|].
    destruct Hw as (_ & Hn & Hr & _).
    destruct (read_notified (-1) subs) as (_ & En & Er & _). destruct (read_signals sigs) as (_ & En2 & Er2 & _).
    unfold notified, replied in *. rewrite !omap_app, Hn, Hr, En, En2, Er, Er2. cbn. by rewrite !app_nil_r.
  - by apply (IH k); [| |lia].
Qed.
End manager_properties.

(** ** The reaper *)

Definition no_reaper : reaper := mk_reaper ∅ ∅.

(** The channels that events subscribe. *)
Definition channels (evs : list reaper_event) : list Z :=
  omap (fun ev => match ev with Subscribe _ ch => Some ch | _ => None end) evs.

(** An event that concerns the subscription of [pid]. *)
Definition concerns (pid : Z) (ev : reaper_event) : Prop :=
  match ev with
  | Subscribe p _ | Unsubscribe p | Sigchld (Some (p, _)) => p = pid
  | Sigchld None => False
  end.

Section reaper_lemmas.
Implicit Types (r : reaper) (ch pid : Z).

(** Only subscribed channels are used. *)
Definition known_channels (chs : list Z) (r : reaper) : Prop :=
  map_Forall (fun _ ch => ch ∈ chs) (subscriptions r) /\
  map_Forall (fun ch _ => ch ∈ chs) (delivered r).

Lemma reap_channels ev chs r r' : known_channels chs r -> reap ev r = (Ret tt, r') ->
  known_channels (chs ++ channels [ev]) r'.
Proof.
  intros [Hs Hd].
  assert (forall l, known_channels (chs ++ l) r) as Hr.
  { intros l. split; intros k x Hk; apply elem_of_app; left; [by eapply Hs|by eapply Hd]. }
  destruct ev as [pid ch|pid|[[pid st]|]]; cbn [reap channels omap list_omap].
  - destruct (subscriptions r !! pid); [done|]. intros [= <-]. split; [|apply Hr].
    apply map_Forall_insert_2; [apply elem_of_app; right; by left|apply Hr].
  - intros [= <-]. split; [|apply Hr]. apply map_Forall_delete, Hr.
  - destruct (subscriptions r !! pid) as [ch|] eqn:Hp; [|intros [= <-]; apply Hr].
    destruct (delivered r !! ch) eqn:Hch; intros [= <-].
    + split; [|apply Hr]. apply map_Forall_delete, Hr.
    + split; [apply Hr|]. apply map_Forall_insert_2; [|apply Hr].
      apply elem_of_app. left. by eapply Hs.
  - intros [= <-]. apply Hr.
Qed.

(** What a channel holds stays. *)
Lemma reap_keeps ev r r' ch x : reap ev r = (Ret tt, r') -> delivered r !! ch = Some x ->
  delivered r' !! ch = Some x.
Proof.
  destruct ev as [pid c|pid|[[pid st]|]]; cbn [reap].
  - destruct (subscriptions r !! pid); [done|]. by intros [= <-].
  - by intros [= <-].
  - destruct (subscriptions r !! pid) as [c|]; [|by intros [= <-]].
    destruct (delivered r !! c) eqn:Hc; intros [= <-]; [done|]. intros Hx. cbn.
    rewrite lookup_insert_ne; [done|]. intros ->. congruence.
  - by intros [= <-].
Qed.

(** A subscription that an event does not concern, on a channel of its own. *)
Lemma reap_waits ev r r' pid ch : reap ev r = (Ret tt, r') -> ~ concerns pid ev ->
  subscriptions r !! pid = Some ch -> delivered r !! ch = None ->
  (forall p, subscriptions r !! p = Some ch -> p = pid) -> ch ∉ channels [ev] ->
  subscriptions r' !! pid = Some ch /\ delivered r' !! ch = None /\
  (forall p, subscriptions r' !! p = Some ch -> p = pid).
Proof.
  intros Hr Hc Hs Hd Hu Hch. destruct ev as [p c|p|[[p st]|]]; cbn [reap concerns] in *.
  - destruct (subscriptions r !! p); [done|]. injection Hr as <-. cbn. split; [|split; [done|]].
    + by rewrite lookup_insert_ne.
    + intros q. destruct (decide (p = q)) as [<-|]; [|rewrite lookup_insert_ne by done; apply Hu].
      rewrite lookup_insert_eq. intros [= ->]. exfalso. apply Hch. by left.
  - injection Hr as <-. cbn. split; [by rewrite lookup_delete_ne|]. split; [done|].
    intros q [_ ?]%lookup_delete_Some. by apply Hu.
  - destruct (subscriptions r !! p) as [c|] eqn:Hp; [|injection Hr as <-; by split_and!].
    destruct (delivered r !! c) eqn:Hdc; injection Hr as <-; cbn.
    + split; [by rewrite lookup_delete_ne|]. split; [done|]. intros q [_ ?]%lookup_delete_Some. by apply Hu.
    + split; [done|]. split; [|done]. rewrite lookup_insert_ne; [done|].
      intros ->. apply Hc. by apply Hu.
  - injection Hr as <-. by split_and!.
Qed.

Lemma loop_app evs1 evs2 r :
  processManagerLoop (evs1 ++ evs2) r =
  match processManagerLoop evs1 r with
  | (Ret _, r') => processManagerLoop evs2 r'
  | other => other
  end.
Proof.
  unfold processManagerLoop. revert r. induction evs1 as [|ev evs1 IH]; intros r; [done|].
  cbn. unfold mbind, M_bind. destruct (reap ev r) as [[[]| | |] r']; done.
Qed.

Lemma loop_cons ev evs r r' : processManagerLoop (ev :: evs) r = (Ret tt, r') ->
  exists r1, reap ev r = (Ret tt, r1) /\ processManagerLoop evs r1 = (Ret tt, r').
Proof.
  unfold processManagerLoop. cbn. unfold mbind, M_bind. destruct (reap ev r) as [[[]| | |] r1]; try done. eauto.
Qed.

Lemma loop_channels evs chs r r' : known_channels chs r -> processManagerLoop evs r = (Ret tt, r') ->
  known_channels (chs ++ channels evs) r'.
Proof.
  revert chs r. induction evs as [|ev evs IH]; intros chs r Hk Hr.
  - injection Hr as <-. by rewrite app_nil_r.
  - apply loop_cons in Hr as (r1 & H1 & H2). replace (chs ++ channels (ev :: evs))
      with ((chs ++ channels [ev]) ++ channels evs).
    + eapply IH; [by eapply reap_channels|done].
    + rewrite <- app_assoc. unfold channels. by rewrite <- omap_app.
Qed.

Lemma loop_keeps evs r r' ch x : processManagerLoop evs r = (Ret tt, r') ->
  delivered r !! ch = Some x -> delivered r' !! ch = Some x.
Proof.
  revert r. induction evs as [|ev evs IH]; intros r Hr Hx; [by injection Hr as <-|].
  apply loop_cons in Hr as (r1 & H1 & H2). eapply IH; [done|by eapply reap_keeps].
Qed.

Lemma loop_waits evs r r' pid ch : processManagerLoop evs r = (Ret tt, r') ->
  Forall (fun ev => ~ concerns pid ev) evs ->
  subscriptions r !! pid = Some ch -> delivered r !! ch = None ->
  (forall p, subscriptions r !! p = Some ch -> p = pid) -> ch ∉ channels evs ->
  subscriptions r' !! pid = Some ch /\ delivered r' !! ch = None.
Proof.
  revert r. induction evs as [|ev evs IH]; intros r Hr Hc Hs Hd Hu Hch; [by injection Hr as <-|].
  apply loop_cons in Hr as (r1 & H1 & H2). apply Forall_cons in Hc as [Hc1 Hc2].
  assert (channels (ev :: evs) = channels [ev] ++ channels evs) as Heq
    by (unfold channels; by rewrite <- omap_app).
  rewrite Heq, elem_of_app in Hch.
  destruct (reap_waits ev r r1 pid ch) as (? & ? & ?); [naive_solver..|]. eapply IH; naive_solver.
Qed.
End reaper_lemmas.

Section reaper_properties.

(** C40 [exit_delivered]: when a pid is subscribed on a new channel and its exit is
    collected while the subscription stands, the channel holds that exit from
    then on, whatever else the reaper does; an exit collected before the
    subscription is lost. *)
Theorem exit_delivered (pid ch st : Z) (pre mid post : list reaper_event) (r : reaper) :
  processManagerLoop (pre ++ Subscribe pid ch :: mid ++ Sigchld (Some (pid, st)) :: post) no_reaper = (Ret tt, r) ->
  Forall (fun ev => ~ concerns pid ev) mid -> ch ∉ channels pre -> ch ∉ channels mid ->
  delivered r !! ch = Some (pid, st) /\
  forall r1, processManagerLoop pre no_reaper = (Ret tt, r1) -> subscriptions r1 !! pid = None ->
    processManagerLoop (pre ++ [Sigchld (Some (pid, st)); Subscribe pid ch]) no_reaper =
    (Ret tt, mk_reaper (<[pid := ch]> (subscriptions r1)) (delivered r1)).
Proof.
  intros Hr Hmid Hpre Hmidc. split.
  - rewrite loop_app in Hr. destruct (processManagerLoop pre no_reaper) as [[[]| | |] r1] eqn:H1; try done.
    apply loop_cons in Hr as (r2 & H2 & Hr). rewrite loop_app in Hr.
    destruct (processManagerLoop mid r2) as [[[]| | |] r3] eqn:H3; try done.
    apply loop_cons in Hr as (r4 & H4 & Hr). eapply loop_keeps; [exact Hr|].
    assert (known_channels ([] ++ channels pre) r1) as [Hs Hd].
    { eapply loop_channels; [|exact H1]. split; apply map_Forall_empty. }
    assert (delivered r1 !! ch = None) as Hd1.
    { destruct (delivered r1 !! ch) eqn:Hch; [|done]. by apply Hd in Hch. }
    cbn [reap] in H2. destruct (subscriptions r1 !! pid); [done|]. injection H2 as <-.
    destruct (loop_waits mid _ r3 pid ch H3 Hmid) as [Hs3 Hd3]; [apply lookup_insert_eq|done| |done|].
    + intros p. cbn. destruct (decide (pid = p)) as [<-|]; [done|]. rewrite lookup_insert_ne by done.
      intros Hp%Hs. done.
    + cbn [reap] in H4. rewrite Hs3, Hd3 in H4. injection H4 as <-. cbn. by rewrite lookup_insert_eq.
  - intros r1 H1 Hnone. rewrite loop_app, H1. unfold processManagerLoop. cbn.
    unfold mbind, M_bind. cbn [reap]. rewrite Hnone. by rewrite Hnone.
Qed.
End reaper_properties.

(** ** A system for concrete runs *)

(** What the [select]s get; whether SIGTERM is enough; the health checks. *)
Module SimPm.
Record sim := mk_sim { events : list pm_event; alive : bool; obeys : bool; health : list (option string) }.

#[export] Instance os : PmOs sim := {
  os_Environ := mret ["PATH=/bin"; "HOME=/root"];
  os_Getenv s := mret (if String.eqb s "HOME" then "/root" else "");
  os_Getwd := mret ("/", None);
  Getrlimit := mret (mk_Rlimit 1024 4096, None);
  Setrlimit r := mret None;
  ForkExec p args env e := (Ret (7, None), mk_sim (events e) true (obeys e) (health e));
  syscall_Kill pid sig e :=
    (Ret (if alive e then None else Some "no such process"),
     if alive e && ((sig =? SIGKILL) || ((sig =? SIGTERM) && obeys e))
     then mk_sim (events e) false (obeys e) (health e) else e);
  select b e :=
    match events e with
    | ProcessExited s :: evs => (Ret (ProcessExited s), mk_sim evs false (obeys e) (health e))
    | ev :: evs => (Ret ev, mk_sim evs (alive e) (obeys e) (health e))
    | [] => (Ret Timer, e)
    end;
  exits_in_5s e := (Ret (negb (alive e)), e);
  wait_exit e := (Ret tt, mk_sim (events e) false (obeys e) (health e));
  healthcheck e :=
    match health e with
    | h :: hs => (Ret h, mk_sim (events e) (alive e) (obeys e) hs)
    | [] => (Ret None, e)
    end }.

Definition gone (e : sim) : Prop := alive e = false.

#[export] Instance os_laws : PmOsLaws sim gone.
Proof.
  split; try done.
  - intros pid e. unfold wp, gone. cbn. destruct (alive e) eqn:Ha; cbn; [done|by rewrite Ha].
  - intros b e. unfold wp. cbn. by destruct (events e) as [|[] ?].
  - intros e. unfold wp, gone. cbn. by destruct (alive e).
  - intros e. unfold wp. cbn. by destruct (health e).
Qed.
End SimPm.

Section manager_witnesses.
Import SimPm.

Lemma manager_cleans_up_witness :
  let e := mk_sim [Timer; Timer; SubscribeReq 1; SubscribeReq 2; ProcessExited 3] false true
             [Some "not yet"; None] in
  wpe (startProcessManager 10 "/riak/bin/riak" ["console"] (Some "/root"))
    (fun _ w => gone w.2 /\ (wound_up w.1 \/ gave_up w.1) /\
      NewProcessManager_result w.1 = Some (bool_decide (Started ∈ w.1)))
    (fun x w => match x with
      | blocked => stuck w.1 \/ NewProcessManager_result w.1 = Some true
      | _ => w.1 = []
      end) ([], e) /\
  (startProcessManager 10 "/riak/bin/riak" ["console"] (Some "/root") ([], e)).2.1 =
    [Started; Subscribed 1; Subscribed 2; Notified 1 3; Notified 2 3; ToreDown; Closed].
Proof.
  intros e. split; [|vm_compute; reflexivity].
  exact (manager_cleans_up 10 "/riak/bin/riak" ["console"] (Some "/root") e).
Defined.

Lemma teardown_answered_witness :
  let e := mk_sim [SubscribeReq 2; TearDownReq 9] true false [] in
  wp total (background 5 7 [1]) (fun _ w => gone w.2 /\ replied w.1 = [9] /\
    notified w.1 = (fun sub => (sub, -1)) <$> ([1] ++ [2])) ([Subscribed 1; Started], e).
Proof.
  intros e. refine (teardown_answered (gone := gone) 5 2 7 9 [1] [2] [Subscribed 1; Started] e _ _ _ _).
  - intros e'. reflexivity.
  - do 4 (split; [reflexivity|]). split; [reflexivity|]. intros Hin.
    repeat (apply elem_of_cons in Hin as [Hin|Hin]; [discriminate Hin|]). by apply elem_of_nil in Hin.
  - exists []. split; [reflexivity|]. by split.
  - lia.
Defined.

Lemma exit_delivered_witness :
  exists r, processManagerLoop ([] ++ Subscribe 7 1 :: [Subscribe 8 2] ++ Sigchld (Some (7, 3)) :: [Unsubscribe 7])
    no_reaper = (Ret tt, r) /\
  delivered r !! 1 = Some (7, 3) /\
  forall r1, processManagerLoop [] no_reaper = (Ret tt, r1) -> subscriptions r1 !! 7 = None ->
    processManagerLoop ([] ++ [Sigchld (Some (7, 3)); Subscribe 7 1]) no_reaper =
    (Ret tt, mk_reaper (<[7 := 1]> (subscriptions r1)) (delivered r1)).
Proof.
  eexists. split; [reflexivity|].
  refine (exit_delivered 7 1 3 [] [Subscribe 8 2] [Unsubscribe 7] _ _ _ _ _).
  - reflexivity.
  - apply Forall_singleton. intros Heq. discriminate Heq.
  - by intros ?%elem_of_nil.
  - intros Hin. apply elem_of_cons in Hin as [Hin|Hin]; [discriminate Hin|by apply elem_of_nil in Hin].
Defined.
End manager_witnesses.
