(* ===== verification/Executor.v ===== *)
(** * [executor]: the process that runs one Riak node on a slave

    [executor.go] has the callbacks of the Mesos driver, [node.go] what they do
    to Riak: fetch its configuration from the scheduler, start it under the
    process manager, register it in ZooKeeper, and wait for its end.  A
    callback or a goroutine is a computation over the [ExecutorCore]; what the
    process tells Mesos is recorded in the core in order.  Sleeps are left out. *)

From S2P Require Import Prelude GoStrings Host Mesos Utils Structs Ser Explorer Metadata Cepm.
From Stdlib Require Import Ascii.

#[local] Open Scope string_scope.
#[local] Open Scope list_scope.
#[local] Open Scope Z_scope.

(** ** What the executor talks to *)

Record templateData := mk_templateData {
  t_HTTPPort : Z;
  t_PBPort : Z;
  t_HandoffPort : Z;
  t_FullyQualifiedNodeName : string;
  t_DisterlPort : Z }.

Record advancedTemplateData := mk_advancedTemplateData { CEPMDPort : Z }.

(** [text/template]: parsing, and the text of a template with an error. *)
Class GoTemplate := {
  Template : Type;
  template_Parse : string -> Template + string;
  Execute_config : Template -> templateData -> string * option string;
  Execute_advanced : Template -> advancedTemplateData -> string * option string }.

(** [executor.ExecutorDriver] of mesos-go. *)
Class ExecutorDriver (E : Type) := {
  NewMesosExecutorDriver : M E (option string);
  driver_Start : M E (option string);
  SendStatusUpdate : TaskStatus -> M E (option string);
  driver_Stop : M E unit }.

(** What the select of [runLoop] receives. *)
Inductive run_event := RiakDied | FinishReceived.

(** The package [process_manager], with the pid as the handle, and the channels
    of the executor.  [pm_New] gets the callback, the path, the arguments, the
    health check, the directory and whether to use the super chroot; [select_run] is the select on a [Listen] channel and on
    the finish channel, which may be nil. *)
Class ProcMgr (E : Type) := {
  pm_New : M E unit -> string -> list string -> M E (option string) -> option string -> bool ->
    M E (option Z * option string);
  pm_Listen : Z -> M E Z;
  pm_TearDown : Z -> M E unit;
  select_run : Z -> option Z -> M E run_event;
  chan_send : Z -> M E unit }.

(** ** State *)

Record RiakNode := mk_RiakNode {
  taskInfo : TaskInfo;
  generation : Z;                   (* uint64 *)
  finishChan : option Z;
  running : bool;
  taskData : TaskData;
  pm : option Z;
  killStatus : TaskStatus }.

(** What Mesos is told. *)
Inductive ExecAction :=
  | Updated (status : TaskStatus)
  | Stopped.

(** [run_loop]: the goroutine of [runLoop] exists, with the node it registered
    and, once it waits, its channel.  [watching]: the goroutine of the signals
    waits for one. *)
Record ExecutorCore (Conn : Type) := mk_ExecutorCore {
  locked : bool;
  riakNode : option RiakNode;
  Driver : bool;                    (* assigned *)
  execInfo : option ExecutorInfo;
  slaveInfo : option string;        (* its hostname *)
  fwInfo : option string;           (* its name *)
  metadataManager : MetadataManager Conn;   (* of the riakNode *)
  run_loop : option (ZkNode * option Z);
  watching : bool;
  told : list ExecAction }.
Arguments mk_ExecutorCore {Conn}.
Arguments locked {Conn}.
Arguments riakNode {Conn}.
Arguments Driver {Conn}.
Arguments execInfo {Conn}.
Arguments slaveInfo {Conn}.
Arguments fwInfo {Conn}.
Arguments metadataManager {Conn}.
Arguments run_loop {Conn}.
Arguments watching {Conn}.
Arguments told {Conn}.

Definition no_mgr {Conn} : MetadataManager Conn := mk_MetadataManager "" None None None [].

Definition newExecutor {Conn} : ExecutorCore Conn :=
  mk_ExecutorCore false None false None None None no_mgr None true [].

Section setters.
Context {Conn : Type}.
Definition set_locked v (c : ExecutorCore Conn) : ExecutorCore Conn :=
  mk_ExecutorCore v (riakNode c) (Driver c) (execInfo c) (slaveInfo c)
  (fwInfo c) (metadataManager c) (run_loop c) (watching c) (told c).
Definition set_riakNode v (c : ExecutorCore Conn) : ExecutorCore Conn :=
  mk_ExecutorCore (locked c) v (Driver c) (execInfo c) (slaveInfo c)
  (fwInfo c) (metadataManager c) (run_loop c) (watching c) (told c).
Definition set_Driver v (c : ExecutorCore Conn) : ExecutorCore Conn :=
  mk_ExecutorCore (locked c) (riakNode c) v (execInfo c) (slaveInfo c)
  (fwInfo c) (metadataManager c) (run_loop c) (watching c) (told c).
Definition set_infos e s f (c : ExecutorCore Conn) : ExecutorCore Conn :=
  mk_ExecutorCore (locked c) (riakNode c) (Driver c) e s
  f (metadataManager c) (run_loop c) (watching c) (told c).
Definition set_mgr v (c : ExecutorCore Conn) : ExecutorCore Conn :=
  mk_ExecutorCore (locked c) (riakNode c) (Driver c) (execInfo c) (slaveInfo c)
  (fwInfo c) v (run_loop c) (watching c) (told c).
Definition set_run_loop v (c : ExecutorCore Conn) : ExecutorCore Conn :=
  mk_ExecutorCore (locked c) (riakNode c) (Driver c) (execInfo c) (slaveInfo c)
  (fwInfo c) (metadataManager c) v (watching c) (told c).
Definition set_watching v (c : ExecutorCore Conn) : ExecutorCore Conn :=
  mk_ExecutorCore (locked c) (riakNode c) (Driver c) (execInfo c) (slaveInfo c)
  (fwInfo c) (metadataManager c) (run_loop c) v (told c).
Definition tell a (c : ExecutorCore Conn) : ExecutorCore Conn :=
  mk_ExecutorCore (locked c) (riakNode c) (Driver c) (execInfo c) (slaveInfo c)
  (fwInfo c) (metadataManager c) (run_loop c) (watching c) (told c ++ [a]).
End setters.

Definition set_generation v (n : RiakNode) :=
  mk_RiakNode (taskInfo n) v (finishChan n) (running n) (taskData n) (pm n) (killStatus n).
Definition set_running v (n : RiakNode) :=
  mk_RiakNode (taskInfo n) (generation n) (finishChan n) v (taskData n) (pm n) (killStatus n).
Definition set_pm v (n : RiakNode) :=
  mk_RiakNode (taskInfo n) (generation n) (finishChan n) (running n) (taskData n) v (killStatus n).
Definition set_killStatus v (n : RiakNode) :=
  mk_RiakNode (taskInfo n) (generation n) (finishChan n) (running n) (taskData n) (pm n) v.

(** A status with the id and the state only, and one with data. *)
Definition status_with (id : string) (state : TaskState) (data : string) : TaskStatus :=
  mk_TaskStatus id state None data.

(** [binary.PutUvarint] on a buffer: seven bits per byte, the lowest first, and
    the high bit where more follow; out of the buffer it panics. *)
Fixpoint PutUvarint {E} (fuel : nat) (buf : list Z) (i : nat) (x : Z) : M E (list Z) :=
  match fuel with
  | O => mblock "out of fuel"
  | S fuel =>
      _ ← index buf i;
      if x <? 128 then mret (<[i := x]> buf)
      else PutUvarint fuel (<[i := Z.lor (Z.land x 127) 128]> buf) (S i) (Z.shiftr x 7)
  end.

Fixpoint string_of_bytes (l : list Z) : string :=
  match l with
  | [] => ""
  | b :: l => String (ascii_of_N (Z.to_N b)) (string_of_bytes l)
  end.

Section executor.
Context `{!Json TaskData, !Json CoordinatedData, !Json TaskStatusData, !GoTemplate}.
Context {Conn Zk W : Type} `{!ZkApi Conn Zk}.
Context `{!HttpClient W, !GoNet W, !GoFiles W, !CepmAssets W, !ExecutorDriver W, !ProcMgr W}.
Local Abbreviation Exec := (M (ExecutorCore Conn * (Zk * W))).
Local Abbreviation Mgr := (M (MetadataManager Conn * Zk)).

(** ** Access *)

Definition in_node_mgr {A} (m : Mgr A) : Exec A := zoom_l metadataManager set_mgr m.

(** The fields of the node; without a node they are those of a nil pointer. *)
Definition get_node : Exec RiakNode := c ← get_st; deref (riakNode c).
Definition upd_node (f : RiakNode -> RiakNode) : Exec unit :=
  upd_st (fun c => set_riakNode (f <$> riakNode c) c).

(** [lock.Lock] with its deferred [Unlock]: who waits for a lock that is never
    released waits for ever. *)
Definition with_lock {A} (m : Exec A) : Exec A :=
  c ← get_st;
  if locked c then mblock "lock" else
  upd_st (set_locked true) ;; deferred (upd_st (set_locked false)) m.

(** A status through the driver; an error panics everywhere. *)
Definition send (status : TaskStatus) : Exec unit :=
  err ← io (SendStatusUpdate status);
  upd_st (tell (Updated status)) ;;
  match err with
  | Some err => mpanic ("Got error" +:+ err)
  | None => mret tt
  end.

(** [executor.Driver], which [main] assigns after the driver was started. *)
Definition exec_driver : Exec unit :=
  c ← get_st; if Driver c then mret tt else mpanic "invalid memory address or nil pointer dereference".

Definition stop : Exec unit :=
  exec_driver ;; io driver_Stop ;; upd_st (tell Stopped).

(** The task's id in the node. *)
Definition task_id (n : RiakNode) : string := ti_TaskId (taskInfo n).

(** ** [node.go] *)

Definition NewRiakNode (taskInfo : TaskInfo) : Exec RiakNode :=
  match DeserializeTaskData (ti_Data taskInfo) with
  | (_, Some err) => mpanic ("Got error" +:+ err)
  | (taskData, None) =>
      in_node_mgr (NewMetadataManager (td_FrameworkName taskData) (Zookeepers taskData)) ;;
      mret {| taskInfo := taskInfo;
              generation := 0;
              finishChan := None;
              running := false;
              taskData := taskData;
              pm := None;
              killStatus := status_with (ti_TaskId taskInfo) TASK_FAILED "" |}
  end.

(** *** Configuration *)

(** A failing request leaves a nil response, whose body is read. *)
Definition fetch (uri : string) : M W string :=
  resp ← http_Get uri;
  match resp with
  | HttpError _ => mpanic "invalid memory address or nil pointer dereference"
  | HttpResponse _ body _ => mret body
  end.

(** Opening the file and executing the template into it. *)
Definition write_template (path : string) (r : string * option string) : M W unit :=
  err ← os_OpenFile path;
  match err with
  | Some err => mpanic ("Unable to open file: " +:+ err)
  | None =>
      err ← file_Write path r.1;
      match err, r.2 with
      | None, None => mret tt
      | _, _ => mpanic "Got error"
      end
  end.

Definition cluster_uri (td : TaskData) (what : string) : string :=
  URI td +:+ "/api/v1/clusters/" +:+ td_ClusterName td +:+ "/" +:+ what.

Definition configureRiak (td : TaskData) : M W templateData :=
  config ← fetch (cluster_uri td "config");
  match template_Parse config with
  | inr err => mpanic err
  | inl tmpl =>
      let vars := {| t_HTTPPort := HTTPPort td;
                     t_PBPort := PBPort td;
                     t_HandoffPort := HandoffPort td;
                     t_FullyQualifiedNodeName := FullyQualifiedNodeName td;
                     t_DisterlPort := DisterlPort td |} in
      write_template "root/riak/etc/riak.conf" (Execute_config tmpl vars) ;;
      mret vars
  end.

Definition configureAdvanced (td : TaskData) (cepmdPort : Z) : M W unit :=
  advancedConfig ← fetch (cluster_uri td "advancedConfig");
  match template_Parse advancedConfig with
  | inr err => mpanic err
  | inl tmpl =>
      write_template "root/riak/etc/advanced.config"
        (Execute_advanced tmpl (mk_advancedTemplateData cepmdPort))
  end.

(** *** The node in ZooKeeper *)

(** [SetData] on a node of the manager. *)
Definition on_node {A} (n : ZkNode) (m : M (MetadataManager Conn * ZkNode * Zk) A) : Mgr A :=
  fun w => let '(r, (s, e)) := m ((w.1, n), w.2) in (r, (s.1, e)).

Definition setCoordinatedData (td : TaskData) (child : ZkNode) (config : templateData) : Mgr unit :=
  let coordinatedData :=
    {| cd_FrameworkName := td_FrameworkName td;
       cd_ClusterName := td_ClusterName td;
       cd_NodeName := FullyQualifiedNodeName td;
       cd_DisterlPort := t_DisterlPort config;
       cd_PBPort := t_PBPort config;
       cd_HTTPPort := t_HTTPPort config;
       cd_Hostname := Host td |} in
  match CoordinatedData_Serialize coordinatedData with
  | (_, Some err) => mpanic ("Could not serialize coordinated data" +:+ err)
  | (cdBytes, None) => _ ← on_node child (SetData cdBytes); mret tt
  end.

(** A child that is made if it is missing, and read. *)
Definition sub_node (parent : ZkNode) (name : string) : Mgr ZkNode :=
  CreateChildIfNotExists parent name ;;
  r ← GetChild parent name;
  match r.2 with
  | Some err => mpanic "zk error"
  | None => deref r.1
  end.

Definition getCoordinatedChild (id : string) : Mgr ZkNode :=
  rootNode ← GetRootNode;
  rootNode ← deref rootNode;
  coordinator ← sub_node rootNode "coordinator";
  coordinatedNodes ← sub_node coordinator "coordinatedNodes";
  child ← MakeChild coordinatedNodes id true;
  match child.2 with
  | Some err => mpanic "zk error"
  | None => deref child.1
  end.

(** *** Running *)

(** The test of the error of [ReadFile] is the wrong way round. *)
Definition HealthCheckFun : M W (option string) :=
  data ← ioutil_ReadFile "root/riak/log/console.log";
  match data.2 with
  | Some err =>
      mret (if Contains data.1 "Wait complete for service riak_kv" then None
            else Some "Riak KV not yet started")
  | None => mret None
  end.

(** Putting the port mapper's files in place; the first kernel directory. *)
Definition install_cepm (port : Z) : M W unit :=
  kernelDirs ← filepath_Glob "root/riak/lib/kernel*";
  match kernelDirs.2 with
  | Some err => mfatal "Could not find kernel directory"
  | None =>
      kernelDir ← index kernelDirs.1 0;
      err ← InstallInto (kernelDir +:+ "/ebin");
      match err with
      | Some err => mpanic err
      | None =>
          err ← KillEPMD "root/riak";
          match err with
          | Some err => mfatal ("Could not kill EPMd: " +:+ err)
          | None =>
              _ ← os_MkdirAll (kernelDir +:+ "/priv");
              _ ← ioutil_WriteFile (kernelDir +:+ "/priv/cepmd_port") (itoa port +:+ ".");
              mret tt
          end
      end
  end.

Definition start_riak (td : TaskData) : M W (option Z * option string) :=
  wd ← os_WorkDir;
  match wd.2 with
  | Some err => mpanic ("Could not get wd: " +:+ err)
  | None => pm_New (mret tt) "/riak/bin/riak" ["console"; "-noinput"; "-no_epmd"] HealthCheckFun
              (Some (filepath_Join [wd.1; "root"])) (UseSuperChroot td)
  end.

(** [Run] before Riak is started, and after it failed to start or is up. *)
Definition prepare (td : TaskData) : Exec templateData :=
  config ← io (configureRiak td);
  c ← zoom metadataManager set_mgr (NewCPMd 0);
  port ← GetPort c;
  io (configureAdvanced td port) ;;
  io (install_cepm port) ;;
  mret config.

Definition run_failed (id : string) : Exec unit :=
  exec_driver ;; send (status_with id TASK_FAILED "") ;; stop.

Definition run_started (n : RiakNode) (config : templateData) : Exec unit :=
  child ← in_node_mgr (getCoordinatedChild (task_id n));
  in_node_mgr (setCoordinatedData (taskData n) child config) ;;
  match TaskStatusData_Serialize (mk_TaskStatusData (HTTPPort (taskData n))) with
  | (_, Some err) => mpanic ("Could not serialize Riak Explorer data" +:+ err)
  | (tsdBytes, None) =>
      exec_driver ;;
      send (status_with (task_id n) TASK_RUNNING tsdBytes) ;;
      upd_node (set_running true) ;;
      upd_st (set_run_loop (Some (child, None)))
  end.

Definition Run : Exec unit :=
  n ← get_node;
  config ← prepare (taskData n);
  r ← io (start_riak (taskData n));
  upd_node (set_pm r.1) ;;
  match r.2 with
  | Some err => run_failed (task_id n)
  | None => run_started n config
  end.

(** *** The goroutine that waits for the end *)

Definition finished (n : RiakNode) : TaskStatus := status_with (task_id n) TASK_FINISHED "".

(** What [runLoop] does after its select; [fuel] is for deleting the child. *)
Definition runLoop_end (fuel : nat) (child : ZkNode) (ev : run_event) : Exec unit :=
  n ← get_node;
  match ev with
  | RiakDied => exec_driver ;; send (killStatus n)
  | FinishReceived =>
      pid ← deref (pm n);
      io (pm_TearDown pid) ;;
      upd_node (set_killStatus (finished n)) ;;
      exec_driver ;; send (finished n)
  end ;;
  in_node_mgr (Delete fuel child) ;;
  stop.

(** The goroutine runs without the lock, in two steps: it subscribes to the end
    of Riak, and then its select receives and the rest runs. *)
Definition runLoop (fuel : nat) : Exec unit :=
  c ← get_st;
  match run_loop c with
  | None => mret tt
  | Some (child, None) =>
      n ← get_node;
      pid ← deref (pm n);
      waitChan ← io (pm_Listen pid);
      upd_st (set_run_loop (Some (child, Some waitChan)))
  | Some (child, Some waitChan) =>
      n ← get_node;
      ev ← io (select_run waitChan (finishChan n));
      upd_st (set_run_loop None) ;;
      runLoop_end fuel child ev
  end.

(** The lock is a field of the node's executor: without a node this panics. *)
Definition next : Exec unit :=
  _ ← get_node;
  with_lock (
    n ← get_node;
    bin ← PutUvarint 10 [0; 0; 0; 0] 0 (generation n);
    exec_driver ;;
    send (status_with (task_id n) TASK_RUNNING (string_of_bytes bin)) ;;
    upd_node (fun n => set_generation (uwrap64 (generation n + 1)) n)).

(** A send on a nil channel waits for ever. *)
Definition finish : Exec unit :=
  n ← get_node;
  match finishChan n with
  | None => mblock "chan send"
  | Some ch => io (chan_send ch)
  end.

Definition ForceFinish : Exec unit :=
  n ← get_node;
  upd_node (set_killStatus (finished n)) ;;
  pid ← deref (pm n);
  io (pm_TearDown pid).

(** ** [executor.go] *)

Definition Registered (execInfo : option ExecutorInfo) (slaveInfo fwInfo : option string) : Exec unit :=
  with_lock (upd_st (set_infos execInfo slaveInfo fwInfo)).

Definition Reregistered (slaveInfo : option string) : Exec unit :=
  with_lock (upd_st (set_Driver true) ;; upd_st (fun c => set_infos (execInfo c) slaveInfo (fwInfo c) c)).

Definition Disconnected : Exec unit := with_lock (mret tt).

(** The second task of an executor ends the process, after Mesos was told that
    it starts. *)
Definition LaunchTask (taskInfo : TaskInfo) : Exec unit :=
  with_lock (
    send (status_with (ti_TaskId taskInfo) TASK_STARTING "") ;;
    c ← get_st;
    match riakNode c with
    | Some _ => mfatal "Task being started, twice"
    | None =>
        n ← NewRiakNode taskInfo;
        upd_st (set_riakNode (Some n)) ;;
        Run
    end).

Definition KillTask (taskId : string) : Exec unit :=
  with_lock (
    n ← get_node;
    send (status_with (task_id n) TASK_KILLED "") ;;
    finish).

Definition FrameworkMessage (msg : string) : Exec unit :=
  with_lock (if String.eqb msg "finish" then ForceFinish else mret tt).

Definition Shutdown : Exec unit := io driver_Stop ;; upd_st (tell Stopped) ;; mfatal "exit status 0".

Definition Error (err : string) : Exec unit := with_lock (mret tt).

(** [SIGUSR1] and [SIGUSR2]: one goroutine handles them one after the other. *)
Inductive signal := SIGUSR1 | SIGUSR2.

Definition signalWatcher (sig : signal) : Exec unit :=
  c ← get_st;
  if negb (watching c) then mblock "signals" else
  upd_st (set_watching false) ;;
  match sig with SIGUSR1 => finish | SIGUSR2 => next end ;;
  upd_st (set_watching true).

(** [main] up to [driver.Join]; a driver that could not be made is nil.  The
    driver may call back before it is assigned. *)
Definition main : Exec bool :=
  err ← io NewMesosExecutorDriver;
  match err with
  | Some _ => mpanic "invalid memory address or nil pointer dereference"
  | None =>
      err ← io driver_Start;
      match err with
      | Some err => mret false
      | None => upd_st (set_Driver true) ;; mret true
      end
  end.

(** ** The process *)

Inductive exec_event :=
  | EvRegistered (e : option ExecutorInfo) (s f : option string)
  | EvReregistered (s : option string)
  | EvDisconnected
  | EvLaunchTask (taskInfo : TaskInfo)
  | EvKillTask (taskId : string)
  | EvFrameworkMessage (msg : string)
  | EvError (err : string)
  | EvSignal (sig : signal)
  | EvRunLoop.                        (* a step of [runLoop] *)

Definition run_exec (fuel : nat) (ev : exec_event) : Exec unit :=
  match ev with
  | EvRegistered e s f => Registered e s f
  | EvReregistered s => Reregistered s
  | EvDisconnected => Disconnected
  | EvLaunchTask taskInfo => LaunchTask taskInfo
  | EvKillTask taskId => KillTask taskId
  | EvFrameworkMessage msg => FrameworkMessage msg
  | EvError err => Error err
  | EvSignal sig => signalWatcher sig
  | EvRunLoop => runLoop fuel
  end.

(** A goroutine that blocks leaves the others the state it had then. *)
Inductive exec_step (fuel : nat) : relation (ExecutorCore Conn * (Zk * W)) :=
  | exec_returns ev w w' : run_exec fuel ev w = (Ret tt, w') -> exec_step fuel w w'
  | exec_blocks ev w msg w' : run_exec fuel ev w = (Block msg, w') -> exec_step fuel w w'
  | exec_outside c z z' v v' : exec_step fuel (c, (z, v)) (c, (z', v')).
End executor.

(** ** What is relied on *)

(** A select never receives from a nil channel, and [NewProcessManager] gives a
    manager or an error.  Nothing else is relied on: any of the calls may fail,
    block, or end the process. *)
Class ProcMgrLaws (E : Type) `{!ProcMgr E} : Prop := {
  select_run_nil ch e : wpe (select_run ch None) (fun ev _ => ev = RiakDied) (fun _ _ => True) e;
  pm_New_or_err tdcb path args hc chroot super e : wpe (pm_New tdcb path args hc chroot super)
    (fun r _ => match r.2 with None => is_Some r.1 | Some _ => r.1 = None end) (fun _ _ => True) e }.

(** ** The channel that is never made *)

(** The value that the bytes of [PutUvarint] stand for. *)
Fixpoint uvarint_value (l : list Z) : Z :=
  match l with
  | [] => 0
  | b :: l => if b <? 128 then b else b - 128 + 128 * uvarint_value l
  end.

Lemma low_bits x : Z.lor (Z.land x 127) 128 = x `mod` 128 + 128.
Proof.
  change 127 with (Z.ones 7). rewrite Z.land_ones by lia. change (2 ^ 7) with 128.
  assert (Z.land (x `mod` 128) 128 = 0) as Hl.
  { change 128 with (2 ^ 7) at 1. rewrite <- Z.land_ones by lia. rewrite <- Z.land_assoc.
    change (Z.land (Z.ones 7) 128) with 0. apply Z.land_0_r. }
  pose proof (Z.add_lor_land (x `mod` 128) 128). lia.
Qed.

Lemma shiftr_7 x : Z.shiftr x 7 = x / 128.
Proof. by rewrite Z.shiftr_div_pow2. Qed.

(** One round: the last byte, or one more. *)
Lemma PutUvarint_step {E} fuel buf i x (e : E) : (i < length buf)%nat ->
  PutUvarint (S fuel) buf i x e =
  if x <? 128 then (Ret (<[i := x]> buf), e)
  else PutUvarint fuel (<[i := x `mod` 128 + 128]> buf) (S i) (x / 128) e.
Proof.
  intros Hi. cbn [PutUvarint]. destruct (lookup_lt_is_Some_2 buf i Hi) as [b Hb].
  unfold index, mbind, M_bind. rewrite Hb. cbn. rewrite low_bits, shiftr_7.
  by destruct (x <? 128).
Qed.

Lemma PutUvarint_full {E} fuel buf i x (e : E) : (length buf <= i)%nat ->
  PutUvarint (S fuel) buf i x e = (Panic "index out of range", e).
Proof.
  intros Hi. cbn [PutUvarint]. unfold index, mbind, M_bind. by rewrite lookup_ge_None_2.
Qed.


(** Four bytes hold the numbers below [2 ^ 28]. *)
Lemma PutUvarint_4 {E} x (e : E) : 0 <= x < 2 ^ 28 ->
  exists l, PutUvarint 10 [0; 0; 0; 0] 0 x e = (Ret l, e) /\ length l = 4%nat /\
    Forall (fun b => 0 <= b < 256) l /\ uvarint_value l = x.
Proof.
  intros Hx. assert (forall y, y = 128 * (y / 128) + y `mod` 128 /\ 0 <= y `mod` 128 < 128) as Hd.
  { intros y. split; [by apply Z.div_mod|by apply Z.mod_pos_bound]. }
  pose proof (Hd x). pose proof (Hd (x / 128)). pose proof (Hd (x / 128 / 128)).
  pose proof (Hd (x / 128 / 128 / 128)). clear Hd.
  rewrite PutUvarint_step by (cbn; lia). destruct (Z.ltb_spec x 128) as [Hs|Hs].
  { eexists. split; [reflexivity|]. split; [done|]. split; [repeat constructor; lia|].
    cbn. by destruct (Z.ltb_spec x 128); [|lia]. }
  rewrite PutUvarint_step by (cbn; lia). destruct (Z.ltb_spec (x / 128) 128) as [Hs2|Hs2].
  { eexists. split; [reflexivity|]. split; [done|]. split; [repeat constructor; lia|].
    cbn. destruct (Z.ltb_spec (x `mod` 128 + 128) 128); [lia|].
    destruct (Z.ltb_spec (x / 128) 128); [|lia]. lia. }
  rewrite PutUvarint_step by (cbn; lia). destruct (Z.ltb_spec (x / 128 / 128) 128) as [Hs3|Hs3].
  { eexists. split; [reflexivity|]. split; [done|]. split; [repeat constructor; lia|].
    cbn. destruct (Z.ltb_spec (x `mod` 128 + 128) 128); [lia|].
    destruct (Z.ltb_spec ((x / 128) `mod` 128 + 128) 128); [lia|].
    destruct (Z.ltb_spec (x / 128 / 128) 128); [|lia]. lia. }
  rewrite PutUvarint_step by (cbn; lia).
  destruct (Z.ltb_spec (x / 128 / 128 / 128) 128) as [Hs4|Hs4]; [|lia].
  eexists. split; [reflexivity|]. split; [done|]. split; [repeat constructor; lia|].
  cbn. destruct (Z.ltb_spec (x `mod` 128 + 128) 128); [lia|].
  destruct (Z.ltb_spec ((x / 128) `mod` 128 + 128) 128); [lia|].
  destruct (Z.ltb_spec ((x / 128 / 128) `mod` 128 + 128) 128); [lia|].
  destruct (Z.ltb_spec (x / 128 / 128 / 128) 128); [|lia]. lia.
Qed.

Lemma PutUvarint_over {E} x (e : E) : 2 ^ 28 <= x ->
  PutUvarint 10 [0; 0; 0; 0] 0 x e = (Panic "index out of range", e).
Proof.
  intros Hx. assert (2 ^ 21 <= x / 128) by (apply Z.div_le_lower_bound; lia).
  assert (2 ^ 14 <= x / 128 / 128) by (apply Z.div_le_lower_bound; lia).
  assert (2 ^ 7 <= x / 128 / 128 / 128) by (apply Z.div_le_lower_bound; lia).
  do 4 (rewrite PutUvarint_step by (cbn; lia);
    lazymatch goal with |- context [?y <? 128] => destruct (Z.ltb_spec y 128); [lia|] end).
  by apply PutUvarint_full.
Qed.

(** ** Stepping through the executor *)

(** The path of a node of framework [fw] whose task is [id]. *)
Definition coordinator_ns (fw : string) : Namespace := makeSubSpace (root_ns fw) "coordinator".
Definition nodes_ns (fw : string) : Namespace := makeSubSpace (coordinator_ns fw) "coordinatedNodes".
Definition node_ns (fw id : string) : Namespace := makeSubSpace (nodes_ns fw) id.

Section steps.
Context `{!Json TaskData, !Json CoordinatedData, !Json TaskStatusData, !GoTemplate}.
Context (fw id : string) {Conn Zk W : Type} `{!ZkApi Conn Zk}.
Local Abbreviation p := (GetZKPath (node_ns fw id)).
Context `{!ZkPath p Zk, !ZkLaws true p Conn Zk}.
Context `{!HttpClient W, !GoNet W, !GoFiles W, !CepmAssets W, !ExecutorDriver W, !ProcMgr W}.
Local Abbreviation world := (ExecutorCore Conn * (Zk * W))%type.
Local Abbreviation stored w := (zk_stored (p := p) w.2.1).

Lemma wpe_io_any {A} (m : M W A) (Q : A -> world -> Prop) R (w : world) :
  (forall a v, Q a (w.1, (w.2.1, v))) -> (forall x v, R x (w.1, (w.2.1, v))) -> wpe (io m) Q R w.
Proof.
  intros HQ HR. destruct w as [c [z v]]. apply wpe_io.
  eapply wpe_mono; [| |apply wpe_true]; [intros a v' _; apply HQ|intros x v' _; apply HR].
Qed.

Lemma wpe_in_node_mgr {A} (m : M (MetadataManager Conn * Zk) A) (Q : A -> world -> Prop) R (w : world) :
  wpe m (fun a v => Q a (set_mgr v.1 w.1, (v.2, w.2.2))) (fun x v => R x (set_mgr v.1 w.1, (v.2, w.2.2)))
    (metadataManager w.1, w.2.1) -> wpe (in_node_mgr m) Q R w.
Proof. destruct w as [c [z v]]. intros Hm. apply (wpe_zoom_l metadataManager set_mgr). exact Hm. Qed.

Lemma wpe_get_node n (Q : RiakNode -> world -> Prop) R (w : world) :
  riakNode w.1 = Some n -> Q n w -> wpe get_node Q R w.
Proof. intros Hn HQ. apply wpe_bind, wpe_get_st. rewrite Hn. by apply wpe_ret. Qed.

(** Sending: the status is told, or sending it did not return. *)
Lemma wpe_send st (Q : unit -> world -> Prop) R (w : world) :
  (forall v, Q tt (tell (Updated st) w.1, (w.2.1, v))) ->
  (forall v, R panicked (tell (Updated st) w.1, (w.2.1, v))) -> (forall x v, R x (w.1, (w.2.1, v))) ->
  wpe (send st) Q R w.
Proof.
  intros HQ HR1 HR2. apply wpe_bind, wpe_io_any; [|done]. intros err v. apply wpe_bind, wpe_upd_st.
  destruct err; [exact (HR1 v)|exact (HQ v)].
Qed.

Lemma wpe_exec_driver (Q : unit -> world -> Prop) R (w : world) :
  (Driver w.1 = true -> Q tt w) -> R panicked w -> wpe exec_driver Q R w.
Proof. intros HQ HR. apply wpe_bind, wpe_get_st. destruct (Driver w.1); [by apply HQ|exact HR]. Qed.

Lemma wpe_stop (Q : unit -> world -> Prop) R (w : world) :
  (forall v, Q tt (tell Stopped w.1, (w.2.1, v))) -> (forall x v, R x (w.1, (w.2.1, v))) ->
  wpe stop Q R w.
Proof.
  intros HQ HR. destruct w as [c [z v]]. apply wpe_bind, wpe_exec_driver; [|apply HR].
  intros _. apply wpe_bind, wpe_io_any; [|done]. intros u v'. exact (HQ v').
Qed.

(** The lock is taken and released, but for a computation that blocks or exits. *)
Lemma wpe_with_lock {A} (m : M world A) (Q : A -> world -> Prop) R (w : world) :
  locked w.1 = false ->
  wpe m (fun a w' => Q a (set_locked false w'.1, w'.2))
    (fun x w' => match x with panicked => R x (set_locked false w'.1, w'.2) | _ => R x w' end)
    (set_locked true w.1, w.2) ->
  wpe (with_lock m) Q R w.
Proof.
  intros Hl Hm. apply wpe_bind, wpe_get_st. rewrite Hl. apply wpe_bind, wpe_upd_st, wpe_deferred.
  eapply wpe_mono; [| |exact Hm].
  - intros a w' HQ. by apply wpe_upd_st.
  - intros [] w' HR; [|exact HR..]. by apply wpe_upd_st.
Qed.

(** *** Starting *)

(** Only the manager of the core changes. *)
Definition mgr_only (c c' : ExecutorCore Conn) : Prop := exists mgr, c' = set_mgr mgr c.

Lemma mgr_only_refl c : mgr_only c c.
Proof. exists (metadataManager c). by destruct c. Qed.
Lemma mgr_only_set mgr c : mgr_only c (set_mgr mgr c).
Proof. by eexists. Qed.
Lemma mgr_only_trans c1 c2 c3 : mgr_only c1 c2 -> mgr_only c2 c3 -> mgr_only c1 c3.
Proof. intros [m ->] [m' ->]. by exists m'. Qed.

Lemma node_not_above : not_above (nodes_ns fw) p.
Proof. apply not_above_child. Qed.
Lemma coordinator_not_above : not_above (coordinator_ns fw) p.
Proof. apply (not_above_parent _ "coordinatedNodes"), node_not_above. Qed.
Lemma root_not_above : not_above (root_ns fw) p.
Proof. apply (not_above_parent _ "coordinator"), coordinator_not_above. Qed.
Lemma cepmd_not_above : not_above (cepmd_ns fw) p.
Proof.
  apply not_above_longer. unfold cepmd_ns, node_ns, nodes_ns, coordinator_ns.
  repeat first [rewrite GetZKPath_child
    |change (Join (GetComponents (makeSubSpace ?n ?c)) "/") with (GetZKPath (makeSubSpace n c))].
  rewrite !length_append. cbn [String.length]. lia.
Qed.

(** A computation on the machine alone. *)
Lemma wpe_io_keep {A} (m : M W A) (w : world) (P : world -> Prop) :
  (forall v, P (w.1, (w.2.1, v))) -> wpe (io m) (fun _ w' => P w') (fun _ w' => P w') w.
Proof. intros HP. by apply wpe_io_any. Qed.

(** The start without Riak: nothing but the manager changes, whatever happens. *)
Lemma wpe_prepare `{!GoNetLaws W} td (w : world) : mgr_ok fw (metadataManager w.1) -> stored w = None ->
  wpe (prepare td)
    (fun config w' => mgr_only w.1 w'.1 /\ mgr_ok fw (metadataManager w'.1) /\ stored w' = None /\
      t_HTTPPort config = HTTPPort td /\ t_PBPort config = PBPort td /\ t_DisterlPort config = DisterlPort td)
    (fun x w' => mgr_only w.1 w'.1 /\ stored w' = None) w.
Proof.
  intros Hm Hz. destruct w as [c [z v]]. cbn [fst snd] in *. unfold prepare. apply wpe_bind, wpe_io.
  eapply (wpe_mono _ (fun config _ => t_HTTPPort config = HTTPPort td /\ t_PBPort config = PBPort td /\
    t_DisterlPort config = DisterlPort td) _ (fun _ _ => True)).
  3: { unfold configureRiak. apply wpe_bind. eapply wpe_mono; [| |apply wpe_true]; [|done].
       intros config v1 _. destruct (template_Parse config) as [tmpl|err]; [|done].
       apply wpe_bind. eapply wpe_mono; [| |apply wpe_true]; [|done]. intros u v2 _. by apply wpe_ret. }
  2: { intros x v1 _. split; [apply mgr_only_refl|done]. }
  intros config v1 Hconfig. apply wpe_bind, wpe_zoom.
  eapply wpe_mono; [| |apply (wpe_NewCPMd (eph := true) fw 0 None); [apply cepmd_not_above|done|by apply still_none]]; cbn [fst snd].
  2: { intros x [mgr1 [z1 v2]] [_ Hz1]. split; [apply mgr_only_set|by apply still_none in Hz1]. }
  intros cepm [mgr1 [z1 v2]] (Hm1 & Hz1 & _). cbn [fst snd] in *. apply still_none in Hz1.
  set (P := fun w' : world => mgr_only c w'.1 /\ zk_stored (p := p) w'.2.1 = None).
  assert (forall v, P (set_mgr mgr1 c, (z1, v))) as HP by (intros v'; split; [apply mgr_only_set|exact Hz1]).
  apply wpe_bind. eapply (wpe_mono _ (fun _ w' => w' = (set_mgr mgr1 c, (z1, v2))) _ (fun _ w' => P w')); [|done|].
  2: { unfold GetPort. destruct (SplitHostPort _) as [[h s]|]; [|apply HP]. destruct (Atoi s); [done|apply HP]. }
  intros port w' ->. apply wpe_bind, wpe_io_any; [|intros; apply HP]. intros u v3.
  apply wpe_bind, wpe_io_any; [|intros; apply HP]. intros u' v4. apply wpe_ret. cbn [fst snd].
  split; [apply mgr_only_set|]. split; [done|]. split; [exact Hz1|done].
Qed.

(** *** Registering in ZooKeeper *)

Lemma wpe_on_node {A} n (m : M (MetadataManager Conn * ZkNode * Zk) A)
    (Q : A -> MetadataManager Conn * Zk -> Prop) R (w : MetadataManager Conn * Zk) :
  wpe m (fun a v => Q a (v.1.1, v.2)) (fun x v => R x (v.1.1, v.2)) ((w.1, n), w.2) ->
  wpe (on_node n m) Q R w.
Proof. destruct w as [mgr z]. unfold wpe, on_node. cbn [fst snd]. by destruct (m (mgr, n, z)) as [[] [[] ?]]. Qed.

Lemma wpe_sub_node n q name (w : MetadataManager Conn * Zk) :
  ns n = q -> Contains name "/" = false -> not_above (makeSubSpace q name) p -> mgr_ok fw w.1 ->
  zk_stored (p := p) w.2 = None ->
  wpe (sub_node n name)
    (fun n' w' => ns n' = makeSubSpace q name /\ mgr_ok fw w'.1 /\ zk_stored (p := p) w'.2 = None)
    (fun _ _ => True) w.
Proof.
  intros Hn Hname Ha Hm Hz. unfold sub_node, CreateChildIfNotExists, GetChild, checked_child.
  rewrite Hname, Hn. apply wpe_bind, wpe_bind, wpe_ret.
  eapply wpe_mono; [| |apply (wpe_CreateNSIfNotExists (eph := true) fw _ _ None); [done|done|by apply still_none]];
    [|done].
  intros u w1 [Hm1 Hz1]. apply wpe_bind, wpe_bind, wpe_ret.
  eapply wpe_mono; [| |apply (wpe_getNode (eph := true) fw _ None); [by rewrite Hm1|exact Hz1]]; [|done].
  intros [node err] w2 (Hm2 & Hz2%still_none & Hr).
  destruct node as [node|], err as [err|]; cbn [read_outcome fst snd] in *; try done.
  by destruct Hr as [Hns _].
Qed.

(** The child is made empty and read. *)
Lemma wpe_getCoordinatedChild (w : MetadataManager Conn * Zk) :
  mgr_ok fw w.1 -> zk_stored (p := p) w.2 = None ->
  wpe (getCoordinatedChild id)
    (fun n w' => ns n = node_ns fw id /\ mgr_ok fw w'.1) (fun _ _ => True) w.
Proof.
  intros Hm Hz. unfold getCoordinatedChild. apply wpe_bind.
  eapply wpe_mono; [| |apply (wpe_GetRootNode (eph := true) fw 10 None); [done|by apply still_none]]; [|done].
  intros r w1 (Hm1 & Hz1%still_none & root & -> & Hroot). apply wpe_bind, wpe_ret, wpe_bind.
  eapply wpe_mono; [| |apply (wpe_sub_node root (root_ns fw) "coordinator"); [done|done|apply coordinator_not_above|done..]]; [|done].
  intros coord w2 (Hn2 & Hm2 & Hz2). apply wpe_bind.
  eapply wpe_mono; [| |apply (wpe_sub_node coord (coordinator_ns fw) "coordinatedNodes"); [done|done|apply node_not_above|done..]]; [|done].
  intros nodes w3 (Hn3 & Hm3 & Hz3). apply wpe_bind. unfold MakeChild, checked_child. apply wpe_bind.
  destruct (Contains id "/"); [done|]. apply wpe_ret. rewrite Hn3.
  eapply wpe_mono; [| |apply (wpe_makeNode (eph := true) fw); [done|done|left; by apply still_none]]; [|done].
  intros [node err] w4 (Hm4 & _ & Hr).
  destruct node as [node|], err as [err|]; cbn [read_outcome fst snd] in *; try done.
  by destruct Hr as [Hns _].
Qed.

(** What the other nodes find of this one. *)
Definition coordinated (td : TaskData) : string :=
  (CoordinatedData_Serialize {| cd_FrameworkName := td_FrameworkName td;
     cd_ClusterName := td_ClusterName td; cd_NodeName := FullyQualifiedNodeName td;
     cd_DisterlPort := DisterlPort td; cd_PBPort := PBPort td; cd_HTTPPort := HTTPPort td;
     cd_Hostname := Host td |}).1.

Lemma wpe_setCoordinatedData td child config (w : MetadataManager Conn * Zk) :
  t_HTTPPort config = HTTPPort td -> t_PBPort config = PBPort td -> t_DisterlPort config = DisterlPort td ->
  ns child = node_ns fw id -> mgr_ok fw w.1 ->
  wpe (setCoordinatedData td child config)
    (fun _ w' => mgr_ok fw w'.1 /\ zk_stored (p := p) w'.2 = Some (coordinated td))
    (fun _ _ => True) w.
Proof.
  intros H1 H2 H3 Hns Hm. unfold setCoordinatedData, coordinated. rewrite H1, H2, H3.
  destruct (CoordinatedData_Serialize _) as [bytes [err|]]; [done|].
  apply wpe_bind, wpe_on_node. eapply wpe_mono; [| |apply (wpe_SetDataWithRetry (eph := true) fw 10 (zk_stored (p := p) w.2))]; [|done| |left; apply still_refl].
  - intros r [[mgr n] z] (_ & [Hm' _] & Hz). by apply wpe_ret.
  - split; [done|]. cbn [snd]. by rewrite Hns.
Qed.

(** *** What Mesos is told *)

Definition starting : ExecAction := Updated (status_with id TASK_STARTING "").
Definition failed : ExecAction := Updated (status_with id TASK_FAILED "").
Definition finished_ok : ExecAction := Updated (status_with id TASK_FINISHED "").
Definition up (td : TaskData) : ExecAction :=
  Updated (status_with id TASK_RUNNING (TaskStatusData_Serialize (mk_TaskStatusData (HTTPPort td))).1).

(** Riak runs: its data is stored, and a goroutine waits for its end. *)
Definition launched (td : TaskData) (c : ExecutorCore Conn) (z : Zk) : Prop :=
  zk_stored (p := p) z = Some (coordinated td) /\ mgr_ok fw (metadataManager c) /\ Driver c = true /\
  exists n child, riakNode c = Some n /\ task_id n = id /\ is_Some (pm n) /\ finishChan n = None /\
    Updated (killStatus n) = failed /\ run_loop c = Some (child, None) /\ ns child = node_ns fw id.

Lemma wpe_run_failed (w : world) :
  wpe (run_failed id)
    (fun _ w' => told w'.1 = told w.1 ++ [failed; Stopped] /\ locked w'.1 = locked w.1 /\
      riakNode w'.1 = riakNode w.1 /\ run_loop w'.1 = run_loop w.1 /\ stored w' = stored w)
    (fun _ w' => told w'.1 = told w.1 \/ told w'.1 = told w.1 ++ [failed]) w.
Proof.
  destruct w as [c [z v]]. apply wpe_bind, wpe_exec_driver; [|by left]. intros _.
  apply wpe_bind, wpe_send; [|by right|by left]. intros v1. cbn [fst snd].
  apply wpe_stop; [|by right]. intros v2. cbn. by rewrite <- app_assoc.
Qed.

Lemma wpe_run_started n config (w : world) :
  riakNode w.1 = Some n -> task_id n = id -> is_Some (pm n) -> finishChan n = None ->
  Updated (killStatus n) = failed -> mgr_ok fw (metadataManager w.1) -> stored w = None ->
  t_HTTPPort config = HTTPPort (taskData n) -> t_PBPort config = PBPort (taskData n) ->
  t_DisterlPort config = DisterlPort (taskData n) ->
  wpe (run_started n config)
    (fun _ w' => told w'.1 = told w.1 ++ [up (taskData n)] /\ locked w'.1 = locked w.1 /\
      launched (taskData n) w'.1 w'.2.1)
    (fun _ w' => told w'.1 = told w.1 \/
      told w'.1 = told w.1 ++ [up (taskData n)] /\ stored w' = Some (coordinated (taskData n))) w.
Proof.
  intros Hn Hid Hpm Hch Hkill Hm Hz H1 H2 H3. destruct w as [c [z v]]. cbn [fst snd] in *.
  unfold run_started. rewrite Hid. apply wpe_bind, wpe_in_node_mgr.
  eapply wpe_mono; [| |by apply wpe_getCoordinatedChild]; cbn [fst snd]; [|by left].
  intros child [mgr1 z1] (Hns & Hm1). cbn [fst snd] in *. apply wpe_bind, wpe_in_node_mgr.
  eapply wpe_mono; [| |by apply wpe_setCoordinatedData]; cbn [fst snd]; [|by left].
  intros u [mgr2 z2] [Hm2 Hz2]. cbn [fst snd] in *.
  destruct (TaskStatusData_Serialize (mk_TaskStatusData (HTTPPort (taskData n)))) as [bytes [err|]] eqn:Hb;
    [by left|].
  assert (Updated (status_with id TASK_RUNNING bytes) = up (taskData n)) as Hup by (unfold up; by rewrite Hb).
  apply wpe_bind, wpe_exec_driver; [|by left]. intros Hd. cbn in Hd.
  apply wpe_bind, wpe_send; [|right; split; [cbn; by rewrite Hup|exact Hz2]|by left].
  intros v1. cbn [fst snd]. apply wpe_bind, wpe_upd_st, wpe_upd_st. cbn [fst snd].
  split; [cbn; by rewrite Hup|]. split; [done|]. split; [exact Hz2|]. split; [done|]. split; [done|].
  exists (set_running true n), child. cbn. rewrite Hn. by split_and!.
Qed.

(** What was told when a launch does not return: a beginning of the two runs,
    and that Riak is up only when its data is stored. *)
Definition on_way (td : TaskData) (l0 : list ExecAction) (c : ExecutorCore Conn) (z : Zk) : Prop :=
  exists l, told c = l0 ++ l /\
    (l `prefix_of` [starting; failed] \/
     l = [starting; up td] /\ zk_stored (p := p) z = Some (coordinated td)).

Lemma on_way_0 td l0 c z : told c = l0 -> on_way td l0 c z.
Proof. intros Hc. exists []. rewrite app_nil_r. split; [done|]. left. apply prefix_nil. Qed.
Lemma on_way_1 td l0 c z : told c = l0 ++ [starting] -> on_way td l0 c z.
Proof. intros Hc. exists [starting]. split; [done|]. left. by exists [failed]. Qed.
Lemma on_way_failed td l0 c z : told c = l0 ++ [starting; failed] -> on_way td l0 c z.
Proof. intros Hc. exists [starting; failed]. split; [done|]. by left. Qed.
Lemma on_way_up td l0 c z : told c = l0 ++ [starting; up td] ->
  zk_stored (p := p) z = Some (coordinated td) -> on_way td l0 c z.
Proof. intros Hc Hz. exists [starting; up td]. split; [done|]. by right. Qed.

Lemma wpe_node_Run `{!GoNetLaws W, !ProcMgrLaws W} n l0 (w : world) :
  riakNode w.1 = Some n -> task_id n = id -> finishChan n = None -> Updated (killStatus n) = failed ->
  mgr_ok fw (metadataManager w.1) -> stored w = None -> told w.1 = l0 ++ [starting] ->
  wpe Run
    (fun _ w' =>
       told w'.1 = l0 ++ [starting; up (taskData n)] /\ launched (taskData n) w'.1 w'.2.1 \/
       told w'.1 = l0 ++ [starting; failed; Stopped] /\ stored w' = None /\ run_loop w'.1 = run_loop w.1 /\
       exists n, riakNode w'.1 = Some n /\ pm n = None)
    (fun _ w' => on_way (taskData n) l0 w'.1 w'.2.1) w.
Proof.
  intros Hn Hid Hch Hk Hm Hz Ht. destruct w as [c [z v]]. cbn [fst snd] in *.
  apply wpe_bind, (wpe_get_node n); [done|].
  apply wpe_bind. eapply wpe_mono; [| |by apply wpe_prepare]; cbn [fst snd].
  2: { intros x [c' [z' v']] [[mgr Hc'] _]. apply on_way_1. cbn in Hc'. by rewrite Hc'. }
  intros config [c2 [z2 v2]] ([mgr2 Hc2] & Hm2 & Hz2 & E1 & E2 & E3). cbn [fst snd] in *. subst c2.
  apply wpe_bind, wpe_io. unfold start_riak. apply wpe_bind.
  eapply wpe_mono; [| |apply wpe_true]; [|intros x v' _; apply on_way_1; exact Ht].
  intros [wd [err|]] v3 _; cbn [fst snd]; [apply on_way_1; exact Ht|].
  eapply wpe_mono; [| |apply pm_New_or_err]; [|intros x v' _; apply on_way_1; exact Ht].
  intros [pid err] v4 Hpid. cbn [fst snd] in Hpid. apply wpe_bind, wpe_upd_st. cbn [fst snd].
  destruct err as [err|].
  - rewrite Hid. eapply wpe_mono; [| |apply wpe_run_failed]; cbn [fst snd].
    + intros u' w' (Ht' & _ & Hn' & Hrl' & Hz'). cbn in Ht', Hn'. right. rewrite Ht in Ht'.
      split; [by rewrite Ht', <- app_assoc|]. split; [exact (eq_trans Hz' Hz2)|]. split; [exact Hrl'|].
      rewrite Hn in Hn'. eexists. split; [exact Hn'|]. exact Hpid.
    + intros x w' [Ht'|Ht']; cbn in Ht'; rewrite Ht in Ht'; [apply on_way_1; exact Ht'|].
      apply on_way_failed. by rewrite Ht', <- app_assoc.
  - eapply wpe_mono; [| |apply (wpe_run_started (set_pm pid n)); cbn; try done; by rewrite Hn]; cbn [fst snd].
    + intros u' w' (Ht' & _ & Hla). cbn in Ht'. rewrite Ht in Ht'. left.
      split; [by rewrite Ht', <- app_assoc|]. exact Hla.
    + intros x w' [Ht'|[Ht' Hz']]; cbn in Ht'; rewrite Ht in Ht'; [apply on_way_1; exact Ht'|].
      apply on_way_up; [by rewrite Ht', <- app_assoc|exact Hz'].
Qed.

(** The launch of a task on an executor without one. *)
Lemma wpe_LaunchTask `{!GoNetLaws W, !ProcMgrLaws W} t (w : world) :
  let td := (DeserializeTaskData (ti_Data t)).1 in
  td_FrameworkName td = fw -> ti_TaskId t = id ->
  locked w.1 = false -> riakNode w.1 = None -> stored w = None ->
  wpe (LaunchTask t)
    (fun _ w' => locked w'.1 = false /\
      (told w'.1 = told w.1 ++ [starting; up td] /\ launched td w'.1 w'.2.1 \/
       told w'.1 = told w.1 ++ [starting; failed; Stopped] /\ stored w' = None /\ run_loop w'.1 = run_loop w.1 /\
       exists n, riakNode w'.1 = Some n /\ pm n = None))
    (fun _ w' => on_way td (told w.1) w'.1 w'.2.1) w.
Proof.
  intros td Hfw Hid Hl Hnone Hz. destruct w as [c [z v]]. cbn [fst snd] in *.
  apply wpe_with_lock; [done|].
  eapply (wpe_mono _ _ _ (fun _ w' => on_way td (told c) w'.1 w'.2.1));
    [intros a w' HQ; exact HQ|intros [] w' HR; exact HR|].
  apply wpe_bind. rewrite Hid. apply wpe_send; cbn [fst snd].
  2: { intros v'. by apply on_way_1. } 2: { intros x v'. by apply on_way_0. }
  intros v1. apply wpe_bind, wpe_get_st. cbn [fst riakNode tell set_locked]. rewrite Hnone.
  apply wpe_bind. unfold NewRiakNode. subst td.
  destruct (DeserializeTaskData (ti_Data t)) as [td [err|]]; cbn [fst] in *; [by apply on_way_1|].
  apply wpe_bind, wpe_in_node_mgr. rewrite Hfw.
  eapply wpe_mono; [| |apply (wpe_NewMetadataManager (eph := true) fw _ None); [apply root_not_above|by apply still_none]].
  2: { intros x [mgr1 z1] _. by apply on_way_1. }
  intros u [mgr1 z1] [Hm1 Hz1%still_none]. cbn [fst snd] in *. apply wpe_ret, wpe_bind, wpe_upd_st.
  eapply wpe_mono; [| |eapply (wpe_node_Run _ (told c))]; cbn; try done.
  - intros u' w' Hq. split; [done|exact Hq].
  - intros x w' Hr. exact Hr.
  - unfold failed. by rewrite Hid.
Qed.
(** *** Ending *)

Lemma wpe_FrameworkMessage_finish n (w : world) :
  locked w.1 = false -> riakNode w.1 = Some n -> is_Some (pm n) ->
  wpe (FrameworkMessage "finish")
    (fun _ w' => w'.1 = set_riakNode (Some (set_killStatus (finished n) n)) w.1 /\ stored w' = stored w)
    (fun x w' => told w'.1 = told w.1) w.
Proof.
  intros Hl Hn [pid Hpid]. destruct w as [c [z v]]. cbn [fst snd] in *.
  apply wpe_with_lock; [done|].
  eapply (wpe_mono _ _ _ (fun _ w' => told w'.1 = told c)); [intros a w' HQ; exact HQ|intros [] w' HR; exact HR|].
  cbn [String.eqb Ascii.eqb Bool.eqb]. unfold ForceFinish. apply wpe_bind, (wpe_get_node n); [done|].
  apply wpe_bind, wpe_upd_st, wpe_bind. rewrite Hpid. apply wpe_ret, wpe_io_any; [|done].
  intros u v'. cbn [fst snd set_locked riakNode]. rewrite Hn. cbn. by destruct c; cbn in *; subst.
Qed.

(** The goroutine subscribes. *)
Lemma wpe_runLoop_listen fuel n child (w : world) :
  riakNode w.1 = Some n -> run_loop w.1 = Some (child, None) ->
  wpe (runLoop fuel)
    (fun _ w' => exists ch, w'.1 = set_run_loop (Some (child, Some ch)) w.1)
    (fun _ w' => told w'.1 = told w.1) w.
Proof.
  intros Hn Hrl. apply wpe_bind, wpe_get_st. rewrite Hrl. apply wpe_bind, (wpe_get_node n); [done|].
  apply wpe_bind. destruct (pm n) as [pid|]; [|done]. apply wpe_ret, wpe_bind, wpe_io_any; [|done].
  intros ch v. apply wpe_upd_st. by exists ch.
Qed.

(** The end of Riak: the status that the node holds is reported, and the node's
    data is deleted. *)
Lemma wpe_runLoop `{!ProcMgrLaws W, !ZkLeafLaws true p Conn Zk} fuel n child ch (w : world) :
  (11 <= fuel)%nat -> riakNode w.1 = Some n -> finishChan n = None -> run_loop w.1 = Some (child, Some ch) ->
  ns child = node_ns fw id -> mgr_ok fw (metadataManager w.1) ->
  wpe (runLoop fuel)
    (fun _ w' => told w'.1 = told w.1 ++ [Updated (killStatus n); Stopped] /\ stored w' = None)
    (fun _ w' => told w'.1 = told w.1 \/ told w'.1 = told w.1 ++ [Updated (killStatus n)]) w.
Proof.
  intros Hfuel Hn Hch Hrl Hns Hm. destruct w as [c [z v]]. cbn [fst snd] in *.
  apply wpe_bind, wpe_get_st. cbn [fst]. rewrite Hrl.
  apply wpe_bind, (wpe_get_node n); [done|]. rewrite Hch. apply wpe_bind, wpe_io.
  eapply wpe_mono; [| |apply select_run_nil]; [|by left]. intros ev v1 ->. apply wpe_bind, wpe_upd_st.
  cbn [fst snd]. unfold runLoop_end. apply wpe_bind, (wpe_get_node n); [done|].
  apply wpe_bind, wpe_bind, wpe_exec_driver; [|by left]. intros _.
  apply wpe_send; [|by right|by left]. intros v2. cbn [fst snd].
  apply wpe_bind, wpe_in_node_mgr. cbn [fst snd]. unfold Delete. rewrite Hns.
  eapply wpe_mono; [| |apply (wpe_Delete (eph := true) fw _ _ (zk_stored (p := p) z)); [lia|done|left; apply still_refl]]; [|by right].
  intros u [mgr1 z1] [Hm1 Hz1]. cbn [fst snd] in *. apply wpe_stop; [|by right].
  intros v3. cbn. rewrite <- app_assoc. split; [done|exact Hz1].
Qed.

(** The end of a task that runs. *)
Lemma wpe_task_end `{!ProcMgrLaws W, !ZkLeafLaws true p Conn Zk} n child (w : world) fuel :
  (11 <= fuel)%nat -> locked w.1 = false -> riakNode w.1 = Some n -> task_id n = id -> is_Some (pm n) ->
  finishChan n = None -> run_loop w.1 = Some (child, None) -> ns child = node_ns fw id ->
  mgr_ok fw (metadataManager w.1) ->
  wpe (runLoop fuel ;; FrameworkMessage "finish" ;; runLoop fuel)
    (fun _ w' => told w'.1 = told w.1 ++ [finished_ok; Stopped] /\ stored w' = None)
    (fun _ w' => exists l, told w'.1 = told w.1 ++ l /\ l `prefix_of` [finished_ok; Stopped]) w.
Proof.
  intros Hfuel Hl Hn Hid Hpm Hch Hrl Hns Hm.
  assert (forall w' : world, told w'.1 = told w.1 -> exists l, told w'.1 = told w.1 ++ l /\
    l `prefix_of` [finished_ok; Stopped]) as Hnone.
  { intros w' ->. exists []. rewrite app_nil_r. split; [done|]. apply prefix_nil. }
  apply wpe_bind. eapply wpe_mono; [| |by apply (wpe_runLoop_listen fuel n child)]; [|by intros x w1; apply Hnone].
  intros u1 [c1 e1] [ch Hw1]. cbn [fst] in Hw1. subst c1.
  apply wpe_bind. eapply wpe_mono; [| |by apply (wpe_FrameworkMessage_finish n)]; [|by intros x w2; apply Hnone].
  intros u2 w2 [Hw2 Hz2].
  eapply wpe_mono; [| |apply (wpe_runLoop fuel (set_killStatus (finished n) n) child ch)];
    rewrite ?Hw2; try done.
  - intros u3 w3 [Ht3 Hz3]. split; [|done]. rewrite Ht3. cbn. unfold finished. by rewrite Hid.
  - intros x w3 [Ht3|Ht3]; rewrite Ht3; cbn; [by apply Hnone|]. eexists. split; [done|].
    unfold finished. rewrite Hid. by exists [Stopped].
Qed.

(** Asked to finish before there is a process manager, the executor panics. *)
Lemma wpe_message_unstarted n (w : world) fuel :
  locked w.1 = false -> riakNode w.1 = Some n -> pm n = None -> run_loop w.1 = None ->
  wpe (runLoop fuel ;; FrameworkMessage "finish" ;; runLoop fuel)
    (fun _ _ => False) (fun _ w' => told w'.1 = told w.1) w.
Proof.
  intros Hl Hn Hpm Hrl. apply wpe_bind, wpe_bind, wpe_get_st. rewrite Hrl. apply wpe_ret, wpe_bind.
  apply wpe_with_lock; [done|].
  eapply (wpe_mono _ (fun _ _ => False) _ (fun _ w' => told w'.1 = told w.1)); [done|by intros [] w' HR|].
  cbn [String.eqb Ascii.eqb Bool.eqb]. unfold ForceFinish. apply wpe_bind, (wpe_get_node n); [done|].
  apply wpe_bind, wpe_upd_st, wpe_bind. by rewrite Hpm.
Qed.

(** The life of a task that the scheduler finishes: the goroutine of the node
    subscribes, and its select receives after the message. *)
Definition task_life (t : TaskInfo) (fuel : nat) : M world unit :=
  LaunchTask t ;; runLoop fuel ;; FrameworkMessage "finish" ;; runLoop fuel.

Lemma wpe_task_life `{!GoNetLaws W, !ProcMgrLaws W, !ZkLeafLaws true p Conn Zk} t fuel (w : world) :
  let td := (DeserializeTaskData (ti_Data t)).1 in
  td_FrameworkName td = fw -> ti_TaskId t = id -> (11 <= fuel)%nat ->
  locked w.1 = false -> riakNode w.1 = None -> run_loop w.1 = None -> stored w = None ->
  wpe (task_life t fuel)
    (fun _ w' => told w'.1 = told w.1 ++ [starting; up td; finished_ok; Stopped] /\ stored w' = None)
    (fun _ w' => exists l, told w'.1 = told w.1 ++ l /\
      (l `prefix_of` [starting; up td; finished_ok; Stopped] \/
       l `prefix_of` [starting; failed; Stopped])) w.
Proof.
  intros td Hfw Hid' Hfuel Hl Hn Hr Hz. unfold task_life. apply wpe_bind.
  eapply wpe_mono; [| |by apply wpe_LaunchTask].
  2: { intros x w' (l & -> & [Hp|[-> _]]); eexists; (split; [done|]); [right|left].
       - etransitivity; [exact Hp|]. by exists [Stopped].
       - by exists [finished_ok; Stopped]. }
  intros u w1 [Hl1 [[Ht1 (Hz1 & Hm1 & _ & n & child & Hn1 & Hid & Hpm & Hch & Hk & Hrl & Hns)]
    |(Ht1 & _ & Hrl & n & Hn1 & Hpm)]].
  - eapply wpe_mono; [| |by apply (wpe_task_end n child)].
    + intros u2 w2 [Ht2 Hz2]. split; [|done]. by rewrite Ht2, Ht1, <- app_assoc.
    + intros x w2 (l & Ht2 & Hp). rewrite Ht2, Ht1, <- app_assoc. eexists. split; [done|]. left.
      exact (prefix_app [starting; up td] _ _ Hp).
  - rewrite Hr in Hrl. eapply wpe_mono; [| |by apply (wpe_message_unstarted n)]; [done|]. intros x w2 ->.
    exists [starting; failed; Stopped]. split; [done|]. by right.
Qed.
End steps.

(** ** What every goroutine keeps *)

Section keeps.
Context `{!Json TaskData, !Json CoordinatedData, !Json TaskStatusData, !GoTemplate}.
Context {Conn Zk W : Type} `{!ZkApi Conn Zk}.
Context `{!HttpClient W, !GoNet W, !GoFiles W, !CepmAssets W, !ExecutorDriver W, !ProcMgr W}.
Local Abbreviation world := (ExecutorCore Conn * (Zk * W))%type.

(** [m] keeps [P] however it ends. *)
Definition keeps (P : ExecutorCore Conn -> Prop) {A} (m : M world A) : Prop :=
  forall w, P w.1 -> wpe m (fun _ w' => P w'.1) (fun _ w' => P w'.1) w.

(** A predicate of the lock, the node and what was told, and one of the lock and
    the node. *)
Class Steady (P : ExecutorCore Conn -> Prop) : Prop :=
  steady c c' : locked c' = locked c -> riakNode c' = riakNode c -> told c' = told c -> P c -> P c'.
Class LockNode (P : ExecutorCore Conn -> Prop) : Prop :=
  lock_node c c' : locked c' = locked c -> riakNode c' = riakNode c -> P c -> P c'.

#[global] Instance LockNode_Steady P : LockNode P -> Steady P.
Proof. intros HP c c' Hl Hn _. by apply HP. Qed.

Section generic.
Context (P : ExecutorCore Conn -> Prop) `{!Steady P}.

Lemma keeps_ret {A} (a : A) : keeps P (mret a).
Proof. by intros w Hw. Qed.
Lemma keeps_panic {A} msg : keeps P (mpanic msg : M world A).
Proof. by intros w Hw. Qed.
Lemma keeps_fatal {A} msg : keeps P (mfatal msg : M world A).
Proof. by intros w Hw. Qed.
Lemma keeps_block {A} msg : keeps P (mblock msg : M world A).
Proof. by intros w Hw. Qed.
Lemma keeps_bind {A B} (m : M world A) (f : A -> M world B) :
  keeps P m -> (forall a, keeps P (f a)) -> keeps P (m ≫= f).
Proof. intros Hm Hf w Hw. apply wpe_bind. wpe_use Hm; [|done]. intros a w' Hw'. by apply Hf. Qed.
Lemma keeps_io {A} (m : M W A) : keeps P (io m).
Proof. intros w Hw. by apply wpe_io_any. Qed.
Lemma keeps_get_st : keeps P get_st.
Proof. by intros w Hw. Qed.
Lemma keeps_deref {A} (o : option A) : keeps P (deref o).
Proof. intros w Hw. by destruct o. Qed.
Lemma keeps_index {A} (l : list A) i : keeps P (index l i).
Proof. intros w Hw. by apply wpe_index. Qed.
Lemma keeps_upd f :
  (forall c, locked (f c) = locked c /\ riakNode (f c) = riakNode c /\ told (f c) = told c) -> keeps P (upd_st f).
Proof. intros Hf w Hw. apply wpe_upd_st. destruct (Hf w.1) as (? & ? & ?). by apply (steady w.1). Qed.
Lemma keeps_zoom {A} (m : M (MetadataManager Conn * (Zk * W)) A) : keeps P (zoom metadataManager set_mgr m).
Proof.
  intros [c e] Hw. apply wpe_zoom. eapply wpe_mono; [| |apply wpe_true]; intros; by refine (steady (P := P) _ _ _ _ _ Hw).
Qed.
Lemma keeps_in_node_mgr {A} (m : M (MetadataManager Conn * Zk) A) : keeps P (in_node_mgr m).
Proof.
  intros w Hw. apply wpe_in_node_mgr. eapply wpe_mono; [| |apply wpe_true]; intros; by refine (steady (P := P) _ _ _ _ _ Hw).
Qed.

Hint Resolve keeps_ret keeps_panic keeps_fatal keeps_block keeps_bind keeps_io keeps_get_st keeps_deref
  keeps_index keeps_zoom keeps_in_node_mgr : core.
Hint Extern 2 (keeps _ (upd_st _)) => (apply keeps_upd; intros; by repeat split) : core.

Lemma keeps_exec_driver : keeps P exec_driver.
Proof. apply keeps_bind; [auto|]. intros c. destruct (Driver c); auto. Qed.
Lemma keeps_get_node : keeps P get_node.
Proof. unfold get_node. auto. Qed.
Hint Resolve keeps_exec_driver keeps_get_node : core.

Lemma keeps_finish : keeps P finish.
Proof. apply keeps_bind; [auto|]. intros n. destruct (finishChan n); auto. Qed.

Lemma keeps_GetPort c : keeps P (GetPort c).
Proof.
  intros w Hw. unfold GetPort. destruct (SplitHostPort _) as [[h s]|]; [|done]. by destruct (Atoi s).
Qed.
Lemma keeps_PutUvarint fuel buf i x : keeps P (PutUvarint fuel buf i x).
Proof.
  revert buf i x. induction fuel as [|fuel IH]; intros buf i x; [apply keeps_block|]. cbn [PutUvarint].
  apply keeps_bind; [auto|]. intros _. destruct (x <? 128); auto.
Qed.
Lemma keeps_prepare td : keeps P (prepare td).
Proof. unfold prepare. auto 10 using keeps_GetPort. Qed.

End generic.

Section telling.
Context (P : ExecutorCore Conn -> Prop) `{!LockNode P}.

Lemma keeps_tell a : keeps P (upd_st (tell a)).
Proof. intros w Hw. apply wpe_upd_st. by apply (lock_node w.1). Qed.

Hint Resolve keeps_ret keeps_panic keeps_bind keeps_io keeps_get_st keeps_deref keeps_in_node_mgr
  keeps_exec_driver keeps_get_node keeps_tell : core.
Hint Extern 0 (Steady _) => (by apply LockNode_Steady) : core.
Hint Extern 3 (keeps _ (upd_st _)) => (apply keeps_upd; [by apply LockNode_Steady|intros; by repeat split]) : core.

Lemma keeps_send st : keeps P (send st).
Proof. apply keeps_bind; [auto|]. intros err. apply keeps_bind; [auto|]. intros _. destruct err; auto. Qed.
Hint Resolve keeps_send : core.

Lemma keeps_stop : keeps P stop.
Proof. unfold stop. auto 10. Qed.
(** The goroutine that waits for Riak, where the finish channel is nil. *)
Lemma keeps_runLoop `{!ProcMgrLaws W} fuel :
  (forall c n, P c -> riakNode c = Some n -> finishChan n = None) -> keeps P (runLoop fuel).
Proof.
  intros Hch [c [z v]] Hw. apply wpe_bind, wpe_get_st. cbn [fst] in *.
  destruct (run_loop c) as [[child [ch|]]|]; [| |by apply wpe_ret].
  2: { assert (keeps P (n ← get_node; pid ← deref (pm n); waitChan ← io (pm_Listen pid);
         upd_st (set_run_loop (Some (child, Some waitChan))))) as Hk by auto 10. by apply Hk. }
  apply wpe_bind. unfold get_node. apply wpe_bind, wpe_get_st. cbn [fst].
  destruct (riakNode c) as [n|] eqn:Hn; [|done]. apply wpe_ret.
  rewrite (Hch c n) by done. apply wpe_bind, wpe_io.
  eapply wpe_mono; [| |apply select_run_nil]; [|done]. intros ev v1 ->. apply wpe_bind, wpe_upd_st.
  assert (keeps P (runLoop_end fuel child RiakDied)) as Hend.
  { unfold runLoop_end. apply keeps_bind; [auto|]. intros n'. auto 10 using keeps_stop. }
  apply Hend. by refine (lock_node (P := P) _ _ _ _ Hw).
Qed.
End telling.

(** *** The finish channel is never made *)

Definition no_finish (c : ExecutorCore Conn) : Prop :=
  match riakNode c with Some n => finishChan n = None | None => True end.

#[global] Instance no_finish_LockNode : LockNode no_finish.
Proof. intros c c' _ Hn. unfold no_finish. by rewrite Hn. Qed.

Lemma keeps_with_lock {A} (m : M world A) : keeps no_finish m -> keeps no_finish (with_lock m).
Proof.
  intros Hm w Hw. destruct (locked w.1) eqn:Hl.
  - apply wpe_bind, wpe_get_st. by rewrite Hl.
  - apply wpe_with_lock; [done|]. eapply wpe_mono; [| |by apply Hm]; [done|]. by intros [] w' Hw'.
Qed.

Lemma keeps_upd_node f : (forall n, finishChan (f n) = finishChan n) -> keeps no_finish (upd_node f).
Proof.
  intros Hf w Hw. apply wpe_upd_st. unfold no_finish in *. cbn. destruct (riakNode w.1); [|done].
  cbn. by rewrite Hf.
Qed.

Hint Resolve keeps_ret keeps_panic keeps_fatal keeps_block keeps_bind keeps_io keeps_get_st keeps_deref
  keeps_index keeps_zoom keeps_in_node_mgr keeps_send keeps_exec_driver keeps_get_node keeps_stop keeps_finish
  keeps_PutUvarint keeps_prepare keeps_with_lock : core.
Hint Extern 2 (keeps _ (upd_st _)) => (apply keeps_upd; [apply _|intros; by repeat split]) : core.
Hint Extern 0 (Steady _) => (exact (LockNode_Steady _ no_finish_LockNode)) : core.
Hint Extern 0 (LockNode _) => (exact no_finish_LockNode) : core.
Hint Extern 2 (keeps _ (upd_node _)) => (by apply keeps_upd_node) : core.

Lemma keeps_Run : keeps no_finish Run.
Proof.
  apply keeps_bind; [auto|]. intros n. apply keeps_bind; [auto|]. intros config.
  apply keeps_bind; [auto|]. intros r. apply keeps_bind; [auto|]. intros _.
  destruct r.2; [unfold run_failed; auto 10|]. unfold run_started. apply keeps_bind; [auto|]. intros child.
  apply keeps_bind; [auto|]. intros _. destruct (TaskStatusData_Serialize _) as [bytes []]; auto 15.
Qed.

Lemma keeps_LaunchTask t : keeps no_finish (LaunchTask t).
Proof.
  apply keeps_with_lock, keeps_bind; [auto|]. intros _. apply keeps_bind; [auto|]. intros c.
  destruct (riakNode c); [auto|]. unfold NewRiakNode.
  destruct (DeserializeTaskData (ti_Data t)) as [td [err|]]; [by intros w Hw|].
  intros w Hw. apply wpe_bind, wpe_bind. wpe_use keeps_in_node_mgr; [|apply _|done].
  intros u w1 Hw1. apply wpe_ret, wpe_bind, wpe_upd_st. by apply keeps_Run.
Qed.

Lemma run_exec_no_finish `{!ProcMgrLaws W} fuel ev : keeps no_finish (run_exec fuel ev).
Proof.
  destruct ev; cbn [run_exec]; try (unfold Registered, Reregistered, Disconnected, Error; by auto 10).
  - apply keeps_LaunchTask.
  - unfold KillTask. auto 10.
  - apply keeps_with_lock. destruct (String.eqb msg "finish"); [|auto]. unfold ForceFinish. auto 10.
  - unfold signalWatcher. apply keeps_bind; [auto|]. intros c. destruct (negb (watching c)); [auto|].
    apply keeps_bind; [auto|]. intros _. apply keeps_bind; [|auto]. destruct sig; [auto|].
    unfold next. auto 15.
  - apply (keeps_runLoop no_finish). intros c n Hc Hn. unfold no_finish in Hc. by rewrite Hn in Hc.
Qed.
End keeps.

(** ** Properties *)

Section locked.
Context `{!Json TaskData, !Json CoordinatedData, !Json TaskStatusData, !GoTemplate}.
Context {Conn Zk W : Type} `{!ZkApi Conn Zk}.
Context `{!HttpClient W, !GoNet W, !GoFiles W, !CepmAssets W, !ExecutorDriver W, !ProcMgr W, !ProcMgrLaws W}.
Local Abbreviation world := (ExecutorCore Conn * (Zk * W))%type.

(** The lock is held, and the node is [r]. *)
Definition held (r : option RiakNode) (c : ExecutorCore Conn) : Prop := locked c = true /\ riakNode c = r.

#[global] Instance held_LockNode r : LockNode (held r).
Proof. intros c c' Hl Hn [??]. split; congruence. Qed.

Lemma held_with_lock {A} r (m : M world A) : keeps (held r) (with_lock m).
Proof. intros w [Hl Hr]. apply wpe_bind, wpe_get_st. by rewrite Hl. Qed.

(** What is left of the process while the lock is held. *)
Lemma run_exec_held fuel ev r :
  (forall n, r = Some n -> finishChan n = None) -> keeps (held r) (run_exec fuel ev).
Proof.
  intros Hch. destruct ev; cbn [run_exec]; try apply held_with_lock.
  - unfold signalWatcher. apply keeps_bind; [apply keeps_get_st|]. intros c. destruct (negb (watching c)).
    { apply keeps_block. }
    apply keeps_bind; [apply (keeps_upd (held r)); by repeat split|]. intros _.
    apply keeps_bind; [|intros _; apply (keeps_upd (held r)); by repeat split].
    destruct sig; [apply (keeps_finish (held r))|].
    apply keeps_bind; [apply (keeps_get_node (held r))|intros _; apply held_with_lock].
  - apply (keeps_runLoop (held r)). intros c n [_ Hr] Hn. apply Hch. congruence.
Qed.

(** An invariant of the steps: what ends the process need not keep it. *)
Lemma exec_steps_invariant fuel (P : ExecutorCore Conn -> Prop) (w w' : world) :
  (forall ev w, P w.1 -> wpe (run_exec fuel ev) (fun _ w' => P w'.1) (fun x w' => x = blocked -> P w'.1) w) ->
  rtc (exec_step fuel) w w' -> P w.1 -> P w'.1.
Proof.
  intros Hk Hr. induction Hr as [|w1 w2 w3 Hst _ IH]; [done|]. intros Hw. apply IH.
  destruct Hst as [ev w1 w2 He|ev w1 msg w2 He|]; [| |done];
    pose proof (Hk ev w1 Hw) as Hwp; unfold wpe in Hwp; rewrite He in Hwp; by apply Hwp.
Qed.

Lemma exec_steps_keep fuel (P : ExecutorCore Conn -> Prop) (w w' : world) :
  (forall ev, keeps P (run_exec fuel ev)) -> rtc (exec_step fuel) w w' -> P w.1 -> P w'.1.
Proof.
  intros Hk. apply exec_steps_invariant. intros ev w1 Hw1.
  eapply wpe_mono; [| |by apply Hk]; by intros.
Qed.
End locked.

(** ** One task *)

Section one_task.
Context `{!Json TaskData, !Json CoordinatedData, !Json TaskStatusData, !GoTemplate}.
Context {Conn Zk W : Type} `{!ZkApi Conn Zk}.
Context `{!HttpClient W, !GoNet W, !GoFiles W, !CepmAssets W, !ExecutorDriver W, !ProcMgr W}.
Local Abbreviation world := (ExecutorCore Conn * (Zk * W))%type.

Definition about (id : string) (a : ExecAction) : Prop :=
  match a with Updated st => ts_TaskId st = id | Stopped => True end.

(** The executor has the task [id]. *)
Definition on_task (id : string) (c : ExecutorCore Conn) : Prop :=
  Forall (about id) (told c) /\
  exists n, riakNode c = Some n /\ task_id n = id /\ ts_TaskId (killStatus n) = id.

#[global] Instance on_task_Steady id : Steady (on_task id).
Proof. intros c c' _ Hn Ht [Ha Hex]. split; [by rewrite Ht|by rewrite Hn]. Qed.

Section on_task_keeps.
Context (id : string).
Local Abbreviation P := (on_task id).

Lemma on_task_node {B} (f : RiakNode -> M world B) :
  (forall n, task_id n = id -> ts_TaskId (killStatus n) = id -> keeps P (f n)) -> keeps P (get_node ≫= f).
Proof.
  intros Hf w [Ha (n & Hn & Hid & Hk)]. apply wpe_bind, (wpe_get_node n); [done|].
  apply Hf; [done|done|]. split; [done|]. by exists n.
Qed.

Lemma on_task_tell a : about id a -> keeps P (upd_st (tell a) : M world unit).
Proof. intros Ha w [Hw Hn]. apply wpe_upd_st. split; [|done]. cbn. apply Forall_app. by repeat constructor. Qed.

Lemma on_task_upd_node f :
  (forall n, taskInfo (f n) = taskInfo n /\ (ts_TaskId (killStatus n) = id -> ts_TaskId (killStatus (f n)) = id)) ->
  keeps P (upd_node f : M world unit).
Proof.
  intros Hf w [Ha (n & Hn & Hid & Hk)]. apply wpe_upd_st. split; [done|]. exists (f n). cbn. rewrite Hn.
  split; [done|]. destruct (Hf n) as [Hi Hs]. unfold task_id. rewrite Hi. auto.
Qed.

Lemma on_task_with_lock {A} (m : M world A) : keeps P m -> keeps P (with_lock m).
Proof.
  intros Hm w Hw. destruct (locked w.1) eqn:Hl.
  - apply wpe_bind, wpe_get_st. by rewrite Hl.
  - apply wpe_with_lock; [done|]. eapply wpe_mono; [| |by apply Hm]; [done|]. by intros [] w' Hw'.
Qed.

Hint Resolve keeps_ret keeps_panic keeps_fatal keeps_block keeps_bind keeps_io keeps_get_st keeps_deref
  keeps_index keeps_zoom keeps_in_node_mgr keeps_exec_driver keeps_get_node keeps_finish
  keeps_PutUvarint keeps_prepare on_task_with_lock : core.
Hint Extern 0 (Steady _) => (exact (on_task_Steady _)) : core.
Hint Extern 1 (keeps _ (upd_st (tell _))) => (by apply on_task_tell) : core.
Hint Extern 2 (keeps _ (upd_st _)) => (apply keeps_upd; [apply _|intros; by repeat split]) : core.
Hint Extern 2 (keeps _ (upd_node _)) => (by apply on_task_upd_node) : core.

Lemma on_task_send st : ts_TaskId st = id -> keeps P (send st : M world unit).
Proof. intros Hid. apply keeps_bind; [auto|]. intros err. apply keeps_bind; [auto|]. intros _. destruct err; auto. Qed.
Lemma on_task_stop : keeps P (stop : M world unit).
Proof. unfold stop. auto 10. Qed.
Hint Extern 1 (keeps _ (send _)) => (apply on_task_send; by subst) : core.
Hint Resolve on_task_stop : core.

Lemma on_task_Run : keeps P (Run : M world unit).
Proof.
  apply on_task_node. intros n Hid Hk. apply keeps_bind; [auto|]. intros config.
  apply keeps_bind; [auto|]. intros r. apply keeps_bind; [auto|]. intros _.
  destruct r.2; [unfold run_failed; auto 10|]. unfold run_started. apply keeps_bind; [auto|]. intros child.
  apply keeps_bind; [auto|]. intros _. destruct (TaskStatusData_Serialize _) as [bytes []]; auto 15.
Qed.

Lemma on_task_runLoop fuel : keeps P (runLoop fuel : M world unit).
Proof.
  apply keeps_bind; [auto|]. intros c. destruct (run_loop c) as [[child [ch|]]|]; [| |auto].
  - apply keeps_bind; [auto|]. intros n. apply keeps_bind; [auto|]. intros ev.
    apply keeps_bind; [auto|]. intros _. unfold runLoop_end. apply on_task_node. intros n' Hid Hk.
    apply keeps_bind; [|auto 10]. destruct ev; [auto 10|]. apply keeps_bind; [auto|]. intros pid.
    apply keeps_bind; [auto|]. intros _. apply keeps_bind; [|auto 10].
    apply on_task_upd_node. intros n2. split; [done|]. by intros _.
  - auto 10.
Qed.

Lemma on_task_run fuel ev : (forall t, ev <> EvLaunchTask t) -> keeps P (run_exec fuel ev : M world unit).
Proof.
  intros Hev. destruct ev; cbn [run_exec];
    try (unfold Registered, Reregistered, Disconnected, Error; by auto 10).
  - by destruct (Hev taskInfo0).
  - apply on_task_with_lock, on_task_node. intros n Hid Hk. auto 10.
  - apply on_task_with_lock. destruct (String.eqb msg "finish"); [|auto]. apply on_task_node. intros n Hid Hk.
    apply keeps_bind; [|auto 10]. apply on_task_upd_node. intros n2. split; [done|]. by intros _.
  - unfold signalWatcher. apply keeps_bind; [auto|]. intros c. destruct (negb (watching c)); [auto|].
    apply keeps_bind; [auto|]. intros _. apply keeps_bind; [|auto]. destruct sig; [auto|].
    unfold next. apply keeps_bind; [auto|]. intros _.
    apply on_task_with_lock, on_task_node. intros n Hid Hk. apply keeps_bind; [auto|]. intros bin. auto 15.
  - apply on_task_runLoop.
Qed.
End on_task_keeps.

(** It has no task yet; while the lock is free it has told nothing. *)
Definition untasked (c : ExecutorCore Conn) : Prop :=
  riakNode c = None /\ (exists id, Forall (about id) (told c)) /\ (locked c = false -> told c = []).

Definition task_or_none (c : ExecutorCore Conn) : Prop := (exists id, on_task id c) \/ untasked c.

Lemma untasked_new : task_or_none newExecutor.
Proof. right. split; [done|]. split; [by exists ""|done]. Qed.

#[local] Instance untasked_Steady : Steady untasked.
Proof. intros c c' Hl Hn Ht (? & ? & Hf). unfold untasked. by rewrite Hl, Hn, Ht. Qed.

(** Nothing has been told, whatever the lock. *)
Definition silent (c : ExecutorCore Conn) : Prop := riakNode c = None /\ told c = [].

#[local] Instance silent_Steady : Steady silent.
Proof. intros c c' _ Hn Ht [??]. split; congruence. Qed.

Lemma silent_untasked c : silent c -> untasked c.
Proof. intros [Hn Ht]. split; [done|]. rewrite Ht. split; [by exists ""|done]. Qed.

(** Without a node, whatever needs it panics. *)
Lemma untasked_node {B} (P : ExecutorCore Conn -> Prop) (f : RiakNode -> M world B) :
  (forall c, P c -> riakNode c = None) -> keeps P (get_node ≫= f).
Proof. intros HP w Hw. apply wpe_bind, wpe_bind, wpe_get_st. by rewrite (HP w.1). Qed.

Lemma untasked_with_lock {A} (m : M world A) : keeps silent m -> keeps untasked (with_lock m).
Proof.
  intros Hm w Hw. destruct (locked w.1) eqn:Hl.
  - apply wpe_bind, wpe_get_st. by rewrite Hl.
  - apply wpe_with_lock; [done|]. destruct Hw as (Hn & Hid & Hf). specialize (Hf Hl).
    eapply wpe_mono; [| |apply (Hm (set_locked true w.1, w.2)); by split].
    + intros a w' Hw'. by apply silent_untasked.
    + intros [] w' Hw'; by apply silent_untasked.
Qed.

Lemma untasked_run fuel ev : (forall t, ev <> EvLaunchTask t) -> keeps untasked (run_exec fuel ev : M world unit).
Proof.
  assert (forall c, silent c -> riakNode c = None) as Hs by (by intros c [? _]).
  assert (forall c, untasked c -> riakNode c = None) as Hu by (by intros c [? _]).
  assert (forall f, (forall c, locked (f c) = locked c /\ riakNode (f c) = riakNode c /\ told (f c) = told c) ->
    keeps silent (upd_st f : M world unit)) as Hupd by (intros f Hc; by apply (keeps_upd silent)).
  intros Hev. destruct ev; cbn [run_exec].
  - apply untasked_with_lock, Hupd. by repeat split.
  - apply untasked_with_lock, keeps_bind; [|intros _]; apply Hupd; by repeat split.
  - apply untasked_with_lock, keeps_ret.
  - by destruct (Hev taskInfo0).
  - by apply untasked_with_lock, untasked_node.
  - apply untasked_with_lock. destruct (String.eqb msg "finish"); [by apply untasked_node|apply keeps_ret].
  - apply untasked_with_lock, keeps_ret.
  - unfold signalWatcher. apply keeps_bind; [apply keeps_get_st|]. intros c.
    destruct (negb (watching c)); [apply keeps_block|].
    apply keeps_bind; [apply (keeps_upd untasked); by repeat split|]. intros _.
    apply keeps_bind; [|intros _; apply (keeps_upd untasked); by repeat split].
    by destruct sig; apply untasked_node.
  - apply keeps_bind; [apply keeps_get_st|]. intros c.
    destruct (run_loop c) as [[child [ch|]]|]; [by apply untasked_node..|apply keeps_ret].
Qed.

(** Launching: the first task is taken, and a second one ends the process. *)
Lemma task_or_none_launch t (w : world) : task_or_none w.1 ->
  wpe (LaunchTask t) (fun _ w' => task_or_none w'.1) (fun x w' => x = blocked -> task_or_none w'.1) w.
Proof.
  intros Hw. destruct (locked w.1) eqn:Hl.
  { apply wpe_bind, wpe_get_st. rewrite Hl. by intros _. }
  apply wpe_with_lock; [done|].
  eapply (wpe_mono _ (fun _ w' => exists id, on_task id w'.1) _ (fun x w' => x = blocked -> task_or_none w'.1)).
  { intros u w' [id Hid]. left. exists id. exact Hid. } { by intros [] w' Hx. }
  destruct Hw as [[id Hid]|(Hn & _ & Hf)]; apply wpe_bind, wpe_send.
  - intros v. apply wpe_bind, wpe_get_st. destruct Hid as [_ (n & Hn & _)]. cbn. by rewrite Hn.
  - done.
  - intros x v _. left. by exists id.
  - intros v. apply wpe_bind, wpe_get_st. cbn [fst riakNode tell set_locked]. rewrite Hn. apply wpe_bind.
    unfold NewRiakNode. destruct (DeserializeTaskData (ti_Data t)) as [td [err|]]; [done|].
    apply wpe_bind, wpe_in_node_mgr. eapply wpe_mono; [| |apply wpe_true].
    + intros u w' _. apply wpe_ret, wpe_bind, wpe_upd_st.
      eapply wpe_mono; [| |apply (on_task_Run (ti_TaskId t))].
      * intros u' w2 Hw2. exists (ti_TaskId t); exact Hw2.
      * intros x w2 Hw2 _. left. exists (ti_TaskId t); exact Hw2.
      * split; [cbn; rewrite (Hf Hl); by repeat constructor|].
        eexists. split; [reflexivity|by split].
    + intros x w' _ _. right. split; [done|]. split; [|done]. exists (ti_TaskId t).
      cbn. rewrite (Hf Hl). by repeat constructor.
  - done.
  - intros x v _. right. apply silent_untasked. split; [done|by apply Hf].
Qed.

Lemma run_exec_task fuel ev (w : world) : task_or_none w.1 ->
  wpe (run_exec fuel ev) (fun _ w' => task_or_none w'.1) (fun x w' => x = blocked -> task_or_none w'.1) w.
Proof.
  intros Hw. assert ((exists t, ev = EvLaunchTask t) \/ forall t, ev <> EvLaunchTask t) as [[t ->]|Hne]
    by (destruct ev; eauto); [by apply task_or_none_launch|].
  destruct Hw as [[id Hid]|Hw].
  - eapply wpe_mono; [| |by apply (on_task_run id)]; [|intros ??? _]; intros; left; by exists id.
  - eapply wpe_mono; [| |by apply untasked_run]; [|intros ??? _]; intros; by right.
Qed.
End one_task.

Section executor_properties.
Context `{!Json TaskData, !Json CoordinatedData, !Json TaskStatusData, !GoTemplate}.
Context {Conn Zk W : Type} `{!ZkApi Conn Zk}.
Context `{!HttpClient W, !GoNet W, !GoFiles W, !CepmAssets W, !ExecutorDriver W, !ProcMgr W, !ProcMgrLaws W}.
Local Abbreviation world := (ExecutorCore Conn * (Zk * W))%type.

(** C20 [one_task]: in every reachable state of an executor, all that Mesos was told
    is about one task, the one of its node: a second task ends the process
    before anything else of it is reported.  While it has no task and its lock
    is free it has told nothing. *)
Theorem one_task (fuel : nat) (env : Zk * W) (w : world) :
  rtc (exec_step fuel) (newExecutor, env) w ->
  exists id, Forall (about id) (told w.1) /\
    match riakNode w.1 with
    | Some n => task_id n = id
    | None => locked w.1 = false -> told w.1 = []
    end.
Proof.
  intros Hr. assert (task_or_none w.1) as [[id [Ha (n & Hn & Hid & _)]]|(Hn & [id Ha] & Hf)].
  { eapply (exec_steps_invariant fuel task_or_none); [|exact Hr|apply untasked_new].
    intros ev w1. apply run_exec_task. }
  all: exists id; rewrite Hn; by split.
Qed.

(** C21 [kill_task_hangs]: in every reachable state of an executor, [KillTask] does
    not return; when it got the lock and waits, the lock is never released
    again, so from then on the node does not change and a message to finish
    waits for ever as well. *)
Theorem kill_task_hangs (fuel : nat) (id msg : string) (env : Zk * W) (w w' w'' : world) :
  rtc (exec_step fuel) (newExecutor, env) w ->
  (forall v, KillTask id w <> (Ret tt, v)) /\
  (locked w.1 = false -> KillTask id w = (Block msg, w') -> rtc (exec_step fuel) w' w'' ->
   locked w''.1 = true /\ riakNode w''.1 = riakNode w.1 /\
   FrameworkMessage "finish" w'' = (Block "lock", w'')).
Proof.
  intros Hr. assert (no_finish w.1) as Hno.
  { eapply (exec_steps_keep fuel no_finish); [|exact Hr|done]. intros ev. apply run_exec_no_finish. }
  split.
  - intros v Hv. assert (wpe (KillTask id) (fun _ _ => False) (fun _ _ => True) w) as Hw.
    { apply wpe_bind, wpe_get_st. destruct (locked w.1) eqn:Hl; [done|].
      apply wpe_bind, wpe_upd_st, wpe_deferred.
      eapply (wpe_mono _ (fun _ _ => False) _ (fun _ _ => True)); [done| |].
      { intros [] w1 _; [|done..]. by apply wpe_upd_st. }
      unfold get_node. apply wpe_bind, wpe_bind, wpe_get_st. cbn [fst].
      unfold no_finish in Hno. cbn [riakNode set_locked]. destruct (riakNode w.1) as [n|] eqn:Hn; [|done].
      apply wpe_ret, wpe_bind, wpe_send; [|done..]. intros v1. unfold finish, get_node.
      apply wpe_bind, wpe_bind, wpe_get_st. cbn [fst riakNode tell set_locked]. rewrite Hn.
      apply wpe_ret. rewrite Hno. done. }
    unfold wpe in Hw. by rewrite Hv in Hw.
  - intros Hl Hb Hst. assert (held (riakNode w.1) w'.1) as Hheld.
    { assert (wpe (KillTask id) (fun _ _ => True)
        (fun x w' => x = blocked -> held (riakNode w.1) w'.1) w) as Hw.
      { apply wpe_with_lock; [done|].
        eapply (wpe_mono _ (fun _ _ => True) _ (fun _ w' => held (riakNode w.1) w'.1)); [done|by intros [] w1 Hw1|].
        eapply wpe_mono; [| |apply (keeps_bind (held (riakNode w.1)))]; [by intros|by intros| | |by split].
        - apply (keeps_get_node (held (riakNode w.1))).
        - intros n. apply keeps_bind; [apply (keeps_send (held (riakNode w.1)))|intros _].
          apply (keeps_finish (held (riakNode w.1))). }
      unfold wpe in Hw. rewrite Hb in Hw. by apply Hw. }
    assert (held (riakNode w.1) w''.1) as [Hl2 Hr2].
    { eapply (exec_steps_keep fuel (held (riakNode w.1))); [|exact Hst|done]. intros ev. apply run_exec_held.
      intros n Hn. unfold no_finish in Hno. by rewrite Hn in Hno. }
    split; [done|]. split; [done|]. unfold FrameworkMessage, with_lock, mbind, M_bind. cbn. by rewrite Hl2.
Qed.

(** C32 [next_bounds]: asked for the next generation, an executor sends the number
    of the current one in four bytes and counts on, as long as it is below
    [2 ^ 28]; from then on the request panics without a status. *)
Theorem next_bounds (n : RiakNode) (w : world) :
  locked w.1 = false -> riakNode w.1 = Some n -> 0 <= generation n < 2 ^ 64 ->
  (generation n < 2 ^ 28 ->
   wpe next
     (fun _ w' => riakNode w'.1 = Some (set_generation (generation n + 1) n) /\
        exists l, length l = 4%nat /\ Forall (fun b => 0 <= b < 256) l /\ uvarint_value l = generation n /\
          told w'.1 = told w.1 ++ [Updated (status_with (task_id n) TASK_RUNNING (string_of_bytes l))])
     (fun _ w' => riakNode w'.1 = Some n) w) /\
  (2 ^ 28 <= generation n ->
   wpe next (fun _ _ => False) (fun x w' => x = panicked /\ told w'.1 = told w.1) w).
Proof.
  intros Hl Hn Hg. destruct w as [c [z v]]. cbn [fst snd] in *.
  split; intros Hs; (apply wpe_bind, (wpe_get_node n); [done|]).
  - apply wpe_with_lock; [done|].
    eapply (wpe_mono _ _ _ (fun _ w' => riakNode w'.1 = Some n)); [intros a w' HQ; exact HQ|by intros [] w' HR|].
    apply wpe_bind, (wpe_get_node n); [done|].
    destruct (PutUvarint_4 (generation n) (set_locked true c, (z, v))) as (l & Hput & Hlen & Hb & Hval); [lia|].
    apply wpe_bind. unfold wpe at 1. cbn [fst snd]. rewrite Hput.
    apply wpe_bind, wpe_exec_driver; [|done]. intros _. apply wpe_bind, wpe_send; [|done..].
    intros v1. apply wpe_upd_st. cbn. rewrite Hn. cbn. split; [|by exists l].
    rewrite uwrap64_id by lia. done.
  - apply wpe_with_lock; [done|].
    eapply (wpe_mono _ (fun _ _ => False) _ (fun x w' => x = panicked /\ told w'.1 = told c)); [done|by intros [] w' HR|].
    apply wpe_bind, (wpe_get_node n); [done|]. apply wpe_bind. unfold wpe at 1. cbn [fst snd].
    by rewrite PutUvarint_over.
Qed.

(** The health check passes as soon as the log can be read, whatever is in it. *)
Lemma health_check_blind (v v' : W) (data : string) :
  ioutil_ReadFile "root/riak/log/console.log" v = (Ret (data, None), v') ->
  HealthCheckFun v = (Ret None, v').
Proof. intros Hr. unfold HealthCheckFun, mbind, M_bind. by rewrite Hr. Qed.
End executor_properties.

Section task_properties.
Context `{!Json TaskData, !Json CoordinatedData, !Json TaskStatusData, !GoTemplate}.
Context (t : TaskInfo).
Local Abbreviation td := (DeserializeTaskData (ti_Data t)).1.
Local Abbreviation fw := (td_FrameworkName td).
Local Abbreviation id := (ti_TaskId t).
Local Abbreviation p := (GetZKPath (node_ns fw id)).
Context {Conn Zk W : Type} `{!ZkApi Conn Zk, !ZkPath p Zk, !ZkLaws true p Conn Zk, !ZkLeafLaws true p Conn Zk}.
Context `{!HttpClient W, !GoNet W, !GoNetLaws W, !GoFiles W, !CepmAssets W, !ExecutorDriver W,
  !ProcMgr W, !ProcMgrLaws W}.
Local Abbreviation world := (ExecutorCore Conn * (Zk * W))%type.

(** C14 [launch_reports]: launching a task that returns tells Mesos that it starts
    and then, once the data of the node is in ZooKeeper, that it runs, with
    its port; or that it failed, with nothing stored.  A launch that does not
    return has told a beginning of that, and never that it runs before the
    data is stored. *)
Theorem launch_reports (w : world) :
  locked w.1 = false -> riakNode w.1 = None -> zk_stored (p := p) w.2.1 = None ->
  wpe (LaunchTask t)
    (fun _ w' => locked w'.1 = false /\
      (told w'.1 = told w.1 ++ [starting id; up id td] /\ launched fw id td w'.1 w'.2.1 \/
       told w'.1 = told w.1 ++ [starting id; failed id; Stopped] /\ zk_stored (p := p) w'.2.1 = None /\
       run_loop w'.1 = run_loop w.1 /\ exists n, riakNode w'.1 = Some n /\ pm n = None))
    (fun _ w' => on_way fw id td (told w.1) w'.1 w'.2.1) w.
Proof. by apply wpe_LaunchTask. Qed.

(** C15 [task_life_reports]: when a task is launched, finished by a message of the
    framework and then ends, Mesos is told that it starts, runs and finished,
    in this order and with a stop at the end, and its data is deleted from
    ZooKeeper; whatever goes wrong on the way, what was told is a beginning of
    that, or of a start that failed. *)
Theorem task_life_reports (fuel : nat) (w : world) :
  (11 <= fuel)%nat -> locked w.1 = false -> riakNode w.1 = None -> run_loop w.1 = None -> zk_stored (p := p) w.2.1 = None ->
  wpe (task_life t fuel)
    (fun _ w' => told w'.1 = told w.1 ++ [starting id; up id td; finished_ok id; Stopped] /\
      zk_stored (p := p) w'.2.1 = None)
    (fun _ w' => exists l, told w'.1 = told w.1 ++ l /\
      (l `prefix_of` [starting id; up id td; finished_ok id; Stopped] \/
       l `prefix_of` [starting id; failed id; Stopped])) w.
Proof. by apply (wpe_task_life fw id). Qed.
End task_properties.

(** ** A slave for concrete runs *)

(** Everything succeeds, templates are their own text, and Riak dies when it
    is waited for. *)
Module SimExec.
#[export] Instance template : GoTemplate :=
  {| Template := string;
     template_Parse s := inl s;
     Execute_config t d := (t, None);
     Execute_advanced t d := (t, None) |}.
#[export] Instance http : HttpClient unit :=
  {| http_Get url := mret (HttpResponse 200 "" None);
     http_NewRequest_ok url := true;
     http_Put url data := mret (HttpResponse 200 "" None) |}.
#[export] Instance assets : CepmAssets unit := fun dir name => mret None.
#[export] Instance driver : ExecutorDriver unit :=
  {| NewMesosExecutorDriver := mret None;
     driver_Start := mret None;
     SendStatusUpdate st := mret None;
     driver_Stop := mret tt |}.
#[export] Instance procs : ProcMgr unit :=
  {| pm_New tdcb path args hc chroot super := mret (Some 7, None);
     pm_Listen pid := mret 1;
     pm_TearDown pid := mret tt;
     select_run ch fin := mret RiakDied;
     chan_send ch := mblock "chan send" |}.
#[export] Instance procs_laws : ProcMgrLaws unit.
Proof. split; [done|]. intros. unfold wpe. cbn. by eexists. Qed.
End SimExec.

Section executor_witnesses.
Import SimZk SimJson SimHost SimExec.

Definition ex_td : TaskData :=
  mk_TaskData "riak-a-1@h1" ["zk"] "riak" "a" "http://h" "h1" false 31000 31001 0 31002.
Definition ex_task : TaskInfo := mk_TaskInfo "riak-a-1" "riak-a-1" None None [] (Marshal ex_td).1.
Definition ex_path : string := GetZKPath (node_ns "riak" "riak-a-1").
#[local] Instance ex_zk' : ZkApi unit zsim := SimLeaf.leaf ex_path.
#[local] Instance ex_zk'_laws : ZkLaws true ex_path unit zsim := SimLeaf.leaf_zk ex_path.
#[local] Instance ex_zk'_leaf : ZkLeafLaws true ex_path unit zsim := SimLeaf.leaf_laws ex_path.

Definition ex_start : ExecutorCore unit * (zsim * unit) := (set_Driver true newExecutor, (mk_zsim ∅ [], tt)).

Lemma ex_td_read : (DeserializeTaskData (ti_Data ex_task)).1 = ex_td.
Proof. vm_compute. reflexivity. Qed.

Lemma launch_reports_witness :
  wpe (LaunchTask ex_task)
    (fun _ w' => locked w'.1 = false /\
      (told w'.1 = [] ++ [starting "riak-a-1"; up "riak-a-1" ex_td] /\
         launched "riak" "riak-a-1" ex_td w'.1 w'.2.1 \/
       told w'.1 = [] ++ [starting "riak-a-1"; failed "riak-a-1"; Stopped] /\
         zk_stored (p := ex_path) w'.2.1 = None /\ run_loop w'.1 = None /\
         exists n, riakNode w'.1 = Some n /\ pm n = None))
    (fun _ w' => on_way "riak" "riak-a-1" ex_td [] w'.1 w'.2.1) ex_start /\
  (LaunchTask ex_task ex_start).1 = Ret tt.
Proof.
  split; [|vm_compute; reflexivity].
  exact (launch_reports ex_task ex_start eq_refl eq_refl eq_refl).
Defined.

Lemma task_life_reports_witness :
  wpe (task_life ex_task 11)
    (fun _ w' => told w'.1 = [] ++ [starting "riak-a-1"; up "riak-a-1" ex_td; finished_ok "riak-a-1"; Stopped] /\
      zk_stored (p := ex_path) w'.2.1 = None)
    (fun _ w' => exists l, told w'.1 = [] ++ l /\
      (l `prefix_of` [starting "riak-a-1"; up "riak-a-1" ex_td; finished_ok "riak-a-1"; Stopped] \/
       l `prefix_of` [starting "riak-a-1"; failed "riak-a-1"; Stopped])) ex_start /\
  (task_life ex_task 11 ex_start).1 = Ret tt.
Proof.
  split; [|vm_compute; reflexivity].
  exact (task_life_reports ex_task 11 ex_start (le_n 11) eq_refl eq_refl eq_refl eq_refl).
Defined.

(** The events one after the other, if all of them return. *)
Fixpoint ex_events (evs : list exec_event) (w : ExecutorCore unit * (zsim * unit)) :
    option (ExecutorCore unit * (zsim * unit)) :=
  match evs with
  | [] => Some w
  | ev :: evs =>
      match run_exec 11 ev w with
      | (Ret _, w') => ex_events evs w'
      | _ => None
      end
  end.

Lemma ex_events_steps evs w w' : ex_events evs w = Some w' -> rtc (exec_step 11) w w'.
Proof.
  revert w. induction evs as [|ev evs IH]; intros w; cbn [ex_events]; [by intros [= ->]|].
  destruct (run_exec 11 ev w) as [[[]| | |] w1] eqn:He; [|done..]. intros Hw.
  eapply rtc_l; [by eapply exec_returns|by apply IH].
Qed.

Definition ex_env : zsim * unit := (mk_zsim ∅ [], tt).
Definition ex_up_world : ExecutorCore unit * (zsim * unit) :=
  default (newExecutor, ex_env) (ex_events [EvReregistered None; EvLaunchTask ex_task] (newExecutor, ex_env)).
Definition ex_hung : ExecutorCore unit * (zsim * unit) := (KillTask "riak-a-1" ex_up_world).2.

Lemma kill_task_hangs_witness :
  (locked ex_up_world.1 = false /\ KillTask "riak-a-1" ex_up_world = (Block "chan send", ex_hung)) /\
  (forall v, KillTask "riak-a-1" ex_up_world <> (Ret tt, v)) /\
  locked ex_hung.1 = true /\ riakNode ex_hung.1 = riakNode ex_up_world.1 /\
  FrameworkMessage "finish" ex_hung = (Block "lock", ex_hung).
Proof.
  assert (rtc (exec_step 11) (newExecutor, ex_env) ex_up_world) as Hr.
  { apply (ex_events_steps [EvReregistered None; EvLaunchTask ex_task]). vm_compute. reflexivity. }
  assert (locked ex_up_world.1 = false) as Hl by (vm_compute; reflexivity).
  assert (KillTask "riak-a-1" ex_up_world = (Block "chan send", ex_hung)) as Hk by (vm_compute; reflexivity).
  split; [split; assumption|].
  destruct (kill_task_hangs 11 "riak-a-1" "chan send" ex_env ex_up_world ex_hung ex_hung Hr) as [H1' H2'].
  split; [exact H1'|]. exact (H2' Hl Hk (rtc_refl _ _)).
Defined.

Definition ex_node (g : Z) : RiakNode :=
  mk_RiakNode ex_task g None true ex_td (Some 7) (status_with "riak-a-1" TASK_FAILED "").
Definition ex_next (g : Z) : ExecutorCore unit * (zsim * unit) :=
  (set_riakNode (Some (ex_node g)) (set_Driver true newExecutor), ex_env).

Lemma one_task_witness :
  rtc (exec_step 11) (newExecutor, ex_env) ex_up_world /\
  exists id, Forall (about id) (told ex_up_world.1) /\
    match riakNode ex_up_world.1 with
    | Some n => task_id n = id
    | None => locked ex_up_world.1 = false -> told ex_up_world.1 = []
    end.
Proof.
  assert (rtc (exec_step 11) (newExecutor, ex_env) ex_up_world) as Hr.
  { apply (ex_events_steps [EvReregistered None; EvLaunchTask ex_task]). vm_compute. reflexivity. }
  split; [exact Hr|]. exact (one_task 11 ex_env ex_up_world Hr).
Defined.

Lemma next_bounds_witness :
  (wpe next
     (fun _ w' => riakNode w'.1 = Some (ex_node 301) /\
        exists l, length l = 4%nat /\ Forall (fun b => 0 <= b < 256) l /\ uvarint_value l = 300 /\
          told w'.1 = [] ++ [Updated (status_with "riak-a-1" TASK_RUNNING (string_of_bytes l))])
     (fun _ w' => riakNode w'.1 = Some (ex_node 300)) (ex_next 300)) /\
  wpe next (fun _ _ => False) (fun x w' => x = panicked /\ told w'.1 = []) (ex_next (2 ^ 28)).
Proof.
  split.
  - refine (proj1 (next_bounds (ex_node 300) (ex_next 300) eq_refl eq_refl _) _); cbn; lia.
  - refine (proj2 (next_bounds (ex_node (2 ^ 28)) (ex_next (2 ^ 28)) eq_refl eq_refl _) _); cbn; lia.
Defined.
End executor_witnesses.
