(* ===== verification/Supervision.v ===== *)
(** * The process manager as the executor uses it

    [Executor] is proved against the class [ProcMgr].  Here the operations of the
    class are those of [process_manager] itself ([ProcessManager]): the goroutine
    of each child has its record, and runs where the executor waits for it.  The
    laws of the class hold, so the theorems on the executor hold with this
    manager, and a finish of the executor ends the process of Riak. *)

From S2P Require Import Prelude GoStrings Mesos Host Utils Structs Ser Explorer Metadata Cepm ProcessManager Executor.

#[local] Open Scope string_scope.
#[local] Open Scope list_scope.
#[local] Open Scope Z_scope.

(** ** Operations *)

(** The records of the goroutines, by the pid of the child. *)
Definition Managers : Type := gmap Z (list Action).

Section supervised.
Context {E : Type} `{!PmOs E} (rounds : nat).
Local Abbreviation W := (Managers * E)%type.

(** The system with the health check that the manager was given. *)
Definition os_with (healthcheck : M W (option string)) : PmOs W := {|
  os_Environ := lift os_Environ;
  os_Getenv name := lift (os_Getenv name);
  os_Getwd := lift os_Getwd;
  Getrlimit := lift Getrlimit;
  Setrlimit l := lift (Setrlimit l);
  ForkExec path args attr := lift (ForkExec path args attr);
  syscall_Kill pid sig := lift (syscall_Kill pid sig);
  select timer := lift (select timer);
  exits_in_5s := lift exits_in_5s;
  wait_exit := lift wait_exit;
  ProcessManager.healthcheck := healthcheck |}.

(** The goroutine of the child [pid] runs until it sends the manager, after
    which it is in its endless loop, or until it ends without. *)
Definition first_answer (pid : Z) (healthcheck : M W (option string)) : M W (option Z * option string) := fun w =>
  match goroutine (start_loop (PmOs0 := os_with healthcheck) 0 60 pid []) ([], w) with
  | (Ret _, (_, w')) => (Ret (None, Some "Unknown Error"), w')
  | (Block msg, (log, (ms, e))) =>
      match NewProcessManager_result log with
      | Some true => (Ret (Some pid, None), (<[pid := log]> ms, e))
      | _ => (Block msg, (ms, e))
      end
  | (Panic msg, (_, w')) => (Panic msg, w')
  | (Fatal msg, (_, w')) => (Fatal msg, w')
  end.

Definition NewProcessManager (executablePath : string) (args : list string)
    (healthcheck : M W (option string)) (chroot : option string) : M W (option Z * option string) :=
  pid ← goroutine (ProcessManager.start (PmOs0 := os_with healthcheck) executablePath args chroot);
  first_answer pid healthcheck.

(** The record of a goroutine that still receives: the others have closed their
    channels. *)
Definition receiving (pid : Z) : M W (list Action) :=
  ms ← get_st;
  log ← deref (ms !! pid);
  if decide (Closed ∈ log) then mpanic "send on closed channel" else mret log.

(** A part of the goroutine of [pid]. *)
Definition in_goroutine {A} (pid : Z) (m : M (list Action * W) A) : M W A := fun w =>
  let '(r, (log, (ms, e))) := goroutine m (default [] (w.1 !! pid), w) in (r, (<[pid := log]> ms, e)).

(** The channel is named by its child: the executor listens once. *)
Definition Listen (pid : Z) : M W Z :=
  _ ← receiving pid; in_goroutine pid (act (Subscribed pid)) ;; mret pid.

Definition TearDown (pid : Z) : M W unit :=
  log ← receiving pid;
  in_goroutine pid (on_teardown (PmOs0 := os_with (mret None)) pid 0 (subscribers log) ;; act Closed).

(** The status that a [Listen] was sent is in its channel. *)
Definition heard (sub : Z) (log : list Action) : bool := bool_decide (sub ∈ (notified log).*1).

(** The goroutine goes on until the channel holds a status.  The executor's
    finish channel is nil. *)
Definition select_run_on (waitChan : Z) (finishChan : option Z) : M W run_event :=
  ms ← get_st;
  log ← deref (ms !! waitChan);
  (if heard waitChan log then mret tt
   else in_goroutine waitChan
          (background (PmOs0 := os_with (mret None)) rounds waitChan (subscribers log) ;; act Closed)) ;;
  ms ← get_st;
  if heard waitChan (default [] (ms !! waitChan)) then mret RiakDied else mblock "select".

#[export] Instance supervised : ProcMgr W := {|
  pm_New tdcb path args hc chroot super := NewProcessManager path args hc chroot;
  pm_Listen := Listen;
  pm_TearDown := TearDown;
  select_run := select_run_on;
  chan_send ch := mblock "chan send" |}.

(** ** What the executor relies on *)

#[export] Instance supervised_laws : ProcMgrLaws W.
Proof.
  split.
  - intros ch w. cbn [select_run supervised]. unfold select_run_on. apply wpe_bind, wpe_get_st, wpe_bind.
    destruct (w.1 !! ch) as [log|]; [|done]. apply wpe_ret, wpe_bind.
    eapply wpe_mono; [| |apply wpe_true]; [|done]. intros u w' _. apply wpe_bind, wpe_get_st.
    by destruct (heard _ _).
  - intros tdcb path args hc chroot super w. cbn [pm_New supervised]. unfold NewProcessManager.
    apply wpe_bind. eapply wpe_mono; [| |apply wpe_true]; [|done]. intros pid w1 _. unfold wpe, first_answer.
    destruct (goroutine _ _) as [[u|msg|msg|msg] [log [ms e]]]; [done..|].
    destruct (NewProcessManager_result log) as [[]|]; [by eexists|done..].
Qed.

(** ** The end of Riak *)

Context {gone : E -> Prop} `{!PmOsLaws E gone}.

Lemma os_with_laws (healthcheck : M W (option string)) :
  (forall w, wp total healthcheck (fun _ _ => True) w) ->
  PmOsLaws (PmOs0 := os_with healthcheck) W (fun w => gone w.2).
Proof.
  intros Hh. split; [..|exact Hh].
  all: intros; match goal with e : W |- _ => destruct e as [ms e] end; (apply wp_lift || apply wpe_lift); cbn.
  all: try first [apply Environ_returns|apply os_Getenv_returns|apply Getwd_returns|apply Getrlimit_returns
    |apply Setrlimit_returns|apply ForkExec_returns|apply Kill_0|apply Kill_returns|apply select_returns
    |apply exits_in_5s_ok|apply wait_exit_ok].
Qed.

Lemma wpe_in_goroutine {A} pid log (m : M (list Action * W) A) (Q : A -> W -> Prop) R (w : W) :
  w.1 !! pid = Some log ->
  wpe m (fun a v => Q a (<[pid := v.1]> v.2.1, v.2.2))
    (fun x v => R (if x is panicked then exited else x) (<[pid := v.1]> v.2.1, v.2.2)) (log, w) ->
  wpe (in_goroutine pid m) Q R w.
Proof.
  intros Hlog. unfold wpe, in_goroutine, goroutine. rewrite Hlog. cbn [from_option].
  unfold id. destruct (m (log, w)) as [[] [l [ms e]]]; exact (fun x => x).
Qed.

(** A child that is watched has ended when [TearDown] returns, and whoever
    listened has heard of it; the call only hangs on a child that survives SIGKILL. *)
Lemma wpe_TearDown pid log (w : W) :
  w.1 !! pid = Some log -> ProcessManager.watching log (subscribers log) ->
  wpe (TearDown pid)
    (fun _ w' => gone w'.2 /\ exists log', w'.1 !! pid = Some (log' ++ [Closed]) /\ wound_up log')
    (fun x _ => x = blocked) w.
Proof.
  intros Hlog Hw. pose proof Hw as (_ & _ & _ & _ & _ & Hc). unfold TearDown, receiving.
  apply wpe_bind, wpe_bind, wpe_get_st, wpe_bind. rewrite Hlog. apply wpe_ret.
  rewrite decide_False by done. apply wpe_ret, (wpe_in_goroutine pid log); [done|]. apply wpe_bind.
  assert (forall w : W, wp total (mret (M := M W) (@None string)) (fun _ _ => True) w) as Hh by done.
  pose proof (os_with_laws _ Hh) as Hlaws.
  eapply wpe_mono; [| |by apply (wpe_on_teardown (PmOs0 := os_with (mret None)) (gone := fun w => gone w.2))];
    [|by intros x v [-> _]].
  intros u [log' [ms e]] [Hg (Hwu & _)]. apply wpe_act. split; [exact Hg|]. exists log'. split; [apply lookup_insert_eq|exact Hwu].
Qed.
End supervised.

(** ** The executor with this manager *)

Section finish.
Context `{!Json TaskData, !Json CoordinatedData, !Json TaskStatusData}.
Context {Conn Zk E : Type} `{!PmOs E} {gone : E -> Prop} `{!PmOsLaws E gone} (rounds : nat).
Local Abbreviation world := (ExecutorCore Conn * (Zk * (Managers * E)))%type.
#[local] Instance manager : ProcMgr (Managers * E) := supervised rounds.

(** An executor that is told to finish while Riak is watched returns when the
    process of Riak has ended, and then reports its end as a finish. *)
Theorem finish_ends_riak (n : RiakNode) (pid : Z) (log : list Action) (w : world) :
  locked w.1 = false -> riakNode w.1 = Some n -> pm n = Some pid ->
  w.2.2.1 !! pid = Some log -> ProcessManager.watching log (subscribers log) ->
  wpe (FrameworkMessage "finish")
    (fun _ w' => gone w'.2.2.2 /\ riakNode w'.1 = Some (set_killStatus (finished n) n) /\
      exists log', w'.2.2.1 !! pid = Some (log' ++ [Closed]) /\ wound_up log')
    (fun x _ => x = blocked) w.
Proof.
  intros Hl Hn Hpm Hlog Hw. destruct w as [c [z [ms e]]]. cbn [fst snd] in *.
  apply wpe_with_lock; [done|]. cbn [String.eqb Ascii.eqb Bool.eqb]. unfold ForceFinish.
  apply wpe_bind, (wpe_get_node n); [done|]. apply wpe_bind, wpe_upd_st, wpe_bind. rewrite Hpm.
  apply wpe_ret, wpe_io. eapply wpe_mono; [| |by apply (wpe_TearDown (gone := gone) pid log)]; cbn [fst snd].
  - intros u [ms' e'] [Hg Hlog']. split; [exact Hg|]. split; [|exact Hlog']. cbn. by rewrite Hn.
  - by intros x v ->.
Qed.
End finish.

(** ** A slave with this manager *)

Section supervision_witnesses.
Import SimZk SimJson SimHost SimPm.

Definition slave : Type := Managers * SimPm.sim.
#[local] Existing Instance SimExec.template.
#[local] Instance slave_http : HttpClient slave :=
  {| http_Get url := mret (HttpResponse 200 "" None);
     http_NewRequest_ok url := true;
     http_Put url data := mret (HttpResponse 200 "" None) |}.
#[local] Instance slave_assets : CepmAssets slave := fun dir name => mret None.
#[local] Instance slave_driver : ExecutorDriver slave :=
  {| NewMesosExecutorDriver := mret None;
     driver_Start := mret None;
     SendStatusUpdate st := mret None;
     driver_Stop := mret tt |}.
#[local] Instance slave_manager : ProcMgr slave := supervised 10.
#[local] Instance slave_zk : ZkApi unit zsim := SimLeaf.leaf ex_path.

(** Riak becomes healthy in the second round. *)
Definition slave_start : ExecutorCore unit * (zsim * slave) :=
  (set_Driver true newExecutor, (mk_zsim ∅ [], (∅, SimPm.mk_sim [Timer; Timer] false true []))).

(** The life of a task on the real manager, up to the record of its goroutine. *)
Example supervised_life :
  let r := task_life ex_task 11 slave_start in
  r.1 = Ret tt /\ told r.2.1 = [starting "riak-a-1"; up "riak-a-1" ex_td; finished_ok "riak-a-1"; Stopped] /\
  SimPm.gone r.2.2.2.2 /\
  r.2.2.2.1 !! 7 = Some [Started; Subscribed 7; Notified 7 (-1); Signalled SIGTERM; ToreDown; Replied 0; Closed].
Proof. vm_compute. by split_and!. Qed.

Definition slave_up : ExecutorCore unit * (zsim * slave) := (LaunchTask ex_task slave_start).2.

Lemma finish_ends_riak_witness :
  wpe (FrameworkMessage "finish")
    (fun _ w' => SimPm.gone w'.2.2.2 /\
      riakNode w'.1 = Some (set_killStatus (status_with "riak-a-1" TASK_FINISHED "")
        (default (ex_node 0) (riakNode slave_up.1))) /\
      exists log', w'.2.2.1 !! 7 = Some (log' ++ [Closed]) /\ wound_up log')
    (fun x _ => x = blocked) slave_up.
Proof.
  refine (finish_ends_riak (gone := SimPm.gone) 10 (default (ex_node 0) (riakNode slave_up.1)) 7 [Started] slave_up
    _ _ _ _ _); try (vm_compute; reflexivity).
  do 5 (split; [vm_compute; reflexivity|]). by intros [?|[]%elem_of_nil]%elem_of_cons.
Defined.
End supervision_witnesses.
