(* ===== verification/Lifecycle.v ===== *)
(** * The life of a task between the scheduler and its executor

    The scheduler launches a node on an offer ([Node]), the executor gets the
    task and reports how it fares ([Executor]), and Mesos delivers the reports
    to the scheduler ([Cluster]).  The two processes only share the text of the
    task and of the statuses; the theorems compose them: what the scheduler
    comes to know of a node is what the executor did. *)

From S2P Require Import Prelude GoStrings Float64 Mesos Host Utils Structs Ser Offer Node Explorer Cluster Metadata Cepm Executor.

#[local] Open Scope string_scope.
#[local] Open Scope list_scope.
#[local] Open Scope Z_scope.

(** ** Delivery *)

Definition status_told (a : ExecAction) : option TaskStatus :=
  match a with Updated st => Some st | Stopped => None end.

(** The statuses among what the executor told since [before]. *)
Definition reported (before after : list ExecAction) : list TaskStatus :=
  omap status_told (drop (length before) after).

Lemma reported_app l l' : reported l (l ++ l') = omap status_told l'.
Proof. unfold reported. by rewrite drop_app_length. Qed.

(** Mesos adds the slave that the task runs on. *)
Definition delivered (slave : option string) (st : TaskStatus) : TaskStatus :=
  mk_TaskStatus (ts_TaskId st) (ts_State st) slave (ts_Data st).

Section delivery.
Context `{!Json JoinReply, !Json ForceRemoveReply}.
Context {E : Type} `{!GoMap E, !HttpClient E}.

(** Each status is one update of the cluster, in the order they were sent. *)
Definition deliver (slave : option string) (sts : list TaskStatus) (c : FrameworkRiakCluster) :
    M E FrameworkRiakCluster :=
  mfoldl (fun c st => HandleNodeStatusUpdate (delivered slave st) c) c sts.

(** What they make of the node. *)
Definition node_after (slave : option string) (sts : list TaskStatus) (n : FrameworkRiakNode) :
    FrameworkRiakNode :=
  foldl (fun n st => after_status (delivered slave st) n) n sts.

Context `{!GoMapLaws E} {answers : bool} `{!HttpClientLaws answers E}.

(** They end when Riak Explorer answers. *)
Lemma wpe_deliver key slave sts n c (e : E) :
  Forall (fun st => ts_TaskId st = key) sts ->
  Graveyard c !! key = None -> Nodes c !! key = Some n ->
  wpe (deliver slave sts c) (fun c' _ => c' = put_node key (node_after slave sts n) c) (unanswered answers) e.
Proof.
  intros Hsts. revert n c e. induction Hsts as [|st sts Hst _ IH]; intros n c e HG HN.
  - apply wpe_ret. cbn. unfold put_node. rewrite insert_id by done. by destruct c.
  - apply wpe_bind.
    eapply wpe_mono; [| |apply (wpe_status_live (delivered slave st) n); cbn; by rewrite Hst]; [|done].
    intros c' e' ->. cbn [delivered ts_TaskId]. rewrite Hst.
    eapply wpe_mono; [| |apply IH; [done|apply lookup_put_node]]; [|done].
    intros c'' e'' ->. by rewrite put_put_node.
Qed.
End delivery.

(** ** What the scheduler knows *)

(** The node still starts, has failed, or runs; it runs only when its data, as
    the executor read it, is in ZooKeeper, and then its status has the port that
    the launch gave it. *)
Definition knows `{!Json CoordinatedData, !Json TaskStatusData} (stored : option string)
    (n : FrameworkRiakNode) : Prop :=
  CurrentState n = Starting \/ CurrentState n = Failed \/
  CurrentState n = Started /\ stored = Some (coordinated (json_text (n_TaskData n))) /\
  exists st, n_TaskStatus n = Some st /\
    DeserializeTaskStatusData (ts_Data st) = (mk_TaskStatusData (HTTPPort (n_TaskData n)), None).

Section reports.
Context `{!Json CoordinatedData, !Json TaskStatusData}.
Context (status_roundtrip : json_roundtrip zero_TaskStatusData).
Context (id : string) (slave : option string) (n : FrameworkRiakNode).
Local Abbreviation statuses := (omap status_told).
Local Abbreviation td := (json_text (n_TaskData n)).

Lemma prefix_3 {A} (a b c : A) l : l `prefix_of` [a; b; c] -> l = [] \/ l = [a] \/ l = [a; b] \/ l = [a; b; c].
Proof.
  intros [k Hk]. destruct l as [|? [|? [|? l]]]; simplify_eq/=; eauto.
  destruct l; [eauto|done].
Qed.

(** A launch that fails or has not ended. *)
Lemma knows_failing l z : CurrentState n = Starting -> l `prefix_of` [starting id; failed id; Stopped] ->
  Forall (fun st => ts_TaskId st = id) (statuses l) /\ knows z (node_after slave (statuses l) n).
Proof.
  intros Hn Hl. apply prefix_3 in Hl as [-> | [-> | [-> | ->]]]; cbn.
  all: split; [by repeat constructor|]; unfold knows; cbn; auto.
Qed.

(** A launch that got Riak up. *)
Lemma knows_up :
  Forall (fun st => ts_TaskId st = id) (statuses [starting id; up id td]) /\
  CurrentState (node_after slave (statuses [starting id; up id td]) n) = Started /\
  knows (Some (coordinated td)) (node_after slave (statuses [starting id; up id td]) n).
Proof.
  split; [by repeat constructor|]. split; [done|]. right. right. split; [done|]. split; [done|].
  eexists. split; [done|]. cbn. by destruct (status_roundtrip (mk_TaskStatusData (HTTPPort (n_TaskData n)))).
Qed.
End reports.

(** ** Properties *)

Section lifecycle_properties.
Context `{!MesosUtil, !MesosUtilLaws, !Json TaskData, !Json CoordinatedData, !Json TaskStatusData}.
Context `{!Json JoinReply, !Json ForceRemoveReply, !GoTemplate}.
Context (data_roundtrip : json_roundtrip zero_TaskData) (status_roundtrip : json_roundtrip zero_TaskStatusData).
(** The scheduler's machine, where requests to Riak Explorer may stay unanswered. *)
Context (answers : bool) {E : Type} `{!GoRand E, !GoRandLaws E, !GoEnv E, !GoEnvLaws E, !GoMap E, !GoMapLaws E,
  !HttpClient E, !HttpClientLaws answers E}.
(** The slave's machine. *)
Context (sc : SchedulerConf) (frn : FrameworkRiakNode).
Local Abbreviation fw := (frameworkName sc).
Local Abbreviation id := (CurrentID frn).
Local Abbreviation p := (GetZKPath (node_ns fw id)).
Context {Conn Zk W : Type} `{!ZkApi Conn Zk, !ZkPath p Zk, !ZkLaws true p Conn Zk, !ZkLeafLaws true p Conn Zk}.
Context `{!HttpClient W, !GoNet W, !GoNetLaws W, !GoFiles W, !CepmAssets W, !ExecutorDriver W,
  !ProcMgr W, !ProcMgrLaws W}.
Local Abbreviation world := (ExecutorCore Conn * (Zk * W))%type.

(** An executor that waits for its task. *)
Definition idle (w : world) : Prop :=
  locked w.1 = false /\ riakNode w.1 = None /\ run_loop w.1 = None /\ zk_stored (p := p) w.2.1 = None.

(** The task that a launch sends, as the executor reads it. *)
Lemma launch_task o (e : E) : utf8 fw -> node_ok frn -> offer_ports_ok o -> fits frn o sc = true ->
  wp total (ApplyReservedOffer frn o sc) (fun r _ =>
    exists o1 td task, r = (true, Node.launched frn o td, add_to_launch o1 [task]) /\
      ti_TaskId task = id /\ td_FrameworkName (json_text td) = fw /\
      (DeserializeTaskData (ti_Data task)).1 = json_text td) e.
Proof.
  intros Hu Hn Ho Hf. assert (forall t : TaskData, (Marshal t).2 = None) by (intros t; by destruct (data_roundtrip t)).
  wp_by ApplyReservedOffer_fit.
  intros r e' (o1 & td & task & -> & _ & _ & _ & [Hid _] & Hfw & Hdata). exists o1, td, task.
  split; [done|]. split; [done|]. split; [by cbn; rewrite Hfw|]. unfold DeserializeTaskData. rewrite Hdata.
  by destruct (data_roundtrip td) as [_ ->].
Qed.

(** C12 [launched_task_known]: a node that the scheduler launches, whose executor
    handles the task in whatever way, and whose statuses are delivered: the
    scheduler then has the node as starting, as failed, or as running with the
    port that the launch gave it, and as running only when the executor has put
    its data in ZooKeeper; when the executor's callback has returned, the node
    is no longer starting.  Nothing else of the cluster changes.  Delivering a
    status blocks only when Riak Explorer leaves a request unanswered. *)
Theorem launched_task_known (o : OfferHelper) (e : E) :
  utf8 fw -> node_ok frn -> offer_ports_ok o -> fits frn o sc = true ->
  wp total (ApplyReservedOffer frn o sc) (fun r e' =>
    exists o1 task, r.1.1 = true /\ r.2 = add_to_launch o1 [task] /\
    forall (slave : option string) (c : FrameworkRiakCluster) (w : world),
      Nodes c !! id = Some r.1.2 -> Graveyard c !! id = None -> idle w ->
      let outcome (w' : world) (P : FrameworkRiakNode -> Prop) :=
        wpe (deliver slave (reported (told w.1) (told w'.1)) c) (fun c' _ =>
          exists n', c' = put_node id n' c /\ knows (zk_stored (p := p) w'.2.1) n' /\ P n')
          (unanswered answers) e' in
      wpe (LaunchTask task)
        (fun _ w' => outcome w' (fun n' => CurrentState n' <> Starting))
        (fun _ w' => outcome w' (fun _ => True)) w) e.
Proof.
  intros Hu Hn Ho Hf. wp_by launch_task. intros r e' (o1 & td & task & -> & Hid & Hfw & Htd).
  exists o1, task. split; [done|]. split; [done|].
  intros slave c w HN HG (Hl & Hrn & _ & Hz) outcome.
  set (n := Node.launched frn o td) in *.
  assert (forall w' l (P : FrameworkRiakNode -> Prop),
    told w'.1 = told w.1 ++ l ->
    Forall (fun st => ts_TaskId st = id) (omap status_told l) /\
    knows (zk_stored (p := p) w'.2.1) (node_after slave (omap status_told l) n) ->
    P (node_after slave (omap status_told l) n) ->
    outcome w' P) as Hout.
  { intros w' l P Ht [Hids Hk] HP. unfold outcome. rewrite Ht, reported_app.
    eapply wpe_mono_post; [|by apply (wpe_deliver id slave _ n)]. intros c' e'' ->. by eexists. }
  destruct (knows_up status_roundtrip id slave n) as (Hids & Hst & Hk).
  eapply wpe_mono; [| |by apply (wpe_LaunchTask fw id); rewrite ?Htd].
  - intros u w' [_ [[Ht (Hz' & _)]|(Ht & _)]]; rewrite ?Htd in *.
    + eapply Hout; [exact Ht|split; [exact Hids|]|].
      * rewrite Hz'. exact Hk.
      * intros Hs. cbn in Hs. done.
    + eapply Hout; [exact Ht|by apply knows_failing|done].
  - intros x w' (l & Ht & Hl'). rewrite ?Htd in *. eapply Hout; [exact Ht| |done].
    destruct Hl' as [Hl'|[-> Hz']].
    + apply knows_failing; [done|]. etransitivity; [exact Hl'|]. by exists [Stopped].
    + split; [exact Hids|]. rewrite Hz'. exact Hk.
Qed.

(** The operator kills a node after [first] was delivered, and [last] comes. *)
Definition killed_between (slave : option string) (first : list TaskStatus) (last : TaskStatus)
    (c : FrameworkRiakCluster) : M E (FrameworkRiakNode * FrameworkRiakCluster) :=
  c ← deliver slave first c;
  n ← deref (Nodes c !! id);
  c ← deliver slave [last] (put_node id (KillNext n) c);
  mret (KillNext n, c).

(** C13 [killed_task_removed]: a launched node that runs and is then killed by the
    operator can be killed and not yet removed; the executor that gets the
    message to finish reports that it finished and deletes its data, and with
    that report the scheduler can remove the node and does not launch it
    again. *)
Theorem killed_task_removed (o : OfferHelper) (e : E) :
  utf8 fw -> node_ok frn -> offer_ports_ok o -> fits frn o sc = true ->
  wp total (ApplyReservedOffer frn o sc) (fun r e' =>
    exists o1 task, r.1.1 = true /\ r.2 = add_to_launch o1 [task] /\
    forall (slave : option string) (c : FrameworkRiakCluster) (fuel : nat) (w : world),
      Nodes c !! id = Some r.1.2 -> Graveyard c !! id = None -> (11 <= fuel)%nat -> idle w ->
      wpe (task_life task fuel)
        (fun _ w' => zk_stored (p := p) w'.2.1 = None /\
          exists first last, reported (told w.1) (told w'.1) = first ++ [last] /\
          wpe (killed_between slave first last c) (fun r _ =>
            CanBeKilled r.1 = true /\ CanBeRemoved r.1 = false /\
            exists n', r.2 = put_node id n' c /\ CanBeRemoved n' = true /\ CanBeScheduled n' = false)
            (unanswered answers) e')
        (fun _ _ => True) w) e.
Proof.
  intros Hu Hn Ho Hf. wp_by launch_task. intros r e' (o1 & td & task & -> & Hid & Hfw & Htd).
  exists o1, task. split; [done|]. split; [done|].
  intros slave c fuel w HN HG Hfuel (Hl & Hrn & Hrl & Hz). set (n := Node.launched frn o td) in *.
  eapply wpe_mono; [|done|by apply (wpe_task_life fw id); rewrite ?Htd].
  intros u w' [Ht Hz']. rewrite Htd in Ht. split; [exact Hz'|].
  exists [status_with id TASK_STARTING ""; status_with id TASK_RUNNING (TaskStatusData_Serialize (mk_TaskStatusData (HTTPPort td))).1],
    (status_with id TASK_FINISHED ""). split; [by rewrite Ht, reported_app|].
  apply wpe_bind. eapply wpe_mono_post; [|apply (wpe_deliver id slave _ n); [by repeat constructor|done..]].
  intros c1 e1 ->.
  apply wpe_bind, wpe_deref_some; rewrite lookup_put_node; [by eexists|]. intros n1 [= <-].
  rewrite put_put_node. apply wpe_bind.
  eapply wpe_mono_post; [|apply (wpe_deliver id slave); [by repeat constructor|done|apply lookup_put_node]].
  intros c2 e2 ->. apply wpe_ret. cbn [fst snd]. split; [done|]. split; [done|].
  eexists. split; [by rewrite put_put_node|done].
Qed.
End lifecycle_properties.

(** ** A task for concrete runs *)

Section lifecycle_witnesses.
Import RefMesosUtil SimHttp SimZk SimJson SimHost SimExec SimCluster.

#[local] Instance life_zk : ZkApi unit zsim := SimLeaf.leaf ex_path.
#[local] Instance life_zk_laws : ZkLaws true ex_path unit zsim := SimLeaf.leaf_zk ex_path.
#[local] Instance life_zk_leaf : ZkLeafLaws true ex_path unit zsim := SimLeaf.leaf_laws ex_path.

Definition life_conf : SchedulerConf := SimNode.conf true.
Definition life_offer : OfferHelper := SimNode.helper (f64_of_Z 5).
Definition life_start : sim := mk_sim 0 [] [].
(** The cluster with the launched node alone. *)
Definition life_cluster (n : FrameworkRiakNode) : FrameworkRiakCluster :=
  put_node (CurrentID SimNode.node) n empty.

Lemma life_node_ok : node_ok SimNode.node.
Proof. split; [by eexists|]. split; [by eexists|by vm_compute]. Qed.
Lemma life_offer_ok : offer_ports_ok life_offer.
Proof. split; [apply NoDup_seqZ|apply Forall_seqZ; unfold port_ok; lia]. Qed.
Lemma life_fits : fits SimNode.node life_offer life_conf = true.
Proof. by vm_compute. Qed.

(** On these machines the life of the task that is launched returns. *)
Example life_returns :
  match ApplyReservedOffer SimNode.node life_offer life_conf life_start with
  | (Ret r, _) => (fun task => (task_life task 11 ex_start).1) <$> TasksToLaunch r.2 = [Ret tt]
  | _ => False
  end.
Proof. vm_compute. reflexivity. Qed.

Lemma launched_task_known_witness :
  exists r e' o1 task, ApplyReservedOffer SimNode.node life_offer life_conf life_start = (Ret r, e') /\
    r.2 = add_to_launch o1 [task] /\
    let outcome (w' : ExecutorCore unit * (zsim * unit)) (P : FrameworkRiakNode -> Prop) :=
      wpe (deliver (Some "s1") (reported [] (told w'.1)) (life_cluster r.1.2)) (fun c' _ =>
        exists n', c' = put_node (CurrentID SimNode.node) n' (life_cluster r.1.2) /\
          knows (zk_stored (p := ex_path) w'.2.1) n' /\ P n') (unanswered true) e' in
    wpe (LaunchTask task)
      (fun _ w' => outcome w' (fun n' => CurrentState n' <> Starting))
      (fun _ w' => outcome w' (fun _ => True)) ex_start.
Proof.
  destruct (wp_total_inv _ _ _ (launched_task_known (of_ser_roundtrip _) (of_ser_roundtrip _) true life_conf SimNode.node
    life_offer life_start eq_refl life_node_ok life_offer_ok life_fits)) as (r & e' & Hr & o1 & task & _ & Hadd & Hlife).
  exists r, e', o1, task. split; [exact Hr|]. split; [exact Hadd|].
  exact (Hlife (Some "s1") (life_cluster r.1.2) ex_start (lookup_put_node _ _ _) eq_refl
    (conj eq_refl (conj eq_refl (conj eq_refl eq_refl)))).
Defined.

Lemma killed_task_removed_witness :
  exists r e' o1 task, ApplyReservedOffer SimNode.node life_offer life_conf life_start = (Ret r, e') /\
    r.2 = add_to_launch o1 [task] /\
    wpe (task_life task 11)
      (fun _ w' => zk_stored (p := ex_path) w'.2.1 = None /\
        exists first last, reported [] (told w'.1) = first ++ [last] /\
        wpe (killed_between SimNode.node (Some "s1") first last (life_cluster r.1.2)) (fun r' _ =>
          CanBeKilled r'.1 = true /\ CanBeRemoved r'.1 = false /\
          exists n', r'.2 = put_node (CurrentID SimNode.node) n' (life_cluster r.1.2) /\
            CanBeRemoved n' = true /\ CanBeScheduled n' = false) (unanswered true) e')
      (fun _ _ => True) ex_start.
Proof.
  destruct (wp_total_inv _ _ _ (killed_task_removed (of_ser_roundtrip _) true life_conf SimNode.node
    life_offer life_start eq_refl life_node_ok life_offer_ok life_fits)) as (r & e' & Hr & o1 & task & _ & Hadd & Hlife).
  exists r, e', o1, task. split; [exact Hr|]. split; [exact Hadd|].
  exact (Hlife (Some "s1") (life_cluster r.1.2) 11%nat ex_start (lookup_put_node _ _ _) eq_refl (le_n 11)
    (conj eq_refl (conj eq_refl (conj eq_refl eq_refl)))).
Defined.
End lifecycle_witnesses.
